(** * SwapShikshak: the distance calculator, the match engine, the storage
      and the routes

    A shallow embedding of [server/utils/distance.ts],
    [server/utils/matching.ts], [server/storage.ts] and the teacher, match,
    transfer-request and dashboard routes of [server/routes.ts].

    JavaScript numbers are IEEE-754 binary64 values.  They are modelled by
    Rocq's primitive [float], whose operations are the binary64 operations
    with round-to-nearest-even, so [+], [-], [*], [/], [sqrt] and the
    comparisons below are the ones the engine executes.  The numeric
    functions the language leaves to the host ([Math.sin], [Math.cos],
    [Math.atan2], [parseFloat]) are the fields of a [Host].

    A JavaScript string is a sequence of UTF-16 code units.  It is
    modelled by the Rocq [string] of its bytes in UTF-8, so that equal
    strings are equal and a character of the ASCII range is one byte.
    [toLowerCase] follows the Unicode tables of the host and is a field of
    [Host] too; the white space of a regular expression is a fixed list of
    characters and is spelled out. *)

From Stdlib Require Import ZArith List String Ascii Bool Floats Lia.
From Stdlib Require Import DecimalString.
From Stdlib Require Import Sorted Permutation.
Import ListNotations.

#[local] Set Warnings "-inexact-float".
#[local] Open Scope float_scope.

(* ================================================================= *)
(** ** JavaScript primitives *)

Module Js.

(** The host-provided functions. *)
Record Host : Type := mkHost {
  Math_sin : float -> float;
  Math_cos : float -> float;
  Math_atan2 : float -> float -> float;
  parseFloat : string -> float;
  toLowerCase : string -> string
}.

Definition Math_PI : float := 3.141592653589793.

Definition Math_sqrt (x : float) : float := PrimFloat.sqrt x.

(** The number with integer value [z] (exact when [|z| < 2^53]). *)
Definition ofZ (z : Z) : float :=
  SF2Prim (binary_normalize prec emax z 0 false).

(** [Math.floor]: a number of exponent [e >= 0] is an integer already;
    otherwise the signed mantissa is shifted right by [-e] bits, which
    rounds toward minus infinity.  A negative number never floors to
    zero, so a zero result is [+0]; zeros, infinities and NaN are
    returned unchanged. *)
Definition Math_floor (x : float) : float :=
  match Prim2SF x with
  | S754_finite s m e =>
      if (0 <=? e)%Z then x
      else ofZ (Z.shiftr (cond_Zopp s (Zpos m)) (- e))
  | _ => x
  end.

(** [Math.max] of two numbers: NaN if either is NaN, and [+0] is larger
    than [-0]. *)
Definition Math_max (a b : float) : float :=
  if is_nan a || is_nan b then nan
  else if a <? b then b
  else if b <? a then a
  else if get_sign a then b else a.

(** ToBoolean on a number: [0], [-0] and NaN are falsy. *)
Definition truthyNum (x : float) : bool :=
  negb (is_nan x || is_zero x).

(** A [string | null] operand of [&&]: the string when it is truthy
    (neither [null] nor empty). *)
Definition truthy (x : option string) : option string :=
  match x with
  | Some s => if (s =? "")%string then None else Some s
  | None => None
  end.

(** [Array.prototype.includes] on an array of strings. *)
Definition includes (l : list string) (x : string) : bool :=
  existsb (fun y => (y =? x)%string) l.

(** A string of ASCII characters: every byte is below 128. *)
Fixpoint isAscii (s : string) : bool :=
  match s with
  | EmptyString => true
  | String c s' => (nat_of_ascii c <? 128)%nat && isAscii s'
  end.

(** What [toLowerCase] is on a string of ASCII characters, whatever the
    host: the letters A to Z become a to z.  (Outside ASCII the result
    follows the Unicode tables: the Kelvin sign U+212A becomes [k].) *)
Definition lowerChar (c : ascii) : ascii :=
  let n := nat_of_ascii c in
  if ((65 <=? n) && (n <=? 90))%nat then ascii_of_nat (n + 32) else c.

Fixpoint lowerAscii (s : string) : string :=
  match s with
  | EmptyString => EmptyString
  | String c s' => String (lowerChar c) (lowerAscii s')
  end.

(** The class [\s] of a regular expression: the white space and the line
    terminators of the language, which are the code points U+0009 to
    U+000D, U+0020, U+00A0, U+1680, U+2000 to U+200A, U+2028, U+2029,
    U+202F, U+205F, U+3000 and U+FEFF.  In UTF-8 they take one, two or
    three bytes. *)
Definition space1 (c : ascii) : bool :=
  let n := nat_of_ascii c in
  ((9 <=? n) && (n <=? 13) || (n =? 32))%nat.

(** U+00A0 is [C2 A0]. *)
Definition space2 (c1 c2 : ascii) : bool :=
  ((nat_of_ascii c1 =? 194) && (nat_of_ascii c2 =? 160))%nat.

(** U+1680 is [E1 9A 80]; U+2000 to U+200A are [E2 80 80] to [E2 80 8A];
    U+2028, U+2029 and U+202F are [E2 80 A8], [E2 80 A9] and [E2 80 AF];
    U+205F is [E2 81 9F]; U+3000 is [E3 80 80]; U+FEFF is [EF BB BF]. *)
Definition space3 (c1 c2 c3 : ascii) : bool :=
  let n1 := nat_of_ascii c1 in
  let n2 := nat_of_ascii c2 in
  let n3 := nat_of_ascii c3 in
  ((n1 =? 225) && (n2 =? 154) && (n3 =? 128) ||
   (n1 =? 226) && (n2 =? 128) &&
     ((128 <=? n3) && (n3 <=? 138) || (n3 =? 168) || (n3 =? 169) || (n3 =? 175)) ||
   (n1 =? 226) && (n2 =? 129) && (n3 =? 159) ||
   (n1 =? 227) && (n2 =? 128) && (n3 =? 128) ||
   (n1 =? 239) && (n2 =? 187) && (n3 =? 191))%nat.

(** The number of bytes of the white space character a string starts
    with, 0 when it starts with none. *)
Definition whiteSpaceLength (s : string) : nat :=
  match s with
  | EmptyString => 0
  | String c1 EmptyString => if space1 c1 then 1 else 0
  | String c1 (String c2 EmptyString) =>
      if space1 c1 then 1 else if space2 c1 c2 then 2 else 0
  | String c1 (String c2 (String c3 _)) =>
      if space1 c1 then 1 else if space2 c1 c2 then 2
      else if space3 c1 c2 c3 then 3 else 0
  end.

(** [s.replace(/\s+/g, '_')]: every maximal run of white space becomes
    one underscore.  [skip] counts the bytes left of a white space
    character that has been met; [inRun] tells that the preceding
    character was white space, whose run has its underscore already. *)
Fixpoint replaceFrom (skip : nat) (inRun : bool) (s : string) : string :=
  match s with
  | EmptyString => EmptyString
  | String c s' =>
      match skip with
      | S k => replaceFrom k inRun s'
      | O =>
          match whiteSpaceLength s with
          | O => String c (replaceFrom 0 false s')
          | S k =>
              if inRun then replaceFrom k true s'
              else String "_" (replaceFrom k true s')
          end
      end
  end.

Definition replaceSpaces (s : string) : string := replaceFrom 0 false s.

(** [SortCompare]: a comparator result that is NaN counts as [+0]. *)
Definition SortCompare {A : Type} (comparefn : A -> A -> float) (x y : A) : float :=
  let v := comparefn x y in
  if is_nan v then 0 else v.

(** [Array.prototype.sort] with a comparator.  The language fixes the
    result for a consistent comparator: the stable arrangement in which
    no element is followed by one that compares strictly before it.
    Insertion from the right computes that arrangement: [x] stays in
    front of the elements it does not compare after.  For the comparator
    of [findMatches] on distances that are numbers, lemma [sort_unique]
    shows that no other arrangement is sorted and stable. *)
Fixpoint insert {A : Type} (comparefn : A -> A -> float) (x : A) (l : list A) : list A :=
  match l with
  | [] => [x]
  | y :: l' =>
      if 0 <? SortCompare comparefn x y then y :: insert comparefn x l'
      else x :: l
  end.

Fixpoint sort {A : Type} (comparefn : A -> A -> float) (l : list A) : list A :=
  match l with
  | [] => []
  | x :: l' => insert comparefn x (sort comparefn l')
  end.

End Js.
Import Js.

(* ================================================================= *)
(** ** distance.ts *)

Definition toRadians (degrees : float) : float :=
  degrees * (Math_PI / 180).

Definition haversineDistance (h : Host) (lat1 lon1 lat2 lon2 : float) : float :=
  let R := 6371 in
  let dLat := toRadians (lat2 - lat1) in
  let dLon := toRadians (lon2 - lon1) in
  let a :=
    Math_sin h (dLat / 2) * Math_sin h (dLat / 2) +
    Math_cos h (toRadians lat1) *
      Math_cos h (toRadians lat2) *
      Math_sin h (dLon / 2) *
      Math_sin h (dLon / 2) in
  let c := 2 * Math_atan2 h (Math_sqrt a) (Math_sqrt (1 - a)) in
  R * c.

Record LatLng : Type := mkLatLng { lat : float; lng : float }.

Definition districtCoordinates : list (string * LatLng) :=
  [ ("patna"%string, mkLatLng 25.5941 85.1376);
    ("gaya"%string, mkLatLng 24.7955 85.0002);
    ("muzaffarpur"%string, mkLatLng 26.1209 85.3647);
    ("darbhanga"%string, mkLatLng 26.1542 85.8918);
    ("bhagalpur"%string, mkLatLng 25.2425 86.9842);
    ("saharsa"%string, mkLatLng 25.8781 86.5975);
    ("purnia"%string, mkLatLng 25.7776 87.4753);
    ("katihar"%string, mkLatLng 25.5386 87.5819);
    ("begusarai"%string, mkLatLng 25.4182 86.1272);
    ("samastipur"%string, mkLatLng 25.8538 85.7800);
    ("chapra"%string, mkLatLng 25.7805 84.7477);
    ("sitamarhi"%string, mkLatLng 26.5947 85.4897);
    ("madhubani"%string, mkLatLng 26.3489 86.0644);
    ("supaul"%string, mkLatLng 26.1266 86.6025);
    ("araria"%string, mkLatLng 26.1477 87.5081);
    ("kishanganj"%string, mkLatLng 26.1086 87.9542);
    ("aurangabad"%string, mkLatLng 24.7521 84.3742);
    ("jehanabad"%string, mkLatLng 25.2078 84.9869);
    ("nalanda"%string, mkLatLng 25.1372 85.4441);
    ("nawada"%string, mkLatLng 24.8813 85.5431);
    ("rohtas"%string, mkLatLng 24.9565 84.0134);
    ("buxar"%string, mkLatLng 25.5621 83.9730);
    ("kaimur"%string, mkLatLng 25.0408 83.6122);
    ("gopalganj"%string, mkLatLng 26.4676 84.4358);
    ("siwan"%string, mkLatLng 26.2194 84.3608);
    ("saran"%string, mkLatLng 25.9222 84.7411);
    ("vaishali"%string, mkLatLng 25.7207 85.1303);
    ("east_champaran"%string, mkLatLng 26.6447 84.9259);
    ("west_champaran"%string, mkLatLng 27.2307 84.2595);
    ("sheohar"%string, mkLatLng 26.5189 85.2961);
    ("madhepura"%string, mkLatLng 25.9215 86.7906);
    ("khagaria"%string, mkLatLng 25.5017 86.4751);
    ("munger"%string, mkLatLng 25.3766 86.4731);
    ("lakhisarai"%string, mkLatLng 25.1726 86.0920);
    ("sheikhpura"%string, mkLatLng 25.1394 85.8500);
    ("jamui"%string, mkLatLng 24.9267 86.2264);
    ("banka"%string, mkLatLng 24.8881 86.9219);
    ("arwal"%string, mkLatLng 25.2520 84.6819) ].

(** The table is an object literal, so a property read also reaches
    [Object.prototype].  Of its keys only [constructor] and [__proto__]
    have no capital letter, and [toLowerCase] returns none; both reads
    give an object (truthy) that has no [lat] and no [lng].  Every use the
    engine makes of those two [undefined] fields, arithmetic and
    truthiness, treats [undefined] exactly as NaN. *)
Definition inheritedKeys : list string :=
  [ "constructor"%string; "__proto__"%string ].

Fixpoint lookup (key : string) (table : list (string * LatLng)) : option LatLng :=
  match table with
  | [] => None
  | (k, v) :: rest => if (k =? key)%string then Some v else lookup key rest
  end.

Definition getDistrictCoordinates (h : Host) (district : string) : option LatLng :=
  let normalized := replaceSpaces (toLowerCase h district) in
  match lookup normalized districtCoordinates with
  | Some c => Some c
  | None =>
      if includes inheritedKeys normalized then Some (mkLatLng nan nan)
      else None
  end.


(* ================================================================= *)
(** ** matching.ts *)

(** Modelled from the spec: the declaration of [TeacherWithUser] (in
    [shared/schema]) is not part of the sources at hand.  The record has
    the fields the engine reads, typed as the engine uses them:
    coordinates are [string | null] (they are tested for truthiness and
    handed to [parseFloat]); [maxDistance] is the number the engine
    assumes present ([maxDistance!]). *)
Record TeacherWithUser : Type := mkTeacher {
  id : Z;
  isActive : bool;
  gradeLevel : string;
  currentDistrict : string;
  currentLatitude : option string;
  currentLongitude : option string;
  currentSchoolLatitude : option string;
  currentSchoolLongitude : option string;
  homeDistrict : string;
  homeLatitude : option string;
  homeLongitude : option string;
  preferredDistricts : list string;
  preferredLocationLatitude : option string;
  preferredLocationLongitude : option string;
  maxDistance : float
}.

Inductive MatchType : Type := perfect | nearby.

Record MatchResult : Type := mkMatch {
  teacher : TeacherWithUser;
  matchType : MatchType;
  distance : float;
  score : float
}.

(** The object [{ distance, score }] returned by [checkNearbyMatch]. *)
Record NearbyMatch : Type := mkNearby {
  nearbyDistance : float;
  nearbyScore : float
}.

Definition isPerfect (t : MatchType) : bool :=
  match t with perfect => true | nearby => false end.

Definition checkPerfectMatch (teacher1 teacher2 : TeacherWithUser) : bool :=
  let teacher1WantsTeacher2District :=
    includes (preferredDistricts teacher1) (currentDistrict teacher2) in
  let teacher2WantsTeacher1District :=
    includes (preferredDistricts teacher2) (currentDistrict teacher1) in
  let sameGradeLevel := (gradeLevel teacher1 =? gradeLevel teacher2)%string in
  teacher1WantsTeacher2District && teacher2WantsTeacher1District && sameGradeLevel.

Definition calculateDistance (h : Host) (teacher1 teacher2 : TeacherWithUser) : float :=
  match truthy (currentLatitude teacher1), truthy (currentLongitude teacher1),
        truthy (currentLatitude teacher2), truthy (currentLongitude teacher2) with
  | Some la1, Some lo1, Some la2, Some lo2 =>
      haversineDistance h (parseFloat h la1) (parseFloat h lo1)
                          (parseFloat h la2) (parseFloat h lo2)
  | _, _, _, _ =>
      (* Fallback to district coordinates *)
      match getDistrictCoordinates h (currentDistrict teacher1),
            getDistrictCoordinates h (currentDistrict teacher2) with
      | Some coords1, Some coords2 =>
          haversineDistance h (lat coords1) (lng coords1) (lat coords2) (lng coords2)
      | _, _ => 0
      end
  end.

Definition calculateDistanceToHome (h : Host) (t : TeacherWithUser) : float :=
  match truthy (currentLatitude t), truthy (currentLongitude t),
        truthy (homeLatitude t), truthy (homeLongitude t) with
  | Some cla, Some clo, Some hla, Some hlo =>
      haversineDistance h (parseFloat h cla) (parseFloat h clo)
                          (parseFloat h hla) (parseFloat h hlo)
  | _, _, _, _ =>
      (* Fallback to district coordinates *)
      match getDistrictCoordinates h (currentDistrict t),
            getDistrictCoordinates h (homeDistrict t) with
      | Some currentCoords, Some homeCoords =>
          haversineDistance h (lat currentCoords) (lng currentCoords)
                              (lat homeCoords) (lng homeCoords)
      | _, _ => 0
      end
  end.

(** The pair [(teacherLat, teacherLng)] after the first [if] chain of
    [calculateDistanceFromTeacherToHome]; the two variables are assigned
    together, and stay [undefined] ([None]) when the district is unknown. *)
Definition teacherLocation (h : Host) (t : TeacherWithUser) : option float * option float :=
  match truthy (currentSchoolLatitude t), truthy (currentSchoolLongitude t) with
  | Some la, Some lo => (Some (parseFloat h la), Some (parseFloat h lo))
  | _, _ =>
      match truthy (currentLatitude t), truthy (currentLongitude t) with
      | Some la, Some lo => (Some (parseFloat h la), Some (parseFloat h lo))
      | _, _ =>
          match getDistrictCoordinates h (currentDistrict t) with
          | Some teacherCoords => (Some (lat teacherCoords), Some (lng teacherCoords))
          | None => (None, None)
          end
      end
  end.

(** The pair [(homeLat, homeLng)] after the second [if] chain. *)
Definition homeLocation (h : Host) (homeTeacher : TeacherWithUser) : option float * option float :=
  match truthy (homeLatitude homeTeacher), truthy (homeLongitude homeTeacher) with
  | Some la, Some lo => (Some (parseFloat h la), Some (parseFloat h lo))
  | _, _ =>
      match truthy (preferredLocationLatitude homeTeacher),
            truthy (preferredLocationLongitude homeTeacher) with
      | Some la, Some lo => (Some (parseFloat h la), Some (parseFloat h lo))
      | _, _ =>
          match getDistrictCoordinates h (homeDistrict homeTeacher) with
          | Some homeCoords => (Some (lat homeCoords), Some (lng homeCoords))
          | None => (None, None)
          end
      end
  end.

Definition calculateDistanceFromTeacherToHome (h : Host)
    (t homeTeacher : TeacherWithUser) : float :=
  let '(teacherLat, teacherLng) := teacherLocation h t in
  let '(homeLat, homeLng) := homeLocation h homeTeacher in
  match teacherLat, teacherLng, homeLat, homeLng with
  | Some tla, Some tlo, Some hla, Some hlo =>
      if truthyNum tla && truthyNum tlo && truthyNum hla && truthyNum hlo
      then haversineDistance h tla tlo hla hlo
      else 0
  | _, _, _, _ => 0
  end.

Definition checkNearbyMatch (h : Host)
    (currentTeacher otherTeacher : TeacherWithUser) : option NearbyMatch :=
  if negb (gradeLevel currentTeacher =? gradeLevel otherTeacher)%string then None
  else
    let currentTeacherCurrentToHome := calculateDistanceToHome h currentTeacher in
    let otherTeacherToCurrentHome :=
      calculateDistanceFromTeacherToHome h otherTeacher currentTeacher in
    if (otherTeacherToCurrentHome <? currentTeacherCurrentToHome) &&
       (otherTeacherToCurrentHome <=? maxDistance currentTeacher)
    then
      let score := Math_max 0 (100 - Math_floor (otherTeacherToCurrentHome / 10)) in
      Some (mkNearby otherTeacherToCurrentHome score)
    else None.

(** The comparator handed to [sort] by [findMatches]. *)
Definition comparefn (a b : MatchResult) : float :=
  if isPerfect (matchType a) && negb (isPerfect (matchType b)) then -1
  else if negb (isPerfect (matchType a)) && isPerfect (matchType b) then 1
  else distance a - distance b.

(** The [for] loop of [findMatches]: the array [matches] it leaves, in
    push order. *)
Fixpoint collectMatches (h : Host) (currentTeacher : TeacherWithUser)
    (allTeachers : list TeacherWithUser) : list MatchResult :=
  match allTeachers with
  | [] => []
  | t :: rest =>
      if (id t =? id currentTeacher)%Z || negb (isActive t)
      then collectMatches h currentTeacher rest
      else if checkPerfectMatch currentTeacher t
      then mkMatch t perfect (calculateDistance h currentTeacher t) 100
             :: collectMatches h currentTeacher rest
      else
        match checkNearbyMatch h currentTeacher t with
        | Some nearbyMatch =>
            mkMatch t nearby (nearbyDistance nearbyMatch) (nearbyScore nearbyMatch)
              :: collectMatches h currentTeacher rest
        | None => collectMatches h currentTeacher rest
        end
  end.

Definition findMatches (h : Host) (currentTeacher : TeacherWithUser)
    (allTeachers : list TeacherWithUser) : list MatchResult :=
  sort comparefn (collectMatches h currentTeacher allTeachers).

(* ================================================================= *)
(** ** A first-order host

    A concrete host on which the engine runs, with the leading terms for
    small angles in place of the trigonometric functions: [x] for [sin x],
    [1] for [cos x] and [y / |x|] for [atan2 y x]; [parseFloat] reads a
    decimal literal without exponent after blanks of one byte, and
    [toLowerCase] is the lower-casing of ASCII.  It is used to evaluate
    the engine on concrete profiles and to show that the assumptions made
    on hosts below can be met. *)

Module FirstOrder.

Definition digitOf (c : ascii) : option Z :=
  let n := nat_of_ascii c in
  if ((48 <=? n) && (n <=? 57))%nat then Some (Z.of_nat (n - 48)) else None.

(** Reads a run of decimal digits: the accumulated value, the number of
    digits read, and the rest of the string. *)
Fixpoint readDigits (s : string) (acc : Z) (count : nat) : Z * nat * string :=
  match s with
  | EmptyString => (acc, count, s)
  | String c s' =>
      match digitOf c with
      | Some d => readDigits s' (10 * acc + d) (S count)
      | None => (acc, count, s)
      end
  end.

Fixpoint skipSpaces (s : string) : string :=
  match s with
  | EmptyString => s
  | String c s' => if space1 c then skipSpaces s' else s
  end.

Definition parseFloat (s : string) : float :=
  let s := skipSpaces s in
  let '(negative, s) :=
    match s with
    | String "-" s' => (true, s')
    | String "+" s' => (false, s')
    | _ => (false, s)
    end in
  let '(ip, ni, rest) := readDigits s 0 0 in
  let '(fp, nf, _) :=
    match rest with
    | String "." r => readDigits r ip 0
    | _ => (ip, 0%nat, rest)
    end in
  if (ni + nf =? 0)%nat then nan
  else
    let v := ofZ fp / ofZ (10 ^ Z.of_nat nf) in
    if negative then - v else v.

Definition host : Host := {|
  Math_sin := fun x => x;
  Math_cos := fun _ => 1;
  Math_atan2 := fun y x => y / abs x;
  Js.parseFloat := parseFloat;
  toLowerCase := lowerAscii
|}.

End FirstOrder.

(** The first-order host with the values of [sin] and [cos] at the angles
    of two antipodal points, (-7.36, 0) and (7.36, -180): half the
    difference of the latitudes and each latitude are 0.12845623294678266
    in absolute value, half the difference of the longitudes is
    -1.5707963267948966.  The values are those of the functions rounded
    to the nearest binary64 number. *)
Module Tabulated.

Definition sin (x : float) : float :=
  if x =? 0.12845623294678266 then 0.12810324817186947
  else if x =? -0.12845623294678266 then -0.12810324817186947
  else if x =? 1.5707963267948966 then 1
  else if x =? -1.5707963267948966 then -1
  else x.

Definition cos (x : float) : float :=
  if abs x =? 0.12845623294678266 then 0.9917608370004416 else 1.

Definition host : Host := {|
  Math_sin := sin;
  Math_cos := cos;
  Math_atan2 := fun y x => y / abs x;
  Js.parseFloat := FirstOrder.parseFloat;
  toLowerCase := lowerAscii
|}.

End Tabulated.

(* ================================================================= *)
(** ** The order of binary64 values

    Rocq specifies the primitive operations on [spec_float], the
    sign-mantissa-exponent view of a number.  The definitions below measure
    such a number in units of 2^-1074, the least positive binary64 value,
    so that order and exact arithmetic can be read in [Z]. *)

Module B64.

(** The magnitude, in units of 2^-1074; infinity lies above every finite
    number. *)
Definition mag (x : spec_float) : Z :=
  match x with
  | S754_finite _ m e => (Zpos m * 2 ^ (e + 1074))%Z
  | S754_infinity _ => (2 ^ 2100)%Z
  | _ => 0%Z
  end.

Definition sign_of (x : spec_float) : bool :=
  match x with
  | S754_zero s | S754_infinity s | S754_finite s _ _ => s
  | S754_nan => false
  end.

Definition rank (x : spec_float) : Z := cond_Zopp (sign_of x) (mag x).

(** The rank of a number: [x < y] exactly when [Rk x < Rk y], for numbers
    other than NaN (lemma [ltb_Rk]). *)
Definition Rk (x : float) : Z := rank (Prim2SF x).

(** [r] is a rounding of the positive exact value [V] with sign [s]: a
    valid number, neither zero nor NaN, from which no finite number
    separates [V]. *)
Definition rounds_to (s : bool) (V : Z) (r : spec_float) : Prop :=
  valid_binary r = true /\
  ((exists m e, r = S754_finite s m e) \/ r = S754_infinity s) /\
  forall t m e, valid_binary (S754_finite t m e) = true ->
    (V <= mag (S754_finite t m e) -> mag r <= mag (S754_finite t m e))%Z /\
    (mag (S754_finite t m e) <= V -> mag (S754_finite t m e) <= mag r)%Z.

(** The result of an operation whose exact value is [D]: [+0] when [D] is
    zero, a rounding of [D] otherwise. *)
Definition exact_result (D : Z) (r : spec_float) : Prop :=
  if (D =? 0)%Z then r = S754_zero false
  else rounds_to (D <? 0)%Z (Z.abs D) r.

(** Not below zero: every number but the negative finite ones and minus
    infinity (NaN and [-0] included). *)
Definition SFnonneg (x : spec_float) : bool :=
  match x with
  | S754_finite true _ _ | S754_infinity true => false
  | _ => true
  end.

(** A number that is neither NaN nor below zero. *)
Definition proper (x : spec_float) : Prop := x <> S754_nan /\ SFnonneg x = true.

(** Zero or finite. *)
Definition SFfinite (x : spec_float) : bool :=
  match x with
  | S754_zero _ | S754_finite _ _ _ => true
  | _ => false
  end.

End B64.
Import B64.

(* ================================================================= *)
(** ** Vocabulary of the properties *)

(** The candidates for which the loop of [findMatches] pushes a result. *)
Definition emits (h : Host) (currentTeacher t : TeacherWithUser) : bool :=
  negb ((id t =? id currentTeacher)%Z || negb (isActive t)) &&
  (checkPerfectMatch currentTeacher t ||
   match checkNearbyMatch h currentTeacher t with Some _ => true | None => false end).

(** The order the results are returned in: [perfect] before [nearby], and
    by ascending distance within a classification. *)
Definition ordered (a b : MatchResult) : Prop :=
  match matchType a, matchType b with
  | perfect, nearby => True
  | nearby, perfect => False
  | _, _ => (distance a <=? distance b) = true
  end.

(** Equal classification and equal distance. *)
Definition sameKey (a b : MatchResult) : bool :=
  Bool.eqb (isPerfect (matchType a)) (isPerfect (matchType b)) &&
  (distance a =? distance b).

(** A result whose distance is a number. *)
Definition numeric (r : MatchResult) : Prop := is_nan (distance r) = false.

(** The sort key in [Z]: the classification, then the rank of the
    distance. *)
Definition classKey (r : MatchResult) : Z :=
  if isPerfect (matchType r) then 0%Z else 1%Z.

Definition keyLt (a b : MatchResult) : Prop :=
  (classKey a < classKey b)%Z \/
  (classKey a = classKey b /\ (Rk (distance a) < Rk (distance b))%Z).

Definition keyLe (a b : MatchResult) : Prop :=
  (classKey a < classKey b)%Z \/
  (classKey a = classKey b /\ (Rk (distance a) <= Rk (distance b))%Z).

(** A subject profile with its active flag replaced. *)
Definition withIsActive (b : bool) (t : TeacherWithUser) : TeacherWithUser :=
  mkTeacher (id t) b (gradeLevel t) (currentDistrict t)
    (currentLatitude t) (currentLongitude t)
    (currentSchoolLatitude t) (currentSchoolLongitude t)
    (homeDistrict t) (homeLatitude t) (homeLongitude t)
    (preferredDistricts t)
    (preferredLocationLatitude t) (preferredLocationLongitude t)
    (maxDistance t).

(** *** Assumptions on the host

    [Math.atan2], [Math.sin] and [Math.cos] are implementation-approximated;
    the properties below are the ones the proofs use.  The language fixes
    [Math.sin(+0) = +0] and [Math.atan2(+0, x) = +0] for [x > 0]; the
    others hold of every faithful approximation. *)

(** With a first argument that is not negative (sign bit clear, or NaN)
    the angle is not negative. *)
Definition atan2_nonneg (h : Host) : Prop :=
  forall y x, get_sign y = false -> (Math_atan2 h y x <? 0) = false.

Definition sin_odd (h : Host) : Prop :=
  forall x, Math_sin h (- x) = - Math_sin h x.

Definition sin_zero (h : Host) : Prop := Math_sin h 0 = 0.

Definition cos_bounded (h : Host) : Prop :=
  forall x, is_finite x = true -> (abs (Math_cos h x) <=? 1) = true.

Definition atan2_zero (h : Host) : Prop := Math_atan2 h 0 1 = 0.

(** The haversine term [a] of [haversineDistance], which is
    [R * (2 * atan2(sqrt(a), sqrt(1 - a)))]. *)
Definition haversineTerm (h : Host) (lat1 lon1 lat2 lon2 : float) : float :=
  let dLat := toRadians (lat2 - lat1) in
  let dLon := toRadians (lon2 - lon1) in
  Math_sin h (dLat / 2) * Math_sin h (dLat / 2) +
  Math_cos h (toRadians lat1) *
    Math_cos h (toRadians lat2) *
    Math_sin h (dLon / 2) *
    Math_sin h (dLon / 2).

(* ================================================================= *)
(** ** The coordinate resolution of the specification

    Section 4.1 of the specification, in its own words: an endpoint is
    resolved on its own, from its explicit coordinates in order of
    specificity, then from the static table of districts under the
    normalised name; a name that is no key of the table is not found; a
    distance with an unresolved endpoint is 0.  These definitions follow
    the specification; the theorems compare them with the three distance
    functions of the engine. *)

Module Resolution.

Definition Point : Type := (float * float)%type.

(** Explicit coordinates: both strings present and not empty. *)
Definition explicitPoint (h : Host) (la lo : option string) : option Point :=
  match truthy la, truthy lo with
  | Some a, Some b => Some (parseFloat h a, parseFloat h b)
  | _, _ => None
  end.

(** The entry of the static table under the normalised name. *)
Definition districtPoint (h : Host) (district : string) : option Point :=
  match lookup (replaceSpaces (toLowerCase h district)) districtCoordinates with
  | Some c => Some (lat c, lng c)
  | None => None
  end.

(** The first explicit pair that is present, else the district. *)
Fixpoint resolve (h : Host) (explicit : list (option string * option string))
    (district : string) : option Point :=
  match explicit with
  | [] => districtPoint h district
  | (la, lo) :: rest =>
      match explicitPoint h la lo with
      | Some p => Some p
      | None => resolve h rest district
      end
  end.

(** The current location of a party to a direct distance. *)
Definition currentEndpoint (h : Host) (t : TeacherWithUser) : option Point :=
  resolve h [(currentLatitude t, currentLongitude t)] (currentDistrict t).

(** The home location of the subject, for the home-distance leg. *)
Definition homeEndpoint (h : Host) (t : TeacherWithUser) : option Point :=
  resolve h [(homeLatitude t, homeLongitude t)] (homeDistrict t).

(** The location of a candidate: school, then current, then district. *)
Definition candidateEndpoint (h : Host) (t : TeacherWithUser) : option Point :=
  resolve h [(currentSchoolLatitude t, currentSchoolLongitude t);
             (currentLatitude t, currentLongitude t)] (currentDistrict t).

(** The home of the subject as a destination: home, then preferred
    location, then district. *)
Definition destinationEndpoint (h : Host) (t : TeacherWithUser) : option Point :=
  resolve h [(homeLatitude t, homeLongitude t);
             (preferredLocationLatitude t, preferredLocationLongitude t)]
            (homeDistrict t).

(** The distance between two independently resolved endpoints. *)
Definition legDistance (h : Host) (p q : option Point) : float :=
  match p, q with
  | Some (la1, lo1), Some (la2, lo2) => haversineDistance h la1 lo1 la2 lo2
  | _, _ => 0
  end.

(** All four coordinates are numbers other than zero. *)
Definition usable (p q : Point) : bool :=
  truthyNum (fst p) && truthyNum (snd p) && truthyNum (fst q) && truthyNum (snd q).

End Resolution.
Import Resolution.

(** What the lookup of the engine finds for a district name, as a point:
    the entry of the table, or the point without coordinates of an
    inherited property. *)
Definition foundPoint (h : Host) (district : string) : option Point :=
  match getDistrictCoordinates h district with
  | Some c => Some (lat c, lng c)
  | None => None
  end.

(** The district names that read an inherited property of the table:
    their normalised form is [constructor] or [__proto__]. *)
Definition readsInherited (h : Host) (district : string) : bool :=
  includes inheritedKeys (replaceSpaces (toLowerCase h district)).

(* ================================================================= *)
(** ** Sample profiles *)

Module Sample.

(** U+00A0 and U+3000, in UTF-8. *)
Definition noBreakSpace : string :=
  String "194"%char (String "160"%char EmptyString).

Definition ideographicSpace : string :=
  String "227"%char (String "128"%char (String "128"%char EmptyString)).

(** A profile without precise coordinates, with the default maximum
    distance of 100. *)
Definition profile (i : Z) (active : bool) (grade current home : string)
    (preferred : list string) : TeacherWithUser :=
  mkTeacher i active grade current None None None None home None None
    preferred None None 100.

(** The same profile with precise current coordinates. *)
Definition located (la lo : string) (t : TeacherWithUser) : TeacherWithUser :=
  mkTeacher (id t) (isActive t) (gradeLevel t) (currentDistrict t)
    (Some la) (Some lo)
    (currentSchoolLatitude t) (currentSchoolLongitude t)
    (homeDistrict t) (homeLatitude t) (homeLongitude t)
    (preferredDistricts t)
    (preferredLocationLatitude t) (preferredLocationLongitude t)
    (maxDistance t).

(** Posted in Patna, at home in Gaya, wishing to move to Gaya. *)
Definition subject : TeacherWithUser :=
  profile 1 true "primary" "patna" "gaya" ["gaya"%string].

(** Posted in Gaya and wishing to move to Patna: a mutual swap. *)
Definition partner : TeacherWithUser :=
  profile 2 true "primary" "gaya" "patna" ["patna"%string].

(** Posted in Nalanda, closer to Gaya than Patna is; no mutual interest. *)
Definition neighbour : TeacherWithUser :=
  profile 3 true "primary" "nalanda" "nawada" ["nawada"%string].

(** A swap partner whose profile is inactive. *)
Definition inactive : TeacherWithUser :=
  profile 4 false "primary" "gaya" "patna" ["patna"%string].

Definition subjectLocated : TeacherWithUser :=
  located "25.5941" "85.1376" subject.

(** A swap partner whose stored coordinates are not numerals. *)
Definition partnerUnparsed : TeacherWithUser :=
  located "n/a" "n/a" (profile 5 true "primary" "gaya" "patna" ["patna"%string]).

Definition partnerLocated : TeacherWithUser :=
  located "24.7955" "85.0002" (profile 6 true "primary" "gaya" "patna" ["patna"%string]).

(** Posted in the home district. *)
Definition atHome : TeacherWithUser :=
  profile 8 true "primary" "gaya" "gaya" ["patna"%string].

Definition roster : list TeacherWithUser :=
  [subject; neighbour; inactive; partner].

(** No coordinates, in a district the table does not know. *)
Definition unplaced : TeacherWithUser :=
  profile 9 true "primary" "nowhere" "nowhere" ["gaya"%string].

(** Precise coordinates, in a district the table does not know. *)
Definition surveyed : TeacherWithUser :=
  located "25.5941" "85.1376" (profile 7 true "primary" "nowhere" "gaya" ["gaya"%string]).

(** Posted in Patna; the home has precise coordinates (those of Gaya) and
    a district the table does not know. *)
Definition homeSurveyed : TeacherWithUser :=
  mkTeacher 11 true "primary" "patna" None None None None
    "nowhere" (Some "24.7955"%string) (Some "85.0002"%string)
    ["gaya"%string] None None 100.

(** A district whose name reads an inherited property of the table: a
    teacher posted there who wishes to move to Patna, and a teacher in
    Patna who wishes to move there. *)
Definition inheritedPartner : TeacherWithUser :=
  profile 10 true "primary" "Constructor" "patna" ["patna"%string].

Definition inheritedSubject : TeacherWithUser :=
  profile 1 true "primary" "patna" "gaya" ["Constructor"%string].

(** Two swap partners with precise coordinates a quarter of the globe
    apart. *)
Definition atOrigin : TeacherWithUser :=
  located "0" "0" (profile 12 true "primary" "patna" "gaya" ["gaya"%string]).

Definition farAway : TeacherWithUser :=
  located "90" "90" (profile 13 true "primary" "gaya" "patna" ["patna"%string]).

(** Two swap partners at antipodal points. *)
Definition south : TeacherWithUser :=
  located "-7.36" "0" (profile 14 true "primary" "patna" "gaya" ["gaya"%string]).

Definition north : TeacherWithUser :=
  located "7.36" "-180" (profile 15 true "primary" "gaya" "patna" ["patna"%string]).

End Sample.

(* ================================================================= *)
(** ** More of the JavaScript environment *)

(** [Map<number, V>]: the entries in insertion order.  The keys are
    numbers that hold integers; [set] on a key that is present replaces
    the value in place, [set] on a new key appends the entry. *)
Module JsMap.

Definition t (V : Type) : Type := list (Z * V).

Fixpoint get {V : Type} (key : Z) (m : t V) : option V :=
  match m with
  | [] => None
  | (k, v) :: rest => if (k =? key)%Z then Some v else get key rest
  end.

Fixpoint set {V : Type} (key : Z) (value : V) (m : t V) : t V :=
  match m with
  | [] => [(key, value)]
  | (k, v) :: rest =>
      if (k =? key)%Z then (k, value) :: rest
      else (k, v) :: set key value rest
  end.

Fixpoint delete {V : Type} (key : Z) (m : t V) : t V :=
  match m with
  | [] => []
  | (k, v) :: rest =>
      if (k =? key)%Z then rest else (k, v) :: delete key rest
  end.

(** [Array.from(m.values())]. *)
Definition values {V : Type} (m : t V) : list V := map snd m.

Definition keys {V : Type} (m : t V) : list Z := map fst m.

End JsMap.

(** [n++] on a counter that holds an integer: the sum is exact below
    2^53, where [n + 1] rounds back to [n]. *)
Definition increment (n : Z) : Z :=
  if (n <? 2 ^ 53)%Z then (n + 1)%Z else n.

(** A [Date]: milliseconds since the epoch.  Every [new Date()] of the
    source is an argument of the function that executes it. *)
Definition Date : Type := Z.

(** The functions on numbers and strings that the routes take from the
    host. *)
Record Runtime : Type := mkRuntime {
  parseInt : string -> float;
  Number_toString : float -> string
}.

(** [x || d] on an optional number: [d] replaces [undefined], [0], [-0]
    and NaN. *)
Definition orNumber (x : option float) (d : float) : float :=
  match x with
  | Some v => if truthyNum v then v else d
  | None => d
  end.

(** [x ?? d] on an optional boolean. *)
Definition orElse (x : option bool) (d : bool) : bool :=
  match x with
  | Some b => b
  | None => d
  end.

(** [x || d] on an optional string. *)
Definition orString (x : option string) (d : string) : string :=
  match truthy x with
  | Some s => s
  | None => d
  end.

(** [String.prototype.includes]. *)
Fixpoint stringIncludes (s sub : string) : bool :=
  prefix sub s ||
  match s with
  | EmptyString => false
  | String _ s' => stringIncludes s' sub
  end.

(** The integer a number holds, if it holds one: the key under which a
    [Map] with integer keys may have it. *)
Definition integerOf (x : float) : option Z :=
  match Prim2SF x with
  | S754_zero _ => Some 0%Z
  | S754_finite s m e =>
      if (0 <=? e)%Z then Some (cond_Zopp s (Zpos m * 2 ^ e))
      else if (Zpos m mod 2 ^ (- e) =? 0)%Z
      then Some (cond_Zopp s (Zpos m / 2 ^ (- e)))
      else None
  | _ => None
  end.

(** [callback] applied to the elements in turn, as [Array.prototype.map]
    does, until one application throws ([None]). *)
Fixpoint mapThrowing {A B : Type} (callback : A -> option B) (l : list A) : option (list B) :=
  match l with
  | [] => Some []
  | x :: rest =>
      match callback x with
      | None => None
      | Some y =>
          match mapThrowing callback rest with
          | None => None
          | Some ys => Some (y :: ys)
          end
      end
  end.

(* ================================================================= *)
(** ** storage.ts *)

(** Modelled from the spec: the declarations of [User], [Teacher],
    [TransferRequest], [Match] and of the insert types (in
    [shared/schema]) are not part of the sources at hand.  The records
    below have the fields [MemStorage] writes and reads, typed as it uses
    them: a field that [createTeacher] defaults with [||] or [??] is
    optional in the insert type. *)
Module User.
Record t : Type := mk {
  id : Z;
  email : string;
  password : string;
  createdAt : Date
}.
End User.

Module InsertUser.
Record t : Type := mk {
  email : string;
  password : string
}.
End InsertUser.

Module Teacher.
Record t : Type := mk {
  id : Z;
  userId : Z;
  name : string;
  subjects : option (list string);
  gradeLevel : string;
  phoneNumber : string;
  currentSchool : string;
  currentSchoolAddress : option string;
  currentDistrict : string;
  currentLatitude : option string;
  currentLongitude : option string;
  currentSchoolLatitude : option string;
  currentSchoolLongitude : option string;
  homeDistrict : string;
  homeLatitude : option string;
  homeLongitude : option string;
  preferredDistricts : list string;
  preferredLocationLatitude : option string;
  preferredLocationLongitude : option string;
  maxDistance : float;
  hideContact : bool;
  allowRequests : bool;
  emailNotifications : bool;
  experience : float;
  isActive : bool;
  createdAt : Date;
  updatedAt : Date
}.
End Teacher.

(** [InsertTeacherWithUserId]. *)
Module InsertTeacher.
Record t : Type := mk {
  userId : Z;
  name : string;
  subjects : option (list string);
  gradeLevel : string;
  phoneNumber : string;
  currentSchool : string;
  currentSchoolAddress : option string;
  currentDistrict : string;
  currentLatitude : option string;
  currentLongitude : option string;
  currentSchoolLatitude : option string;
  currentSchoolLongitude : option string;
  homeDistrict : string;
  homeLatitude : option string;
  homeLongitude : option string;
  preferredDistricts : list string;
  preferredLocationLatitude : option string;
  preferredLocationLongitude : option string;
  maxDistance : option float;
  hideContact : option bool;
  allowRequests : option bool;
  emailNotifications : option bool;
  experience : option float;
  isActive : option bool
}.
End InsertTeacher.

(** The object spread over the stored teacher by [updateTeacher]:
    [None] for a key that is absent, so that the spread leaves the stored
    field as it is.  Its type is [Partial<InsertTeacher>], but
    [PUT /api/teachers/:id] hands over the body of the request as it
    comes, so the keys [id], [userId] and [createdAt] of the stored record
    can be present too (here with values of the types of those fields).
    A key [updatedAt] is overwritten, and a key that names no stored field
    changes nothing that is read. *)
Module TeacherUpdates.
Record t : Type := mk {
  id : option Z;
  userId : option Z;
  createdAt : option Date;
  name : option string;
  subjects : option (option (list string));
  gradeLevel : option string;
  phoneNumber : option string;
  currentSchool : option string;
  currentSchoolAddress : option (option string);
  currentDistrict : option string;
  currentLatitude : option (option string);
  currentLongitude : option (option string);
  currentSchoolLatitude : option (option string);
  currentSchoolLongitude : option (option string);
  homeDistrict : option string;
  homeLatitude : option (option string);
  homeLongitude : option (option string);
  preferredDistricts : option (list string);
  preferredLocationLatitude : option (option string);
  preferredLocationLongitude : option (option string);
  maxDistance : option float;
  hideContact : option bool;
  allowRequests : option bool;
  emailNotifications : option bool;
  experience : option float;
  isActive : option bool
}.

(** No key at all. *)
Definition none : t :=
  mk None None None None None None None None None None None None None None None
     None None None None None None None None None None None.

End TeacherUpdates.

Module TransferRequest.
Record t : Type := mk {
  id : Z;
  fromTeacherId : Z;
  toTeacherId : Z;
  status : string;
  message : option string;
  createdAt : Date;
  updatedAt : Date
}.
End TransferRequest.

Module InsertTransferRequest.
Record t : Type := mk {
  fromTeacherId : Z;
  toTeacherId : Z;
  status : option string;
  message : option string
}.
End InsertTransferRequest.

(** A stored [Match]. *)
Module StoredMatch.
Record t : Type := mk {
  id : Z;
  teacher1Id : Z;
  teacher2Id : Z;
  matchType : string;
  distance : option string;
  score : float;
  createdAt : Date
}.
End StoredMatch.

(** [{ ...teacher, user }]; [user] is [undefined] when no user has the
    teacher's [userId]. *)
Record TeacherAndUser : Type := mkTeacherAndUser {
  theTeacher : Teacher.t;
  user : option User.t
}.

Record TransferRequestWithTeachers : Type := mkTransferRequestWithTeachers {
  request : TransferRequest.t;
  fromTeacher : TeacherAndUser;
  toTeacher : TeacherAndUser
}.

Record MatchWithTeachers : Type := mkMatchWithTeachers {
  storedMatch : StoredMatch.t;
  teacher1 : TeacherAndUser;
  teacher2 : TeacherAndUser
}.

(** The state of a [MemStorage]. *)
Record MemStorage : Type := mkMemStorage {
  users : JsMap.t User.t;
  teachers : JsMap.t Teacher.t;
  transferRequests : JsMap.t TransferRequest.t;
  matches : JsMap.t StoredMatch.t;
  currentUserId : Z;
  currentTeacherId : Z;
  currentRequestId : Z;
  currentMatchId : Z
}.

(** [new MemStorage()]. *)
Definition newMemStorage : MemStorage :=
  mkMemStorage [] [] [] [] 1 1 1 1.

(** [createUser], from the point where [bcrypt.hash] has resolved to
    [hashedPassword]. *)
Definition createUser (st : MemStorage) (insertUser : InsertUser.t)
    (hashedPassword : string) (createdAt : Date) : MemStorage * User.t :=
  let user :=
    User.mk (currentUserId st) (InsertUser.email insertUser) hashedPassword createdAt in
  (mkMemStorage (JsMap.set (User.id user) user (users st)) (teachers st)
     (transferRequests st) (matches st)
     (increment (currentUserId st)) (currentTeacherId st)
     (currentRequestId st) (currentMatchId st),
   user).

Definition getUserByEmail (st : MemStorage) (email : string) : option User.t :=
  find (fun user => (User.email user =? email)%string) (JsMap.values (users st)).

Definition getUserById (st : MemStorage) (id : Z) : option User.t :=
  JsMap.get id (users st).

Definition createTeacher (st : MemStorage) (insertTeacher : InsertTeacher.t)
    (createdAt updatedAt : Date) : MemStorage * Teacher.t :=
  let teacher :=
    Teacher.mk
      (currentTeacherId st)
      (InsertTeacher.userId insertTeacher)
      (InsertTeacher.name insertTeacher)
      (InsertTeacher.subjects insertTeacher)
      (InsertTeacher.gradeLevel insertTeacher)
      (InsertTeacher.phoneNumber insertTeacher)
      (InsertTeacher.currentSchool insertTeacher)
      (truthy (InsertTeacher.currentSchoolAddress insertTeacher))
      (InsertTeacher.currentDistrict insertTeacher)
      (truthy (InsertTeacher.currentLatitude insertTeacher))
      (truthy (InsertTeacher.currentLongitude insertTeacher))
      (truthy (InsertTeacher.currentSchoolLatitude insertTeacher))
      (truthy (InsertTeacher.currentSchoolLongitude insertTeacher))
      (InsertTeacher.homeDistrict insertTeacher)
      (truthy (InsertTeacher.homeLatitude insertTeacher))
      (truthy (InsertTeacher.homeLongitude insertTeacher))
      (InsertTeacher.preferredDistricts insertTeacher)
      (truthy (InsertTeacher.preferredLocationLatitude insertTeacher))
      (truthy (InsertTeacher.preferredLocationLongitude insertTeacher))
      (orNumber (InsertTeacher.maxDistance insertTeacher) 100)
      (orElse (InsertTeacher.hideContact insertTeacher) true)
      (orElse (InsertTeacher.allowRequests insertTeacher) true)
      (orElse (InsertTeacher.emailNotifications insertTeacher) true)
      (orNumber (InsertTeacher.experience insertTeacher) 0)
      (orElse (InsertTeacher.isActive insertTeacher) true)
      createdAt
      updatedAt in
  (mkMemStorage (users st) (JsMap.set (Teacher.id teacher) teacher (teachers st))
     (transferRequests st) (matches st)
     (currentUserId st) (increment (currentTeacherId st))
     (currentRequestId st) (currentMatchId st),
   teacher).

Definition getTeacherByUserId (st : MemStorage) (userId : Z) : option Teacher.t :=
  find (fun teacher => (Teacher.userId teacher =? userId)%Z) (JsMap.values (teachers st)).

Definition getTeacherById (st : MemStorage) (id : Z) : option Teacher.t :=
  JsMap.get id (teachers st).

(** One key of the spread [...updates]. *)
Definition spread {A : Type} (stored : A) (update : option A) : A :=
  match update with
  | Some v => v
  | None => stored
  end.

(** [{ ...teacher, ...updates, updatedAt: new Date() }]. *)
Definition applyUpdates (teacher : Teacher.t) (updates : TeacherUpdates.t)
    (updatedAt : Date) : Teacher.t :=
  Teacher.mk
    (spread (Teacher.id teacher) (TeacherUpdates.id updates))
    (spread (Teacher.userId teacher) (TeacherUpdates.userId updates))
    (spread (Teacher.name teacher) (TeacherUpdates.name updates))
    (spread (Teacher.subjects teacher) (TeacherUpdates.subjects updates))
    (spread (Teacher.gradeLevel teacher) (TeacherUpdates.gradeLevel updates))
    (spread (Teacher.phoneNumber teacher) (TeacherUpdates.phoneNumber updates))
    (spread (Teacher.currentSchool teacher) (TeacherUpdates.currentSchool updates))
    (spread (Teacher.currentSchoolAddress teacher) (TeacherUpdates.currentSchoolAddress updates))
    (spread (Teacher.currentDistrict teacher) (TeacherUpdates.currentDistrict updates))
    (spread (Teacher.currentLatitude teacher) (TeacherUpdates.currentLatitude updates))
    (spread (Teacher.currentLongitude teacher) (TeacherUpdates.currentLongitude updates))
    (spread (Teacher.currentSchoolLatitude teacher) (TeacherUpdates.currentSchoolLatitude updates))
    (spread (Teacher.currentSchoolLongitude teacher) (TeacherUpdates.currentSchoolLongitude updates))
    (spread (Teacher.homeDistrict teacher) (TeacherUpdates.homeDistrict updates))
    (spread (Teacher.homeLatitude teacher) (TeacherUpdates.homeLatitude updates))
    (spread (Teacher.homeLongitude teacher) (TeacherUpdates.homeLongitude updates))
    (spread (Teacher.preferredDistricts teacher) (TeacherUpdates.preferredDistricts updates))
    (spread (Teacher.preferredLocationLatitude teacher)
            (TeacherUpdates.preferredLocationLatitude updates))
    (spread (Teacher.preferredLocationLongitude teacher)
            (TeacherUpdates.preferredLocationLongitude updates))
    (spread (Teacher.maxDistance teacher) (TeacherUpdates.maxDistance updates))
    (spread (Teacher.hideContact teacher) (TeacherUpdates.hideContact updates))
    (spread (Teacher.allowRequests teacher) (TeacherUpdates.allowRequests updates))
    (spread (Teacher.emailNotifications teacher) (TeacherUpdates.emailNotifications updates))
    (spread (Teacher.experience teacher) (TeacherUpdates.experience updates))
    (spread (Teacher.isActive teacher) (TeacherUpdates.isActive updates))
    (spread (Teacher.createdAt teacher) (TeacherUpdates.createdAt updates))
    updatedAt.

Definition updateTeacher (st : MemStorage) (id : Z) (updates : TeacherUpdates.t)
    (updatedAt : Date) : MemStorage * option Teacher.t :=
  match JsMap.get id (teachers st) with
  | None => (st, None)
  | Some teacher =>
      let updatedTeacher := applyUpdates teacher updates updatedAt in
      (mkMemStorage (users st) (JsMap.set id updatedTeacher (teachers st))
         (transferRequests st) (matches st)
         (currentUserId st) (currentTeacherId st)
         (currentRequestId st) (currentMatchId st),
       Some updatedTeacher)
  end.

Definition getAllTeachers (st : MemStorage) : list Teacher.t :=
  JsMap.values (teachers st).

(** The fields of a stored teacher that the match engine reads. *)
Definition engineView (teacher : Teacher.t) : TeacherWithUser :=
  mkTeacher
    (Teacher.id teacher)
    (Teacher.isActive teacher)
    (Teacher.gradeLevel teacher)
    (Teacher.currentDistrict teacher)
    (Teacher.currentLatitude teacher)
    (Teacher.currentLongitude teacher)
    (Teacher.currentSchoolLatitude teacher)
    (Teacher.currentSchoolLongitude teacher)
    (Teacher.homeDistrict teacher)
    (Teacher.homeLatitude teacher)
    (Teacher.homeLongitude teacher)
    (Teacher.preferredDistricts teacher)
    (Teacher.preferredLocationLatitude teacher)
    (Teacher.preferredLocationLongitude teacher)
    (Teacher.maxDistance teacher).

(** [{ ...teacher, user }] for the teacher stored under [id]; reading
    [userId] from a teacher that is not stored throws ([None]). *)
Definition withUser (st : MemStorage) (teacher : Teacher.t) : TeacherAndUser :=
  mkTeacherAndUser teacher (JsMap.get (Teacher.userId teacher) (users st)).

(** [getTeachersWithUsers]: the objects [{ ...teacher, user }], and the
    view of them the match engine takes. *)
Definition getTeachersAndUsers (st : MemStorage) : list TeacherAndUser :=
  map (withUser st) (JsMap.values (teachers st)).

Definition getTeachersWithUsers (st : MemStorage) : list TeacherWithUser :=
  map (fun t => engineView (theTeacher t)) (getTeachersAndUsers st).

Definition createTransferRequest (st : MemStorage)
    (insertRequest : InsertTransferRequest.t) (createdAt updatedAt : Date)
    : MemStorage * TransferRequest.t :=
  let request :=
    TransferRequest.mk
      (currentRequestId st)
      (InsertTransferRequest.fromTeacherId insertRequest)
      (InsertTransferRequest.toTeacherId insertRequest)
      (orString (InsertTransferRequest.status insertRequest) "pending")
      (truthy (InsertTransferRequest.message insertRequest))
      createdAt
      updatedAt in
  (mkMemStorage (users st) (teachers st)
     (JsMap.set (TransferRequest.id request) request (transferRequests st)) (matches st)
     (currentUserId st) (currentTeacherId st)
     (increment (currentRequestId st)) (currentMatchId st),
   request).

Definition getTransferRequestById (st : MemStorage) (id : Z) : option TransferRequest.t :=
  JsMap.get id (transferRequests st).

(** The callback that joins a request with its two teachers; the read of
    [userId] throws when a teacher is not stored. *)
Definition joinRequest (st : MemStorage) (request : TransferRequest.t)
    : option TransferRequestWithTeachers :=
  match JsMap.get (TransferRequest.fromTeacherId request) (teachers st),
        JsMap.get (TransferRequest.toTeacherId request) (teachers st) with
  | Some fromTeacher, Some toTeacher =>
      Some (mkTransferRequestWithTeachers request
              (withUser st fromTeacher) (withUser st toTeacher))
  | _, _ => None
  end.

Definition getTransferRequestsForTeacher (st : MemStorage) (teacherId : Z)
    : option (list TransferRequestWithTeachers) :=
  let requests :=
    filter (fun request => (TransferRequest.toTeacherId request =? teacherId)%Z)
           (JsMap.values (transferRequests st)) in
  mapThrowing (joinRequest st) requests.

Definition getTransferRequestsByTeacher (st : MemStorage) (teacherId : Z)
    : option (list TransferRequestWithTeachers) :=
  let requests :=
    filter (fun request => (TransferRequest.fromTeacherId request =? teacherId)%Z)
           (JsMap.values (transferRequests st)) in
  mapThrowing (joinRequest st) requests.

Definition updateTransferRequestStatus (st : MemStorage) (id : Z) (status : string)
    (updatedAt : Date) : MemStorage * option TransferRequest.t :=
  match JsMap.get id (transferRequests st) with
  | None => (st, None)
  | Some request =>
      let updatedRequest :=
        TransferRequest.mk
          (TransferRequest.id request)
          (TransferRequest.fromTeacherId request)
          (TransferRequest.toTeacherId request)
          status
          (TransferRequest.message request)
          (TransferRequest.createdAt request)
          updatedAt in
      (mkMemStorage (users st) (teachers st)
         (JsMap.set id updatedRequest (transferRequests st)) (matches st)
         (currentUserId st) (currentTeacherId st)
         (currentRequestId st) (currentMatchId st),
       Some updatedRequest)
  end.

Definition createMatch (rt : Runtime) (st : MemStorage) (teacher1Id teacher2Id : Z)
    (matchType : string) (distance score : option float) (createdAt : Date)
    : MemStorage * StoredMatch.t :=
  let m :=
    StoredMatch.mk
      (currentMatchId st)
      teacher1Id
      teacher2Id
      matchType
      (truthy (option_map (Number_toString rt) distance))
      (orNumber score 0)
      createdAt in
  (mkMemStorage (users st) (teachers st) (transferRequests st)
     (JsMap.set (StoredMatch.id m) m (matches st))
     (currentUserId st) (currentTeacherId st)
     (currentRequestId st) (increment (currentMatchId st)),
   m).

Definition joinMatch (st : MemStorage) (m : StoredMatch.t) : option MatchWithTeachers :=
  match JsMap.get (StoredMatch.teacher1Id m) (teachers st),
        JsMap.get (StoredMatch.teacher2Id m) (teachers st) with
  | Some teacher1, Some teacher2 =>
      Some (mkMatchWithTeachers m (withUser st teacher1) (withUser st teacher2))
  | _, _ => None
  end.

Definition getMatchesForTeacher (st : MemStorage) (teacherId : Z)
    : option (list MatchWithTeachers) :=
  let selected :=
    filter (fun m => (StoredMatch.teacher1Id m =? teacherId)%Z ||
                     (StoredMatch.teacher2Id m =? teacherId)%Z)
           (JsMap.values (matches st)) in
  mapThrowing (joinMatch st) selected.

Definition deleteMatch (st : MemStorage) (id : Z) : MemStorage :=
  mkMemStorage (users st) (teachers st) (transferRequests st)
    (JsMap.delete id (matches st))
    (currentUserId st) (currentTeacherId st)
    (currentRequestId st) (currentMatchId st).
(* ================================================================= *)
(** ** routes.ts

    The handlers, from the point where [authenticateToken] has set
    [req.user]: [userId] is [req.user.id].  The methods of [MemStorage]
    resolve at once, so a handler runs as one step on the storage.  A
    request body arrives as the value its schema parsed it to, [None] when
    [parse] throws.  [PUT /api/teachers/:id] hands the unparsed body to
    [updateTeacher], whose model takes the keys of a stored teacher with
    values of their types; the route itself has no typed rendering and is
    not modelled, nor are the routes that sign and verify tokens. *)

(** What a handler sends. *)
Inductive Reply (A : Type) : Type :=
| json (payload : A)
| failure (status : Z) (message : string).

Arguments json {A} payload.
Arguments failure {A} status message.

(** The value [insertTeacherSchema] parses a body to: the fields
    [POST /api/teachers] reads. *)
Module TeacherData.
Record t : Type := mk {
  name : string;
  subject : string;
  gradeLevel : string;
  phoneNumber : string;
  currentSchool : string;
  currentDistrict : string;
  currentLatitude : option string;
  currentLongitude : option string;
  homeDistrict : string;
  homeLatitude : option string;
  homeLongitude : option string;
  preferredDistricts : list string;
  maxDistance : option float;
  hideContact : option bool;
  allowRequests : option bool;
  emailNotifications : option bool;
  experience : option float;
  isActive : option bool
}.
End TeacherData.

(** "Add coordinates for districts if not provided": the pair of
    coordinate strings after the [if].  For a district name that finds an
    inherited property, [coords.lat] is [undefined] (NaN in
    [getDistrictCoordinates] above) and [coords.lat.toString()] throws. *)
Definition addCoordinates (h : Host) (rt : Runtime) (latitude longitude : option string)
    (district : string) : option (option string * option string) :=
  match truthy latitude, truthy longitude with
  | Some _, Some _ => Some (latitude, longitude)
  | _, _ =>
      match getDistrictCoordinates h district with
      | Some coords =>
          if is_nan (lat coords) then None
          else Some (Some (Number_toString rt (lat coords)),
                     Some (Number_toString rt (lng coords)))
      | None => Some (latitude, longitude)
      end
  end.

(** [POST /api/teachers]. *)
Definition postTeacher (h : Host) (rt : Runtime) (st : MemStorage) (userId : Z)
    (body : option TeacherData.t) (createdAt updatedAt : Date)
    : MemStorage * Reply Teacher.t :=
  match body with
  | None => (st, failure 400 "Invalid teacher data")
  | Some teacherData =>
      match getTeacherByUserId st userId with
      | Some existingTeacher => (st, failure 400 "Teacher profile already exists")
      | None =>
          match addCoordinates h rt (TeacherData.currentLatitude teacherData)
                  (TeacherData.currentLongitude teacherData)
                  (TeacherData.currentDistrict teacherData) with
          | None => (st, failure 400 "Invalid teacher data")
          | Some (currentLatitude, currentLongitude) =>
              match addCoordinates h rt (TeacherData.homeLatitude teacherData)
                      (TeacherData.homeLongitude teacherData)
                      (TeacherData.homeDistrict teacherData) with
              | None => (st, failure 400 "Invalid teacher data")
              | Some (homeLatitude, homeLongitude) =>
                  let '(st', teacher) :=
                    createTeacher st
                      (InsertTeacher.mk
                         userId
                         (TeacherData.name teacherData)
                         None
                         (TeacherData.gradeLevel teacherData)
                         (TeacherData.phoneNumber teacherData)
                         (TeacherData.currentSchool teacherData)
                         None
                         (TeacherData.currentDistrict teacherData)
                         currentLatitude
                         currentLongitude
                         None
                         None
                         (TeacherData.homeDistrict teacherData)
                         homeLatitude
                         homeLongitude
                         (TeacherData.preferredDistricts teacherData)
                         None
                         None
                         (TeacherData.maxDistance teacherData)
                         (TeacherData.hideContact teacherData)
                         (TeacherData.allowRequests teacherData)
                         (TeacherData.emailNotifications teacherData)
                         (TeacherData.experience teacherData)
                         (TeacherData.isActive teacherData))
                      createdAt updatedAt in
                  (st', json teacher)
              end
          end
      end
  end.

(** [GET /api/teachers/me]. *)
Definition getTeacherMe (st : MemStorage) (userId : Z) : Reply Teacher.t :=
  match getTeacherByUserId st userId with
  | None => failure 404 "Teacher profile not found"
  | Some teacher => json teacher
  end.

(** The query parameters of [GET /api/matches], each absent or given
    once. *)
Module MatchesQuery.
Record t : Type := mk {
  matchType : option string;
  maxDistance : option string;
  subject : option string
}.
End MatchesQuery.

(** The string a classification is in the source. *)
Definition matchTypeString (t : MatchType) : string :=
  match t with
  | perfect => "perfect"
  | nearby => "nearby"
  end.

(** [Array.prototype.filter] with a callback that may throw. *)
Fixpoint filterThrowing {A : Type} (callback : A -> option bool) (l : list A)
    : option (list A) :=
  match l with
  | [] => Some []
  | x :: rest =>
      match callback x with
      | None => None
      | Some keep =>
          match filterThrowing callback rest with
          | None => None
          | Some kept => Some (if keep then x :: kept else kept)
          end
      end
  end.

Definition filterByMatchType (q : option string) (filteredMatches : list MatchResult)
    : list MatchResult :=
  match truthy q with
  | Some requested =>
      if (requested =? "all")%string then filteredMatches
      else filter (fun m => (matchTypeString (matchType m) =? requested)%string)
                  filteredMatches
  | None => filteredMatches
  end.

Definition filterByMaxDistance (rt : Runtime) (q : option string)
    (filteredMatches : list MatchResult) : list MatchResult :=
  match truthy q with
  | Some maxDistance =>
      let maxDist := parseInt rt maxDistance in
      filter (fun m => distance m <=? maxDist) filteredMatches
  | None => filteredMatches
  end.

(** The filter on the taught subject.  [TeacherWithUser] above has the
    fields of the engine only; the field [subject] of a profile is read
    through [subjectOf], [None] where the profile has none and
    [match.teacher.subject.toLowerCase()] throws. *)
Definition filterBySubject (h : Host) (subjectOf : TeacherWithUser -> option string)
    (q : option string) (filteredMatches : list MatchResult) : option (list MatchResult) :=
  match truthy q with
  | Some subject =>
      if (subject =? "all")%string then Some filteredMatches
      else filterThrowing
             (fun m =>
                match subjectOf (teacher m) with
                | Some s => Some (stringIncludes (toLowerCase h s) (toLowerCase h subject))
                | None => None
                end)
             filteredMatches
  | None => Some filteredMatches
  end.

(** The common opening of [GET /api/matches] and
    [GET /api/dashboard/stats]: the teacher of the caller, the roster, and
    the caller's entry in the roster; [None] where the handler answers
    404. *)
Definition currentTeacherWithUser (st : MemStorage) (userId : Z)
    : option (Teacher.t * TeacherWithUser * list TeacherWithUser) :=
  match getTeacherByUserId st userId with
  | None => None
  | Some teacher =>
      let allTeachers := getTeachersWithUsers st in
      match find (fun t => (id t =? Teacher.id teacher)%Z) allTeachers with
      | None => None
      | Some current => Some (teacher, current, allTeachers)
      end
  end.

(** [GET /api/matches]. *)
Definition getMatches (h : Host) (rt : Runtime)
    (subjectOf : TeacherWithUser -> option string)
    (st : MemStorage) (userId : Z) (query : MatchesQuery.t) : Reply (list MatchResult) :=
  match currentTeacherWithUser st userId with
  | None => failure 404 "Teacher profile not found"
  | Some (teacher, current, allTeachers) =>
      let matches := findMatches h current allTeachers in
      let filteredMatches := filterByMatchType (MatchesQuery.matchType query) matches in
      let filteredMatches :=
        filterByMaxDistance rt (MatchesQuery.maxDistance query) filteredMatches in
      match filterBySubject h subjectOf (MatchesQuery.subject query) filteredMatches with
      | Some filteredMatches => json filteredMatches
      | None => failure 500 "Server error"
      end
  end.

(** [POST /api/transfer-requests]; [body] is the value
    [insertTransferRequestSchema] parses the body to. *)
Definition postTransferRequest (st : MemStorage) (userId : Z)
    (body : option InsertTransferRequest.t) (createdAt updatedAt : Date)
    : MemStorage * Reply TransferRequest.t :=
  match getTeacherByUserId st userId with
  | None => (st, failure 404 "Teacher profile not found")
  | Some teacher =>
      match body with
      | None => (st, failure 400 "Invalid request data")
      | Some requestData =>
          match getTransferRequestsByTeacher st (Teacher.id teacher) with
          | None => (st, failure 400 "Invalid request data")
          | Some existingRequests =>
              let alreadyExists :=
                existsb
                  (fun r =>
                     (TransferRequest.toTeacherId (request r) =?
                      InsertTransferRequest.toTeacherId requestData)%Z &&
                     (TransferRequest.status (request r) =? "pending")%string)
                  existingRequests in
              if alreadyExists
              then (st, failure 400 "Request already sent to this teacher")
              else
                let '(st', created) :=
                  createTransferRequest st
                    (InsertTransferRequest.mk
                       (Teacher.id teacher)
                       (InsertTransferRequest.toTeacherId requestData)
                       (InsertTransferRequest.status requestData)
                       (InsertTransferRequest.message requestData))
                    createdAt updatedAt in
                (st', json created)
          end
      end
  end.

(** [GET /api/transfer-requests/received]. *)
Definition getReceivedRequests (st : MemStorage) (userId : Z)
    : Reply (list TransferRequestWithTeachers) :=
  match getTeacherByUserId st userId with
  | None => failure 404 "Teacher profile not found"
  | Some teacher =>
      match getTransferRequestsForTeacher st (Teacher.id teacher) with
      | Some requests => json requests
      | None => failure 500 "Server error"
      end
  end.

(** [GET /api/transfer-requests/sent]. *)
Definition getSentRequests (st : MemStorage) (userId : Z)
    : Reply (list TransferRequestWithTeachers) :=
  match getTeacherByUserId st userId with
  | None => failure 404 "Teacher profile not found"
  | Some teacher =>
      match getTransferRequestsByTeacher st (Teacher.id teacher) with
      | Some requests => json requests
      | None => failure 500 "Server error"
      end
  end.

(** [PUT /api/transfer-requests/:id/status]; [id] is [req.params.id] and
    [status] the string [req.body.status], [None] when it is no string. *)
Definition putRequestStatus (rt : Runtime) (st : MemStorage) (userId : Z)
    (id : string) (status : option string) (updatedAt : Date)
    : MemStorage * Reply (option TransferRequest.t) :=
  match status with
  | None => (st, failure 400 "Invalid status")
  | Some status =>
      if negb (includes ["accepted"; "rejected"]%string status)
      then (st, failure 400 "Invalid status")
      else
        match integerOf (parseInt rt id) with
        | None => (st, failure 404 "Request not found")
        | Some key =>
            match getTransferRequestById st key with
            | None => (st, failure 404 "Request not found")
            | Some request =>
                match getTeacherByUserId st userId with
                | None => (st, failure 403 "Unauthorized")
                | Some teacher =>
                    if negb (TransferRequest.toTeacherId request =? Teacher.id teacher)%Z
                    then (st, failure 403 "Unauthorized")
                    else
                      let '(st', updatedRequest) :=
                        updateTransferRequestStatus st key status updatedAt in
                      (st', json updatedRequest)
                end
            end
        end
  end.

Record DashboardStats : Type := mkDashboardStats {
  totalMatches : nat;
  perfectMatches : nat;
  nearbyTeachers : nat;
  receivedRequests : nat;
  sentRequests : nat;
  pendingRequests : nat
}.

(** [GET /api/dashboard/stats]. *)
Definition getDashboardStats (h : Host) (st : MemStorage) (userId : Z)
    : Reply DashboardStats :=
  match currentTeacherWithUser st userId with
  | None => failure 404 "Teacher profile not found"
  | Some (teacher, current, allTeachers) =>
      let matches := findMatches h current allTeachers in
      let perfectMatches := filter (fun m => isPerfect (matchType m)) matches in
      let nearbyTeachers := filter (fun m => negb (isPerfect (matchType m))) matches in
      match getTransferRequestsForTeacher st (Teacher.id teacher) with
      | None => failure 500 "Server error"
      | Some receivedRequests =>
          match getTransferRequestsByTeacher st (Teacher.id teacher) with
          | None => failure 500 "Server error"
          | Some sentRequests =>
              json (mkDashboardStats
                      (List.length matches)
                      (List.length perfectMatches)
                      (List.length nearbyTeachers)
                      (List.length receivedRequests)
                      (List.length sentRequests)
                      (List.length
                         (filter (fun r => (TransferRequest.status (request r) =? "pending")%string)
                                 receivedRequests)))
          end
      end
  end.

(* ================================================================= *)
(** ** Vocabulary of the storage and route properties *)

(** The entries of a map are in the order of their keys, every key lies
    in [1, counter), and every record is stored under its own id. *)
Definition wellKeyed {V : Type} (idOf : V -> Z) (counter : Z) (m : JsMap.t V) : Prop :=
  (1 <= counter)%Z /\
  StronglySorted Z.lt (JsMap.keys m) /\
  Forall (fun kv => idOf (snd kv) = fst kv /\ (1 <= fst kv < counter)%Z) m.

Definition wellFormed (st : MemStorage) : Prop :=
  wellKeyed User.id (currentUserId st) (users st) /\
  wellKeyed Teacher.id (currentTeacherId st) (teachers st) /\
  wellKeyed TransferRequest.id (currentRequestId st) (transferRequests st) /\
  wellKeyed StoredMatch.id (currentMatchId st) (matches st).

(** The calls that change a [MemStorage]. *)
Inductive Call : Type :=
| callCreateUser (insertUser : InsertUser.t) (hashedPassword : string) (createdAt : Date)
| callCreateTeacher (insertTeacher : InsertTeacher.t) (createdAt updatedAt : Date)
| callUpdateTeacher (id : Z) (updates : TeacherUpdates.t) (updatedAt : Date)
| callCreateTransferRequest (insertRequest : InsertTransferRequest.t)
    (createdAt updatedAt : Date)
| callUpdateTransferRequestStatus (id : Z) (status : string) (updatedAt : Date)
| callCreateMatch (teacher1Id teacher2Id : Z) (matchType : string)
    (distance score : option float) (createdAt : Date)
| callDeleteMatch (id : Z).

Definition perform (rt : Runtime) (st : MemStorage) (c : Call) : MemStorage :=
  match c with
  | callCreateUser insertUser hashedPassword createdAt =>
      fst (createUser st insertUser hashedPassword createdAt)
  | callCreateTeacher insertTeacher createdAt updatedAt =>
      fst (createTeacher st insertTeacher createdAt updatedAt)
  | callUpdateTeacher id updates updatedAt =>
      fst (updateTeacher st id updates updatedAt)
  | callCreateTransferRequest insertRequest createdAt updatedAt =>
      fst (createTransferRequest st insertRequest createdAt updatedAt)
  | callUpdateTransferRequestStatus id status updatedAt =>
      fst (updateTransferRequestStatus st id status updatedAt)
  | callCreateMatch teacher1Id teacher2Id matchType distance score createdAt =>
      fst (createMatch rt st teacher1Id teacher2Id matchType distance score createdAt)
  | callDeleteMatch id => deleteMatch st id
  end.

(** The storage after a sequence of calls on [new MemStorage()]. *)
Definition after (rt : Runtime) (calls : list Call) : MemStorage :=
  fold_left (perform rt) calls newMemStorage.

(** Every counter is at most [b]. *)
Definition countersBelow (b : Z) (st : MemStorage) : Prop :=
  (currentUserId st <= b)%Z /\ (currentTeacherId st <= b)%Z /\
  (currentRequestId st <= b)%Z /\ (currentMatchId st <= b)%Z.

(** What a joined request holds. *)
Definition joined (st : MemStorage) (r : TransferRequest.t) (j : TransferRequestWithTeachers) : Prop :=
  request j = r /\
  getTeacherById st (TransferRequest.fromTeacherId r) = Some (theTeacher (fromTeacher j)) /\
  getTeacherById st (TransferRequest.toTeacherId r) = Some (theTeacher (toTeacher j)) /\
  user (fromTeacher j) = getUserById st (Teacher.userId (theTeacher (fromTeacher j))) /\
  user (toTeacher j) = getUserById st (Teacher.userId (theTeacher (toTeacher j))).

(** The update [{ isActive: false }]. *)
Definition deactivation : TeacherUpdates.t :=
  TeacherUpdates.mk None None None None None None None None None None None None None None
    None None None None None None None None None None None (Some false).

(** A call that cannot move a teacher away from its key: any call but an
    [updateTeacher] whose updates carry an [id] other than the key. *)
Definition keepsId (c : Call) : bool :=
  match c with
  | callUpdateTeacher key updates _ =>
      match TeacherUpdates.id updates with
      | Some i => (i =? key)%Z
      | None => true
      end
  | _ => true
  end.

(** The update [{ id: i }]. *)
Definition renumbering (i : Z) : TeacherUpdates.t :=
  TeacherUpdates.mk (Some i) None None None None None None None None None None None None
    None None None None None None None None None None None None None.

(** The pairs (sender, receiver) of the pending requests. *)
Definition pendingPairs (st : MemStorage) : list (Z * Z) :=
  map (fun r => (TransferRequest.fromTeacherId r, TransferRequest.toTeacherId r))
      (filter (fun r => (TransferRequest.status r =? "pending")%string)
              (JsMap.values (transferRequests st))).

(** No two teachers belong to one user. *)
Definition oneProfilePerUser (st : MemStorage) : Prop :=
  NoDup (map Teacher.userId (getAllTeachers st)).

(** The matches a query asks for: the three conditions of
    [GET /api/matches] on one result. *)
Definition wanted (h : Host) (rt : Runtime) (subjectOf : TeacherWithUser -> option string)
    (query : MatchesQuery.t) (m : MatchResult) : bool :=
  match truthy (MatchesQuery.matchType query) with
  | Some t => (t =? "all")%string || (matchTypeString (matchType m) =? t)%string
  | None => true
  end &&
  match truthy (MatchesQuery.maxDistance query) with
  | Some d => distance m <=? parseInt rt d
  | None => true
  end &&
  match truthy (MatchesQuery.subject query) with
  | Some s =>
      (s =? "all")%string ||
      match subjectOf (teacher m) with
      | Some ts => stringIncludes (toLowerCase h ts) (toLowerCase h s)
      | None => false
      end
  | None => true
  end.

(** No white space is left by [replaceSpaces]: no white space character
    starts at any byte. *)
Fixpoint spaceFree (s : string) : bool :=
  match s with
  | EmptyString => true
  | String c s' => (whiteSpaceLength s =? 0)%nat && spaceFree s'
  end.

(** A host lower-cases ASCII as the language prescribes. *)
Definition lowers_ascii (h : Host) : Prop :=
  forall s, isAscii s = true -> toLowerCase h s = lowerAscii s.

(* ================================================================= *)
(** ** A runtime for decimal numerals

    A concrete [Runtime] on which the routes run in the examples:
    [parseInt] reads a decimal numeral, and [Number_toString] prints the
    exact decimal expansion of a number (a host prints the shortest numeral
    that reads back as the number). *)

Module Decimal.

Definition parseInt (s : string) : float :=
  let s := FirstOrder.skipSpaces s in
  let '(negative, s) :=
    match s with
    | String "-" s' => (true, s')
    | String "+" s' => (false, s')
    | _ => (false, s)
    end in
  let '(n, count, _) := FirstOrder.readDigits s 0 0 in
  if (count =? 0)%nat then nan
  else if negative then - ofZ n else ofZ n.

Definition digits (z : Z) : string := NilZero.string_of_int (Z.to_int z).

Fixpoint zeros (n : nat) : string :=
  match n with
  | O => EmptyString
  | S n' => String "0" (zeros n')
  end.

Fixpoint trimZeros (s : string) : string :=
  match s with
  | EmptyString => EmptyString
  | String c s' =>
      let t := trimZeros s' in
      if (c =? "0")%char && (t =? "")%string then EmptyString else String c t
  end.

Definition Number_toString (x : float) : string :=
  match Prim2SF x with
  | S754_zero _ => "0"
  | S754_nan => "NaN"
  | S754_infinity s => if s then "-Infinity" else "Infinity"
  | S754_finite s m e =>
      let sign := if s then "-"%string else EmptyString in
      if (0 <=? e)%Z then sign ++ digits (Zpos m * 2 ^ e)
      else
        let scaled := (Zpos m * 5 ^ (- e))%Z in
        let unit := (10 ^ (- e))%Z in
        let fraction := digits (scaled mod unit) in
        let decimals :=
          trimZeros (zeros (Z.to_nat (- e) - String.length fraction) ++ fraction) in
        if (decimals =? "")%string then sign ++ digits (scaled / unit)
        else sign ++ digits (scaled / unit) ++ "." ++ decimals
  end.

Definition runtime : Runtime := mkRuntime parseInt Number_toString.

End Decimal.

(* ================================================================= *)
(** ** A sample storage *)

Module SampleStore.

Definition insertTeacher (userId : Z) (name grade current home : string)
    (preferred : list string) : InsertTeacher.t :=
  InsertTeacher.mk userId name None grade "0000000000" "school" None
    current None None None None home None None preferred None None
    None None None None None None.

(** Three users; a teacher for each, as in [Sample]; a request from the
    first teacher to the second, one from the third to the first, and a
    stored match. *)
Definition calls : list Call :=
  [ callCreateUser (InsertUser.mk "asha@example.org" "secret") "$2a$10$asha" 1000%Z;
    callCreateUser (InsertUser.mk "bina@example.org" "secret") "$2a$10$bina" 1001%Z;
    callCreateUser (InsertUser.mk "chand@example.org" "secret") "$2a$10$chand" 1002%Z;
    callCreateTeacher (insertTeacher 1 "Asha" "primary" "patna" "gaya" ["gaya"%string])
      2000%Z 2000%Z;
    callCreateTeacher (insertTeacher 2 "Bina" "primary" "gaya" "patna" ["patna"%string])
      2001%Z 2001%Z;
    callCreateTeacher (insertTeacher 3 "Chand" "primary" "nalanda" "nawada" ["nawada"%string])
      2002%Z 2002%Z;
    callCreateTransferRequest (InsertTransferRequest.mk 1 2 None (Some "swap?"%string))
      3000%Z 3000%Z;
    callCreateTransferRequest (InsertTransferRequest.mk 3 1 None None) 3001%Z 3001%Z;
    callCreateMatch 1 2 "perfect" (Some 90) (Some 100) 4000%Z ].

Definition store : MemStorage := after Decimal.runtime calls.

(** The first teacher has also sent a request to a teacher that does not
    exist. *)
Definition dangling : MemStorage :=
  fst (postTransferRequest store 1 (Some (InsertTransferRequest.mk 0 99 None None))
         3002%Z 3002%Z).

(** A body for [POST /api/teachers]: no coordinates, districts of the
    table. *)
Definition teacherData : TeacherData.t :=
  TeacherData.mk "Deepa" "maths" "primary" "0000000000" "school"
    "Patna" None None "East Champaran" None None ["gaya"%string]
    None None None None None None.

(** No profile has a [subject]. *)
Definition noSubject (t : TeacherWithUser) : option string := None.

(** A fourth teacher, posted in Gaya like the second and wishing to move
    to Patna too. *)
Definition tiedCalls : list Call :=
  calls ++
  [ callCreateUser (InsertUser.mk "deepa@example.org" "secret") "$2a$10$deepa" 1003%Z;
    callCreateTeacher (insertTeacher 4 "Deepa" "primary" "gaya" "patna" ["patna"%string])
      2003%Z 2003%Z ].

Definition tied : MemStorage := after Decimal.runtime tiedCalls.

(** The second teacher is given the id 99 by an update. *)
Definition renumbered : MemStorage :=
  after Decimal.runtime (calls ++ [callUpdateTeacher 2 (renumbering 99) 7000%Z]).

End SampleStore.


(* ================================================================= *)
(** ** Vocabulary of the rounding properties *)

(** The round and sticky bits of a record place the exact value [N / D]
    between the mantissa of the record and the next integer: on the
    mantissa, below the midpoint, on it or above it. *)
Definition placed (r : shr_record) (N D : Z) : Prop :=
  (0 <= shr_m r)%Z /\
  exists rho, (N = shr_m r * D + rho)%Z /\ (0 <= rho < D)%Z /\
    loc_of_shr_record r =
    if (rho =? 0)%Z then loc_Exact else loc_Inexact (2 * rho ?= D)%Z.

(** The magnitudes, in units of 2^-1074, that a finite result can have:
    zero and the magnitudes of the valid finite numbers. *)
Definition representable (u : Z) : Prop :=
  u = 0%Z \/
  exists t m e, valid_binary (S754_finite t m e) = true /\ u = mag (S754_finite t m e).

(** The number just below [10 * j] has the mantissa of [10 * j] less one,
    and its quotient by ten is below [j]. *)
Definition tensChecked (j : Z) : bool :=
  let y := ofZ (10 * j) in
  let p := next_down y in
  match Prim2SF y, Prim2SF p with
  | S754_finite false M e, S754_finite false M' e' =>
      (2 ^ 52 <=? Zpos M')%Z && (Zpos M' + 1 =? Zpos M)%Z && (e' =? e)%Z &&
      (p / 10 <? ofZ j)
  | _, _ => false
  end.

(* ================================================================= *)
(** ** A roster with two nearby matches *)

Module SampleScores.

(** Posted in Jehanabad, 46 km from Gaya; no mutual interest. *)
Definition commuter : TeacherWithUser :=
  Sample.profile 5 true "primary" "jehanabad" "arwal" ["arwal"%string].

Definition roster : list TeacherWithUser := Sample.roster ++ [commuter].

Definition results : list MatchResult :=
  findMatches FirstOrder.host Sample.subject roster.

Definition fallback : MatchResult := mkMatch Sample.subject nearby 0 0.

(** The two nearby results: the commuter, then the neighbour. *)
Definition nearer : MatchResult := nth 1 results fallback.
Definition farther : MatchResult := nth 2 results fallback.

End SampleScores.

(* ================================================================= *)
(** ** A roster with ties *)

Module SampleOrder.

(** Posted in Patna, at home in Gaya, wishing to move to Gaya or to
    Nalanda. *)
Definition subject : TeacherWithUser :=
  Sample.profile 1 true "primary" "patna" "gaya" ["gaya"; "nalanda"]%string.

(** Three swap partners, two of them in Gaya, and three teachers who are
    nearer to Gaya than Patna is, two of them in Jehanabad. *)
Definition roster : list TeacherWithUser :=
  [ Sample.profile 2 true "primary" "gaya" "patna" ["patna"%string];
    Sample.profile 3 true "primary" "nawada" "arwal" ["arwal"%string];
    Sample.profile 4 true "primary" "jehanabad" "arwal" ["arwal"%string];
    Sample.profile 5 true "primary" "nalanda" "patna" ["patna"%string];
    Sample.profile 6 true "primary" "gaya" "patna" ["patna"%string];
    Sample.profile 7 true "primary" "jehanabad" "arwal" ["arwal"%string] ].

Definition results : list MatchResult :=
  findMatches FirstOrder.host subject roster.

(** The result for the first partner in Gaya, and the result for the
    first teacher in Jehanabad. *)
Definition inGaya : MatchResult :=
  mkMatch (Sample.profile 2 true "primary" "gaya" "patna" ["patna"%string]) perfect
    (calculateDistance FirstOrder.host subject
       (Sample.profile 2 true "primary" "gaya" "patna" ["patna"%string])) 100.

Definition inJehanabad : MatchResult :=
  nth 3 results (mkMatch subject nearby 0 0).

End SampleOrder.

(* ================================================================= *)
(** * Properties *)

(* ================================================================= *)
(** ** The embedding on examples *)

(** Runs of white space of one, two and three bytes. *)
Example white_space_replaced :
  replaceSpaces "East  Champaran" = "East_Champaran"%string /\
  replaceSpaces ("East" ++ Sample.noBreakSpace ++ " Champaran") = "East_Champaran"%string /\
  replaceSpaces ("West" ++ Sample.ideographicSpace ++ "Champaran ") =
    "West_Champaran_"%string /\
  replaceSpaces " " = "_"%string.
Proof. repeat split. Qed.

Example lookup_is_normalised :
  getDistrictCoordinates FirstOrder.host "Patna" = Some (mkLatLng 25.5941 85.1376) /\
  getDistrictCoordinates FirstOrder.host "patna" = Some (mkLatLng 25.5941 85.1376) /\
  getDistrictCoordinates FirstOrder.host "East  Champaran" =
    getDistrictCoordinates FirstOrder.host "east_champaran" /\
  getDistrictCoordinates FirstOrder.host ("east" ++ Sample.noBreakSpace ++ "champaran") =
    Some (mkLatLng 26.6447 84.9259) /\
  getDistrictCoordinates FirstOrder.host "nowhere" = None /\
  getDistrictCoordinates FirstOrder.host "Constructor" = Some (mkLatLng nan nan).
Proof. repeat split. Qed.

Example floor_values :
  map Math_floor [9.5; 0.5; -0.5; -3.2; 100; 4.5e15; -0; infinity] =
  [9; 0; -1; -4; 100; 4.5e15; -0; infinity].
Proof. reflexivity. Qed.

Example max_of_zeros : Math_max 0 (-0) = 0 /\ Math_max (-0) 0 = 0 /\ Math_max 0 nan = nan.
Proof. repeat split. Qed.

(** The scenario of the specification: mutual preference and equal grade
    level give a perfect match of score 100. *)
Example scenario_perfect_match :
  map (fun r => (id (teacher r), matchType r, score r))
      (findMatches FirstOrder.host Sample.subject [Sample.partner]) =
  [(2%Z, perfect, 100)].
Proof. reflexivity. Qed.

(** The engine on the sample roster: the swap partner first, then the
    neighbour, whose 62 km to Gaya are less than the subject's 90 km. *)
Example sample_roster_matches :
  map (fun r => (id (teacher r), matchType r, Math_floor (distance r), score r))
      (findMatches FirstOrder.host Sample.subject Sample.roster) =
  [(2%Z, perfect, 90, 100); (3%Z, nearby, 62, 94)].
Proof. vm_compute. reflexivity. Qed.

(** Membership in the preferred districts is not normalised. *)
Example preferred_district_is_exact :
  checkPerfectMatch
    (Sample.profile 1 true "primary" "patna" "gaya" ["Gaya"%string]) Sample.partner = false.
Proof. reflexivity. Qed.


(* ================================================================= *)
(** ** Binary64 arithmetic *)

Section Binary64Facts.
#[local] Open Scope Z_scope.

Lemma digits2_bounds (p : positive) :
  2 ^ (Zpos (digits2_pos p) - 1) <= Zpos p < 2 ^ Zpos (digits2_pos p).
Proof.
  induction p as [p IH | p IH | ]; cbn [digits2_pos].
  - rewrite Pos2Z.inj_succ.
    replace (Z.succ (Z.pos (digits2_pos p)) - 1) with (Z.succ (Z.pos (digits2_pos p) - 1)) by lia.
    rewrite !Z.pow_succ_r by lia. lia.
  - rewrite Pos2Z.inj_succ.
    replace (Z.succ (Z.pos (digits2_pos p)) - 1) with (Z.succ (Z.pos (digits2_pos p) - 1)) by lia.
    rewrite !Z.pow_succ_r by lia. lia.
  - cbn. lia.
Qed.

(* digits is characterised by the bracket *)
Lemma digits2_unique (p : positive) (d : Z) :
  2 ^ (d - 1) <= Zpos p < 2 ^ d -> Zpos (digits2_pos p) = d.
Proof.
  intros [Hlo Hhi].
  pose proof (digits2_bounds p) as [Blo Bhi].
  assert (0 < d).
  { destruct (Z.ltb_spec 0 d) as [|Hd]; auto.
    destruct (Z.eq_dec d 0) as [->|]; [cbn in Hhi; lia|].
    rewrite Z.pow_neg_r in Hhi by lia. lia. }
  destruct (Z.lt_trichotomy (Zpos (digits2_pos p)) d) as [Hlt | [Heq | Hgt]]; auto.
  - assert (2 ^ Zpos (digits2_pos p) <= 2 ^ (d - 1)) by (apply Z.pow_le_mono_r; lia). lia.
  - assert (2 ^ d <= 2 ^ (Zpos (digits2_pos p) - 1)) by (apply Z.pow_le_mono_r; lia). lia.
Qed.

Lemma iter_xO_val (d : positive) (m : positive) :
  Zpos (Pos.iter xO m d) = Zpos m * 2 ^ Zpos d.
Proof.
  revert m. induction d using Pos.peano_ind; intros m.
  - cbn. lia.
  - rewrite Pos.iter_succ. rewrite Pos2Z.inj_xO, IHd, Pos2Z.inj_succ, Z.pow_succ_r by lia. lia.
Qed.

Lemma shr_1_m (r : shr_record) :
  0 <= shr_m r -> shr_m (shr_1 r) = shr_m r / 2.
Proof.
  destruct r as [m r s]; cbn [shr_m]. intros Hm.
  destruct m as [ | [p|p| ] | p ]; cbn; try lia.
  - rewrite Pos2Z.inj_xI. apply Z.div_unique with 1; lia.
  - rewrite Pos2Z.inj_xO. apply Z.div_unique with 0; lia.
Qed.

Lemma shr_1_r (r : shr_record) :
  0 <= shr_m r -> shr_r (shr_1 r) = true -> shr_m r mod 2 = 1.
Proof.
  destruct r as [m r s]; cbn [shr_m]. intros Hm.
  destruct m as [ | [p|p| ] | p ]; cbn; try lia; try discriminate; intros _.
  rewrite Pos2Z.inj_xI. symmetry. apply Z.mod_unique with (Zpos p); lia.
Qed.

Lemma iter_pos_succ {A} (f : A -> A) (p : positive) (x : A) :
  iter_pos f (Pos.succ p) x = f (iter_pos f p x).
Proof.
  assert (Hc : forall q y, iter_pos f q (f y) = f (iter_pos f q y)).
  { induction q; intros y; cbn; rewrite ?IHq; reflexivity. }
  revert x. induction p; intros x; cbn.
  - rewrite !IHp, !Hc. reflexivity.
  - rewrite !Hc. reflexivity.
  - reflexivity.
Qed.

Lemma iter_shr_m (p : positive) (r : shr_record) :
  0 <= shr_m r -> shr_m (iter_pos shr_1 p r) = shr_m r / 2 ^ Zpos p.
Proof.
  intros Hm. induction p using Pos.peano_ind.
  - cbn [iter_pos]. rewrite shr_1_m by auto. reflexivity.
  - rewrite iter_pos_succ, shr_1_m, IHp.
    + rewrite Pos2Z.inj_succ, Z.pow_succ_r by lia.
      rewrite Z.div_div by lia. f_equal. lia.
    + rewrite IHp. apply Z.div_pos; lia.
Qed.

(* a set round bit witnesses a non-zero remainder *)
Lemma iter_shr_r (p : positive) (r : shr_record) :
  0 <= shr_m r -> shr_r (iter_pos shr_1 p r) = true -> shr_m r mod 2 ^ Zpos p <> 0.
Proof.
  intros Hm. induction p using Pos.peano_ind.
  - cbn [iter_pos]. intros H. apply shr_1_r in H; auto. change (2 ^ 1) with 2. lia.
  - rewrite iter_pos_succ. intros H. apply shr_1_r in H.
    + rewrite iter_shr_m in H by auto.
      rewrite Pos2Z.inj_succ, Z.pow_succ_r by lia.
      intros Hz.
      assert (Hd : shr_m r = 2 * 2 ^ Z.pos p * (shr_m r / (2 * 2 ^ Z.pos p))).
      { pose proof (Z.div_mod (shr_m r) (2 * 2 ^ Z.pos p)). lia. }
      set (q := shr_m r / (2 * 2 ^ Z.pos p)) in *.
      assert (shr_m r / 2 ^ Z.pos p = 2 * q).
      { rewrite Hd at 1. replace (2 * 2 ^ Z.pos p * q) with ((2 * q) * 2 ^ Z.pos p) by lia.
        apply Z.div_mul. lia. }
      rewrite H0 in H. rewrite Z.mul_comm, Z.mod_mul in H; lia.
    + rewrite iter_shr_m by auto. apply Z.div_pos; lia.
Qed.




Lemma fexp_eq (z : Z) : fexp prec emax z = Z.max (z - 53) (-1074).
Proof. reflexivity. Qed.

Lemma shr_record_m (m : Z) (l : location) : shr_m (shr_record_of_loc m l) = m.
Proof. destruct l as [ | [ | | ] ]; reflexivity. Qed.

(** A mantissa already at its canonical exponent is not shifted. *)
Lemma shr_fexp_canonical (m : positive) (e : Z) (l : location) :
  fexp prec emax (Zpos (digits2_pos m) + e) = e ->
  shr_fexp prec emax (Zpos m) e l = (shr_record_of_loc (Zpos m) l, e).
Proof.
  intros H. unfold shr_fexp. cbn [Zdigits2]. rewrite H, Z.sub_diag. reflexivity.
Qed.

Lemma binary_round_aux_canonical (s : bool) (m : positive) (e : Z) :
  fexp prec emax (Zpos (digits2_pos m) + e) = e ->
  binary_round_aux prec emax s (Zpos m) e loc_Exact =
  if e <=? 971 then S754_finite s m e else S754_infinity s.
Proof.
  intros H. unfold binary_round_aux.
  rewrite shr_fexp_canonical by exact H. cbn [shr_record_of_loc shr_m loc_of_shr_record round_nearest_even].
  rewrite shr_fexp_canonical by exact H. reflexivity.
Qed.

Lemma digits2_shift (p : positive) (k : positive) :
  digits2_pos (Pos.iter xO p k) = (digits2_pos p + k)%positive.
Proof.
  induction k using Pos.peano_ind.
  - cbn. lia.
  - rewrite Pos.iter_succ. cbn [digits2_pos]. rewrite IHk. lia.
Qed.

(** Valid finite numbers: the mantissa has at most 53 bits, exactly 53
    above the least exponent. *)
Lemma valid_finite (s : bool) (m : positive) (e : Z) :
  valid_binary (S754_finite s m e) = true ->
  -1074 <= e <= 971 /\ Zpos (digits2_pos m) <= 53 /\
  (-1074 < e -> Zpos (digits2_pos m) = 53).
Proof.
  unfold valid_binary, SpecFloat.valid_binary, bounded, canonical_mantissa.
  rewrite andb_true_iff, Z.eqb_eq, Z.leb_le, fexp_eq.
  change (emax - prec) with 971. lia.
Qed.

Lemma valid_finite_intro (s : bool) (m : positive) (e : Z) :
  -1074 <= e <= 971 -> Zpos (digits2_pos m) <= 53 ->
  (-1074 < e -> Zpos (digits2_pos m) = 53) ->
  valid_binary (S754_finite s m e) = true.
Proof.
  unfold valid_binary, SpecFloat.valid_binary, bounded, canonical_mantissa.
  rewrite andb_true_iff, Z.eqb_eq, Z.leb_le, fexp_eq.
  change (emax - prec) with 971. lia.
Qed.

Lemma mag_finite_lt (s : bool) (m : positive) (e : Z) :
  valid_binary (S754_finite s m e) = true ->
  0 < mag (S754_finite s m e) < 2 ^ 2098.
Proof.
  intros Hv. apply valid_finite in Hv. destruct Hv as (He & Hd & _).
  cbn [mag]. pose proof (digits2_bounds m) as [_ Hm].
  assert (2 ^ Zpos (digits2_pos m) <= 2 ^ 53) by (apply Z.pow_le_mono_r; lia).
  assert (0 < 2 ^ (e + 1074)) by (apply Z.pow_pos_nonneg; lia).
  assert (2 ^ (e + 1074) <= 2 ^ 2045) by (apply Z.pow_le_mono_r; lia).
  split; [lia|].
  replace (2 ^ 2098) with (2 ^ 53 * 2 ^ 2045) by (rewrite <- Z.pow_add_r by lia; reflexivity).
  apply Z.le_lt_trans with (Zpos m * 2 ^ 2045); [nia|].
  apply Z.mul_lt_mono_pos_r; lia.
Qed.


Lemma shr_fexp_shift (m : positive) (e : Z) (l : location) :
  53 < Zpos (digits2_pos m) -> -1074 <= e ->
  shr_fexp prec emax (Zpos m) e l =
  (iter_pos shr_1 (Z.to_pos (Zpos (digits2_pos m) - 53)) (shr_record_of_loc (Zpos m) l),
   e + (Zpos (digits2_pos m) - 53)).
Proof.
  intros Hd He. unfold shr_fexp. cbn [Zdigits2]. rewrite fexp_eq.
  replace (Z.max (Z.pos (digits2_pos m) + e - 53) (-1074) - e)
    with (Zpos (digits2_pos m) - 53) by lia.
  destruct (Zpos (digits2_pos m) - 53) eqn:E; try lia. reflexivity.
Qed.

Lemma rne_cases (r : shr_record) :
  let m2 := round_nearest_even (shr_m r) (loc_of_shr_record r) in
  m2 = shr_m r \/ (m2 = shr_m r + 1 /\ shr_r r = true).
Proof.
  destruct r as [m [|] [|]]; cbn; auto.
  destruct (Z.even m); auto.
Qed.

(** Between two neighbours of the grid of step [G] no valid number lies. *)
Lemma grid_bracket (e1 m1 V U : Z) (t : bool) (m : positive) (e : Z) :
  -1074 <= e1 -> 2 ^ 52 <= m1 ->
  m1 * 2 ^ (e1 + 1074) <= V < (m1 + 1) * 2 ^ (e1 + 1074) ->
  U = m1 * 2 ^ (e1 + 1074) \/
    (U = (m1 + 1) * 2 ^ (e1 + 1074) /\ m1 * 2 ^ (e1 + 1074) < V) ->
  valid_binary (S754_finite t m e) = true ->
  (V <= mag (S754_finite t m e) -> U <= mag (S754_finite t m e)) /\
  (mag (S754_finite t m e) <= V -> mag (S754_finite t m e) <= U).
Proof.
  intros He1 Hm1 HV HU Hv.
  apply valid_finite in Hv. destruct Hv as (He & Hd & _).
  cbn [mag]. set (G := 2 ^ (e1 + 1074)) in *.
  assert (HG : 0 < G) by (apply Z.pow_pos_nonneg; lia).
  destruct (Z.le_gt_cases e1 e) as [Hle | Hlt].
  - replace (2 ^ (e + 1074)) with (2 ^ (e - e1) * G)
      by (unfold G; rewrite <- Z.pow_add_r by lia; f_equal; lia).
    assert (0 < 2 ^ (e - e1)) by (apply Z.pow_pos_nonneg; lia).
    set (k := Zpos m * 2 ^ (e - e1)).
    replace (Zpos m * (2 ^ (e - e1) * G)) with (k * G) by (unfold k; ring).
    split; intros HN.
    + destruct HU as [-> | [-> Hs]]; [lia|].
      assert (m1 < k) by nia. nia.
    + assert (k < m1 + 1) by nia.
      destruct HU as [-> | [-> Hs]]; nia.
  - pose proof (digits2_bounds m) as [_ Hm].
    assert (2 ^ Zpos (digits2_pos m) <= 2 ^ 53) by (apply Z.pow_le_mono_r; lia).
    assert (0 < 2 ^ (e + 1074)) by (apply Z.pow_pos_nonneg; lia).
    assert (HGe : 2 * 2 ^ (e + 1074) <= G).
    { unfold G. rewrite <- Z.pow_succ_r by lia. apply Z.pow_le_mono_r; lia. }
    assert (Hlt' : Zpos m * 2 ^ (e + 1074) < m1 * G).
    { apply Z.lt_le_trans with (2 ^ 53 * 2 ^ (e + 1074)).
      - apply Z.mul_lt_mono_pos_r; lia.
      - change (2 ^ 53) with (2 ^ 52 * 2). 
        apply Z.le_trans with (2 ^ 52 * G); [nia|].
        apply Z.mul_le_mono_nonneg_r; lia. }
    split; intros HN; [lia|].
    destruct HU as [-> | [-> Hs]]; nia.
Qed.

(** Packaging: a canonical mantissa and exponent whose value brackets [V]. *)
Lemma rounds_to_intro (s : bool) (V : Z) (m : positive) (e : Z) :
  -1074 <= e ->
  fexp prec emax (Zpos (digits2_pos m) + e) = e ->
  (forall t m' e', valid_binary (S754_finite t m' e') = true ->
     (V <= mag (S754_finite t m' e') -> Zpos m * 2 ^ (e + 1074) <= mag (S754_finite t m' e')) /\
     (mag (S754_finite t m' e') <= V -> mag (S754_finite t m' e') <= Zpos m * 2 ^ (e + 1074))) ->
  rounds_to s V (if e <=? 971 then S754_finite s m e else S754_infinity s).
Proof.
  intros He Hc Hb. rewrite fexp_eq in Hc.
  destruct (Z.leb_spec e 971) as [Hle | Hgt].
  - split; [|split].
    + apply valid_finite_intro; lia.
    + left; eauto.
    + intros t m' e' Hv. cbn [mag]. apply (Hb t m' e' Hv).
  - split; [reflexivity | split; [right; reflexivity|]].
    intros t m' e' Hv. pose proof (mag_finite_lt _ _ _ Hv) as [_ Hlt].
    destruct (Hb t m' e' Hv) as [H1 H2].
    assert (Hbig : 2 ^ 2098 <= Zpos m * 2 ^ (e + 1074)).
    { pose proof (digits2_bounds m) as [Hm _].
      replace (Zpos (digits2_pos m) - 1) with 52 in Hm by lia.
      replace (2 ^ 2098) with (2 ^ 52 * 2 ^ 2046) by (rewrite <- Z.pow_add_r by lia; reflexivity).
      assert (2 ^ 2046 <= 2 ^ (e + 1074)) by (apply Z.pow_le_mono_r; lia).
      assert (0 < 2 ^ 2046) by (apply Z.pow_pos_nonneg; lia).
      nia. }
    cbn [mag] in *. split; intros HN.
    + specialize (H1 HN). lia.
    + assert (2 ^ 2098 <= 2 ^ 2100) by (apply Z.pow_le_mono_r; lia). lia.
Qed.

(** Rounding a mantissa of at most 53 bits is exact. *)
Lemma binary_round_small (s : bool) (p : positive) (e : Z) :
  -1074 <= e -> Zpos (digits2_pos p) <= 53 ->
  rounds_to s (Zpos p * 2 ^ (e + 1074)) (binary_round prec emax s p e).
Proof.
  intros He Hd. unfold binary_round, shl_align. rewrite fexp_eq.
  set (d := Zpos (digits2_pos p)) in *.
  destruct (Z.max (d + e - 53) (-1074) - e) as [ | k | k ] eqn:E; try lia.
  - rewrite binary_round_aux_canonical by (rewrite fexp_eq; fold d; lia).
    apply rounds_to_intro; [lia | rewrite fexp_eq; fold d; lia | ].
    intros; lia.
  - rewrite binary_round_aux_canonical
      by (rewrite digits2_shift, fexp_eq, Pos2Z.inj_add; fold d; lia).
    assert (Hval : Zpos (Pos.iter xO p k) * 2 ^ (Z.max (d + e - 53) (-1074) + 1074)
                   = Zpos p * 2 ^ (e + 1074)).
    { rewrite iter_xO_val, <- Z.mul_assoc, <- Z.pow_add_r by lia. do 2 f_equal. lia. }
    apply rounds_to_intro; [lia | rewrite digits2_shift, fexp_eq, Pos2Z.inj_add; fold d; lia | ].
    intros. rewrite Hval. lia.
Qed.

Lemma binary_round_large (s : bool) (p : positive) (e : Z) :
  -1074 <= e -> 53 < Zpos (digits2_pos p) ->
  rounds_to s (Zpos p * 2 ^ (e + 1074)) (binary_round prec emax s p e).
Proof.
  intros He Hd. unfold binary_round, shl_align. rewrite fexp_eq.
  set (d := Zpos (digits2_pos p)) in *.
  destruct (Z.max (d + e - 53) (-1074) - e) as [ | k | k ] eqn:E; try lia.
  clear E k.
  unfold binary_round_aux. rewrite shr_fexp_shift by (fold d; lia). fold d.
  set (n := d - 53) in *. set (e1 := e + n).
  set (R1 := iter_pos shr_1 (Z.to_pos n) (shr_record_of_loc (Z.pos p) loc_Exact)).
  assert (Hn : Zpos (Z.to_pos n) = n) by (apply Z2Pos.id; lia).
  assert (Hp2 : 0 < 2 ^ n) by (apply Z.pow_pos_nonneg; lia).
  pose proof (digits2_bounds p) as [Hplo Hphi]. fold d in Hplo, Hphi.
  assert (Hm1 : shr_m R1 = Zpos p / 2 ^ n).
  { unfold R1. rewrite iter_shr_m by (cbn; lia). rewrite Hn. reflexivity. }
  set (m1 := shr_m R1) in *.
  assert (Hdm : Zpos p = 2 ^ n * m1 + Zpos p mod 2 ^ n)
    by (rewrite Hm1; apply Z.div_mod; lia).
  pose proof (Z.mod_pos_bound (Zpos p) (2 ^ n) Hp2) as Hrem.
  assert (Hm1lo : 2 ^ 52 <= m1).
  { rewrite Hm1. apply Z.div_le_lower_bound; [lia|].
    rewrite <- Z.pow_add_r by lia. replace (n + 52) with (d - 1) by lia. exact Hplo. }
  assert (Hm1hi : m1 < 2 ^ 53).
  { rewrite Hm1. apply Z.div_lt_upper_bound; [lia|].
    rewrite <- Z.pow_add_r by lia. replace (n + 53) with d by lia. exact Hphi. }
  assert (HG : 2 ^ (e + 1074) * 2 ^ n = 2 ^ (e1 + 1074)).
  { rewrite <- Z.pow_add_r by lia. f_equal. unfold e1. lia. }
  assert (HGp : 0 < 2 ^ (e + 1074)) by (apply Z.pow_pos_nonneg; lia).
  set (V := Zpos p * 2 ^ (e + 1074)).
  assert (HV : m1 * 2 ^ (e1 + 1074) <= V < (m1 + 1) * 2 ^ (e1 + 1074)).
  { rewrite <- HG. unfold V. split; nia. }
  pose proof (rne_cases R1) as Hrne. cbv zeta in Hrne. fold m1 in Hrne.
  set (m2 := round_nearest_even m1 (loc_of_shr_record R1)) in *.
  assert (HU : m2 * 2 ^ (e1 + 1074) = m1 * 2 ^ (e1 + 1074) \/
               (m2 * 2 ^ (e1 + 1074) = (m1 + 1) * 2 ^ (e1 + 1074) /\
                m1 * 2 ^ (e1 + 1074) < V)).
  { destruct Hrne as [-> | [-> Hr]]; [left; reflexivity | right; split; [reflexivity|]].
    unfold R1 in Hr. apply iter_shr_r in Hr; [|cbn; lia].
    rewrite Hn in Hr. cbn [shr_record_of_loc shr_m] in Hr.
    rewrite <- HG. unfold V. nia. }
  assert (Hbr : forall t m' e', valid_binary (S754_finite t m' e') = true ->
     (V <= mag (S754_finite t m' e') -> m2 * 2 ^ (e1 + 1074) <= mag (S754_finite t m' e')) /\
     (mag (S754_finite t m' e') <= V -> mag (S754_finite t m' e') <= m2 * 2 ^ (e1 + 1074))).
  { intros t m' e' Hv. apply (grid_bracket e1 m1 V _ t m' e'); auto. unfold e1; lia. }
  assert (Hm2 : m2 = m1 \/ m2 = m1 + 1) by (destruct Hrne as [? | [? _]]; auto).
  destruct (Z.eq_dec m2 (2 ^ 53)) as [Hcarry | Hnc].
  - (* the carry: one more shift *)
    rewrite Hcarry in *. 
    replace (shr_fexp prec emax (2 ^ 53) e1 loc_Exact)
      with ({| shr_m := 2 ^ 52; shr_r := false; shr_s := false |}, e1 + 1).
    2:{ unfold shr_fexp. change (Zdigits2 (2 ^ 53)) with 54. rewrite fexp_eq.
        replace (Z.max (54 + e1 - 53) (-1074) - e1) with 1 by (unfold e1; lia).
        reflexivity. }
    cbn [shr_m]. change (2 ^ 52) with (Zpos (Z.to_pos (2 ^ 52))).
    change (emax - prec) with 971.
    replace (2 ^ 53 * 2 ^ (e1 + 1074)) with (Zpos (Z.to_pos (2 ^ 52)) * 2 ^ (e1 + 1 + 1074)) in Hbr.
    2:{ replace (e1 + 1 + 1074) with (Z.succ (e1 + 1074)) by lia.
        rewrite Z.pow_succ_r by (unfold e1; lia). 
        change (Zpos (Z.to_pos (2 ^ 52))) with (2 ^ 52). change (2 ^ 53) with (2 ^ 52 * 2). ring. }
    apply rounds_to_intro; [unfold e1; lia | | exact Hbr].
    rewrite fexp_eq. change (Zpos (digits2_pos (Z.to_pos (2 ^ 52)))) with 53. unfold e1; lia.
  - assert (Hpos : 0 < m2) by lia.
    destruct m2 as [ | q | q ] eqn:Em2; try lia.
    assert (Hdq : Zpos (digits2_pos q) = 53) by (apply digits2_unique; lia).
    rewrite shr_fexp_canonical by (rewrite fexp_eq, Hdq; unfold e1; lia).
    cbn [shr_record_of_loc shr_m]. change (emax - prec) with 971.
    apply rounds_to_intro; [unfold e1; lia | rewrite fexp_eq, Hdq; unfold e1; lia | exact Hbr].
Qed.

Lemma binary_round_rounds (s : bool) (p : positive) (e : Z) :
  -1074 <= e ->
  rounds_to s (Zpos p * 2 ^ (e + 1074)) (binary_round prec emax s p e).
Proof.
  intros He. destruct (Z.le_gt_cases (Zpos (digits2_pos p)) 53).
  - apply binary_round_small; assumption.
  - apply binary_round_large; assumption.
Qed.

Lemma pow2_pos (z : Z) : 0 <= z -> 0 < 2 ^ z.
Proof. intros; apply Z.pow_pos_nonneg; lia. Qed.

(** On valid finite numbers the order on (exponent, mantissa) is the order
    of the values. *)
Lemma finite_compare_mag (s1 s2 : bool) (m1 m2 : positive) (e1 e2 : Z) :
  valid_binary (S754_finite s1 m1 e1) = true ->
  valid_binary (S754_finite s2 m2 e2) = true ->
  match e1 ?= e2 with
  | Lt => Lt
  | Gt => Gt
  | Eq => Pos.compare_cont Eq m1 m2
  end = (mag (S754_finite s1 m1 e1) ?= mag (S754_finite s2 m2 e2)).
Proof.
  intros H1 H2. apply valid_finite in H1, H2.
  destruct H1 as (He1 & Hd1 & Hn1), H2 as (He2 & Hd2 & Hn2). cbn [mag].
  pose proof (digits2_bounds m1) as [L1 U1]. pose proof (digits2_bounds m2) as [L2 U2].
  assert (2 ^ Zpos (digits2_pos m1) <= 2 ^ 53) by (apply Z.pow_le_mono_r; lia).
  assert (2 ^ Zpos (digits2_pos m2) <= 2 ^ 53) by (apply Z.pow_le_mono_r; lia).
  pose proof (pow2_pos (e1 + 1074)). pose proof (pow2_pos (e2 + 1074)).
  destruct (Z.compare_spec e1 e2) as [-> | Hlt | Hgt].
  - change (Pos.compare_cont Eq m1 m2) with (Zpos m1 ?= Zpos m2).
    destruct (Z.compare_spec (Zpos m1) (Zpos m2)) as [E | E | E]; symmetry.
    + apply Z.compare_eq_iff. rewrite E. reflexivity.
    + apply Z.compare_lt_iff. nia.
    + apply Z.compare_gt_iff. nia.
  - symmetry. apply Z.compare_lt_iff.
    rewrite (Hn2 ltac:(lia)) in L2. change (2 ^ (53 - 1)) with (2 ^ 52) in L2.
    assert (2 * 2 ^ (e1 + 1074) <= 2 ^ (e2 + 1074)).
    { rewrite <- Z.pow_succ_r by lia. apply Z.pow_le_mono_r; lia. }
    apply Z.lt_le_trans with (2 ^ 53 * 2 ^ (e1 + 1074)); [nia|].
    change (2 ^ 53) with (2 ^ 52 * 2). nia.
  - symmetry. apply Z.compare_gt_iff.
    rewrite (Hn1 ltac:(lia)) in L1. change (2 ^ (53 - 1)) with (2 ^ 52) in L1.
    assert (2 * 2 ^ (e2 + 1074) <= 2 ^ (e1 + 1074)).
    { rewrite <- Z.pow_succ_r by lia. apply Z.pow_le_mono_r; lia. }
    apply Z.lt_le_trans with (2 ^ 53 * 2 ^ (e2 + 1074)); [nia|].
    change (2 ^ 53) with (2 ^ 52 * 2). nia.
Qed.

(** The comparison of two valid numbers is the comparison of their ranks. *)
Lemma SFcompare_rank (x y : spec_float) :
  valid_binary x = true -> valid_binary y = true ->
  x <> S754_nan -> y <> S754_nan ->
  SFcompare x y = Some (rank x ?= rank y).
Proof.
  intros Hx Hy Nx Ny.
  assert (Hinf : 0 < 2 ^ 2100) by (apply pow2_pos; lia).
  destruct x as [ sx | sx | | sx mx ex ]; try congruence;
  destruct y as [ sy | sy | | sy my ey ]; try congruence; clear Nx Ny.
  all: try (destruct sx, sy; unfold rank; cbn [SFcompare sign_of mag cond_Zopp];
            f_equal; symmetry;
            first [ reflexivity | apply Z.compare_lt_iff; lia | apply Z.compare_gt_iff; lia
                  | apply Z.compare_eq_iff; lia ]; fail).
  - (* zero, finite *)
    pose proof (mag_finite_lt _ _ _ Hy) as [Hp _].
    destruct sx, sy; unfold rank; cbn [SFcompare sign_of cond_Zopp]; f_equal; symmetry;
      change (mag (S754_zero _)) with 0;
      first [ apply Z.compare_lt_iff; lia | apply Z.compare_gt_iff; lia ].
  - (* infinity, finite *)
    pose proof (mag_finite_lt _ _ _ Hy) as [Hp Hq].
    assert (2 ^ 2098 < 2 ^ 2100) by (apply Z.pow_lt_mono_r; lia).
    destruct sx, sy; unfold rank; cbn [SFcompare sign_of cond_Zopp]; f_equal; symmetry;
      change (mag (S754_infinity _)) with (2 ^ 2100);
      first [ apply Z.compare_lt_iff; lia | apply Z.compare_gt_iff; lia ].
  - (* finite, zero *)
    pose proof (mag_finite_lt _ _ _ Hx) as [Hp _].
    destruct sx, sy; unfold rank; cbn [SFcompare sign_of cond_Zopp]; f_equal; symmetry;
      change (mag (S754_zero _)) with 0;
      first [ apply Z.compare_lt_iff; lia | apply Z.compare_gt_iff; lia ].
  - (* finite, infinity *)
    pose proof (mag_finite_lt _ _ _ Hx) as [Hp Hq].
    assert (2 ^ 2098 < 2 ^ 2100) by (apply Z.pow_lt_mono_r; lia).
    destruct sx, sy; unfold rank; cbn [SFcompare sign_of cond_Zopp]; f_equal; symmetry;
      change (mag (S754_infinity _)) with (2 ^ 2100);
      first [ apply Z.compare_lt_iff; lia | apply Z.compare_gt_iff; lia ].
  - (* finite, finite *)
    pose proof (mag_finite_lt _ _ _ Hx) as [Hp _].
    pose proof (mag_finite_lt _ _ _ Hy) as [Hq _].
    pose proof (finite_compare_mag sx sy mx my ex ey Hx Hy) as Hc.
    pose proof (finite_compare_mag sy sx my mx ey ex Hy Hx) as Hc'.
    unfold rank. cbn [SFcompare sign_of].
    destruct sx, sy; cbn [cond_Zopp]; f_equal.
    + rewrite Z.compare_opp, (Z.compare_antisym _ (mag (S754_finite true my ey))), <- Hc.
      destruct (ex ?= ey); reflexivity.
    + symmetry. apply Z.compare_lt_iff. lia.
    + symmetry. apply Z.compare_gt_iff. lia.
    + exact Hc.
Qed.


Lemma shl_align_rank (s : bool) (m : positive) (e ez : Z) :
  valid_binary (S754_finite s m e) = true -> ez <= e -> -1074 <= ez ->
  cond_Zopp s (Zpos (fst (shl_align m e ez))) * 2 ^ (ez + 1074) =
  rank (S754_finite s m e).
Proof.
  intros Hv Hle Hez. unfold rank. cbn [sign_of mag].
  assert (Hm : Zpos (fst (shl_align m e ez)) * 2 ^ (ez + 1074) = Zpos m * 2 ^ (e + 1074)).
  { unfold shl_align. destruct (ez - e) as [ | k | k ] eqn:E; cbn [fst]; try lia.
    - replace ez with e by lia. reflexivity.
    - rewrite iter_xO_val, <- Z.mul_assoc, <- Z.pow_add_r by lia. do 2 f_equal. lia. }
  destruct s; cbn [cond_Zopp]; lia.
Qed.

Lemma binary_normalize_exact (z e : Z) :
  -1074 <= e ->
  exact_result (z * 2 ^ (e + 1074)) (binary_normalize prec emax z e false).
Proof.
  intros He. unfold exact_result. pose proof (pow2_pos (e + 1074) ltac:(lia)) as Hp.
  destruct z as [ | p | p ]; cbn [binary_normalize].
  - reflexivity.
  - replace (Zpos p * 2 ^ (e + 1074) =? 0) with false by (symmetry; apply Z.eqb_neq; lia).
    replace (Zpos p * 2 ^ (e + 1074) <? 0) with false by (symmetry; apply Z.ltb_ge; lia).
    rewrite Z.abs_eq by lia. apply binary_round_rounds; exact He.
  - replace (Zneg p * 2 ^ (e + 1074) =? 0) with false by (symmetry; apply Z.eqb_neq; lia).
    replace (Zneg p * 2 ^ (e + 1074) <? 0) with true by (symmetry; apply Z.ltb_lt; lia).
    replace (Z.abs (Zneg p * 2 ^ (e + 1074))) with (Zpos p * 2 ^ (e + 1074)) by lia.
    apply binary_round_rounds; exact He.
Qed.

Lemma SFsub_finite (sx sy : bool) (mx my : positive) (ex ey : Z) :
  valid_binary (S754_finite sx mx ex) = true ->
  valid_binary (S754_finite sy my ey) = true ->
  exact_result (rank (S754_finite sx mx ex) - rank (S754_finite sy my ey))
    (SFsub prec emax (S754_finite sx mx ex) (S754_finite sy my ey)).
Proof.
  intros Hx Hy. pose proof (valid_finite _ _ _ Hx) as (Hex & _).
  pose proof (valid_finite _ _ _ Hy) as (Hey & _).
  cbn [SFsub]. cbv zeta.
  rewrite <- (shl_align_rank sx mx ex (Z.min ex ey)) by (auto; lia).
  rewrite <- (shl_align_rank sy my ey (Z.min ex ey)) by (auto; lia).
  rewrite <- Z.mul_sub_distr_r.
  apply binary_normalize_exact. lia.
Qed.

Lemma SFadd_finite (sx sy : bool) (mx my : positive) (ex ey : Z) :
  valid_binary (S754_finite sx mx ex) = true ->
  valid_binary (S754_finite sy my ey) = true ->
  exact_result (rank (S754_finite sx mx ex) + rank (S754_finite sy my ey))
    (SFadd prec emax (S754_finite sx mx ex) (S754_finite sy my ey)).
Proof.
  intros Hx Hy. pose proof (valid_finite _ _ _ Hx) as (Hex & _).
  pose proof (valid_finite _ _ _ Hy) as (Hey & _).
  cbn [SFadd]. cbv zeta.
  rewrite <- (shl_align_rank sx mx ex (Z.min ex ey)) by (auto; lia).
  rewrite <- (shl_align_rank sy my ey (Z.min ex ey)) by (auto; lia).
  rewrite <- Z.mul_add_distr_r.
  apply binary_normalize_exact. lia.
Qed.

(** What a rounding of a positive value looks like. *)
Lemma rounds_to_shape (s : bool) (V : Z) (r : spec_float) :
  rounds_to s V r ->
  r <> S754_nan /\ sign_of r = s /\ 0 < mag r /\ valid_binary r = true.
Proof.
  intros (Hv & [(m & e & ->) | ->] & _).
  - pose proof (mag_finite_lt _ _ _ Hv).
    split; [discriminate | split; [reflexivity | split; [lia | exact Hv]]].
  - split; [discriminate | split; [reflexivity | split; [|reflexivity]]].
    cbn [mag]. apply pow2_pos; lia.
Qed.

Lemma exact_result_shape (D : Z) (r : spec_float) :
  exact_result D r ->
  r <> S754_nan /\ valid_binary r = true /\ (rank r ?= 0) = (D ?= 0) /\
  (D = 0 -> r = S754_zero false).
Proof.
  unfold exact_result. destruct (Z.eqb_spec D 0) as [-> | Hn].
  - intros ->. repeat split; congruence.
  - intros H. apply rounds_to_shape in H. destruct H as (Hnan & Hs & Hm & Hv).
    repeat split; auto; try lia.
    unfold rank. rewrite Hs. destruct (Z.ltb_spec D 0); cbn [cond_Zopp].
    + transitivity Lt; [apply Z.compare_lt_iff | symmetry; apply Z.compare_lt_iff]; lia.
    + transitivity Gt; [apply Z.compare_gt_iff | symmetry; apply Z.compare_gt_iff]; lia.
Qed.

(** The sign of a difference of valid numbers is their comparison; the
    difference is NaN only for two infinities of the same sign. *)
Lemma SFsub_sign (x y : spec_float) :
  valid_binary x = true -> valid_binary y = true ->
  x <> S754_nan -> y <> S754_nan ->
  let d := SFsub prec emax x y in
  (d = S754_nan /\ rank x = rank y) \/
  (d <> S754_nan /\ valid_binary d = true /\ (rank d ?= 0) = (rank x ?= rank y)).
Proof.
  intros Hx Hy Nx Ny d. subst d.
  assert (Hinf : 0 < 2 ^ 2100) by (apply pow2_pos; lia).
  destruct x as [ sx | sx | | sx mx ex ]; try congruence;
  destruct y as [ sy | sy | | sy my ey ]; try congruence; clear Nx Ny.
  all: try (pose proof (mag_finite_lt _ _ _ Hx) as [Hpx Hqx]).
  all: try (pose proof (mag_finite_lt _ _ _ Hy) as [Hpy Hqy]).
  all: try (assert (2 ^ 2098 < 2 ^ 2100) by (apply Z.pow_lt_mono_r; lia)).
  9:{ pose proof (SFsub_finite sx sy mx my ex ey Hx Hy) as Hsub.
       apply exact_result_shape in Hsub. destruct Hsub as (Hn & Hv & Hc & _).
       right. repeat split; auto. rewrite Hc. symmetry. apply Z.compare_sub. }
  all: destruct sx, sy; cbn [SFsub negb]; cbn [mag] in *;
    first [ left; split; reflexivity
          | right; split; [discriminate|];
            split; [first [reflexivity | exact Hx | exact Hy]|];
            unfold rank; cbn [sign_of cond_Zopp mag];
            first [ reflexivity
                  | transitivity Lt; [apply Z.compare_lt_iff | symmetry; apply Z.compare_lt_iff]; lia
                  | transitivity Gt; [apply Z.compare_gt_iff | symmetry; apply Z.compare_gt_iff]; lia ] ].
Qed.


Lemma SFcompare_refl (x : spec_float) : x <> S754_nan -> SFcompare x x = Some Eq.
Proof.
  destruct x as [ [|] | [|] | | [|] m e ]; cbn; try congruence; intros _;
    rewrite Z.compare_refl, Pos.compare_cont_refl; reflexivity.
Qed.

Lemma is_nan_spec (x : float) :
  is_nan x = match Prim2SF x with S754_nan => true | _ => false end.
Proof.
  unfold is_nan. rewrite eqb_spec. unfold SFeqb.
  destruct (Prim2SF x) eqn:E; try reflexivity;
    rewrite SFcompare_refl by discriminate; reflexivity.
Qed.

Lemma not_nan (x : float) : is_nan x = false -> Prim2SF x <> S754_nan.
Proof. rewrite is_nan_spec. destruct (Prim2SF x); congruence. Qed.

Lemma not_nan_inv (x : float) : Prim2SF x <> S754_nan -> is_nan x = false.
Proof. rewrite is_nan_spec. destruct (Prim2SF x); congruence. Qed.

Lemma compare_Rk (x y : float) :
  is_nan x = false -> is_nan y = false ->
  SFcompare (Prim2SF x) (Prim2SF y) = Some (Rk x ?= Rk y).
Proof.
  intros Hx Hy. apply SFcompare_rank; auto using Prim2SF_valid, not_nan.
Qed.

Lemma ltb_Rk (x y : float) :
  is_nan x = false -> is_nan y = false -> (x <? y)%float = (Rk x <? Rk y).
Proof.
  intros Hx Hy. rewrite ltb_spec. unfold SFltb. rewrite compare_Rk by assumption.
  unfold Z.ltb. destruct (Rk x ?= Rk y); reflexivity.
Qed.

Lemma leb_Rk (x y : float) :
  is_nan x = false -> is_nan y = false -> (x <=? y)%float = (Rk x <=? Rk y).
Proof.
  intros Hx Hy. rewrite leb_spec. unfold SFleb. rewrite compare_Rk by assumption.
  unfold Z.leb. destruct (Rk x ?= Rk y); reflexivity.
Qed.

Lemma eqb_Rk (x y : float) :
  is_nan x = false -> is_nan y = false -> (x =? y)%float = (Rk x =? Rk y).
Proof.
  intros Hx Hy. rewrite eqb_spec. unfold SFeqb. rewrite compare_Rk by assumption.
  destruct (Z.compare_spec (Rk x) (Rk y)); symmetry;
    [apply Z.eqb_eq | apply Z.eqb_neq | apply Z.eqb_neq]; lia.
Qed.

Lemma ltb_nan_l (x y : float) : is_nan x = true -> (x <? y)%float = false.
Proof.
  rewrite is_nan_spec, ltb_spec. unfold SFltb. destruct (Prim2SF x); try discriminate. reflexivity.
Qed.

Lemma ltb_nan_r (x y : float) : is_nan y = true -> (x <? y)%float = false.
Proof.
  rewrite is_nan_spec, ltb_spec. unfold SFltb.
  destruct (Prim2SF y); try discriminate. destruct (Prim2SF x); reflexivity.
Qed.

Lemma leb_nan_l (x y : float) : is_nan x = true -> (x <=? y)%float = false.
Proof.
  rewrite is_nan_spec, leb_spec. unfold SFleb. destruct (Prim2SF x); try discriminate. reflexivity.
Qed.

Lemma leb_nan_r (x y : float) : is_nan y = true -> (x <=? y)%float = false.
Proof.
  rewrite is_nan_spec, leb_spec. unfold SFleb.
  destruct (Prim2SF y); try discriminate. destruct (Prim2SF x); reflexivity.
Qed.

Lemma Rk_zero : Rk 0%float = 0.
Proof. reflexivity. Qed.

(** The sign of [x - y]. *)
Lemma sub_sign (x y : float) :
  is_nan x = false -> is_nan y = false ->
  (is_nan (x - y) = true /\ Rk x = Rk y) \/
  (is_nan (x - y) = false /\ (Rk (x - y) ?= 0) = (Rk x ?= Rk y)).
Proof.
  intros Hx Hy.
  destruct (SFsub_sign (Prim2SF x) (Prim2SF y)) as [[Hn Hr] | (Hn & _ & Hc)];
    auto using Prim2SF_valid, not_nan.
  - left. split; [|exact Hr]. rewrite is_nan_spec, sub_spec. unfold SF64sub. rewrite Hn. reflexivity.
  - right. split.
    + apply not_nan_inv. rewrite sub_spec. exact Hn.
    + unfold Rk at 1. rewrite sub_spec. exact Hc.
Qed.

(** What [sort] reads from a comparator result [x - y]. *)
Lemma sub_positive (x y : float) :
  is_nan x = false -> is_nan y = false ->
  (0 <? (if is_nan (x - y) then 0 else x - y))%float = (Rk y <? Rk x).
Proof.
  intros Hx Hy. destruct (sub_sign x y Hx Hy) as [[Hn Hr] | [Hn Hc]]; rewrite Hn.
  - rewrite Hr, Z.ltb_irrefl. reflexivity.
  - rewrite ltb_Rk by (auto; reflexivity). rewrite Rk_zero.
    unfold Z.ltb. rewrite (Z.compare_antisym (Rk x) (Rk y)), <- Hc.
    rewrite (Z.compare_antisym (Rk (x - y)) 0). reflexivity.
Qed.

End Binary64Facts.

(* ================================================================= *)
(** ** Signs: a great-circle distance is never negative *)

Section SignFacts.

Lemma binary_round_aux_nonneg (m e : Z) (l : location) :
  SFnonneg (binary_round_aux prec emax false m e l) = true.
Proof.
  unfold binary_round_aux.
  destruct (shr_fexp prec emax m e l) as [r1 e1].
  destruct (shr_fexp prec emax _ e1 loc_Exact) as [r2 e2].
  destruct (shr_m r2); [reflexivity | | reflexivity].
  destruct (e2 <=? emax - prec)%Z; reflexivity.
Qed.

Lemma binary_round_aux_sign (s : bool) (m e : Z) (l : location) :
  binary_round_aux prec emax s m e l = S754_nan \/
  sign_of (binary_round_aux prec emax s m e l) = s.
Proof.
  unfold binary_round_aux.
  destruct (shr_fexp prec emax m e l) as [r1 e1].
  destruct (shr_fexp prec emax _ e1 loc_Exact) as [r2 e2].
  destruct (shr_m r2); [right; reflexivity | | left; reflexivity].
  destruct (e2 <=? emax - prec)%Z; right; reflexivity.
Qed.

Lemma ltb_zero_spec (x : float) : (x <? 0) = negb (SFnonneg (Prim2SF x)).
Proof.
  rewrite ltb_spec. change (Prim2SF 0) with (S754_zero false).
  destruct (Prim2SF x) as [ [|] | [|] | | [|] m e ]; reflexivity.
Qed.

Lemma get_sign_spec (x : float) : get_sign x = sign_of (Prim2SF x).
Proof.
  unfold get_sign, is_zero. rewrite eqb_spec.
  change (Prim2SF zero) with (S754_zero false).
  destruct (Prim2SF x) as [ [|] | [|] | | [|] m e ] eqn:E;
    cbn [SFeqb SFcompare sign_of]; rewrite ltb_spec, ?div_spec, E; reflexivity.
Qed.

Lemma SFmul_nonneg (x y : spec_float) :
  SFnonneg x = true -> SFnonneg y = true -> SFnonneg (SFmul prec emax x y) = true.
Proof.
  destruct x as [ [|] | [|] | | [|] mx ex ]; destruct y as [ [|] | [|] | | [|] my ey ];
    cbn [SFnonneg SFmul xorb]; try discriminate; try reflexivity; intros _ _.
  apply binary_round_aux_nonneg.
Qed.

Lemma mul_nonneg (x y : float) :
  (x <? 0) = false -> (y <? 0) = false -> (x * y <? 0) = false.
Proof.
  rewrite !ltb_zero_spec, mul_spec, !negb_false_iff. apply SFmul_nonneg.
Qed.

Lemma SFmul_self_sign (x : spec_float) : sign_of (SFmul prec emax x x) = false.
Proof.
  destruct x as [ [|] | [|] | | s m e ]; try reflexivity.
  cbn [SFmul]. rewrite xorb_nilpotent.
  destruct (binary_round_aux_sign false (Z.pos (m * m)) (e + e) loc_Exact) as [-> | ->]; reflexivity.
Qed.

(** A sum is [-0] only when both terms are. *)
Lemma SFadd_neg_zero (x y : spec_float) :
  valid_binary x = true -> valid_binary y = true ->
  SFadd prec emax x y = S754_zero true -> x = S754_zero true.
Proof.
  intros Hx Hy.
  destruct x as [ [|] | [|] | | sx mx ex ]; destruct y as [ [|] | [|] | | sy my ey ];
    cbn [SFadd]; try discriminate; try reflexivity.
  intros H. pose proof (SFadd_finite sx sy mx my ex ey Hx Hy) as Hr.
  cbn [SFadd] in Hr. rewrite H in Hr. unfold exact_result in Hr.
  destruct (_ =? 0)%Z; [discriminate|].
  destruct Hr as (_ & [(m & e & Hm) | Hm] & _); discriminate.
Qed.

Lemma SFsqrt_sign (x : spec_float) :
  x <> S754_zero true -> sign_of (SFsqrt prec emax x) = false.
Proof.
  destruct x as [ [|] | [|] | | [|] m e ]; try reflexivity; try congruence. intros _.
  cbn [SFsqrt]. destruct (SFsqrt_core_binary prec emax (Z.pos m) e) as [[mz ez] lz].
  destruct (binary_round_aux_sign false mz ez lz) as [-> | ->]; reflexivity.
Qed.

(** [sqrt (s * s + q)] never has its sign bit set. *)
Lemma sqrt_sum_sign (s q : float) : get_sign (Math_sqrt (s * s + q)) = false.
Proof.
  unfold Math_sqrt. rewrite get_sign_spec, sqrt_spec. apply SFsqrt_sign.
  rewrite add_spec. intros H. apply SFadd_neg_zero in H; auto using Prim2SF_valid.
  pose proof (SFmul_self_sign (Prim2SF s)) as Hs.
  rewrite mul_spec in H. unfold SF64mul in H. rewrite H in Hs. discriminate.
Qed.

Lemma haversine_nonneg (h : Host) (lat1 lon1 lat2 lon2 : float) :
  atan2_nonneg h -> (haversineDistance h lat1 lon1 lat2 lon2 <? 0) = false.
Proof.
  intros Hh. unfold haversineDistance. cbv zeta.
  apply mul_nonneg; [reflexivity|].
  apply mul_nonneg; [reflexivity|].
  apply Hh. apply sqrt_sum_sign.
Qed.

End SignFacts.

(* ================================================================= *)
(** ** The score of a nearby match *)

Section ScoreFacts.


Lemma shr_fexp_nonneg (m e : Z) (l : location) :
  (0 <= m)%Z -> (0 <= shr_m (fst (shr_fexp prec emax m e l)))%Z.
Proof.
  intros Hm. unfold shr_fexp, shr.
  destruct (fexp prec emax (Zdigits2 m + e) - e)%Z as [ | p | p ]; cbn [fst];
    rewrite ?iter_shr_m; rewrite ?shr_record_m; try lia.
  apply Z.div_pos; lia.
Qed.

Lemma rne_nonneg (r : shr_record) :
  (0 <= shr_m r)%Z -> (0 <= round_nearest_even (shr_m r) (loc_of_shr_record r))%Z.
Proof. pose proof (rne_cases r) as H. cbv zeta in H. lia. Qed.

Lemma binary_round_aux_not_nan (s : bool) (m e : Z) (l : location) :
  (0 <= m)%Z -> binary_round_aux prec emax s m e l <> S754_nan.
Proof.
  intros Hm. unfold binary_round_aux.
  pose proof (shr_fexp_nonneg m e l Hm) as H1.
  destruct (shr_fexp prec emax m e l) as [r1 e1]. cbn [fst] in H1.
  pose proof (shr_fexp_nonneg _ e1 loc_Exact (rne_nonneg r1 H1)) as H2.
  destruct (shr_fexp prec emax _ e1 loc_Exact) as [r2 e2]. cbn [fst] in H2.
  destruct (shr_m r2); try lia; [discriminate|].
  destruct (e2 <=? emax - prec)%Z; discriminate.
Qed.

Lemma SFdiv_proper (x : spec_float) (m : positive) (e : Z) :
  proper x -> proper (SFdiv prec emax x (S754_finite false m e)).
Proof.
  intros [Hn Hs].
  destruct x as [ [|] | [|] | | [|] mx ex ]; try discriminate; try congruence;
    try (split; [discriminate | reflexivity]).
  cbn [SFdiv xorb]. unfold SFdiv_core_binary.
  set (m' := match (ex - e - _)%Z with Z.pos _ => _ | 0%Z => _ | Z.neg _ => _ end).
  assert (Hm' : (0 <= m')%Z).
  { unfold m'. destruct (ex - e - _)%Z; try lia. apply Z.shiftl_nonneg. lia. }
  pose proof (Z.div_pos m' (Z.pos m) Hm' ltac:(lia)) as Hq.
  unfold Z.div in Hq. destruct (Z.div_eucl m' (Z.pos m)) as [q r].
  split; [apply binary_round_aux_not_nan; exact Hq | apply binary_round_aux_nonneg].
Qed.

Lemma proper_ofZ (z : Z) : (0 <= z)%Z -> proper (Prim2SF (ofZ z)).
Proof.
  intros Hz. unfold ofZ. pose proof (binary_normalize_exact z 0 ltac:(lia)) as H.
  unfold exact_result in H.
  destruct (Z.eqb_spec (z * 2 ^ (0 + 1074)) 0) as [E | E].
  - rewrite H. split; [discriminate | reflexivity].
  - replace (z * 2 ^ (0 + 1074) <? 0)%Z with false in H
      by (symmetry; apply Z.ltb_ge; apply Z.mul_nonneg_nonneg; [lia | apply Z.pow_nonneg; lia]).
    pose proof (rounds_to_shape _ _ _ H) as (Hn & Hs & _ & Hv).
    rewrite Prim2SF_SF2Prim by exact Hv. split; [exact Hn|].
    destruct H as (_ & [(m & e & ->) | ->] & _); reflexivity.
Qed.

Lemma floor_proper (x : float) : proper (Prim2SF x) -> proper (Prim2SF (Math_floor x)).
Proof.
  intros Hx. unfold Math_floor.
  destruct (Prim2SF x) as [ s | s | | s m e ] eqn:E; try (rewrite E; exact Hx).
  destruct (0 <=? e)%Z; [rewrite E; exact Hx|].
  destruct Hx as [_ Hs]. destruct s; [discriminate|]. cbn [cond_Zopp].
  apply proper_ofZ. apply Z.shiftr_nonneg. lia.
Qed.

(** Subtracting a number that is not below zero does not increase. *)
Lemma SFsub_le (s : bool) (m : positive) (e : Z) (y : spec_float) :
  valid_binary (S754_finite s m e) = true -> valid_binary y = true -> proper y ->
  SFsub prec emax (S754_finite s m e) y <> S754_nan /\
  (rank (SFsub prec emax (S754_finite s m e) y) <= rank (S754_finite s m e))%Z.
Proof.
  intros Hx Hy [Hn Hs]. pose proof (mag_finite_lt _ _ _ Hx) as [Hx0 Hx1].
  assert (H98 : (2 ^ 2098 < 2 ^ 2100)%Z) by (apply Z.pow_lt_mono_r; lia).
  destruct y as [ sy | [|] | | [|] my ey ]; try discriminate; try congruence.
  - cbn [SFsub]. split; [discriminate | lia].
  - cbn [SFsub negb]. split; [discriminate|].
    unfold rank. cbn [sign_of cond_Zopp]. change (mag (S754_infinity true)) with (2 ^ 2100)%Z.
    destruct s; cbn [cond_Zopp]; lia.
  - pose proof (mag_finite_lt _ _ _ Hy) as [Hy0 Hy1].
    pose proof (SFsub_finite s false m my e ey Hx Hy) as Hr.
    set (r := SFsub prec emax (S754_finite s m e) (S754_finite false my ey)) in *.
    set (RX := rank (S754_finite s m e)) in *.
    assert (HRY : rank (S754_finite false my ey) = mag (S754_finite false my ey)) by reflexivity.
    rewrite HRY in Hr. set (RY := mag (S754_finite false my ey)) in *.
    unfold exact_result in Hr.
    destruct (Z.eqb_spec (RX - RY) 0) as [E | E].
    + rewrite Hr. split; [discriminate|]. change (rank (S754_zero false)) with 0%Z. lia.
    + pose proof (rounds_to_shape _ _ _ Hr) as (Hnan & Hsg & Hmag & Hv).
      split; [exact Hnan|]. destruct Hr as (_ & _ & Hbr).
      specialize (Hbr s m e Hx). destruct Hbr as [Hup Hlo].
      unfold rank at 1. rewrite Hsg.
      assert (HRX : RX = cond_Zopp s (mag (S754_finite s m e))) by reflexivity.
      destruct (Z.ltb_spec (RX - RY) 0) as [Hneg | Hpos]; cbn [cond_Zopp].
      * destruct s; cbn [cond_Zopp] in HRX; [|lia].
        assert (mag (S754_finite true m e) <= mag r)%Z by (apply Hlo; lia). lia.
      * destruct s; cbn [cond_Zopp] in HRX; [lia|].
        assert (mag r <= mag (S754_finite false m e))%Z by (apply Hup; lia). lia.
Qed.

Lemma max_zero_cases (v : float) :
  is_nan v = false ->
  (Math_max 0 v = v /\ (0 <? v) = true) \/ (Math_max 0 v = 0 /\ (0 <? v) = false).
Proof.
  intros Hv. unfold Math_max. change (is_nan 0) with false. rewrite Hv. cbn [orb].
  destruct (0 <? v); [left; split; reflexivity | right; split; [|reflexivity]].
  destruct (v <? 0); reflexivity.
Qed.

Lemma proper_of_float (d : float) :
  is_nan d = false -> (d <? 0) = false -> proper (Prim2SF d).
Proof.
  intros Hn Hs. split; [apply not_nan; exact Hn|].
  rewrite ltb_zero_spec in Hs. apply negb_false_iff in Hs. exact Hs.
Qed.

(** The score of a nearby match lies between 0 and 100. *)
Lemma score_bounds (d : float) :
  is_nan d = false -> (d <? 0) = false ->
  let score := Math_max 0 (100 - Math_floor (d / 10)) in
  (0 <=? score) = true /\ (score <=? 100) = true.
Proof.
  intros Hn Hs score.
  pose proof (proper_of_float d Hn Hs) as Hd.
  assert (Hq : proper (Prim2SF (d / 10))).
  { rewrite div_spec. change (Prim2SF 10) with (S754_finite false 5629499534213120 (-49)).
    apply SFdiv_proper. exact Hd. }
  apply floor_proper in Hq.
  set (f := Math_floor (d / 10)) in *.
  assert (H100 : Prim2SF 100 = S754_finite false 7036874417766400 (-46)) by reflexivity.
  pose proof (SFsub_le false 7036874417766400 (-46) (Prim2SF f)
                (eq_refl) (Prim2SF_valid f) Hq) as [Hvn Hvr].
  rewrite <- H100 in Hvn, Hvr. change (SFsub prec emax) with SF64sub in Hvn, Hvr.
  rewrite <- sub_spec in Hvn, Hvr. fold (Rk (100 - f)) in Hvr. fold (Rk 100) in Hvr.
  apply not_nan_inv in Hvn.
  destruct (max_zero_cases (100 - f) Hvn) as [[Hm Hp] | [Hm _]]; unfold score; rewrite Hm.
  - rewrite ltb_Rk in Hp by (auto; reflexivity). apply Z.ltb_lt in Hp.
    rewrite !leb_Rk by (auto; reflexivity). split; apply Z.leb_le; lia.
  - split; reflexivity.
Qed.

End ScoreFacts.

(* ================================================================= *)
(** ** Sorting by the comparator of [findMatches] *)

Section SortFacts.

Lemma insert_perm {A} (cmp : A -> A -> float) (x : A) (l : list A) :
  Permutation (insert cmp x l) (x :: l).
Proof.
  induction l as [ | y l IH]; cbn [insert]; [reflexivity|].
  destruct (0 <? SortCompare cmp x y); [|reflexivity].
  rewrite IH. apply perm_swap.
Qed.

Lemma sort_perm {A} (cmp : A -> A -> float) (l : list A) :
  Permutation (sort cmp l) l.
Proof.
  induction l as [ | x l IH]; cbn [sort]; [reflexivity|].
  rewrite insert_perm. constructor. exact IH.
Qed.

Lemma classKey_cases (r : MatchResult) :
  (matchType r = perfect /\ classKey r = 0%Z) \/ (matchType r = nearby /\ classKey r = 1%Z).
Proof. unfold classKey. destruct (matchType r); cbn; auto. Qed.

(** [sort] moves [a] behind [b] exactly when the key of [b] is smaller. *)
Lemma comparefn_after (a b : MatchResult) :
  is_nan (distance a) = false -> is_nan (distance b) = false ->
  (0 <? SortCompare comparefn a b) = true <-> keyLt b a.
Proof.
  intros Ha Hb. unfold SortCompare, comparefn, keyLt.
  destruct (classKey_cases a) as [[Ta Ka] | [Ta Ka]];
  destruct (classKey_cases b) as [[Tb Kb] | [Tb Kb]];
    rewrite Ta, Tb, Ka, Kb; cbn [isPerfect negb andb].
  - rewrite sub_positive by assumption. rewrite Z.ltb_lt. lia.
  - change (0 <? (if is_nan (-1) then 0 else -1)) with false. split; [discriminate | lia].
  - change (0 <? (if is_nan 1 then 0 else 1)) with true. split; [lia | reflexivity].
  - rewrite sub_positive by assumption. rewrite Z.ltb_lt. lia.
Qed.

Lemma comparefn_not_after (a b : MatchResult) :
  is_nan (distance a) = false -> is_nan (distance b) = false ->
  (0 <? SortCompare comparefn a b) = false <-> keyLe a b.
Proof.
  intros Ha Hb. rewrite <- not_true_iff_false, comparefn_after by assumption.
  unfold keyLt, keyLe. lia.
Qed.

Lemma keyLe_trans (a b c : MatchResult) : keyLe a b -> keyLe b c -> keyLe a c.
Proof. unfold keyLe. lia. Qed.

Lemma keyLt_keyLe (a b : MatchResult) : keyLt a b -> keyLe a b.
Proof. unfold keyLt, keyLe. lia. Qed.


Lemma insert_sorted (x : MatchResult) (l : list MatchResult) :
  numeric x -> Forall numeric l ->
  StronglySorted keyLe l -> StronglySorted keyLe (insert comparefn x l).
Proof.
  intros Hx Hl Hs. induction Hs as [ | y l Hs IH Hy]; cbn [insert].
  - repeat constructor.
  - inversion Hl as [ | ? ? Ny Nl]; subst.
    destruct (0 <? SortCompare comparefn x y) eqn:E.
    + apply comparefn_after in E; auto.
      constructor; [apply IH; assumption|].
      eapply Permutation_Forall; [symmetry; apply insert_perm|].
      constructor; [apply keyLt_keyLe; exact E | exact Hy].
    + apply comparefn_not_after in E; auto.
      constructor; [constructor; assumption|].
      constructor; [exact E|].
      eapply Forall_impl; [|exact Hy]. intros z Hz. eapply keyLe_trans; eassumption.
Qed.

Lemma sort_sorted (l : list MatchResult) :
  Forall numeric l -> StronglySorted keyLe (sort comparefn l).
Proof.
  induction l as [ | x l IH]; intros Hl; cbn [sort]; [constructor|].
  inversion Hl; subst.
  apply insert_sorted; auto.
  eapply Permutation_Forall; [symmetry; apply sort_perm | assumption].
Qed.

Lemma sameKey_keys (r a : MatchResult) :
  numeric a -> sameKey r a = true ->
  classKey a = classKey r /\ Rk (distance a) = Rk (distance r).
Proof.
  unfold sameKey, classKey, numeric. intros Ha H.
  apply andb_true_iff in H. destruct H as [Hc Hd].
  apply Bool.eqb_prop in Hc. rewrite Hc. split; [reflexivity|].
  destruct (is_nan (distance r)) eqn:Hr.
  - rewrite eqb_spec in Hd. rewrite is_nan_spec in Hr. unfold SFeqb in Hd.
    destruct (Prim2SF (distance r)); discriminate.
  - rewrite eqb_Rk in Hd by assumption. apply Z.eqb_eq in Hd. lia.
Qed.

Lemma insert_stable (r x : MatchResult) (l : list MatchResult) :
  numeric x -> Forall numeric l ->
  filter (sameKey r) (insert comparefn x l) = filter (sameKey r) (x :: l).
Proof.
  intros Hx Hl. induction l as [ | y l IH]; cbn [insert]; [reflexivity|].
  inversion Hl as [ | ? ? Ny Nl]; subst.
  destruct (0 <? SortCompare comparefn x y) eqn:E; [|reflexivity].
  apply comparefn_after in E; auto.
  cbn [filter]. rewrite (IH Nl). cbn [filter].
  destruct (sameKey r x) eqn:Ex; destruct (sameKey r y) eqn:Ey; try reflexivity.
  apply sameKey_keys in Ex, Ey; auto. unfold keyLt in E. lia.
Qed.

Lemma sort_stable (r : MatchResult) (l : list MatchResult) :
  Forall numeric l ->
  filter (sameKey r) (sort comparefn l) = filter (sameKey r) l.
Proof.
  induction l as [ | x l IH]; intros Hl; cbn [sort]; [reflexivity|].
  inversion Hl; subst.
  rewrite insert_stable; auto.
  - cbn [filter]. rewrite IH by assumption. reflexivity.
  - eapply Permutation_Forall; [symmetry; apply sort_perm | assumption].
Qed.

Lemma keyLe_ordered (a b : MatchResult) :
  numeric a -> numeric b -> keyLe a b -> ordered a b.
Proof.
  unfold numeric, keyLe, ordered. intros Ha Hb H.
  destruct (classKey_cases a) as [[Ta Ka] | [Ta Ka]];
  destruct (classKey_cases b) as [[Tb Kb] | [Tb Kb]];
    rewrite Ta, Tb; rewrite Ka, Kb in H; try exact I; try lia;
    rewrite leb_Rk by assumption; apply Z.leb_le; lia.
Qed.

Lemma keys_sameKey (a b : MatchResult) :
  numeric a -> numeric b ->
  classKey a = classKey b -> Rk (distance a) = Rk (distance b) -> sameKey a b = true.
Proof.
  unfold numeric, sameKey, classKey. intros Ha Hb Hc Hd.
  rewrite eqb_Rk by assumption. rewrite Hd, Z.eqb_refl, andb_true_r.
  destruct (isPerfect (matchType a)), (isPerfect (matchType b)); try reflexivity; discriminate.
Qed.

(** Two sorted arrangements of the same results that keep results of equal
    key in the same order are the same list. *)
Lemma stable_sorted_unique (l1 l2 : list MatchResult) :
  Forall numeric l1 ->
  Permutation l1 l2 ->
  StronglySorted keyLe l1 -> StronglySorted keyLe l2 ->
  (forall r, filter (sameKey r) l1 = filter (sameKey r) l2) ->
  l1 = l2.
Proof.
  revert l2. induction l1 as [ | x1 t1 IH]; intros l2 Hn Hp S1 S2 Hf.
  - apply Permutation_nil in Hp. symmetry. exact Hp.
  - destruct l2 as [ | x2 t2]; [apply Permutation_sym, Permutation_nil in Hp; discriminate|].
    inversion Hn as [ | ? ? N1 Nt1]; subst.
    assert (N2 : numeric x2).
    { rewrite Forall_forall in Hn. apply Hn. apply Permutation_in with (x2 :: t2);
        [symmetry; exact Hp | left; reflexivity]. }
    inversion S1 as [ | ? ? St1 F1]; subst. inversion S2 as [ | ? ? St2 F2]; subst.
    assert (H12 : keyLe x1 x2).
    { assert (Hin : In x2 (x1 :: t1))
        by (apply Permutation_in with (x2 :: t2); [symmetry; exact Hp | left; reflexivity]).
      destruct Hin as [<- | Hin]; [unfold keyLe; lia|].
      rewrite Forall_forall in F1. apply F1. exact Hin. }
    assert (H21 : keyLe x2 x1).
    { assert (Hin : In x1 (x2 :: t2))
        by (apply Permutation_in with (x1 :: t1); [exact Hp | left; reflexivity]).
      destruct Hin as [<- | Hin]; [unfold keyLe; lia|].
      rewrite Forall_forall in F2. apply F2. exact Hin. }
    assert (Hk : sameKey x1 x2 = true).
    { apply keys_sameKey; auto; unfold keyLe in *; lia. }
    assert (Hk1 : sameKey x1 x1 = true) by (apply keys_sameKey; auto).
    pose proof (Hf x1) as Hx. cbn [filter] in Hx. rewrite Hk, Hk1 in Hx.
    injection Hx as <- _.
    f_equal. apply IH; auto.
    + apply Permutation_cons_inv with x1. exact Hp.
    + intros r. pose proof (Hf r) as Hr. cbn [filter] in Hr.
      destruct (sameKey r x1); [injection Hr as Hr|]; exact Hr.
Qed.

(** Hence [sort] returns the one arrangement the language allows when the
    distances are numbers. *)
Lemma sort_unique (l l' : list MatchResult) :
  Forall numeric l ->
  Permutation l' l -> StronglySorted keyLe l' ->
  (forall r, filter (sameKey r) l' = filter (sameKey r) l) ->
  l' = sort comparefn l.
Proof.
  intros Hn Hp Hs Hf. symmetry. apply stable_sorted_unique.
  - eapply Permutation_Forall; [symmetry; apply sort_perm | exact Hn].
  - rewrite sort_perm. symmetry. exact Hp.
  - apply sort_sorted. exact Hn.
  - exact Hs.
  - intros r. rewrite sort_stable by exact Hn. symmetry. apply Hf.
Qed.

End SortFacts.

(* ================================================================= *)
(** ** The loop of [findMatches] *)

Section EngineFacts.

Variable h : Host.

Lemma includes_In (l : list string) (x : string) : includes l x = true <-> In x l.
Proof.
  unfold includes. rewrite existsb_exists. split.
  - intros (y & Hy & E). apply String.eqb_eq in E. subst. exact Hy.
  - intros H. exists x. split; [exact H | apply String.eqb_refl].
Qed.

Lemma checkPerfectMatch_spec (t1 t2 : TeacherWithUser) :
  checkPerfectMatch t1 t2 = true <->
  In (currentDistrict t2) (preferredDistricts t1) /\
  In (currentDistrict t1) (preferredDistricts t2) /\
  gradeLevel t1 = gradeLevel t2.
Proof.
  unfold checkPerfectMatch. cbv zeta.
  rewrite !andb_true_iff, !includes_In, String.eqb_eq. tauto.
Qed.

Lemma checkNearbyMatch_spec (S C : TeacherWithUser) (nm : NearbyMatch) :
  let home := calculateDistanceToHome h S in
  let d := calculateDistanceFromTeacherToHome h C S in
  checkNearbyMatch h S C = Some nm <->
  gradeLevel S = gradeLevel C /\ (d <? home) = true /\ (d <=? maxDistance S) = true /\
  nm = mkNearby d (Math_max 0 (100 - Math_floor (d / 10))).
Proof.
  cbv zeta. unfold checkNearbyMatch.
  destruct (String.eqb_spec (gradeLevel S) (gradeLevel C)) as [E | E]; cbn [negb].
  - destruct (_ <? _); cbn [andb]; [destruct (_ <=? _)|];
      (split; [intros H | intros (_ & H1 & H2 & H3)]); try discriminate;
      try (injection H as <-); subst; auto.
  - split; [discriminate | tauto].
Qed.

(** The loop handles the candidates one after the other. *)
Lemma collectMatches_cons (S c : TeacherWithUser) (cs : list TeacherWithUser) :
  collectMatches h S (c :: cs) = collectMatches h S [c] ++ collectMatches h S cs.
Proof.
  cbn [collectMatches].
  destruct ((id c =? id S)%Z || negb (isActive c)); [reflexivity|].
  destruct (checkPerfectMatch S c); [reflexivity|].
  destruct (checkNearbyMatch h S c); reflexivity.
Qed.

Lemma collectMatches_app (S : TeacherWithUser) (cs1 cs2 : list TeacherWithUser) :
  collectMatches h S (cs1 ++ cs2) = collectMatches h S cs1 ++ collectMatches h S cs2.
Proof.
  induction cs1 as [ | c cs1 IH]; [reflexivity|].
  rewrite <- app_comm_cons, collectMatches_cons, IH, app_assoc, <- collectMatches_cons.
  reflexivity.
Qed.

(** What the loop pushes for one candidate. *)
Lemma collectMatches_one (S t : TeacherWithUser) (r : MatchResult) :
  In r (collectMatches h S [t]) <->
  id t <> id S /\ isActive t = true /\
    ((checkPerfectMatch S t = true /\
      r = mkMatch t perfect (calculateDistance h S t) 100) \/
     (checkPerfectMatch S t = false /\
      exists nm, checkNearbyMatch h S t = Some nm /\
                 r = mkMatch t nearby (nearbyDistance nm) (nearbyScore nm))).
Proof.
  cbn [collectMatches].
  destruct (Z.eqb_spec (id t) (id S)) as [E | E]; cbn [orb].
  { split; [intros [] | tauto]. }
  destruct (isActive t); cbn [negb].
  2:{ split; [intros [] | intros (_ & H & _); discriminate]. }
  destruct (checkPerfectMatch S t).
  { cbn [In]. split.
    - intros [<- | []]. auto.
    - intros (_ & _ & [[_ ->] | [H _]]); [auto | discriminate]. }
  destruct (checkNearbyMatch h S t) as [nm | ].
  - cbn [In]. split.
    + intros [<- | []]. repeat split; auto. right. split; [reflexivity|]. exists nm; auto.
    + intros (_ & _ & [[H _] | [_ (nm' & Hn & ->)]]); [discriminate|].
      injection Hn as <-. auto.
  - split; [intros [] | ].
    intros (_ & _ & [[H _] | [_ (nm' & Hn & _)]]); discriminate.
Qed.

Lemma collectMatches_In (S : TeacherWithUser) (cs : list TeacherWithUser) (r : MatchResult) :
  In r (collectMatches h S cs) <-> exists t, In t cs /\ In r (collectMatches h S [t]).
Proof.
  induction cs as [ | c cs IH].
  - split; [intros [] | intros (t & [] & _)].
  - rewrite collectMatches_cons, in_app_iff, IH. split.
    + intros [H | (t & Ht & H)]; [exists c | exists t]; split; auto; [left | right]; auto.
    + intros (t & [<- | Ht] & H); [left; exact H | right; exists t; auto].
Qed.

Lemma findMatches_In (S : TeacherWithUser) (cs : list TeacherWithUser) (r : MatchResult) :
  In r (findMatches h S cs) <-> In r (collectMatches h S cs).
Proof.
  unfold findMatches. split; apply Permutation_in;
    [apply sort_perm | symmetry; apply sort_perm].
Qed.

(** The loop pushes results in the order of the candidates. *)
Lemma collectMatches_teachers (S : TeacherWithUser) (cs : list TeacherWithUser) :
  map teacher (collectMatches h S cs) = filter (emits h S) cs.
Proof.
  induction cs as [ | c cs IH]; cbn [collectMatches filter]; [reflexivity|].
  unfold emits at 1.
  destruct ((id c =? id S)%Z || negb (isActive c)); cbn [negb andb]; [exact IH|].
  destruct (checkPerfectMatch S c); cbn [orb map]; [rewrite IH; reflexivity|].
  destruct (checkNearbyMatch h S c); cbn [map]; rewrite IH; reflexivity.
Qed.

(** A nearby match carries a distance that is a number. *)
Lemma nearby_numeric (S : TeacherWithUser) (cs : list TeacherWithUser) (r : MatchResult) :
  In r (collectMatches h S cs) -> matchType r = nearby -> numeric r.
Proof.
  intros Hr Hn. apply collectMatches_In in Hr. destruct Hr as (t & _ & Hr).
  apply collectMatches_one in Hr.
  destruct Hr as (_ & _ & [[_ ->] | [_ (nm & Hnm & ->)]]); [discriminate|].
  apply checkNearbyMatch_spec in Hnm. destruct Hnm as (_ & Hlt & _ & ->).
  unfold numeric. cbn [distance nearbyDistance].
  destruct (is_nan (calculateDistanceFromTeacherToHome h t S)) eqn:E; [|reflexivity].
  rewrite ltb_nan_l in Hlt by exact E. discriminate.
Qed.

End EngineFacts.

(* ================================================================= *)
(** ** The three distance functions *)

Lemma eqb_true_Rk (x y : float) :
  (x =? y) = true -> is_nan x = false /\ is_nan y = false /\ Rk x = Rk y.
Proof.
  intros H.
  destruct (is_nan x) eqn:Nx.
  { rewrite eqb_spec in H. rewrite is_nan_spec in Nx. unfold SFeqb in H.
    destruct (Prim2SF x); discriminate. }
  destruct (is_nan y) eqn:Ny.
  { rewrite eqb_spec in H. rewrite is_nan_spec in Ny. unfold SFeqb in H.
    destruct (Prim2SF y); try discriminate. destruct (Prim2SF x); discriminate. }
  rewrite eqb_Rk in H by assumption. apply Z.eqb_eq in H. auto.
Qed.

Lemma ltb_true_numeric (x y : float) :
  (x <? y) = true -> is_nan x = false /\ is_nan y = false.
Proof.
  intros H. split.
  - destruct (is_nan x) eqn:E; [rewrite ltb_nan_l in H by exact E; discriminate | reflexivity].
  - destruct (is_nan y) eqn:E; [rewrite ltb_nan_r in H by exact E; discriminate | reflexivity].
Qed.

Lemma nonneg_leb (x : float) :
  is_nan x = false -> (x <? 0) = false -> (0 <=? x) = true.
Proof.
  intros Hn Hs. rewrite ltb_Rk in Hs by (auto; reflexivity).
  rewrite leb_Rk by (auto; reflexivity). apply Z.ltb_ge in Hs. apply Z.leb_le. exact Hs.
Qed.

Section DistanceFacts.

Variable h : Host.
Hypothesis Hatan2 : atan2_nonneg h.

Lemma calculateDistance_nonneg (t1 t2 : TeacherWithUser) :
  (calculateDistance h t1 t2 <? 0) = false.
Proof.
  unfold calculateDistance.
  repeat match goal with
         | |- context [match ?x with _ => _ end] => destruct x
         end; try reflexivity; apply haversine_nonneg; exact Hatan2.
Qed.

Lemma calculateDistanceToHome_nonneg (t : TeacherWithUser) :
  (calculateDistanceToHome h t <? 0) = false.
Proof.
  unfold calculateDistanceToHome.
  repeat match goal with
         | |- context [match ?x with _ => _ end] => destruct x
         end; try reflexivity; apply haversine_nonneg; exact Hatan2.
Qed.

Lemma calculateDistanceFromTeacherToHome_nonneg (t ht : TeacherWithUser) :
  (calculateDistanceFromTeacherToHome h t ht <? 0) = false.
Proof.
  unfold calculateDistanceFromTeacherToHome.
  destruct (teacherLocation h t) as [[a|] [b|]]; destruct (homeLocation h ht) as [[c|] [d|]];
    try reflexivity.
  destruct (_ && _); [apply haversine_nonneg; exact Hatan2 | reflexivity].
Qed.

End DistanceFacts.


Section ResolutionFacts.

Variable h : Host.

(** The lookup of the engine finds what the table has, and the point
    without coordinates for the two inherited names. *)
Lemma foundPoint_cases (district : string) :
  foundPoint h district =
  match districtPoint h district with
  | Some p => Some p
  | None => if readsInherited h district then Some (nan, nan) else None
  end.
Proof.
  unfold foundPoint, districtPoint, readsInherited, getDistrictCoordinates. cbv zeta.
  destruct (lookup _ districtCoordinates); [reflexivity|].
  destruct (includes inheritedKeys _); reflexivity.
Qed.

Lemma foundPoint_table (district : string) :
  readsInherited h district = false -> foundPoint h district = districtPoint h district.
Proof.
  intros H. rewrite foundPoint_cases, H. destruct (districtPoint h district); reflexivity.
Qed.

Lemma getDistrictCoordinates_point (district : string) :
  match getDistrictCoordinates h district with
  | Some c => foundPoint h district = Some (lat c, lng c)
  | None => foundPoint h district = None
  end.
Proof. unfold foundPoint. destruct (getDistrictCoordinates h district); reflexivity. Qed.

Lemma district_branch (district : string) :
  match getDistrictCoordinates h district with
  | Some c => (Some (lat c), Some (lng c))
  | None => (None, None)
  end =
  match districtPoint h district with
  | Some p => (Some (fst p), Some (snd p))
  | None => if readsInherited h district then (Some nan, Some nan) else (None, None)
  end.
Proof.
  unfold districtPoint, readsInherited, getDistrictCoordinates. cbv zeta.
  destruct (lookup _ districtCoordinates); [reflexivity|].
  destruct (includes inheritedKeys _); reflexivity.
Qed.

(** What the first [if] chain leaves for a district that reads an
    inherited property: two coordinates that are [undefined]. *)
Lemma teacherLocation_resolve (t : TeacherWithUser) :
  teacherLocation h t =
  match candidateEndpoint h t with
  | Some p => (Some (fst p), Some (snd p))
  | None =>
      if readsInherited h (currentDistrict t) then (Some nan, Some nan) else (None, None)
  end.
Proof.
  unfold teacherLocation, candidateEndpoint, resolve, explicitPoint.
  destruct (truthy (currentSchoolLatitude t)), (truthy (currentSchoolLongitude t));
    destruct (truthy (currentLatitude t)), (truthy (currentLongitude t));
    try reflexivity; apply district_branch.
Qed.

Lemma homeLocation_resolve (t : TeacherWithUser) :
  homeLocation h t =
  match destinationEndpoint h t with
  | Some p => (Some (fst p), Some (snd p))
  | None =>
      if readsInherited h (homeDistrict t) then (Some nan, Some nan) else (None, None)
  end.
Proof.
  unfold homeLocation, destinationEndpoint, resolve, explicitPoint.
  destruct (truthy (homeLatitude t)), (truthy (homeLongitude t));
    destruct (truthy (preferredLocationLatitude t)), (truthy (preferredLocationLongitude t));
    try reflexivity; apply district_branch.
Qed.

(** The candidate-to-home leg resolves each endpoint on its own; an
    inherited property counts for nothing, its coordinates being
    [undefined]. *)
Lemma calculateDistanceFromTeacherToHome_resolve (t ht : TeacherWithUser) :
  calculateDistanceFromTeacherToHome h t ht =
  match candidateEndpoint h t, destinationEndpoint h ht with
  | Some p, Some q => if usable p q then legDistance h (Some p) (Some q) else 0
  | _, _ => 0
  end.
Proof.
  unfold calculateDistanceFromTeacherToHome.
  rewrite teacherLocation_resolve, homeLocation_resolve.
  destruct (candidateEndpoint h t) as [[a b] | ];
    destruct (destinationEndpoint h ht) as [[c d] | ];
    try destruct (readsInherited h (currentDistrict t));
    try destruct (readsInherited h (homeDistrict ht));
    cbn [fst snd]; try reflexivity;
    destruct (truthyNum a), (truthyNum b); reflexivity.
Qed.

(** The direct distance uses explicit coordinates only when both parties
    have them, and the lookup for both parties otherwise. *)
Lemma calculateDistance_resolve (t1 t2 : TeacherWithUser) :
  calculateDistance h t1 t2 =
  match explicitPoint h (currentLatitude t1) (currentLongitude t1),
        explicitPoint h (currentLatitude t2) (currentLongitude t2) with
  | Some p, Some q => legDistance h (Some p) (Some q)
  | _, _ => legDistance h (foundPoint h (currentDistrict t1))
                          (foundPoint h (currentDistrict t2))
  end.
Proof.
  unfold calculateDistance, explicitPoint, foundPoint, legDistance.
  destruct (truthy (currentLatitude t1)), (truthy (currentLongitude t1));
    destruct (truthy (currentLatitude t2)), (truthy (currentLongitude t2));
    try reflexivity;
    destruct (getDistrictCoordinates h (currentDistrict t1));
    destruct (getDistrictCoordinates h (currentDistrict t2)); reflexivity.
Qed.

Lemma calculateDistanceToHome_resolve (t : TeacherWithUser) :
  calculateDistanceToHome h t =
  match explicitPoint h (currentLatitude t) (currentLongitude t),
        explicitPoint h (homeLatitude t) (homeLongitude t) with
  | Some p, Some q => legDistance h (Some p) (Some q)
  | _, _ => legDistance h (foundPoint h (currentDistrict t))
                          (foundPoint h (homeDistrict t))
  end.
Proof.
  unfold calculateDistanceToHome, explicitPoint, foundPoint, legDistance.
  destruct (truthy (currentLatitude t)), (truthy (currentLongitude t));
    destruct (truthy (homeLatitude t)), (truthy (homeLongitude t));
    try reflexivity;
    destruct (getDistrictCoordinates h (currentDistrict t));
    destruct (getDistrictCoordinates h (homeDistrict t)); reflexivity.
Qed.

Lemma resolve_one_none (la lo : option string) (district : string) :
  resolve h [(la, lo)] district = None ->
  explicitPoint h la lo = None /\ districtPoint h district = None.
Proof.
  cbn [resolve]. destruct (explicitPoint h la lo); [discriminate | auto].
Qed.

Lemma legDistance_none_l (q : option Point) : legDistance h None q = 0.
Proof. reflexivity. Qed.

Lemma legDistance_none_r (p : option Point) : legDistance h p None = 0.
Proof. destruct p as [[a b] | ]; reflexivity. Qed.

Lemma unresolved_not_found (la lo : option string) (district : string) :
  resolve h [(la, lo)] district = None -> readsInherited h district = false ->
  explicitPoint h la lo = None /\ foundPoint h district = None.
Proof.
  intros H Hi. apply resolve_one_none in H. destruct H as [He Hd].
  split; [exact He|]. rewrite foundPoint_table, Hd by exact Hi. reflexivity.
Qed.

(** A leg with an endpoint that nothing resolves has distance 0, unless
    the district of that endpoint reads an inherited property. *)
Lemma calculateDistance_unresolved (t1 t2 : TeacherWithUser) :
  (currentEndpoint h t1 = None /\ readsInherited h (currentDistrict t1) = false) \/
  (currentEndpoint h t2 = None /\ readsInherited h (currentDistrict t2) = false) ->
  calculateDistance h t1 t2 = 0.
Proof.
  rewrite calculateDistance_resolve. unfold currentEndpoint.
  intros [[H Hi] | [H Hi]]; apply unresolved_not_found in H; try exact Hi;
    destruct H as [-> ->].
  - apply legDistance_none_l.
  - destruct (explicitPoint h _ _); apply legDistance_none_r.
Qed.

Lemma calculateDistanceToHome_unresolved (t : TeacherWithUser) :
  (currentEndpoint h t = None /\ readsInherited h (currentDistrict t) = false) \/
  (homeEndpoint h t = None /\ readsInherited h (homeDistrict t) = false) ->
  calculateDistanceToHome h t = 0.
Proof.
  rewrite calculateDistanceToHome_resolve. unfold currentEndpoint, homeEndpoint.
  intros [[H Hi] | [H Hi]]; apply unresolved_not_found in H; try exact Hi;
    destruct H as [-> ->].
  - apply legDistance_none_l.
  - destruct (explicitPoint h _ _); apply legDistance_none_r.
Qed.

Lemma calculateDistanceFromTeacherToHome_unresolved (t ht : TeacherWithUser) :
  candidateEndpoint h t = None \/ destinationEndpoint h ht = None ->
  calculateDistanceFromTeacherToHome h t ht = 0.
Proof.
  rewrite calculateDistanceFromTeacherToHome_resolve.
  intros [-> | ->]; [reflexivity | destruct (candidateEndpoint h t); reflexivity].
Qed.

End ResolutionFacts.


(* ================================================================= *)
(** ** Exchange of the two points of [haversineDistance] *)

Section SymmetryFacts.

Lemma binary_round_aux_opp (s : bool) (m e : Z) (l : location) :
  SFopp (binary_round_aux prec emax s m e l) = binary_round_aux prec emax (negb s) m e l.
Proof.
  unfold binary_round_aux.
  destruct (shr_fexp prec emax m e l) as [r1 e1].
  destruct (shr_fexp prec emax _ e1 loc_Exact) as [r2 e2].
  destruct (shr_m r2); try reflexivity.
  destruct (e2 <=? emax - prec)%Z; reflexivity.
Qed.

Lemma SFmul_opp_l (x y : spec_float) :
  SFmul prec emax (SFopp x) y = SFopp (SFmul prec emax x y).
Proof.
  destruct x as [ sx | sx | | sx mx ex ]; destruct y as [ sy | sy | | sy my ey ];
    cbn [SFopp SFmul]; rewrite ?binary_round_aux_opp;
    repeat match goal with s : bool |- _ => destruct s end; reflexivity.
Qed.

Lemma SFmul_comm (x y : spec_float) : SFmul prec emax x y = SFmul prec emax y x.
Proof.
  destruct x as [ sx | sx | | sx mx ex ]; destruct y as [ sy | sy | | sy my ey ];
    cbn [SFmul]; rewrite ?(xorb_comm sx sy); try reflexivity.
  rewrite Pos.mul_comm, Z.add_comm. reflexivity.
Qed.

Lemma SFdiv_opp_l (x y : spec_float) :
  SFdiv prec emax (SFopp x) y = SFopp (SFdiv prec emax x y).
Proof.
  destruct x as [ sx | sx | | sx mx ex ]; destruct y as [ sy | sy | | sy my ey ];
    cbn [SFopp SFdiv];
    try destruct (SFdiv_core_binary prec emax (Z.pos mx) ex (Z.pos my) ey) as [[mz ez] lz];
    rewrite ?binary_round_aux_opp;
    repeat match goal with s : bool |- _ => destruct s end; reflexivity.
Qed.

Lemma binary_normalize_opp (z e : Z) :
  z <> 0%Z ->
  binary_normalize prec emax (- z) e false = SFopp (binary_normalize prec emax z e false).
Proof.
  intros Hz. destruct z as [ | p | p ]; [congruence | | ]; cbn [Z.opp binary_normalize];
    unfold binary_round; destruct (shl_align _ _ _) as [mz ez];
    rewrite binary_round_aux_opp; reflexivity.
Qed.

(** Swapping the operands of a difference negates it, unless both
    differences are [+0]. *)
Lemma SFsub_swap (x y : spec_float) :
  SFsub prec emax y x = SFopp (SFsub prec emax x y) \/
  (SFsub prec emax y x = S754_zero false /\ SFsub prec emax x y = S754_zero false).
Proof.
  destruct x as [ [|] | [|] | | sx mx ex ]; destruct y as [ [|] | [|] | | sy my ey ];
    cbn [SFsub SFopp negb]; rewrite ?negb_involutive; auto.
  set (a := cond_Zopp sx (Z.pos (fst (shl_align mx ex (Z.min ex ey))))).
  set (b := cond_Zopp sy (Z.pos (fst (shl_align my ey (Z.min ex ey))))).
  rewrite (Z.min_comm ey ex). fold a b.
  destruct (Z.eq_dec (a - b) 0) as [E | E].
  - right. replace (b - a)%Z with 0%Z by lia. rewrite E. auto.
  - left. replace (b - a)%Z with (- (a - b))%Z by lia. apply binary_normalize_opp. exact E.
Qed.

Lemma mul_opp_l (x y : float) : - x * y = - (x * y).
Proof.
  apply Prim2SF_inj. rewrite mul_spec, !opp_spec, mul_spec. apply SFmul_opp_l.
Qed.

Lemma mul_comm (x y : float) : x * y = y * x.
Proof. apply Prim2SF_inj. rewrite !mul_spec. apply SFmul_comm. Qed.

Lemma mul_opp_r (x y : float) : x * - y = - (x * y).
Proof. rewrite (mul_comm x (- y)), mul_opp_l, (mul_comm y x). reflexivity. Qed.

Lemma div_opp_l (x y : float) : - x / y = - (x / y).
Proof.
  apply Prim2SF_inj. rewrite div_spec, !opp_spec, div_spec. apply SFdiv_opp_l.
Qed.

Lemma opp_involutive (x : float) : - - x = x.
Proof.
  apply Prim2SF_inj. rewrite !opp_spec.
  destruct (Prim2SF x); cbn [SFopp]; rewrite ?negb_involutive; reflexivity.
Qed.

Lemma sub_swap (x y : float) : y - x = - (x - y) \/ (y - x = 0 /\ x - y = 0).
Proof.
  destruct (SFsub_swap (Prim2SF x) (Prim2SF y)) as [H | [H1 H2]].
  - left. apply Prim2SF_inj. rewrite opp_spec, !sub_spec. exact H.
  - right. split; apply Prim2SF_inj; rewrite sub_spec; assumption.
Qed.

Variable h : Host.
Hypothesis Hodd : sin_odd h.

(** The half-angle sine of a difference, up to sign. *)
Lemma half_sine_swap (x y : float) :
  let s := Math_sin h (toRadians (y - x) / 2) in
  let s' := Math_sin h (toRadians (x - y) / 2) in
  s' = s \/ s' = - s.
Proof.
  cbv zeta. destruct (sub_swap y x) as [E | [E1 E2]].
  - right. rewrite E. unfold toRadians. rewrite mul_opp_l, div_opp_l. apply Hodd.
  - left. rewrite E1, E2. reflexivity.
Qed.

Lemma haversine_symmetric (lat1 lon1 lat2 lon2 : float) :
  haversineDistance h lat1 lon1 lat2 lon2 = haversineDistance h lat2 lon2 lat1 lon1.
Proof.
  unfold haversineDistance. cbv zeta.
  set (c1 := Math_cos h (toRadians lat1)). set (c2 := Math_cos h (toRadians lat2)).
  assert (Ea : Math_sin h (toRadians (lat2 - lat1) / 2) * Math_sin h (toRadians (lat2 - lat1) / 2)
               = Math_sin h (toRadians (lat1 - lat2) / 2) * Math_sin h (toRadians (lat1 - lat2) / 2)).
  { destruct (half_sine_swap lat1 lat2) as [-> | ->]; [reflexivity|].
    rewrite mul_opp_l, mul_opp_r, opp_involutive. reflexivity. }
  assert (Eb : c1 * c2 * Math_sin h (toRadians (lon2 - lon1) / 2) * Math_sin h (toRadians (lon2 - lon1) / 2)
               = c2 * c1 * Math_sin h (toRadians (lon1 - lon2) / 2) * Math_sin h (toRadians (lon1 - lon2) / 2)).
  { rewrite (mul_comm c2 c1).
    destruct (half_sine_swap lon1 lon2) as [-> | ->]; [reflexivity|].
    rewrite !mul_opp_r, mul_opp_l, opp_involutive. reflexivity. }
  rewrite Ea, Eb. reflexivity.
Qed.

End SymmetryFacts.

(* ================================================================= *)
(** ** The distance from a point to itself *)

Section ZeroFacts.

Lemma is_finite_spec (x : float) : is_finite x = SFfinite (Prim2SF x).
Proof.
  unfold is_finite, is_infinity. rewrite is_nan_spec, eqb_spec, abs_spec.
  change (Prim2SF infinity) with (S754_infinity false).
  destruct (Prim2SF x) as [ [|] | [|] | | [|] m e ]; reflexivity.
Qed.

Lemma Zdigits2_le (z k : Z) : (0 <= z < 2 ^ k)%Z -> (0 <= k)%Z -> (Zdigits2 z <= k)%Z.
Proof.
  intros [Hz Hk] Hk0. destruct z as [ | p | p ]; cbn [Zdigits2]; try lia.
  pose proof (digits2_bounds p) as [Hlo _].
  assert (2 ^ (Z.pos (digits2_pos p) - 1) < 2 ^ k)%Z by lia.
  apply Z.pow_lt_mono_r_iff in H; lia.
Qed.

Lemma Zdigits2_bound (z : Z) : (0 <= z)%Z -> (z < 2 ^ Zdigits2 z)%Z.
Proof.
  intros Hz. destruct z as [ | p | p ]; cbn [Zdigits2]; try lia.
  apply digits2_bounds.
Qed.

Lemma Zdigits2_nonneg (z : Z) : (0 <= Zdigits2 z)%Z.
Proof. destruct z; cbn; lia. Qed.

(** The exponent after a shift, and the size of what is left. *)
Lemma shr_fexp_exponent (m e : Z) (l : location) :
  (0 <= m)%Z ->
  let '(r, e') := shr_fexp prec emax m e l in
  e' = Z.max e (fexp prec emax (Zdigits2 m + e)) /\
  (0 <= shr_m r)%Z /\
  (Zdigits2 (shr_m r) + e' <= Z.max (Zdigits2 m + e) e')%Z.
Proof.
  intros Hm. unfold shr_fexp, shr.
  destruct (fexp prec emax (Zdigits2 m + e) - e)%Z as [ | p | p ] eqn:E.
  - rewrite shr_record_m. repeat split; lia.
  - rewrite iter_shr_m by (rewrite shr_record_m; exact Hm). rewrite shr_record_m.
    assert (Hq : (0 <= m / 2 ^ Z.pos p)%Z) by (apply Z.div_pos; lia).
    repeat split; try lia.
    pose proof (Zdigits2_bound m Hm) as Hb. pose proof (Zdigits2_nonneg m) as Hd.
    destruct (Z.le_gt_cases (Z.pos p) (Zdigits2 m)) as [Hle | Hgt].
    + assert (Zdigits2 (m / 2 ^ Z.pos p) <= Zdigits2 m - Z.pos p)%Z.
      { apply Zdigits2_le; [|lia]. split; [exact Hq|].
        apply Z.div_lt_upper_bound; [lia|].
        rewrite <- Z.pow_add_r by lia. replace (Z.pos p + (Zdigits2 m - Z.pos p))%Z with (Zdigits2 m) by lia.
        exact Hb. }
      lia.
    + assert (m / 2 ^ Z.pos p = 0)%Z.
      { apply Z.div_small. split; [exact Hm|].
        apply Z.lt_le_trans with (2 ^ Zdigits2 m)%Z; [exact Hb|].
        apply Z.pow_le_mono_r; lia. }
      rewrite H. cbn [Zdigits2]. lia.
  - rewrite shr_record_m. repeat split; lia.
Qed.

(** A product, exactly rounded, does not overflow when its exponent is
    small enough. *)
Lemma binary_round_aux_finite (s : bool) (m : positive) (e : Z) :
  (e <= 971)%Z -> (Z.pos (digits2_pos m) + e <= 1023)%Z ->
  SFfinite (binary_round_aux prec emax s (Z.pos m) e loc_Exact) = true.
Proof.
  intros He Hd. unfold binary_round_aux.
  pose proof (shr_fexp_exponent (Z.pos m) e loc_Exact ltac:(lia)) as H1.
  destruct (shr_fexp prec emax (Z.pos m) e loc_Exact) as [r1 e1].
  destruct H1 as (E1 & P1 & D1). cbn [Zdigits2] in E1, D1. rewrite fexp_eq in E1.
  pose proof (rne_cases r1) as Hr. cbv zeta in Hr.
  set (m2 := round_nearest_even (shr_m r1) (loc_of_shr_record r1)) in *.
  assert (P2 : (0 <= m2)%Z) by lia.
  assert (D2 : (Zdigits2 m2 <= Zdigits2 (shr_m r1) + 1)%Z).
  { pose proof (Zdigits2_bound _ P1) as Hb. pose proof (Zdigits2_nonneg (shr_m r1)).
    apply Zdigits2_le; [|lia]. rewrite Z.pow_add_r by lia. change (2 ^ 1)%Z with 2%Z. lia. }
  pose proof (shr_fexp_exponent m2 e1 loc_Exact P2) as H2.
  destruct (shr_fexp prec emax m2 e1 loc_Exact) as [r2 e2].
  destruct H2 as (E2 & P3 & _). rewrite fexp_eq in E2.
  destruct (shr_m r2); try lia; [reflexivity|].
  replace (e2 <=? emax - prec)%Z with true; [reflexivity|].
  symmetry. apply Z.leb_le. change (emax - prec)%Z with 971%Z. lia.
Qed.

(** Scaling a finite number by a constant below one stays finite. *)
Lemma toRadians_finite (x : float) : is_finite x = true -> is_finite (toRadians x) = true.
Proof.
  rewrite !is_finite_spec. unfold toRadians. rewrite mul_spec.
  change (Prim2SF (Math_PI / 180)) with (S754_finite false 5030569068109113 (-58)).
  pose proof (Prim2SF_valid x) as Hv.
  destruct (Prim2SF x) as [ s | s | | s m e ]; try discriminate; [reflexivity|]. intros _.
  apply valid_finite in Hv. destruct Hv as (He & Hd & _).
  cbn [SFmul]. apply binary_round_aux_finite; [lia|].
  pose proof (digits2_bounds m) as [_ Hm].
  pose proof (digits2_bounds (m * 5030569068109113)) as [Hlo _].
  assert (Hp : (Z.pos (m * 5030569068109113) < 2 ^ (Z.pos (digits2_pos m) + 53))%Z).
  { rewrite Pos2Z.inj_mul, Z.pow_add_r by lia.
    assert (5030569068109113 < 2 ^ 53)%Z by reflexivity. nia. }
  assert (Hlt : (2 ^ (Z.pos (digits2_pos (m * 5030569068109113)) - 1) <
                 2 ^ (Z.pos (digits2_pos m) + 53))%Z) by lia.
  apply Z.pow_lt_mono_r_iff in Hlt; lia.
Qed.

(** The product of two numbers of magnitude at most one is finite. *)
Lemma mul_bounded_finite (x y : float) :
  (abs x <=? 1) = true -> (abs y <=? 1) = true -> is_finite (x * y) = true.
Proof.
  assert (Hshape : forall z, (abs z <=? 1) = true ->
            match Prim2SF z with
            | S754_zero _ => True
            | S754_finite _ m e => (Z.pos (digits2_pos m) + e <= 1)%Z /\ (e <= 0)%Z
            | _ => False
            end).
  { intros z Hz. rewrite leb_spec, abs_spec in Hz.
    change (Prim2SF 1) with (S754_finite false 4503599627370496 (-52)) in Hz.
    pose proof (Prim2SF_valid z) as Hv.
    destruct (Prim2SF z) as [ s | s | | s m e ]; try exact I; try discriminate Hz.
    pose proof (SFcompare_rank (S754_finite false m e) (S754_finite false 4503599627370496 (-52))
                  Hv eq_refl ltac:(discriminate) ltac:(discriminate)) as Hc.
    cbn [SFabs] in Hz. unfold SFleb in Hz. rewrite Hc in Hz.
    unfold rank in Hz. cbn [sign_of cond_Zopp mag] in Hz.
    change (4503599627370496 * 2 ^ (-52 + 1074))%Z with (2 ^ 1074)%Z in Hz.
    assert (Hle : (Z.pos m * 2 ^ (e + 1074) <= 2 ^ 1074)%Z).
    { destruct (Z.compare_spec (Z.pos m * 2 ^ (e + 1074)) (2 ^ 1074)); try lia; discriminate Hz. }
    apply valid_finite in Hv. destruct Hv as (He & _ & _).
    pose proof (digits2_bounds m) as [Hlo _].
    assert (H0 : (0 < 2 ^ (e + 1074))%Z) by (apply pow2_pos; lia).
    assert (Hpw : (2 ^ (Z.pos (digits2_pos m) - 1 + (e + 1074)) <= 2 ^ 1074)%Z).
    { rewrite Z.pow_add_r by lia. nia. }
    apply Z.pow_le_mono_r_iff in Hpw; try lia. }
  intros Hx Hy. apply Hshape in Hx, Hy.
  rewrite is_finite_spec, mul_spec.
  destruct (Prim2SF x) as [ sx | sx | | sx mx ex ]; try contradiction;
  destruct (Prim2SF y) as [ sy | sy | | sy my ey ]; try contradiction; try reflexivity.
  destruct Hx as [Hdx Hex], Hy as [Hdy Hey].
  cbn [SFmul]. apply binary_round_aux_finite; [lia|].
  pose proof (digits2_bounds mx) as [_ Hmx]. pose proof (digits2_bounds my) as [_ Hmy].
  pose proof (digits2_bounds (mx * my)) as [Hlo _].
  assert (Hp : (Z.pos (mx * my) < 2 ^ (Z.pos (digits2_pos mx) + Z.pos (digits2_pos my)))%Z).
  { rewrite Pos2Z.inj_mul, Z.pow_add_r by lia. nia. }
  assert (Hlt : (2 ^ (Z.pos (digits2_pos (mx * my)) - 1) <
                 2 ^ (Z.pos (digits2_pos mx) + Z.pos (digits2_pos my)))%Z) by lia.
  apply Z.pow_lt_mono_r_iff in Hlt; lia.
Qed.

Lemma sub_diag (x : float) : is_finite x = true -> x - x = 0.
Proof.
  rewrite is_finite_spec. intros Hf. apply Prim2SF_inj. rewrite sub_spec.
  change (Prim2SF 0) with (S754_zero false).
  pose proof (Prim2SF_valid x) as Hv.
  destruct (Prim2SF x) as [ [|] | s | | s m e ]; try discriminate; try reflexivity.
  pose proof (SFsub_finite s s m m e e Hv Hv) as H. unfold exact_result in H.
  rewrite Z.sub_diag in H. exact H.
Qed.

(** A finite number times [+0], twice, is a zero. *)
Lemma mul_zero_zero (p : float) :
  is_finite p = true -> 0 + p * 0 * 0 = 0.
Proof.
  rewrite is_finite_spec. intros Hf. apply Prim2SF_inj.
  rewrite add_spec, !mul_spec. change (Prim2SF 0) with (S754_zero false).
  destruct (Prim2SF p) as [ [|] | s | | [|] m e ]; try discriminate; reflexivity.
Qed.

Variable h : Host.
Hypothesis Hzero : sin_zero h.
Hypothesis Hcos : cos_bounded h.
Hypothesis Hatan : atan2_zero h.

Lemma haversine_same_point (lat lon : float) :
  is_finite lat = true -> is_finite lon = true ->
  haversineDistance h lat lon lat lon = 0.
Proof.
  intros Hlat Hlon. unfold haversineDistance. cbv zeta.
  rewrite !sub_diag by assumption.
  change (toRadians 0 / 2) with 0. rewrite Hzero. change (0 * 0) with 0.
  pose proof (Hcos (toRadians lat) (toRadians_finite lat Hlat)) as Hc.
  rewrite (mul_zero_zero _ (mul_bounded_finite _ _ Hc Hc)).
  change (Math_sqrt 0) with 0. change (Math_sqrt (1 - 0)) with 1.
  rewrite Hatan. reflexivity.
Qed.

End ZeroFacts.


(* ================================================================= *)
(** ** The first-order host *)

Lemma SFdiv_sign_nonneg (x y : spec_float) :
  sign_of x = false -> sign_of y = false -> SFnonneg (SFdiv prec emax x y) = true.
Proof.
  destruct x as [ [|] | [|] | | [|] mx ex ]; destruct y as [ [|] | [|] | | [|] my ey ];
    cbn [sign_of SFdiv xorb SFnonneg]; try discriminate; try reflexivity; intros _ _.
  destruct (SFdiv_core_binary prec emax (Z.pos mx) ex (Z.pos my) ey) as [[mz ez] lz].
  apply binary_round_aux_nonneg.
Qed.

(** The first-order host meets the assumption on [Math.atan2]. *)
Lemma first_order_atan2_nonneg : atan2_nonneg FirstOrder.host.
Proof.
  intros y x Hy. cbn [Math_atan2 FirstOrder.host].
  rewrite ltb_zero_spec, div_spec, abs_spec, negb_false_iff.
  rewrite get_sign_spec in Hy.
  apply SFdiv_sign_nonneg; [exact Hy | destruct (Prim2SF x); reflexivity].
Qed.


(* ================================================================= *)
(** ** Order of the returned list *)

Lemma sorted_ordered (l : list MatchResult) :
  Forall numeric l -> StronglySorted keyLe l -> StronglySorted ordered l.
Proof.
  intros Hn Hs. induction Hs as [ | x l Hs IH Hx]; [constructor|].
  inversion Hn as [ | ? ? Nx Nl]; subst.
  constructor; [apply IH; exact Nl|].
  rewrite Forall_forall in *. intros y Hy. apply keyLe_ordered; auto.
Qed.



(* ================================================================= *)
(** ** Scores and distances

    The score of a nearby match is [Math.max(0, 100 - Math.floor(d / 10))].
    Its value is read off the binary64 operations: the quotient by ten
    is a nearest number to the exact tenth, so it grows with [d] and
    never rounds up to a whole number; the floor is a whole number; and
    the difference from 100 is exact. *)

Section NearestFacts.
#[local] Open Scope Z_scope.

Lemma placed_of_loc (m N D rho : Z) :
  0 <= m -> N = m * D + rho -> 0 <= rho < D ->
  placed (shr_record_of_loc m (if rho =? 0 then loc_Exact else loc_Inexact (2 * rho ?= D))) N D.
Proof.
  intros Hm HN Hr. split.
  - rewrite shr_record_m. exact Hm.
  - exists rho. rewrite shr_record_m. repeat split; try lia.
    destruct (rho =? 0); [reflexivity|]. destruct (2 * rho ?= D); reflexivity.
Qed.

Lemma shr_1_placed (r : shr_record) (N D : Z) :
  placed r N D -> placed (shr_1 r) N (2 * D).
Proof.
  intros (Hm & rho & HN & Hr & Hl).
  assert (Hm1 : shr_m (shr_1 r) = shr_m r / 2) by (apply shr_1_m; exact Hm).
  pose proof (Z.div_mod (shr_m r) 2 ltac:(lia)) as Hdm.
  pose proof (Z.mod_pos_bound (shr_m r) 2 ltac:(lia)) as Hb.
  split; [rewrite Hm1; apply Z.div_pos; lia|].
  exists (rho + (shr_m r mod 2) * D). rewrite Hm1.
  split; [nia|]. split; [nia|].
  destruct r as [m rb sb]. cbn [shr_m] in *.
  assert (Hbits : (rb || sb = negb (rho =? 0))%bool).
  { destruct rb, sb, (Z.eqb_spec rho 0); cbn in Hl |- *; try reflexivity; try discriminate. }
  assert (Hshape : shr_1 {| shr_m := m; shr_r := rb; shr_s := sb |} =
                   {| shr_m := m / 2; shr_r := Z.odd m; shr_s := (rb || sb)%bool |}).
  { destruct m as [ | [p|p| ] | p ]; try lia;
      cbn [shr_1 shr_m Z.odd] in Hm1 |- *; rewrite <- ?Hm1; reflexivity. }
  rewrite Hshape, Hbits. cbn [loc_of_shr_record].
  rewrite Zmod_odd in *.
  destruct (Z.odd m); destruct (Z.eqb_spec rho 0) as [E | E]; cbn [negb].
  - subst rho. replace (0 + 1 * D =? 0) with false by (symmetry; apply Z.eqb_neq; lia).
    replace (2 * (0 + 1 * D) ?= 2 * D) with Eq by (symmetry; apply Z.compare_eq_iff; lia).
    reflexivity.
  - replace (rho + 1 * D =? 0) with false by (symmetry; apply Z.eqb_neq; lia).
    replace (2 * (rho + 1 * D) ?= 2 * D) with Gt by (symmetry; apply Z.compare_gt_iff; lia).
    reflexivity.
  - subst rho. reflexivity.
  - replace (rho + 0 * D =? 0) with false by (symmetry; apply Z.eqb_neq; lia).
    replace (2 * (rho + 0 * D) ?= 2 * D) with Lt by (symmetry; apply Z.compare_lt_iff; lia).
    reflexivity.
Qed.

Lemma iter_shr_placed (p : positive) (r : shr_record) (N D : Z) :
  placed r N D -> placed (iter_pos shr_1 p r) N (2 ^ Zpos p * D).
Proof.
  intros H. induction p using Pos.peano_ind.
  - cbn [iter_pos]. change (2 ^ 1) with 2. apply shr_1_placed. exact H.
  - rewrite iter_pos_succ, Pos2Z.inj_succ, Z.pow_succ_r, <- Z.mul_assoc by lia.
    apply shr_1_placed. exact IHp.
Qed.

(** No number lies strictly between two neighbours of the grid of the
    canonical exponent. *)
Lemma grid_gap (e1 m1 u : Z) :
  -1074 <= e1 -> 0 <= m1 -> e1 = -1074 \/ 2 ^ 52 <= m1 -> representable u ->
  u <= m1 * 2 ^ (e1 + 1074) \/ (m1 + 1) * 2 ^ (e1 + 1074) <= u.
Proof.
  intros He1 Hm1 Hc [-> | (t & m & e & Hv & ->)].
  { left. apply Z.mul_nonneg_nonneg; [lia | apply Z.pow_nonneg; lia]. }
  apply valid_finite in Hv. destruct Hv as (He & Hd & _).
  cbn [mag]. set (G := 2 ^ (e1 + 1074)).
  assert (HG : 0 < G) by (apply pow2_pos; lia).
  destruct (Z.le_gt_cases e1 e) as [Hle | Hlt].
  - replace (2 ^ (e + 1074)) with (2 ^ (e - e1) * G)
      by (unfold G; rewrite <- Z.pow_add_r by lia; f_equal; lia).
    set (k := Zpos m * 2 ^ (e - e1)).
    replace (Zpos m * (2 ^ (e - e1) * G)) with (k * G) by (unfold k; ring).
    destruct (Z.le_gt_cases k m1); [left | right]; nia.
  - left. destruct Hc as [-> | Hm52]; [lia|].
    pose proof (digits2_bounds m) as [_ Hm].
    assert (2 ^ Zpos (digits2_pos m) <= 2 ^ 53) by (apply Z.pow_le_mono_r; lia).
    assert (0 < 2 ^ (e + 1074)) by (apply pow2_pos; lia).
    assert (HGe : 2 * 2 ^ (e + 1074) <= G).
    { unfold G. rewrite <- Z.pow_succ_r by lia. apply Z.pow_le_mono_r; lia. }
    apply Z.le_trans with (2 ^ 53 * 2 ^ (e + 1074)); [nia|].
    change (2 ^ 53) with (2 ^ 52 * 2).
    apply Z.le_trans with (2 ^ 52 * G); [nia|].
    apply Z.mul_le_mono_nonneg_r; lia.
Qed.

Lemma Zdigits2_bounds (m : Z) :
  0 < m -> 2 ^ (Zdigits2 m - 1) <= m < 2 ^ Zdigits2 m.
Proof.
  destruct m as [ | p | p ]; try lia. intros _. apply digits2_bounds.
Qed.

(** The first shift of [binary_round_aux] keeps the place of the exact
    value. *)
Lemma shr_fexp_placed (mz ez : Z) (lz : location) (N D rho : Z) :
  0 <= mz -> ez <= fexp prec emax (Zdigits2 mz + ez) ->
  N = mz * D + rho -> 0 <= rho < D ->
  lz = (if rho =? 0 then loc_Exact else loc_Inexact (2 * rho ?= D)) ->
  let n := fexp prec emax (Zdigits2 mz + ez) - ez in
  exists R1, shr_fexp prec emax mz ez lz = (R1, ez + n) /\
             placed R1 N (2 ^ n * D) /\ shr_m R1 = mz / 2 ^ n.
Proof.
  intros Hmz Hez HN Hrho -> n.
  pose proof (placed_of_loc mz N D rho Hmz HN Hrho) as H0.
  unfold shr_fexp, shr. fold n.
  destruct n as [ | p | p ] eqn:En; try lia.
  - eexists. split; [rewrite Z.add_0_r; reflexivity|].
    rewrite shr_record_m, Z.pow_0_r, Z.mul_1_l, Z.div_1_r. auto.
  - eexists. split; [reflexivity|]. split.
    + apply iter_shr_placed. exact H0.
    + rewrite iter_shr_m by (rewrite shr_record_m; exact Hmz).
      rewrite shr_record_m. reflexivity.
Qed.

(** Rounding to nearest even moves the mantissa to the nearer neighbour. *)
Lemma rne_nearest (R1 : shr_record) (N D : Z) :
  placed R1 N D ->
  let m2 := round_nearest_even (shr_m R1) (loc_of_shr_record R1) in
  exists rho, N = shr_m R1 * D + rho /\ 0 <= rho < D /\
    (m2 = shr_m R1 \/ m2 = shr_m R1 + 1) /\
    Z.abs (N - D * m2) <= rho /\ Z.abs (N - D * m2) <= D - rho.
Proof.
  intros (Hm & rho & HN & Hr & Hl) m2. exists rho.
  split; [exact HN|]. split; [exact Hr|].
  unfold m2. rewrite Hl. clear Hl m2.
  set (m1 := shr_m R1) in *.
  destruct (Z.eqb_spec rho 0) as [E | E]; cbn [round_nearest_even].
  - subst rho. split; [left; reflexivity|]. split; lia.
  - destruct (Z.compare_spec (2 * rho) D) as [Hc | Hc | Hc].
    + destruct (Z.even m1); (split; [auto|]); split; lia.
    + split; [auto|]. split; lia.
    + split; [auto|]. split; lia.
Qed.

(** The second shift of [binary_round_aux]: a rounded mantissa is
    canonical already, but for the carry into a 54th bit. *)
Lemma shr_fexp_rounded (s : bool) (m2 e1 : Z) :
  -1074 <= e1 -> 0 <= m2 <= 2 ^ 53 -> e1 = -1074 \/ 2 ^ 52 <= m2 ->
  (m2 = 0 /\
   match shr_m (fst (shr_fexp prec emax m2 e1 loc_Exact)) with
   | 0 => S754_zero s
   | Zpos m => if snd (shr_fexp prec emax m2 e1 loc_Exact) <=? emax - prec
               then S754_finite s m (snd (shr_fexp prec emax m2 e1 loc_Exact))
               else S754_infinity s
   | Zneg _ => S754_nan
   end = S754_zero s) \/
  (exists m e, -1074 <= e /\ fexp prec emax (Zpos (digits2_pos m) + e) = e /\
     m2 * 2 ^ (e1 + 1074) = Zpos m * 2 ^ (e + 1074) /\
     match shr_m (fst (shr_fexp prec emax m2 e1 loc_Exact)) with
     | 0 => S754_zero s
     | Zpos m => if snd (shr_fexp prec emax m2 e1 loc_Exact) <=? emax - prec
                 then S754_finite s m (snd (shr_fexp prec emax m2 e1 loc_Exact))
                 else S754_infinity s
     | Zneg _ => S754_nan
     end = if e <=? 971 then S754_finite s m e else S754_infinity s).
Proof.
  intros He1 Hm2 Hc.
  destruct (Z.eq_dec m2 0) as [-> | Hnz].
  { left. split; [reflexivity|].
    unfold shr_fexp. cbn [Zdigits2]. rewrite fexp_eq.
    destruct (Z.max (0 + e1 - 53) (-1074) - e1) eqn:E; try lia; reflexivity. }
  right.
  destruct (Z.eq_dec m2 (2 ^ 53)) as [-> | Hnc].
  - exists (Z.to_pos (2 ^ 52)), (e1 + 1).
    replace (shr_fexp prec emax (2 ^ 53) e1 loc_Exact)
      with ({| shr_m := 2 ^ 52; shr_r := false; shr_s := false |}, e1 + 1).
    2:{ unfold shr_fexp. change (Zdigits2 (2 ^ 53)) with 54. rewrite fexp_eq.
        replace (Z.max (54 + e1 - 53) (-1074) - e1) with 1 by lia. reflexivity. }
    cbn [fst snd shr_m]. change (emax - prec) with 971.
    split; [lia|]. split; [|split].
    + rewrite fexp_eq. change (Zpos (digits2_pos (Z.to_pos (2 ^ 52)))) with 53. lia.
    + replace (e1 + 1 + 1074) with (Z.succ (e1 + 1074)) by lia.
      rewrite Z.pow_succ_r by lia.
      change (Zpos (Z.to_pos (2 ^ 52))) with (2 ^ 52). change (2 ^ 53) with (2 ^ 52 * 2). ring.
    + reflexivity.
  - destruct m2 as [ | q | q ]; try lia.
    assert (Hdq : fexp prec emax (Zpos (digits2_pos q) + e1) = e1).
    { rewrite fexp_eq. pose proof (digits2_bounds q) as [Hlo Hhi].
      assert (Hd53 : Zpos (digits2_pos q) <= 53).
      { destruct (Z.le_gt_cases (Zpos (digits2_pos q)) 53) as [|Hgt]; [assumption|].
        assert (2 ^ 53 <= 2 ^ (Zpos (digits2_pos q) - 1)) by (apply Z.pow_le_mono_r; lia). lia. }
      destruct Hc as [-> | H52]; [lia|].
      assert (Zpos (digits2_pos q) = 53) by (apply digits2_unique; lia). lia. }
    exists q, e1. rewrite shr_fexp_canonical by exact Hdq.
    cbn [fst snd shr_record_of_loc shr_m]. change (emax - prec) with 971.
    repeat split; auto.
Qed.

(** [binary_round_aux] returns a number nearest to the exact value
    [N / D * 2^ez] that its arguments describe: no representable magnitude
    is closer. *)
Lemma binary_round_aux_nearest (s : bool) (mz ez : Z) (lz : location) (N D rho : Z) :
  0 <= mz -> -1074 <= ez -> ez <= fexp prec emax (Zdigits2 mz + ez) ->
  N = mz * D + rho -> 0 <= rho < D ->
  lz = (if rho =? 0 then loc_Exact else loc_Inexact (2 * rho ?= D)) ->
  exists M,
    ((M = 0 /\ binary_round_aux prec emax s mz ez lz = S754_zero s) \/
     (exists m e, -1074 <= e /\ fexp prec emax (Zpos (digits2_pos m) + e) = e /\
        M = Zpos m * 2 ^ (e + 1074) /\
        binary_round_aux prec emax s mz ez lz =
        if e <=? 971 then S754_finite s m e else S754_infinity s)) /\
    forall u, representable u ->
      Z.abs (N * 2 ^ (ez + 1074) - D * M) <= Z.abs (N * 2 ^ (ez + 1074) - D * u).
Proof.
  intros Hmz Hez Hcan HN Hrho Hlz.
  destruct (shr_fexp_placed mz ez lz N D rho Hmz Hcan HN Hrho Hlz) as (R1 & Hshr & Hloc & Hm1).
  set (n := fexp prec emax (Zdigits2 mz + ez) - ez) in *.
  assert (Hn : 0 <= n) by (unfold n; lia).
  set (e1 := ez + n) in *.
  assert (He1 : e1 = fexp prec emax (Zdigits2 mz + ez)) by (unfold e1, n; lia).
  assert (Hp2 : 0 < 2 ^ n) by (apply pow2_pos; exact Hn).
  set (m1 := shr_m R1) in *.
  assert (Hm1nn : 0 <= m1) by (rewrite Hm1; apply Z.div_pos; lia).
  (* the size of the shifted mantissa *)
  assert (Hm1hi : m1 < 2 ^ 53).
  { rewrite Hm1. destruct (Z.eq_dec mz 0) as [-> | Hnz]; [rewrite Z.div_0_l by lia; lia|].
    pose proof (Zdigits2_bounds mz ltac:(lia)) as [_ Hhi].
    apply Z.div_lt_upper_bound; [lia|]. rewrite <- Z.pow_add_r by lia.
    apply Z.lt_le_trans with (1 := Hhi). apply Z.pow_le_mono_r; [lia|].
    rewrite fexp_eq in He1. lia. }
  assert (Hm1lo : e1 = -1074 \/ 2 ^ 52 <= m1).
  { rewrite fexp_eq in He1.
    destruct (Z.eq_dec e1 (-1074)) as [|Hne]; [left; assumption | right].
    assert (En : n = Zdigits2 mz - 53) by lia.
    assert (Hpos : 0 < mz).
    { destruct (Z.eq_dec mz 0) as [E0 | ]; [|lia]. subst mz. cbn [Zdigits2] in *. lia. }
    pose proof (Zdigits2_bounds mz Hpos) as [Hlo _].
    rewrite Hm1. apply Z.div_le_lower_bound; [lia|].
    rewrite <- Z.pow_add_r by lia. replace (n + 52) with (Zdigits2 mz - 1) by lia. exact Hlo. }
  destruct (rne_nearest R1 N (2 ^ n * D) Hloc) as (rho' & HN' & Hrho' & Hm2 & Hlo & Hhi).
  cbv zeta in Hm2, Hlo, Hhi. fold m1 in HN', Hm2, Hlo, Hhi.
  set (m2 := round_nearest_even m1 (loc_of_shr_record R1)) in *.
  assert (Hm2b : 0 <= m2 <= 2 ^ 53) by lia.
  assert (Hm2c : e1 = -1074 \/ 2 ^ 52 <= m2) by lia.
  assert (He1' : -1074 <= e1) by (unfold e1; lia).
  set (g := 2 ^ (ez + 1074)).
  assert (Hg : 0 < g) by (apply pow2_pos; lia).
  assert (HG : 2 ^ (e1 + 1074) = 2 ^ n * g).
  { unfold g, e1. rewrite <- Z.pow_add_r by lia. f_equal. lia. }
  exists (m2 * 2 ^ (e1 + 1074)). split.
  - unfold binary_round_aux. rewrite Hshr. fold m1 m2.
    pose proof (shr_fexp_rounded s m2 e1 He1' Hm2b Hm2c) as Hsec.
    destruct (shr_fexp prec emax m2 e1 loc_Exact) as [R2 e2]. cbn [fst snd] in Hsec.
    destruct Hsec as [[E0 Hz] | (m & e & He & Hc & Hv & Hr)].
    + left. split; [rewrite E0; reflexivity | exact Hz].
    + right. exists m, e. auto.
  - intros u Hu. rewrite HG.
    set (Dn := 2 ^ n * D) in *.
    set (A := N - Dn * m2) in *.
    assert (HA : N * g - D * (m2 * (2 ^ n * g)) = g * A) by (unfold A, Dn; ring).
    rewrite HA, Z.abs_mul, (Z.abs_eq g) by lia.
    destruct (grid_gap e1 m1 u He1' Hm1nn Hm1lo Hu) as [Hle | Hge]; rewrite HG in *.
    + assert (H1 : D * u <= D * (m1 * (2 ^ n * g))) by (apply Z.mul_le_mono_nonneg_l; lia).
      assert (H2 : N * g - D * (m1 * (2 ^ n * g)) = g * rho') by (rewrite HN'; unfold Dn; ring).
      assert (H3 : g * Z.abs A <= g * rho') by (apply Z.mul_le_mono_nonneg_l; lia).
      lia.
    + assert (H1 : D * ((m1 + 1) * (2 ^ n * g)) <= D * u) by (apply Z.mul_le_mono_nonneg_l; lia).
      assert (H2 : D * ((m1 + 1) * (2 ^ n * g)) - N * g = g * (Dn - rho')) by (rewrite HN'; unfold Dn; ring).
      assert (H3 : g * Z.abs A <= g * (Dn - rho')) by (apply Z.mul_le_mono_nonneg_l; lia).
      lia.
Qed.

Lemma mag_inj (s1 s2 : bool) (m1 m2 : positive) (e1 e2 : Z) :
  valid_binary (S754_finite s1 m1 e1) = true ->
  valid_binary (S754_finite s2 m2 e2) = true ->
  mag (S754_finite s1 m1 e1) = mag (S754_finite s2 m2 e2) -> m1 = m2 /\ e1 = e2.
Proof.
  intros H1 H2 E. pose proof (finite_compare_mag s1 s2 m1 m2 e1 e2 H1 H2) as Hc.
  rewrite E, Z.compare_refl in Hc.
  destruct (Z.compare_spec e1 e2) as [-> | | ]; try discriminate.
  split; [|reflexivity]. apply Pos.compare_eq. exact Hc.
Qed.

(** A nearest number to the exact value [X / 10] stays below the bound
    of [X]: beyond it, zero would be nearer. *)
Lemma no_overflow (X M m P B : Z) :
  0 < B -> 0 < X < 2 ^ 52 * B -> 2 ^ 52 <= m -> B <= P -> M = m * P ->
  Z.abs (X - 10 * M) <= Z.abs (X - 10 * 0) -> False.
Proof.
  intros HB HX Hm HP -> H.
  assert (2 ^ 52 * B <= m * P) by nia. lia.
Qed.

(** The quotient of a positive number by ten is a nearest number to the
    exact tenth: a division by ten neither overflows nor returns NaN. *)
Lemma SFdiv_ten_nearest (mx : positive) (ex : Z) :
  valid_binary (S754_finite false mx ex) = true ->
  let x := S754_finite false mx ex in
  let r := SFdiv prec emax x (Prim2SF 10) in
  valid_binary r = true /\
  (r = S754_zero false \/ exists m e, r = S754_finite false m e) /\
  forall u, representable u -> Z.abs (mag x - 10 * mag r) <= Z.abs (mag x - 10 * u).
Proof.
  intros Hv x r.
  pose proof (valid_finite _ _ _ Hv) as (Hex & Hd & _).
  pose proof (digits2_bounds mx) as [Hlo Hhi].
  set (d1 := Zpos (digits2_pos mx)) in *.
  assert (Hd1 : 1 <= d1) by (unfold d1; lia).
  set (my := 5629499534213120).
  assert (Hmy : my = 5 * 2 ^ 50) by reflexivity.
  set (e' := Z.max (d1 + ex - 57) (-1074)).
  set (sh := ex + 49 - e').
  assert (Hsh : 0 < sh) by (unfold sh, e'; lia).
  set (m' := Zpos mx * 2 ^ sh).
  assert (Hp : 0 < 2 ^ sh) by (apply pow2_pos; lia).
  assert (Hm' : 0 < m') by (unfold m'; lia).
  pose proof (Z.div_mod m' my ltac:(lia)) as Hdm.
  pose proof (Z.mod_pos_bound m' my ltac:(lia)) as Hrem.
  assert (Hq : 0 <= m' / my) by (apply Z.div_pos; lia).
  assert (Hcore : SFdiv_core_binary prec emax (Zpos mx) ex my (-49) =
                  (m' / my, e',
                   if m' mod my =? 0 then loc_Exact
                   else loc_Inexact (2 * (m' mod my) ?= my))).
  { unfold SFdiv_core_binary. cbn [Zdigits2]. fold d1.
    change (Zdigits2 my) with 53. rewrite fexp_eq.
    replace (Z.min (Z.max (d1 + ex - (53 + -49) - 53) (-1074)) (ex - -49)) with e'
      by (unfold e'; lia).
    replace (ex - -49 - e') with sh by (unfold sh; lia).
    destruct sh as [ | p | p ] eqn:Esh; try lia.
    rewrite Z.shiftl_mul_pow2 by lia. fold m'.
    unfold Z.div, Z.modulo. destruct (Z.div_eucl m' my) as [q0 r0].
    reflexivity. }
  assert (Hcan : e' <= fexp prec emax (Zdigits2 (m' / my) + e')).
  { rewrite fexp_eq. destruct (Z.eq_dec e' (-1074)) as [-> | Hne]; [lia|].
    assert (Ee : e' = d1 + ex - 57) by (unfold e' in *; lia).
    assert (Es : sh = 106 - d1) by (unfold sh; lia).
    assert (H105 : 2 ^ 105 <= m').
    { unfold m'. rewrite Es.
      replace (2 ^ 105) with (2 ^ (d1 - 1) * 2 ^ (106 - d1))
        by (rewrite <- Z.pow_add_r by lia; f_equal; lia).
      apply Z.mul_le_mono_nonneg_r; lia. }
    assert (H52 : 2 ^ 52 <= m' / my).
    { apply Z.div_le_lower_bound; [lia|].
      apply Z.le_trans with (m := 2 ^ 105); [|exact H105].
      rewrite Hmy. vm_compute. discriminate. }
    pose proof (Zdigits2_bounds (m' / my) ltac:(lia)) as [_ Hqhi].
    assert (53 <= Zdigits2 (m' / my)).
    { destruct (Z.le_gt_cases 53 (Zdigits2 (m' / my))) as [|Hlt]; [assumption|].
      assert (2 ^ Zdigits2 (m' / my) <= 2 ^ 52).
      { destruct (Z.le_gt_cases 0 (Zdigits2 (m' / my))).
        - apply Z.pow_le_mono_r; lia.
        - rewrite Z.pow_neg_r by lia. lia. }
      lia. }
    lia. }
  destruct (binary_round_aux_nearest false (m' / my) e' _ m' my (m' mod my)
              Hq ltac:(unfold e'; lia) Hcan ltac:(lia) Hrem eq_refl)
    as (M & Hres & Hnear).
  assert (Er : r = binary_round_aux prec emax false (m' / my) e'
                     (if m' mod my =? 0 then loc_Exact
                      else loc_Inexact (2 * (m' mod my) ?= my))).
  { unfold r, x. change (Prim2SF 10) with (S754_finite false (Z.to_pos my) (-49)).
    cbn [SFdiv xorb]. change (Zpos (Z.to_pos my)) with my. rewrite Hcore. reflexivity. }
  rewrite <- Er in Hres.
  (* the exact value, in units of 2^-1074 *)
  assert (Hval : m' * 2 ^ (e' + 1074) = mag x * 2 ^ 49).
  { unfold m', x. cbn [mag]. rewrite <- !Z.mul_assoc, <- !Z.pow_add_r by (unfold e'; lia).
    do 2 f_equal. unfold sh. lia. }
  assert (Hnear' : forall u, representable u ->
                     Z.abs (mag x - 10 * M) <= Z.abs (mag x - 10 * u)).
  { intros u Hu. specialize (Hnear u Hu). rewrite Hval in Hnear.
    replace (mag x * 2 ^ 49 - my * M) with (2 ^ 49 * (mag x - 10 * M)) in Hnear
      by (rewrite Hmy; change (2 ^ 50) with (2 * 2 ^ 49); ring).
    replace (mag x * 2 ^ 49 - my * u) with (2 ^ 49 * (mag x - 10 * u)) in Hnear
      by (rewrite Hmy; change (2 ^ 50) with (2 * 2 ^ 49); ring).
    rewrite !Z.abs_mul in Hnear. change (Z.abs (2 ^ 49)) with (2 ^ 49) in Hnear.
    apply Z.mul_le_mono_pos_l in Hnear; [exact Hnear | reflexivity]. }
  destruct Hres as [[-> Hz] | (m & e & He & Hc & -> & Hr)].
  - rewrite Hz. split; [reflexivity|]. split; [left; reflexivity|]. exact Hnear'.
  - assert (Hle : e <= 971).
    { destruct (Z.le_gt_cases e 971) as [|Hgt]; [assumption | exfalso].
      rewrite fexp_eq in Hc.
      assert (Hd53 : Zpos (digits2_pos m) = 53) by lia.
      pose proof (digits2_bounds m) as [Hmlo _]. rewrite Hd53 in Hmlo.
      change (2 ^ (53 - 1)) with (2 ^ 52) in Hmlo.
      assert (HP : 2 ^ 2046 <= 2 ^ (e + 1074)) by (apply Z.pow_le_mono_r; lia).
      pose proof (mag_finite_lt _ _ _ Hv) as [Hx0 Hx1]. fold x in Hx0, Hx1.
      replace (2 ^ 2098) with (2 ^ 52 * 2 ^ 2046) in Hx1
        by (rewrite <- Z.pow_add_r by easy; reflexivity).
      exact (no_overflow (mag x) _ (Zpos m) (2 ^ (e + 1074)) (2 ^ 2046)
               (pow2_pos 2046 ltac:(easy)) (conj Hx0 Hx1) Hmlo HP eq_refl
               (Hnear' 0 (or_introl eq_refl))). }
    replace (e <=? 971) with true in Hr by (symmetry; apply Z.leb_le; exact Hle).
    rewrite Hr. split; [|split; [right; eauto | exact Hnear']].
    rewrite fexp_eq in Hc. apply valid_finite_intro; lia.
Qed.

End NearestFacts.

Section QuotientFacts.
#[local] Open Scope Z_scope.

Lemma representable_mag (r : spec_float) :
  valid_binary r = true ->
  r = S754_zero false \/ (exists m e, r = S754_finite false m e) ->
  representable (mag r).
Proof.
  intros Hv [-> | (m & e & ->)]; [left; reflexivity | right; eauto].
Qed.

(** The magnitude of a finite number lies below that of infinity. *)
Lemma mag_finite_inf (s t : bool) (m : positive) (e : Z) :
  valid_binary (S754_finite s m e) = true ->
  0 < mag (S754_finite s m e) < mag (S754_infinity t).
Proof.
  intros Hv. pose proof (mag_finite_lt _ _ _ Hv) as [H0 H1].
  split; [exact H0|]. apply Z.lt_trans with (1 := H1).
  apply Z.pow_lt_mono_r; easy.
Qed.

Lemma mag_inf_pos (t : bool) : 0 < mag (S754_infinity t).
Proof. apply pow2_pos. easy. Qed.

(** A whole number of units below 2^53 lies below infinity. *)
Lemma units_below_inf (k : Z) (t : bool) :
  k < 2 ^ 53 -> k * 2 ^ 1074 < mag (S754_infinity t).
Proof.
  intros Hk. apply Z.lt_trans with (2 ^ 53 * 2 ^ 1074).
  - apply Z.mul_lt_mono_pos_r; [apply pow2_pos; easy | exact Hk].
  - rewrite <- Z.pow_add_r by easy. apply Z.pow_lt_mono_r; easy.
Qed.

(** Where a number that is not below zero, and its quotient by ten, lie. *)
Lemma SFdiv_ten_cases (x : spec_float) :
  valid_binary x = true -> proper x ->
  let r := SFdiv prec emax x (Prim2SF 10) in
  rank x = mag x /\ rank r = mag r /\
  (mag x = 0 /\ mag r = 0 \/
   (exists m e, x = S754_finite false m e) /\
     0 < mag x < mag (S754_infinity false) /\
     0 <= mag r < mag (S754_infinity false) \/
   mag x = mag (S754_infinity false) /\ mag r = mag (S754_infinity false)).
Proof.
  intros Hv [Hn Hs] r. subst r.
  change (Prim2SF 10) with (S754_finite false 5629499534213120 (-49)).
  destruct x as [ s | [|] | | [|] m e ];
    try discriminate Hs; try (exfalso; apply Hn; reflexivity).
  - cbn [SFdiv]. split; [destruct s; reflexivity|].
    split; [destruct s; reflexivity|]. left. split; reflexivity.
  - cbn [SFdiv xorb]. split; [reflexivity|]. split; [reflexivity|].
    right. right. split; reflexivity.
  - destruct (SFdiv_ten_nearest m e Hv) as (Hvr & Hshape & _).
    change (Prim2SF 10) with (S754_finite false 5629499534213120 (-49)) in Hvr, Hshape.
    set (r := SFdiv prec emax _ _) in *. clearbody r.
    split; [reflexivity|].
    pose proof (mag_finite_inf false false m e Hv) as Hx.
    destruct Hshape as [-> | (m' & e' & ->)].
    + split; [reflexivity|]. right. left. split; [eauto|]. split; [exact Hx|].
      split; [apply Z.le_refl | apply mag_inf_pos].
    + pose proof (mag_finite_inf false false m' e' Hvr) as Hr.
      split; [reflexivity|]. right. left. split; [eauto|]. split; [exact Hx|].
      split; [apply Z.lt_le_incl|]; apply Hr.
Qed.

(** Division by ten is monotone. *)
Lemma SFdiv_ten_mono (x1 x2 : spec_float) :
  valid_binary x1 = true -> valid_binary x2 = true -> proper x1 -> proper x2 ->
  rank x1 <= rank x2 ->
  rank (SFdiv prec emax x1 (Prim2SF 10)) <= rank (SFdiv prec emax x2 (Prim2SF 10)).
Proof.
  intros V1 V2 P1 P2 Hle.
  destruct (SFdiv_ten_cases x1 V1 P1) as (E1 & F1 & C1).
  destruct (SFdiv_ten_cases x2 V2 P2) as (E2 & F2 & C2).
  cbv zeta in F1, F2, C1, C2. rewrite F1, F2. rewrite E1, E2 in Hle. clear E1 E2 F1 F2.
  pose proof (mag_inf_pos false) as Hinf.
  destruct C1 as [[X1 R1] | [((m1 & e1 & ->) & X1 & R1) | [X1 R1]]];
  destruct C2 as [[X2 R2] | [((m2 & e2 & ->) & X2 & R2) | [X2 R2]]]; try lia.
  (* two finite numbers *)
  destruct (SFdiv_ten_nearest m1 e1 V1) as (Hv1 & Hs1 & Hn1).
  destruct (SFdiv_ten_nearest m2 e2 V2) as (Hv2 & Hs2 & Hn2).
  set (r1 := SFdiv prec emax (S754_finite false m1 e1) _) in *.
  set (r2 := SFdiv prec emax (S754_finite false m2 e2) _) in *.
  destruct (Z.le_gt_cases (mag r1) (mag r2)) as [|Hgt]; [assumption | exfalso].
  pose proof (Hn1 (mag r2) (representable_mag r2 Hv2 Hs2)) as H1.
  pose proof (Hn2 (mag r1) (representable_mag r1 Hv1 Hs1)) as H2.
  assert (Emag : mag (S754_finite false m1 e1) = mag (S754_finite false m2 e2)) by lia.
  destruct (mag_inj _ _ _ _ _ _ V1 V2 Emag) as [-> ->].
  unfold r1, r2 in Hgt. lia.
Qed.

Lemma div_ten_mono (d1 d2 : float) :
  proper (Prim2SF d1) -> proper (Prim2SF d2) -> Rk d1 <= Rk d2 ->
  Rk (d1 / 10) <= Rk (d2 / 10).
Proof.
  intros H1 H2 Hle. unfold Rk. rewrite !div_spec.
  apply SFdiv_ten_mono; auto using Prim2SF_valid.
Qed.

(** Whole numbers below 2^53 are representable. *)
Lemma int_representable (n : Z) :
  0 <= n < 2 ^ 53 -> representable (n * 2 ^ 1074).
Proof.
  intros Hn. destruct n as [ | p | p ]; try lia; [left; reflexivity | right].
  pose proof (digits2_bounds p) as [Hlo Hhi].
  set (d := Zpos (digits2_pos p)) in *.
  assert (Hd : d <= 53).
  { destruct (Z.le_gt_cases d 53) as [|Hgt]; [assumption|].
    assert (2 ^ 53 <= 2 ^ (d - 1)) by (apply Z.pow_le_mono_r; lia). lia. }
  destruct (Z.eq_dec d 53) as [E | Hne].
  - exists false, p, 0. split; [|reflexivity].
    apply valid_finite_intro; fold d; lia.
  - exists false, (Pos.iter xO p (Z.to_pos (53 - d))), (d - 53).
    assert (Hk : Zpos (Z.to_pos (53 - d)) = 53 - d) by (apply Z2Pos.id; lia).
    split.
    + apply valid_finite_intro; rewrite ?digits2_shift, ?Pos2Z.inj_add, ?Hk; fold d; lia.
    + cbn [mag]. rewrite iter_xO_val, Hk, <- Z.mul_assoc, <- Z.pow_add_r by lia.
      do 2 f_equal. lia.
Qed.

(** A rounding of a representable value is that value. *)
Lemma rounds_to_exact (s : bool) (V : Z) (r : spec_float) :
  rounds_to s V r -> 0 < V -> representable V -> mag r = V /\ rank r = cond_Zopp s V.
Proof.
  intros Hr HV [-> | (t & m & e & Hv & ->)]; [lia|].
  pose proof (rounds_to_shape _ _ _ Hr) as (_ & Hs & _ & _).
  destruct Hr as (_ & _ & Hb). destruct (Hb t m e Hv) as [Hup Hlo].
  assert (E : mag r = mag (S754_finite t m e)) by lia.
  split; [exact E|]. unfold rank. rewrite Hs, E. reflexivity.
Qed.

(** What an operation whose exact value is a positive whole number of
    units below 2^53 returns: that number, finite and positive. *)
Lemma exact_result_whole (n : Z) (r : spec_float) :
  0 < n < 2 ^ 53 -> exact_result (n * 2 ^ 1074) r ->
  valid_binary r = true /\ rank r = n * 2 ^ 1074 /\
  exists m e, r = S754_finite false m e.
Proof.
  intros Hn H.
  pose proof (int_representable n ltac:(lia)) as Hrep.
  pose proof (units_below_inf n false ltac:(lia)) as Hinf.
  unfold exact_result in H.
  set (U := 2 ^ 1074) in *.
  assert (HU : 0 < U) by (apply pow2_pos; easy).
  assert (HV : 0 < n * U) by (apply Z.mul_pos_pos; lia).
  replace (n * U =? 0) with false in H by (symmetry; apply Z.eqb_neq; lia).
  replace (n * U <? 0) with false in H by (symmetry; apply Z.ltb_ge; lia).
  rewrite Z.abs_eq in H by lia.
  pose proof (rounds_to_shape _ _ _ H) as (_ & _ & _ & Hv).
  destruct (rounds_to_exact _ _ _ H HV Hrep) as [Hm Hr]. cbn [cond_Zopp] in Hr.
  split; [exact Hv|]. split; [exact Hr|].
  destruct H as (_ & [(m & e & ->) | ->] & _); [eauto | lia].
Qed.

Lemma ofZ_exact (n : Z) :
  0 <= n < 2 ^ 53 ->
  is_nan (ofZ n) = false /\ Rk (ofZ n) = n * 2 ^ 1074 /\
  (n = 0 \/ exists m e, Prim2SF (ofZ n) = S754_finite false m e).
Proof.
  intros Hn. destruct (Z.eq_dec n 0) as [-> | Hnz].
  { split; [reflexivity|]. split; [reflexivity | left; reflexivity]. }
  pose proof (binary_normalize_exact n 0 ltac:(lia)) as H.
  change (0 + 1074) with 1074 in H.
  destruct (exact_result_whole n _ ltac:(lia) H) as (Hv & Hr & m & e & E).
  unfold ofZ, Rk. rewrite is_nan_spec, Prim2SF_SF2Prim by exact Hv.
  split; [rewrite E; reflexivity|]. split; [exact Hr | right; eauto].
Qed.

(** [Math.floor] of a number that is not below zero cuts its rank down to
    a whole number of units. *)
Lemma floor_rank (x : float) :
  proper (Prim2SF x) ->
  Rk (Math_floor x) = Rk x / 2 ^ 1074 * 2 ^ 1074.
Proof.
  intros [Hn Hs]. unfold Math_floor, Rk.
  assert (Hp : 2 ^ 1074 <> 0) by (apply Z.pow_nonzero; easy).
  pose proof (Prim2SF_valid x) as Hv.
  destruct (Prim2SF x) as [ s | [|] | | [|] m e ] eqn:E;
    try discriminate Hs; try (exfalso; apply Hn; reflexivity); rewrite ?E.
  - unfold rank. cbn [mag sign_of]. destruct s; reflexivity.
  - unfold rank. cbn [mag sign_of cond_Zopp].
    replace (2 ^ 2100) with (2 ^ 1026 * 2 ^ 1074) by (rewrite <- Z.pow_add_r by easy; reflexivity).
    rewrite Z.div_mul by exact Hp. reflexivity.
  - pose proof (valid_finite _ _ _ Hv) as (He & Hd & _). clear Hp.
    destruct (Z.leb_spec 0 e) as [Hge | Hlt].
    + rewrite E. unfold rank. cbn [mag sign_of cond_Zopp].
      rewrite Z.pow_add_r, Z.mul_assoc, Z.div_mul by first [lia | apply Z.pow_nonzero; lia].
      reflexivity.
    + cbn [cond_Zopp]. rewrite Z.shiftr_div_pow2 by lia.
      assert (Hq : 0 < 2 ^ (- e)) by (apply pow2_pos; lia).
      assert (Hq' : 0 < 2 ^ (e + 1074)) by (apply pow2_pos; lia).
      pose proof (digits2_bounds m) as [_ Hhi].
      assert (2 ^ Zpos (digits2_pos m) <= 2 ^ 53) by (apply Z.pow_le_mono_r; lia).
      assert (Hb : 0 <= Zpos m / 2 ^ (- e) < 2 ^ 53).
      { split; [apply Z.div_pos; lia|].
        apply Z.le_lt_trans with (Zpos m); [|lia].
        apply Z.div_le_upper_bound; [lia|]. nia. }
      destruct (ofZ_exact _ Hb) as (_ & Hr & _). unfold Rk in Hr. rewrite Hr.
      unfold rank. cbn [mag sign_of cond_Zopp]. f_equal.
      replace (2 ^ 1074) with (2 ^ (- e) * 2 ^ (e + 1074))
        by (rewrite <- Z.pow_add_r by lia; f_equal; lia).
      rewrite Z.div_mul_cancel_r by lia. reflexivity.
Qed.

End QuotientFacts.

Section ScoreValueFacts.
#[local] Open Scope Z_scope.

Lemma Rk_hundred : Rk 100 = 100 * 2 ^ 1074.
Proof.
  unfold Rk, rank. change (Prim2SF 100) with (S754_finite false 7036874417766400 (-46)).
  cbn [sign_of mag cond_Zopp]. change (-46 + 1074) with 1028.
  replace (2 ^ 1074) with (2 ^ 46 * 2 ^ 1028) by (rewrite <- Z.pow_add_r by easy; reflexivity).
  rewrite Z.mul_assoc. reflexivity.
Qed.

(** A number of positive rank is a positive finite number or infinity. *)
Lemma rank_pos_cases (x : spec_float) :
  valid_binary x = true -> 0 < rank x ->
  rank x = mag x /\
  ((exists m e, x = S754_finite false m e) /\ mag x < mag (S754_infinity false) \/
   x = S754_infinity false).
Proof.
  intros Hv Hpos. destruct x as [ s | s | | s m e ].
  - destruct s; discriminate Hpos.
  - destruct s.
    + exfalso. pose proof (mag_inf_pos true) as H.
      change (rank (S754_infinity true)) with (- mag (S754_infinity true)) in Hpos. lia.
    + split; [reflexivity | right; reflexivity].
  - discriminate Hpos.
  - pose proof (mag_finite_inf s false m e Hv) as H. destruct s.
    + exfalso. change (rank (S754_finite true m e)) with (- mag (S754_finite true m e)) in Hpos.
      lia.
    + split; [reflexivity | left]. split; [eauto | apply H].
Qed.

(** Two numbers of the same positive rank are the same number. *)
Lemma Rk_pos_inj (a b : float) : 0 < Rk a -> Rk a = Rk b -> a = b.
Proof.
  intros Hpos E. apply Prim2SF_inj. unfold Rk in *.
  pose proof (Prim2SF_valid a) as Va. pose proof (Prim2SF_valid b) as Vb.
  destruct (rank_pos_cases _ Va Hpos) as [Ea Ca].
  destruct (rank_pos_cases _ Vb ltac:(lia)) as [Eb Cb].
  rewrite Ea, Eb in E. clear Ea Eb Hpos.
  destruct Ca as [[(ma & ea & Ha) La] | Ha]; destruct Cb as [[(mb & eb & Hb) Lb] | Hb];
    rewrite Ha, Hb in *; try lia; [|reflexivity].
  destruct (mag_inj _ _ _ _ _ _ Va Vb E) as [-> ->]. reflexivity.
Qed.

(** A number that is not below zero has a rank that is not. *)
Lemma proper_rank_nonneg (x : spec_float) :
  valid_binary x = true -> proper x -> 0 <= rank x.
Proof.
  intros Hv Hp. destruct (SFdiv_ten_cases x Hv Hp) as (E & _ & C). rewrite E.
  pose proof (mag_inf_pos false) as Hinf.
  destruct C as [[X _] | [(_ & X & _) | [X _]]]; lia.
Qed.

(** The difference from 100 of a whole number below 100 is exact. *)
Lemma hundred_minus (F : float) (k : Z) :
  proper (Prim2SF F) -> Rk F = k * 2 ^ 1074 -> 0 <= k < 100 ->
  is_nan (100 - F) = false /\ Rk (100 - F) = (100 - k) * 2 ^ 1074.
Proof.
  intros [Hn Hs] Hr Hk.
  pose proof Rk_hundred as H100.
  pose proof (Prim2SF_valid F) as Hv.
  pose proof (units_below_inf k false ltac:(lia)) as Hinf.
  rewrite is_nan_spec. unfold Rk in *. rewrite sub_spec.
  change (Prim2SF 100) with (S754_finite false 7036874417766400 (-46)) in *.
  unfold SF64sub.
  destruct (Prim2SF F) as [ s | [|] | | [|] m e ];
    try discriminate Hs; try (exfalso; apply Hn; reflexivity).
  - assert (k = 0).
    { assert (E : k * 2 ^ 1074 = 0) by (rewrite <- Hr; destruct s; reflexivity).
      apply Z.mul_eq_0_l in E; [exact E | apply Z.pow_nonzero; easy]. }
    subst k. cbn [SFsub]. split; [reflexivity|]. rewrite H100. reflexivity.
  - exfalso. change (rank (S754_infinity false)) with (mag (S754_infinity false)) in Hr. lia.
  - pose proof (SFsub_finite false false 7036874417766400 m (-46) e eq_refl Hv) as Hsub.
    rewrite H100, Hr, <- Z.mul_sub_distr_r in Hsub.
    destruct (exact_result_whole (100 - k) _ ltac:(lia) Hsub) as (_ & Hrk & m' & e' & E).
    rewrite E in *. split; [reflexivity | exact Hrk].
Qed.

(** The score of a nearby match is a whole number: 100 less the whole
    tens of kilometres in the quotient [d / 10], and 0 from 100 tens on. *)
Lemma score_value (d : float) :
  is_nan d = false -> (d <? 0)%float = false ->
  let k := Rk (d / 10) / 2 ^ 1074 in
  0 <= k /\ Math_max 0 (100 - Math_floor (d / 10)) = ofZ (Z.max 0 (100 - k)).
Proof.
  intros Hn Hs k.
  pose proof (proper_of_float d Hn Hs) as Hd.
  assert (Hq : proper (Prim2SF (d / 10))).
  { rewrite div_spec. change (Prim2SF 10) with (S754_finite false 5629499534213120 (-49)).
    apply SFdiv_proper. exact Hd. }
  pose proof (floor_rank _ Hq) as Hfr. fold k in Hfr.
  assert (Hk : 0 <= k).
  { apply Z.div_pos; [|apply pow2_pos; easy].
    apply proper_rank_nonneg; [apply Prim2SF_valid | exact Hq]. }
  split; [exact Hk|].
  apply floor_proper in Hq.
  set (f := Math_floor (d / 10)) in *. clearbody k f.
  destruct (Z.lt_ge_cases k 100) as [Hlt | Hge].
  - destruct (hundred_minus f k Hq Hfr ltac:(lia)) as [Hvn Hvr].
    destruct (ofZ_exact (100 - k) ltac:(lia)) as (_ & Hor & _).
    rewrite Z.max_r by lia.
    assert (Hpos : 0 < Rk (100 - f)).
    { rewrite Hvr. apply Z.mul_pos_pos; [lia | apply pow2_pos; easy]. }
    destruct (max_zero_cases (100 - f) Hvn) as [[Hm _] | [_ Hneg]].
    + rewrite Hm. apply Rk_pos_inj; [exact Hpos | rewrite Hvr, Hor; reflexivity].
    + exfalso. rewrite ltb_Rk in Hneg by (auto; reflexivity). apply Z.ltb_ge in Hneg.
      rewrite Rk_zero in Hneg. clear - Hpos Hneg. lia.
  - assert (H100 : Prim2SF 100 = S754_finite false 7036874417766400 (-46)) by reflexivity.
    pose proof (SFsub_le false 7036874417766400 (-46) (Prim2SF f)
                  (eq_refl) (Prim2SF_valid f) Hq) as [Hvn _].
    rewrite <- H100 in Hvn. change (SFsub prec emax) with SF64sub in Hvn.
    rewrite <- sub_spec in Hvn. apply not_nan_inv in Hvn.
    assert (Hfn : is_nan f = false) by (apply not_nan_inv; apply Hq).
    rewrite Z.max_l by lia.
    destruct (max_zero_cases (100 - f) Hvn) as [[_ Hpos] | [Hm _]]; [exfalso | exact Hm].
    rewrite ltb_Rk in Hpos by (auto; reflexivity). apply Z.ltb_lt in Hpos.
    rewrite Rk_zero in Hpos.
    destruct (sub_sign 100 f eq_refl Hfn) as [[Hnan _] | [_ Hc]]; [congruence|].
    rewrite Rk_hundred, Hfr in Hc.
    assert (Hcmp : (Rk (100 - f) ?= 0) = Gt) by (apply Z.compare_gt_iff; exact Hpos).
    rewrite Hcmp in Hc. symmetry in Hc. apply Z.compare_gt_iff in Hc.
    apply Z.mul_lt_mono_pos_r in Hc; [lia | apply pow2_pos; easy].
Qed.

(** A nearby match that is no farther scores no lower. *)
Lemma score_antitone (d1 d2 : float) :
  is_nan d1 = false -> (d1 <? 0)%float = false ->
  is_nan d2 = false -> (d2 <? 0)%float = false ->
  (d1 <=? d2)%float = true ->
  (Math_max 0 (100 - Math_floor (d2 / 10)) <=?
   Math_max 0 (100 - Math_floor (d1 / 10)))%float = true.
Proof.
  intros N1 S1 N2 S2 Hle.
  rewrite leb_Rk in Hle by assumption. apply Z.leb_le in Hle.
  pose proof (div_ten_mono d1 d2 (proper_of_float d1 N1 S1) (proper_of_float d2 N2 S2) Hle) as Hq.
  destruct (score_value d1 N1 S1) as [K1 E1]. destruct (score_value d2 N2 S2) as [K2 E2].
  cbv zeta in K1, E1, K2, E2. rewrite E1, E2.
  assert (Hk : Rk (d1 / 10) / 2 ^ 1074 <= Rk (d2 / 10) / 2 ^ 1074)
    by (apply Z.div_le_mono; [apply pow2_pos; easy | exact Hq]).
  set (k1 := Rk (d1 / 10) / 2 ^ 1074) in *. set (k2 := Rk (d2 / 10) / 2 ^ 1074) in *.
  clearbody k1 k2.
  destruct (ofZ_exact (Z.max 0 (100 - k1)) ltac:(lia)) as (Hn1 & Hr1 & _).
  destruct (ofZ_exact (Z.max 0 (100 - k2)) ltac:(lia)) as (Hn2 & Hr2 & _).
  rewrite leb_Rk by assumption. apply Z.leb_le. rewrite Hr1, Hr2.
  apply Z.mul_le_mono_nonneg_r; [apply Z.pow_nonneg; easy | lia].
Qed.

End ScoreValueFacts.

Section TensFacts.
#[local] Open Scope Z_scope.

(** A whole number of tens divides by ten exactly. *)
Lemma div_ten_exact (j : Z) :
  0 <= j <= 100 -> Rk (ofZ (10 * j) / 10) = j * 2 ^ 1074.
Proof.
  intros Hj.
  destruct (Z.eq_dec j 0) as [-> | Hnz]; [reflexivity|].
  destruct (ofZ_exact (10 * j) ltac:(lia)) as (_ & Hr & [E0 | (m & e & E)]); [lia|].
  pose proof (Prim2SF_valid (ofZ (10 * j))) as Hv.
  pose proof (int_representable j ltac:(lia)) as Hrep.
  unfold Rk in *. rewrite div_spec. unfold SF64div. rewrite E in *.
  change (rank (S754_finite false m e)) with (mag (S754_finite false m e)) in Hr.
  destruct (SFdiv_ten_nearest m e Hv) as (Hvr & Hshape & Hnear).
  specialize (Hnear _ Hrep).
  set (r := SFdiv prec emax _ _) in *. clearbody r.
  set (U := 2 ^ 1074) in *.
  assert (Emag : mag r = j * U) by lia.
  destruct Hshape as [-> | (m' & e' & ->)]; exact Emag.
Qed.

End TensFacts.

Section ThresholdFacts.
#[local] Open Scope Z_scope.

Lemma tens_checked (j : Z) : 1 <= j <= 100 -> tensChecked j = true.
Proof.
  intros Hj.
  assert (H : forallb tensChecked (map Z.of_nat (seq 1 100)) = true)
    by (vm_compute; reflexivity).
  rewrite forallb_forall in H. apply H.
  apply in_map_iff. exists (Z.to_nat j). split; [lia | apply in_seq; lia].
Qed.

(** Below a whole number of tens the quotient by ten is below the number
    of tens: the division never rounds up to it. *)
Lemma below_tens (j : Z) (d : float) :
  1 <= j <= 100 -> proper (Prim2SF d) -> Rk d < Rk (ofZ (10 * j)) ->
  Rk (d / 10) < j * 2 ^ 1074.
Proof.
  intros Hj Hd Hlt. pose proof (tens_checked j Hj) as Hc.
  unfold tensChecked in Hc. cbv zeta in Hc.
  destruct (ofZ_exact j ltac:(lia)) as (_ & Hrj & _).
  set (y := ofZ (10 * j)) in *. set (p := next_down y) in *. clearbody p y.
  pose proof (Prim2SF_valid y) as Vy. pose proof (Prim2SF_valid p) as Vp.
  unfold Rk in Hlt.
  destruct (Prim2SF y) as [ | | | [|] M e]; try discriminate Hc.
  pose proof (Prim2SF_valid p) as Vp'.
  destruct (Prim2SF p) as [ | | | [|] M' e'] eqn:Ep; try discriminate Hc.
  rewrite !andb_true_iff in Hc. destruct Hc as [[[H52 HM] He] Hq].
  apply Z.leb_le in H52. apply Z.eqb_eq in HM, He. subst e'.
  assert (Pp : proper (Prim2SF p)) by (rewrite Ep; split; [discriminate | reflexivity]).
  assert (Hdp : Rk d <= Rk p).
  { unfold Rk. rewrite Ep.
    destruct (SFdiv_ten_cases _ (Prim2SF_valid d) Hd) as (Ed & _ & C). rewrite Ed in *.
    change (rank (S754_finite false M e)) with (mag (S754_finite false M e)) in Hlt.
    change (rank (S754_finite false M' e)) with (mag (S754_finite false M' e)).
    pose proof (mag_finite_inf false false M e Vy) as By.
    pose proof (mag_finite_inf false false M' e Vp) as Bp.
    destruct C as [[X _] | [((m & e0 & E) & X & _) | [X _]]]; [lia | | lia].
    pose proof (valid_finite _ _ _ Vy) as (Hey & _).
    assert (Hrep : representable (mag (Prim2SF d))).
    { right. exists false, m, e0. rewrite <- E. split; [apply Prim2SF_valid | reflexivity]. }
    destruct (grid_gap e (Zpos M') _ ltac:(lia) ltac:(lia) (or_intror H52) Hrep) as [Hle | Hge].
    - exact Hle.
    - exfalso. rewrite HM in Hge. cbn [mag] in Hlt. lia. }
  pose proof (ltb_true_numeric _ _ Hq) as [Nq Nj].
  rewrite ltb_Rk in Hq by assumption. apply Z.ltb_lt in Hq. rewrite Hrj in Hq.
  apply Z.le_lt_trans with (2 := Hq). apply div_ten_mono; assumption.
Qed.

(** The whole tens in the quotient [d / 10] are the whole tens of [d]. *)
Lemma tens_of_quotient (j : Z) (d : float) :
  0 <= j <= 100 -> is_nan d = false -> (d <? 0)%float = false ->
  (ofZ (10 * j) <=? d)%float = (j <=? Rk (d / 10) / 2 ^ 1074).
Proof.
  intros Hj Nd Sd.
  pose proof (proper_of_float d Nd Sd) as Hpd.
  pose proof (proper_ofZ (10 * j) ltac:(lia)) as Hp10.
  destruct (ofZ_exact (10 * j) ltac:(lia)) as (Hn10 & _ & _).
  assert (Hp : 0 < 2 ^ 1074) by (apply pow2_pos; easy).
  rewrite leb_Rk by assumption.
  apply Bool.eq_iff_eq_true. rewrite !Z.leb_le. split; intros H.
  - pose proof (div_ten_mono _ _ Hp10 Hpd H) as Hq. rewrite (div_ten_exact j Hj) in Hq.
    apply Z.div_le_lower_bound; [exact Hp | rewrite Z.mul_comm; exact Hq].
  - destruct (Z.le_gt_cases (Rk (ofZ (10 * j))) (Rk d)) as [|Hgt]; [assumption | exfalso].
    destruct (Z.eq_dec j 0) as [-> | Hnz].
    + change (Rk (ofZ (10 * 0))) with 0 in Hgt.
      pose proof (proper_rank_nonneg _ (Prim2SF_valid d) Hpd) as H0. unfold Rk in Hgt.
      clear - Hgt H0. lia.
    + pose proof (below_tens j d ltac:(lia) Hpd Hgt) as Hb.
      assert (Hk : Rk (d / 10) / 2 ^ 1074 < j)
        by (apply Z.div_lt_upper_bound; [exact Hp | rewrite Z.mul_comm; exact Hb]).
      clear - H Hk. lia.
Qed.

End ThresholdFacts.

Section ScoreOrderFacts.

Variable h : Host.
Hypothesis Hh : atan2_nonneg h.

(** What [findMatches] stores as the score of a result. *)
Lemma result_score (S : TeacherWithUser) (cs : list TeacherWithUser) (r : MatchResult) :
  In r (findMatches h S cs) ->
  (matchType r = perfect /\ score r = 100) \/
  (matchType r = nearby /\ is_nan (distance r) = false /\ (distance r <? 0) = false /\
   score r = Math_max 0 (100 - Math_floor (distance r / 10))).
Proof.
  intros Hr. apply findMatches_In, collectMatches_In in Hr. destruct Hr as (t & _ & Hr).
  apply collectMatches_one in Hr.
  destruct Hr as (_ & _ & [[_ ->] | [_ (nm & Hnm & ->)]]); cbn [distance score matchType].
  - left. split; reflexivity.
  - right. apply checkNearbyMatch_spec in Hnm. destruct Hnm as (_ & Hlt & _ & ->).
    cbn [nearbyDistance nearbyScore].
    destruct (ltb_true_numeric _ _ Hlt) as [Hn _].
    repeat split; auto. apply calculateDistanceFromTeacherToHome_nonneg. exact Hh.
Qed.

Lemma StronglySorted_weaken {A : Type} (R R' : A -> A -> Prop) (l : list A) :
  (forall a b, In a l -> In b l -> R a b -> R' a b) ->
  StronglySorted R l -> StronglySorted R' l.
Proof.
  intros H Hs. induction Hs as [ | x l Hs IH Hx]; [constructor|].
  constructor.
  - apply IH. intros a b Ha Hb. apply H; right; assumption.
  - rewrite Forall_forall in *. intros y Hy. apply H; [left; reflexivity | right; exact Hy | auto].
Qed.

Lemma ordered_scores (S : TeacherWithUser) (cs : list TeacherWithUser) (a b : MatchResult) :
  In a (findMatches h S cs) -> In b (findMatches h S cs) ->
  ordered a b -> (score b <=? score a) = true.
Proof.
  intros Ha Hb Ho. unfold ordered in Ho.
  destruct (result_score S cs a Ha) as [[Ta Sa] | (Ta & Na & Pa & Sa)];
  destruct (result_score S cs b Hb) as [[Tb Sb] | (Tb & Nb & Pb & Sb)];
    rewrite Ta, Tb in Ho; rewrite Sa, Sb.
  - reflexivity.
  - apply score_bounds; assumption.
  - destruct Ho.
  - apply score_antitone; assumption.
Qed.

End ScoreOrderFacts.


(* ================================================================= *)
(** ** Distances that are no numbers *)

Section NanFacts.

Variable h : Host.

Lemma haversine_term (lat1 lon1 lat2 lon2 : float) :
  haversineDistance h lat1 lon1 lat2 lon2 =
  let a := haversineTerm h lat1 lon1 lat2 lon2 in
  6371 * (2 * Math_atan2 h (Math_sqrt a) (Math_sqrt (1 - a))).
Proof. reflexivity. Qed.

(** The root of a number below zero is NaN. *)
Lemma sqrt_negative (x : float) :
  is_nan x = false -> (Rk x < 0)%Z -> Math_sqrt x = nan.
Proof.
  intros Hn Hr. apply Prim2SF_inj. unfold Math_sqrt. rewrite sqrt_spec.
  change (Prim2SF nan) with S754_nan.
  rewrite is_nan_spec in Hn. unfold Rk, rank in Hr.
  destruct (Prim2SF x) as [ s | s | | s m e ]; try discriminate Hn.
  - exfalso. destruct s; cbn in Hr; lia.
  - destruct s; [reflexivity | exfalso].
    pose proof (mag_inf_pos false) as Hp. cbn [sign_of cond_Zopp] in Hr. lia.
  - destruct s; [reflexivity | exfalso].
    cbn [sign_of cond_Zopp mag] in Hr.
    assert (0 <= Z.pos m * 2 ^ (e + 1074))%Z
      by (apply Z.mul_nonneg_nonneg; [easy | apply Z.pow_nonneg; easy]).
    lia.
Qed.

(** When rounding takes the haversine term above 1, the distance is
    NaN: the root of [1 - a] is. *)
Lemma haversine_above_one (lat1 lon1 lat2 lon2 : float) :
  (forall y, Math_atan2 h y nan = nan) ->
  (1 <? haversineTerm h lat1 lon1 lat2 lon2) = true ->
  haversineDistance h lat1 lon1 lat2 lon2 = nan.
Proof.
  intros Ha Hlt. rewrite haversine_term. cbv zeta.
  set (a := haversineTerm h lat1 lon1 lat2 lon2) in *.
  destruct (ltb_true_numeric _ _ Hlt) as [_ Na].
  rewrite ltb_Rk in Hlt by (auto; reflexivity). apply Z.ltb_lt in Hlt.
  assert (Hs : Math_sqrt (1 - a) = nan).
  { destruct (sub_sign 1 a eq_refl Na) as [[_ E] | [Nd Hc]]; [lia|].
    apply sqrt_negative; [exact Nd|].
    unfold Z.lt. rewrite Hc. exact Hlt. }
  rewrite Hs, Ha. reflexivity.
Qed.

(** Two antipodal points, (-7.36, 0) and (7.36, -180): with the values
    of [sin] and [cos] at the three angles involved, rounded to the
    nearest, the haversine term is 1.0000000000000002 and the distance is
    NaN. *)
Lemma antipodal_distance_nan :
  Math_sin h 0.12845623294678266 = 0.12810324817186947 ->
  Math_cos h (-0.12845623294678266) = 0.9917608370004416 ->
  Math_cos h 0.12845623294678266 = 0.9917608370004416 ->
  Math_sin h (-1.5707963267948966) = -1 ->
  (forall y, Math_atan2 h y nan = nan) ->
  haversineTerm h (-7.36) 0 7.36 (-180) = 1.0000000000000002 /\
  haversineDistance h (-7.36) 0 7.36 (-180) = nan.
Proof.
  intros Hs Hc1 Hc2 Ht Ha.
  assert (E : haversineTerm h (-7.36) 0 7.36 (-180) = 1.0000000000000002).
  { unfold haversineTerm. cbv zeta.
    change (toRadians (7.36 - -7.36) / 2) with 0.12845623294678266.
    change (toRadians (-7.36)) with (-0.12845623294678266).
    change (toRadians 7.36) with 0.12845623294678266.
    change (toRadians (-180 - 0) / 2) with (-1.5707963267948966).
    rewrite Hs, Hc1, Hc2, Ht. reflexivity. }
  split; [exact E|]. apply haversine_above_one; [exact Ha|]. rewrite E. reflexivity.
Qed.

Lemma sub_nan_r (x : float) : x - nan = nan.
Proof.
  apply Prim2SF_inj. rewrite sub_spec. change (Prim2SF nan) with S754_nan.
  destruct (Prim2SF x) as [ s | s | | s m e ]; reflexivity.
Qed.

Lemma add_nan_l (x : float) : nan + x = nan.
Proof. apply Prim2SF_inj. rewrite add_spec. reflexivity. Qed.

(** A first point without coordinates makes the distance NaN. *)
Lemma haversine_of_nan (lat2 lon2 : float) :
  Math_sin h nan = nan -> (forall x, Math_atan2 h nan x = nan) ->
  haversineDistance h nan nan lat2 lon2 = nan.
Proof.
  intros Hs Ha. unfold haversineDistance, toRadians, Math_sqrt. cbv zeta.
  rewrite !sub_nan_r. change (nan * (Math_PI / 180) / 2) with nan.
  rewrite Hs. change (nan * nan) with nan. rewrite add_nan_l.
  change (sqrt nan) with nan. rewrite Ha. reflexivity.
Qed.

(** The two inherited names are no keys of the table. *)
Lemma inherited_not_in_table (district : string) :
  readsInherited h district = true -> districtPoint h district = None.
Proof.
  unfold readsInherited, districtPoint. intros H.
  apply includes_In in H. cbn [inheritedKeys In] in H.
  destruct H as [<- | [<- | []]]; reflexivity.
Qed.

Lemma foundPoint_inherited (district : string) :
  readsInherited h district = true -> foundPoint h district = Some (nan, nan).
Proof.
  intros H. rewrite foundPoint_cases, inherited_not_in_table, H by exact H. reflexivity.
Qed.

(** The pushed results have numbers for distances when the perfect
    matches that are returned have. *)
Lemma results_numeric (S : TeacherWithUser) (cs : list TeacherWithUser) :
  (forall r, In r (findMatches h S cs) -> matchType r = perfect ->
     is_nan (distance r) = false) ->
  Forall numeric (collectMatches h S cs).
Proof.
  intros H. apply Forall_forall. intros r Hr.
  destruct (matchType r) eqn:T; [|eapply nearby_numeric; eassumption].
  apply H; [apply findMatches_In; exact Hr | exact T].
Qed.

(** The score of a nearby match at distance [d] is the whole number that
    loses one point at every whole ten of [d], down to 0. *)
Lemma score_tens (d : float) :
  is_nan d = false -> (d <? 0) = false ->
  exists n : Z, (0 <= n <= 100)%Z /\
    Math_max 0 (100 - Math_floor (d / 10)) = ofZ n /\
    forall j : Z, (0 <= j <= 100)%Z ->
      ((n <= 100 - j)%Z <-> (ofZ (10 * j) <=? d) = true).
Proof.
  intros Nd Sd. destruct (score_value d Nd Sd) as [Hk E]. cbv zeta in Hk, E.
  exists (Z.max 0 (100 - Rk (d / 10) / 2 ^ 1074)). split; [|split; [exact E|]].
  - clear E. set (k := (Rk (d / 10) / 2 ^ 1074)%Z) in *. clearbody k. lia.
  - intros j Hj. rewrite (tens_of_quotient j d Hj Nd Sd), Z.leb_le. clear E.
    set (k := (Rk (d / 10) / 2 ^ 1074)%Z) in *. clearbody k. lia.
Qed.

End NanFacts.


(* ================================================================= *)
(** * The claims *)

(** C1.  A candidate is a perfect match of the subject exactly when the
    subject's preferred districts contain the candidate's current
    district, the candidate's preferred districts contain the subject's
    current district, and the grade levels are equal (membership being
    plain equality of strings).  For a candidate the loop considers (not
    the subject, active), a perfect match is returned with score 100, every
    result returned for that candidate is perfect, and a perfect result
    only ever stems from a perfect match. *)
Theorem perfect_match_classification (h : Host) (S C : TeacherWithUser)
    (cs : list TeacherWithUser) :
  (checkPerfectMatch S C = true <->
     In (currentDistrict C) (preferredDistricts S) /\
     In (currentDistrict S) (preferredDistricts C) /\
     gradeLevel S = gradeLevel C) /\
  (In C cs -> id C <> id S -> isActive C = true ->
   (checkPerfectMatch S C = true ->
      In (mkMatch C perfect (calculateDistance h S C) 100) (findMatches h S cs) /\
      forall r, In r (findMatches h S cs) -> teacher r = C ->
        matchType r = perfect /\ score r = 100) /\
   (forall r, In r (findMatches h S cs) -> teacher r = C -> matchType r = perfect ->
      checkPerfectMatch S C = true /\ score r = 100)).
Proof.
  split; [apply checkPerfectMatch_spec|]. intros HC Hid Hact. split.
  - intros HP. split.
    + apply findMatches_In, collectMatches_In. exists C. split; [exact HC|].
      apply collectMatches_one. auto.
    + intros r Hr <-. apply findMatches_In, collectMatches_In in Hr.
      destruct Hr as (t & _ & Hr). apply collectMatches_one in Hr.
      destruct Hr as (_ & _ & [[_ ->] | [HN (nm & _ & ->)]]); [auto|].
      cbn [teacher] in HP. congruence.
  - intros r Hr <- Hm. apply findMatches_In, collectMatches_In in Hr.
    destruct Hr as (t & _ & Hr). apply collectMatches_one in Hr.
    destruct Hr as (_ & _ & [[HP ->] | [_ (nm & _ & ->)]]); [auto | discriminate].
Qed.

Lemma perfect_match_classification_witness :
  In (mkMatch Sample.partner perfect
        (calculateDistance FirstOrder.host Sample.subject Sample.partner) 100)
     (findMatches FirstOrder.host Sample.subject Sample.roster).
Proof.
  apply (proj2 (perfect_match_classification FirstOrder.host Sample.subject
                  Sample.partner Sample.roster)).
  - cbn. auto.
  - discriminate.
  - reflexivity.
  - reflexivity.
Defined.

(** C2 (amended).  [checkNearbyMatch] succeeds exactly when the grade
    levels are equal, the candidate's distance to the subject's home is
    below the subject's home distance, and that distance is at most the
    subject's maximum distance.  The home distance is the great-circle
    distance of the subject's explicit current and home coordinates when
    both pairs are present, and otherwise that of what the district
    lookup finds for the current and the home district, 0 when it finds
    nothing for one of them.  The candidate's distance takes the
    candidate's location (school, current, district) and the subject's
    home (home, preferred location, district) each on its own, and is 0
    when one of them does not resolve or one coordinate is zero or no
    number.  A nearby match carries that distance [d] and the score
    [max(0, 100 - floor(d / 10))], which is 100 at 0, 91 at 95 and 0 at
    1000; with an [atan2] that is non-negative on a non-negative first
    argument it is the whole number from 0 to 100 that is at most
    [100 - j] exactly when [d] is at least [10 * j].  A considered
    candidate that is not a perfect match has a result in the returned
    list exactly in that case, and the result is a nearby match with that
    distance and score. *)
Theorem nearby_match_classification (h : Host) (S C : TeacherWithUser)
    (cs : list TeacherWithUser) :
  let homeDistance := calculateDistanceToHome h S in
  let candidateToSubjectHome := calculateDistanceFromTeacherToHome h C S in
  let nearbyCondition :=
    gradeLevel S = gradeLevel C /\
    (candidateToSubjectHome <? homeDistance) = true /\
    (candidateToSubjectHome <=? maxDistance S) = true in
  homeDistance =
    match explicitPoint h (currentLatitude S) (currentLongitude S),
          explicitPoint h (homeLatitude S) (homeLongitude S) with
    | Some p, Some q => haversineDistance h (fst p) (snd p) (fst q) (snd q)
    | _, _ =>
        match foundPoint h (currentDistrict S), foundPoint h (homeDistrict S) with
        | Some p, Some q => haversineDistance h (fst p) (snd p) (fst q) (snd q)
        | _, _ => 0
        end
    end /\
  candidateToSubjectHome =
    match candidateEndpoint h C, destinationEndpoint h S with
    | Some p, Some q =>
        if usable p q then haversineDistance h (fst p) (snd p) (fst q) (snd q) else 0
    | _, _ => 0
    end /\
  ((exists nm, checkNearbyMatch h S C = Some nm) <-> nearbyCondition) /\
  (forall nm, checkNearbyMatch h S C = Some nm ->
     nearbyDistance nm = candidateToSubjectHome /\
     nearbyScore nm = Math_max 0 (100 - Math_floor (candidateToSubjectHome / 10))) /\
  (In C cs -> id C <> id S -> isActive C = true -> checkPerfectMatch S C = false ->
   ((exists r, In r (findMatches h S cs) /\ teacher r = C) <-> nearbyCondition) /\
   (forall r, In r (findMatches h S cs) -> teacher r = C ->
      matchType r = nearby /\
      distance r = candidateToSubjectHome /\
      score r = Math_max 0 (100 - Math_floor (candidateToSubjectHome / 10)))) /\
  (atan2_nonneg h ->
   forall nm, checkNearbyMatch h S C = Some nm ->
     exists n : Z, (0 <= n <= 100)%Z /\ nearbyScore nm = ofZ n /\
       forall j : Z, (0 <= j <= 100)%Z ->
         ((n <= 100 - j)%Z <-> (ofZ (10 * j) <=? candidateToSubjectHome) = true)) /\
  Math_max 0 (100 - Math_floor (0 / 10)) = 100 /\
  Math_max 0 (100 - Math_floor (95 / 10)) = 91 /\
  Math_max 0 (100 - Math_floor (1000 / 10)) = 0.
Proof.
  intros homeDistance d nearbyCondition.
  split.
  { unfold homeDistance. rewrite calculateDistanceToHome_resolve.
    destruct (explicitPoint h (currentLatitude S) (currentLongitude S)) as [[a b] | ];
      destruct (explicitPoint h (homeLatitude S) (homeLongitude S)) as [[a' b'] | ];
      try reflexivity;
      destruct (foundPoint h (currentDistrict S)) as [[u v] | ];
      destruct (foundPoint h (homeDistrict S)) as [[u' v'] | ]; reflexivity. }
  split.
  { unfold d. rewrite calculateDistanceFromTeacherToHome_resolve.
    destruct (candidateEndpoint h C) as [[a b] | ]; [|reflexivity].
    destruct (destinationEndpoint h S) as [[a' b'] | ]; reflexivity. }
  assert (Hiff : (exists nm, checkNearbyMatch h S C = Some nm) <-> nearbyCondition).
  { split.
    - intros (nm & Hn). apply checkNearbyMatch_spec in Hn. unfold nearbyCondition. tauto.
    - intros (Hg & Hlt & Hle). eexists. apply checkNearbyMatch_spec. eauto. }
  split; [exact Hiff|]. split.
  { intros nm Hn. apply checkNearbyMatch_spec in Hn. destruct Hn as (_ & _ & _ & ->).
    split; reflexivity. }
  split; [|split; [|repeat split; vm_compute; reflexivity]].
  - intros HC Hid Hact HP.
    assert (Hres : forall r, In r (findMatches h S cs) -> teacher r = C ->
              exists nm, checkNearbyMatch h S C = Some nm /\
                         r = mkMatch C nearby (nearbyDistance nm) (nearbyScore nm)).
    { intros r Hr <-. apply findMatches_In, collectMatches_In in Hr.
      destruct Hr as (t & _ & Hr). apply collectMatches_one in Hr.
      destruct Hr as (_ & _ & [[HP' ->] | [_ (nm & Hn & ->)]]).
      - cbn [teacher] in HP. congruence.
      - exists nm. auto. }
    split.
    + rewrite <- Hiff. split.
      * intros (r & Hr & Ht). destruct (Hres r Hr Ht) as (nm & Hn & _). exists nm. exact Hn.
      * intros (nm & Hn).
        exists (mkMatch C nearby (nearbyDistance nm) (nearbyScore nm)).
        split; [|reflexivity].
        apply findMatches_In, collectMatches_In. exists C. split; [exact HC|].
        apply collectMatches_one. repeat split; auto. right. split; [exact HP|].
        exists nm. auto.
    + intros r Hr Ht. destruct (Hres r Hr Ht) as (nm & Hn & ->).
      apply checkNearbyMatch_spec in Hn. destruct Hn as (_ & _ & _ & ->).
      repeat split.
  - intros Hh nm Hn. apply checkNearbyMatch_spec in Hn. destruct Hn as (_ & Hlt & _ & ->).
    cbn [nearbyScore]. destruct (ltb_true_numeric _ _ Hlt) as [Nd _].
    apply score_tens; [exact Nd|].
    apply calculateDistanceFromTeacherToHome_nonneg. exact Hh.
Qed.

Lemma nearby_match_classification_witness :
  exists r, In r (findMatches FirstOrder.host Sample.subject Sample.roster) /\
            teacher r = Sample.neighbour.
Proof.
  apply (proj1 (proj2 (proj2 (proj2 (proj2 (nearby_match_classification FirstOrder.host
                  Sample.subject Sample.neighbour Sample.roster)))))).
  - cbn. auto.
  - discriminate.
  - reflexivity.
  - reflexivity.
  - repeat split; vm_compute; reflexivity.
Defined.

(** C2, as stated, fails.  The subject is posted in Patna and has the
    precise coordinates of a home in a district the table does not know;
    the candidate is posted in Nalanda.  From the subject's current
    location to that home it is 90 km on the first-order host, from the
    candidate's location to it 62 km, within the maximum distance of
    100 km, and the grade levels are equal: the candidate is nearer to the
    subject's home than the subject.  The engine takes both ends of the
    home distance from the district lookup, finds nothing for the home
    district, compares with 0 and returns no match. *)
Lemma nearby_match_missed_by_joint_fallback :
  let h := FirstOrder.host in
  let S := Sample.homeSurveyed in
  let C := Sample.neighbour in
  let homeDistance := legDistance h (currentEndpoint h S) (homeEndpoint h S) in
  let candidateToSubjectHome :=
    legDistance h (candidateEndpoint h C) (destinationEndpoint h S) in
  id C <> id S /\ isActive C = true /\ checkPerfectMatch S C = false /\
  gradeLevel S = gradeLevel C /\
  Math_floor homeDistance = 90 /\ Math_floor candidateToSubjectHome = 62 /\
  (candidateToSubjectHome <? homeDistance) = true /\
  (candidateToSubjectHome <=? maxDistance S) = true /\
  calculateDistanceToHome h S = 0 /\
  findMatches h S [C] = [].
Proof.
  cbv zeta. split; [discriminate|]. repeat split; vm_compute; reflexivity.
Qed.

(** C3 (amended).  When the distance of every perfect match that is
    returned is a number, the list returned by [findMatches] has every
    perfect result before every nearby one and ascending distances within
    a classification; it is a rearrangement of the pushed results in which
    results of equal classification and equal distance keep the order in
    which they were pushed, which is the order of their candidates in the
    input. *)
Theorem findMatches_sorted_stable (h : Host) (S : TeacherWithUser)
    (cs : list TeacherWithUser) :
  (forall r, In r (findMatches h S cs) -> matchType r = perfect ->
     is_nan (distance r) = false) ->
  StronglySorted ordered (findMatches h S cs) /\
  Permutation (findMatches h S cs) (collectMatches h S cs) /\
  (forall r, filter (sameKey r) (findMatches h S cs) =
             filter (sameKey r) (collectMatches h S cs)) /\
  map teacher (collectMatches h S cs) = filter (emits h S) cs.
Proof.
  intros H. pose proof (results_numeric h S cs H) as Hn.
  unfold findMatches. repeat split.
  - apply sorted_ordered; [|apply sort_sorted; exact Hn].
    eapply Permutation_Forall; [symmetry; apply sort_perm | exact Hn].
  - apply sort_perm.
  - intros r. apply sort_stable. exact Hn.
  - apply collectMatches_teachers.
Qed.

(** On the roster with ties: two classes, three distances in each, and in
    each class a tie that keeps the order of the input. *)
Lemma findMatches_sorted_stable_witness :
  map id SampleOrder.roster = [2; 3; 4; 5; 6; 7]%Z /\
  map (fun r => (id (teacher r), matchType r, Math_floor (distance r))) SampleOrder.results =
    [(5%Z, perfect, 61); (2%Z, perfect, 90); (6%Z, perfect, 90);
     (4%Z, nearby, 45); (7%Z, nearby, 45); (3%Z, nearby, 61)] /\
  StronglySorted ordered SampleOrder.results /\
  map (fun r => id (teacher r)) (filter (sameKey SampleOrder.inGaya) SampleOrder.results) =
    [2; 6]%Z /\
  filter (sameKey SampleOrder.inGaya) SampleOrder.results =
    filter (sameKey SampleOrder.inGaya)
      (collectMatches FirstOrder.host SampleOrder.subject SampleOrder.roster) /\
  map (fun r => id (teacher r)) (filter (sameKey SampleOrder.inJehanabad) SampleOrder.results) =
    [4; 7]%Z.
Proof.
  assert (H : forall r, In r SampleOrder.results -> matchType r = perfect ->
                is_nan (distance r) = false).
  { intros r Hr _. vm_compute in Hr.
    repeat (destruct Hr as [<- | Hr]; [reflexivity|]). destruct Hr. }
  destruct (findMatches_sorted_stable FirstOrder.host SampleOrder.subject SampleOrder.roster H)
    as (Hs & _ & Hf & _).
  split; [reflexivity|]. split; [vm_compute; reflexivity|]. split; [exact Hs|].
  split; [vm_compute; reflexivity|]. split; [apply Hf | vm_compute; reflexivity].
Defined.

(** C3, as stated, fails: a perfect match whose stored coordinates are not
    numerals has the distance NaN, and no arrangement of NaN with a number
    is ascending. *)
Lemma findMatches_unsorted_with_nan :
  ~ StronglySorted ordered
      (findMatches FirstOrder.host Sample.subjectLocated
         [Sample.partnerUnparsed; Sample.partnerLocated]).
Proof.
  intros H.
  assert (E : map (fun r => (matchType r, is_nan (distance r)))
                (findMatches FirstOrder.host Sample.subjectLocated
                   [Sample.partnerUnparsed; Sample.partnerLocated]) =
              [(perfect, true); (perfect, false)]) by (vm_compute; reflexivity).
  destruct (findMatches _ _ _) as [ | a [ | b l]]; try discriminate E.
  cbn [map] in E. injection E as Ta Na Tb Nb _.
  inversion H as [ | ? ? _ HF]; subst. inversion HF as [ | ? ? Ho _]; subst.
  unfold ordered in Ho. rewrite Ta, Tb, leb_nan_l in Ho by exact Na. discriminate Ho.
Qed.

(** C4.  No result of [findMatches] has the subject itself, or an inactive
    profile, as its candidate. *)
Theorem no_self_no_inactive (h : Host) (S : TeacherWithUser)
    (cs : list TeacherWithUser) :
  Forall (fun r => id (teacher r) <> id S /\ isActive (teacher r) = true)
         (findMatches h S cs) /\
  ~ In S (map teacher (findMatches h S cs)).
Proof.
  assert (H : Forall (fun r => id (teacher r) <> id S /\ isActive (teacher r) = true)
                     (findMatches h S cs)).
  { apply Forall_forall. intros r Hr. apply findMatches_In, collectMatches_In in Hr.
    destruct Hr as (t & _ & Hr). apply collectMatches_one in Hr.
    destruct Hr as (Hid & Hact & [[_ ->] | [_ (nm & _ & ->)]]); auto. }
  split; [exact H|].
  intros HS. apply in_map_iff in HS. destruct HS as (r & Hr & Hin).
  rewrite Forall_forall in H. destruct (H r Hin) as [Hid _]. rewrite Hr in Hid. auto.
Qed.



(** Whatever the host, the direct distance from a party with explicit
    coordinates and an unknown district to a party without explicit
    coordinates is 0: the explicit coordinates are not consulted. *)
Lemma direct_distance_joint_fallback (h : Host) :
  lowers_ascii h ->
  calculateDistance h Sample.surveyed Sample.partner = 0 /\
  currentEndpoint h Sample.surveyed =
    Some (parseFloat h "25.5941", parseFloat h "85.1376") /\
  currentEndpoint h Sample.partner = Some (24.7955, 85.0002).
Proof.
  intros Hl.
  assert (Hn : toLowerCase h "nowhere" = "nowhere"%string) by (apply Hl; reflexivity).
  assert (Hg : toLowerCase h "gaya" = "gaya"%string) by (apply Hl; reflexivity).
  unfold calculateDistance, currentEndpoint, resolve, explicitPoint, districtPoint,
    getDistrictCoordinates.
  cbn [Sample.surveyed Sample.partner Sample.located Sample.profile currentDistrict
       currentLatitude currentLongitude truthy String.eqb Ascii.eqb Bool.eqb].
  rewrite Hn, Hg. repeat split.
Qed.


(** Nor is the distance 0 whenever an endpoint does not resolve.  A
    district named [Constructor] is no entry of the table, so nothing
    resolves the current location of a party posted there; the lookup of
    the engine finds the inherited property, and wherever [sin] and
    [atan2] return NaN on NaN the direct distance to a party in a known
    district is NaN. *)
Lemma inherited_district_gives_nan (h : Host) :
  lowers_ascii h ->
  Math_sin h nan = nan -> (forall x, Math_atan2 h nan x = nan) ->
  currentEndpoint h Sample.inheritedPartner = None /\
  calculateDistance h Sample.inheritedPartner Sample.partner = nan.
Proof.
  intros Hl Hs Ha.
  assert (Hc : toLowerCase h "Constructor" = "constructor"%string) by (apply Hl; reflexivity).
  assert (Hg : toLowerCase h "gaya" = "gaya"%string) by (apply Hl; reflexivity).
  split.
  - unfold currentEndpoint, resolve, explicitPoint, districtPoint.
    cbn [Sample.inheritedPartner Sample.profile currentDistrict currentLatitude
         currentLongitude truthy].
    rewrite Hc. reflexivity.
  - unfold calculateDistance, getDistrictCoordinates.
    cbn [Sample.inheritedPartner Sample.partner Sample.profile currentDistrict
         currentLatitude currentLongitude truthy].
    rewrite Hc, Hg. cbv zeta.
    change (haversineDistance h nan nan 24.7955 85.0002 = nan).
    apply haversine_of_nan; assumption.
Qed.



(** The failure does not depend on the host: wherever [parseFloat] returns
    NaN on a string that is no numeral, and [sin] and [atan2] return NaN on
    NaN, as the language requires, the direct distance to a party whose
    stored coordinates are no numerals is NaN. *)
Lemma unparsed_coordinates_give_nan (h : Host) :
  parseFloat h "n/a" = nan ->
  Math_sin h nan = nan -> (forall x, Math_atan2 h nan x = nan) ->
  calculateDistance h Sample.subjectLocated Sample.partnerUnparsed = nan.
Proof.
  intros Hp Hs Ha.
  change (calculateDistance h Sample.subjectLocated Sample.partnerUnparsed)
    with (haversineDistance h (parseFloat h "25.5941") (parseFloat h "85.1376")
            (parseFloat h "n/a") (parseFloat h "n/a")).
  rewrite Hp. unfold haversineDistance, toRadians, Math_sqrt. cbv zeta.
  assert (Hsub : forall x, nan - x = nan).
  { intros x. apply Prim2SF_inj. rewrite sub_spec. reflexivity. }
  assert (Hadd : forall x, nan + x = nan).
  { intros x. apply Prim2SF_inj. rewrite add_spec. reflexivity. }
  rewrite !Hsub. change (nan * (Math_PI / 180) / 2) with nan.
  rewrite Hs. change (nan * nan) with nan. rewrite Hadd.
  change (sqrt nan) with nan. rewrite Ha. reflexivity.
Qed.


(** Coordinates that are numerals do not exclude it.  A perfect match in a
    district named [Constructor] has the distance NaN; and so has one
    whose coordinates take the haversine term above 1, as they do for the
    antipodal points (-7.36, 0) and (7.36, -180) with the rounded values of
    [sin] and [cos], and on the first-order host a quarter of the globe
    away. *)
Lemma perfect_match_distance_nan_otherwise :
  (exists r,
     In r (findMatches FirstOrder.host Sample.inheritedSubject [Sample.inheritedPartner]) /\
     matchType r = perfect /\ (0 <=? distance r) = false) /\
  (exists r,
     In r (findMatches Tabulated.host Sample.south [Sample.north]) /\
     matchType r = perfect /\ (0 <=? distance r) = false) /\
  (exists r,
     In r (findMatches FirstOrder.host Sample.atOrigin [Sample.farAway]) /\
     matchType r = perfect /\ (0 <=? distance r) = false) /\
  (1 <? haversineTerm FirstOrder.host 0 0 90 90) = true.
Proof.
  split; [|split; [|split; [|vm_compute; reflexivity]]];
    (eexists; split; [left; reflexivity | split; [reflexivity | vm_compute; reflexivity]]).
Qed.

(** C7.  The perfect-match test is symmetric: when [(S, C)] qualifies, so
    does [(C, S)]. *)
Theorem perfect_match_symmetric (S C : TeacherWithUser) :
  checkPerfectMatch S C = true -> checkPerfectMatch C S = true.
Proof.
  rewrite !checkPerfectMatch_spec. intuition congruence.
Qed.

Lemma perfect_match_symmetric_witness :
  checkPerfectMatch Sample.partner Sample.subject = true.
Proof.
  apply (perfect_match_symmetric Sample.subject Sample.partner). reflexivity.
Defined.






(** C10.  Two subject profiles that agree on every field but [isActive]
    receive the same results: the subject's own flag is never read. *)
Theorem subject_active_flag_irrelevant (h : Host) (S S' : TeacherWithUser)
    (cs : list TeacherWithUser) :
  withIsActive true S = withIsActive true S' ->
  findMatches h S cs = findMatches h S' cs.
Proof.
  intros E. unfold findMatches. f_equal.
  destruct S, S'. unfold withIsActive in E. cbn in E. injection E as -> -> -> -> -> -> -> -> -> -> -> -> -> ->.
  induction cs as [ | c cs IH]; [reflexivity|].
  cbn [collectMatches]. rewrite IH. reflexivity.
Qed.

Lemma subject_active_flag_irrelevant_witness :
  findMatches FirstOrder.host Sample.subject Sample.roster =
  findMatches FirstOrder.host (withIsActive false Sample.subject) Sample.roster.
Proof.
  apply (subject_active_flag_irrelevant FirstOrder.host Sample.subject
           (withIsActive false Sample.subject) Sample.roster).
  reflexivity.
Defined.

(* ================================================================= *)
(** * Further properties of the code *)

(* ================================================================= *)
(** ** The storage and the routes on examples *)

(** An id counter stops at 2^53, where adding one changes nothing. *)
Example counter_saturates :
  increment 7 = 8%Z /\ increment (2 ^ 53 - 1) = (2 ^ 53)%Z /\ increment (2 ^ 53) = (2 ^ 53)%Z.
Proof. repeat split. Qed.

Example decimal_runtime :
  map Decimal.parseInt ["42"; " 7km"; "-3"; "12.9"; "abc"; ""]%string = [42; 7; -3; 12; nan; nan] /\
  map Decimal.Number_toString [3; 0.5; -2.25; 100; nan; -0] =
  ["3"; "0.5"; "-2.25"; "100"; "NaN"; "0"]%string.
Proof. split; vm_compute; reflexivity. Qed.

(** Only a whole number is the key of a stored record. *)
Example keys_are_whole_numbers :
  map integerOf [3; 2.5; nan; -1; 0] = [Some 3%Z; None; None; Some (-1)%Z; Some 0%Z].
Proof. vm_compute. reflexivity. Qed.

(** [GET /api/matches] for the first user of the sample storage, without
    a filter and with the filters [matchType=nearby&maxDistance=70]. *)
Example sample_matches_route :
  match getMatches FirstOrder.host Decimal.runtime SampleStore.noSubject SampleStore.store 1
          (MatchesQuery.mk None None None),
        getMatches FirstOrder.host Decimal.runtime SampleStore.noSubject SampleStore.store 1
          (MatchesQuery.mk (Some "nearby"%string) (Some "70"%string) (Some "all"%string)) with
  | json all, json some =>
      map (fun r => (id (teacher r), matchType r, score r)) all =
        [(2%Z, perfect, 100); (3%Z, nearby, 94)] /\
      map (fun r => (id (teacher r), matchType r, score r)) some = [(3%Z, nearby, 94)]
  | _, _ => False
  end.
Proof. vm_compute. split; reflexivity. Qed.

(** A [subject] filter on profiles that carry no subject makes the
    handler throw. *)
Example subject_filter_without_subject :
  getMatches FirstOrder.host Decimal.runtime SampleStore.noSubject SampleStore.store 1
    (MatchesQuery.mk None None (Some "maths"%string)) = failure 500 "Server error".
Proof. vm_compute. reflexivity. Qed.

Example sample_dashboard :
  getDashboardStats FirstOrder.host SampleStore.store 1 = json (mkDashboardStats 2 1 1 1 1 1).
Proof. vm_compute. reflexivity. Qed.

(** Nothing stops a teacher from sending a request to themselves. *)
Example request_to_oneself :
  match snd (postTransferRequest SampleStore.store 1
               (Some (InsertTransferRequest.mk 0 1 None None)) 5000%Z 5000%Z) with
  | json r =>
      (TransferRequest.id r, TransferRequest.fromTeacherId r, TransferRequest.toTeacherId r,
       TransferRequest.status r) = (3%Z, 1%Z, 1%Z, "pending"%string)
  | failure _ _ => False
  end.
Proof. vm_compute. reflexivity. Qed.

(** The id of [PUT /api/transfer-requests/:id/status] is read by
    [parseInt], so [1abc] names request 1; only the receiver may answer. *)
Example status_of_a_request :
  match snd (putRequestStatus Decimal.runtime SampleStore.store 2 "1abc" (Some "rejected"%string) 6000%Z),
        snd (putRequestStatus Decimal.runtime SampleStore.store 3 "1" (Some "accepted"%string) 6000%Z),
        snd (putRequestStatus Decimal.runtime SampleStore.store 2 "1" (Some "pending"%string) 6000%Z) with
  | json (Some r), failure 403 _, failure 400 _ =>
      (TransferRequest.id r, TransferRequest.status r) = (1%Z, "rejected"%string)
  | _, _, _ => False
  end.
Proof. vm_compute. reflexivity. Qed.

(** The engine on the roster with two nearby matches. *)
Example sample_scores :
  map (fun r => (id (teacher r), matchType r, Math_floor (distance r), score r))
      SampleScores.results =
  [(2%Z, perfect, 90, 100); (5%Z, nearby, 45, 96); (3%Z, nearby, 62, 94)].
Proof. vm_compute. reflexivity. Qed.

(* ================================================================= *)
(** ** The district lookup *)

Section NormalisationFacts.

Lemma lowerChar_idem (c : ascii) : lowerChar (lowerChar c) = lowerChar c.
Proof. destruct c as [[] [] [] [] [] [] [] []]; reflexivity. Qed.

Lemma space1_lowerChar (c : ascii) : space1 (lowerChar c) = space1 c.
Proof. destruct c as [[] [] [] [] [] [] [] []]; reflexivity. Qed.

Lemma lowerChar_ascii (c : ascii) :
  (nat_of_ascii (lowerChar c) <? 128)%nat = (nat_of_ascii c <? 128)%nat.
Proof. destruct c as [[] [] [] [] [] [] [] []]; reflexivity. Qed.

Lemma lowerAscii_idem (s : string) : lowerAscii (lowerAscii s) = lowerAscii s.
Proof. induction s as [ | c s IH]; cbn; [|rewrite lowerChar_idem, IH]; reflexivity. Qed.

Lemma lowerAscii_ascii (s : string) : isAscii (lowerAscii s) = isAscii s.
Proof.
  induction s as [ | c s IH]; [reflexivity|].
  cbn [lowerAscii isAscii]. rewrite lowerChar_ascii, IH. reflexivity.
Qed.

(** A white space character of two or three bytes starts with a byte
    that is not ASCII. *)
Lemma whiteSpaceLength_ascii (c : ascii) (s : string) :
  (nat_of_ascii c <? 128)%nat = true ->
  whiteSpaceLength (String c s) = if space1 c then 1%nat else 0%nat.
Proof.
  intros Hc. apply Nat.ltb_lt in Hc.
  assert (H2 : forall c2, space2 c c2 = false).
  { intros c2. unfold space2. destruct (Nat.eqb_spec (nat_of_ascii c) 194); [lia | reflexivity]. }
  assert (H3 : forall c2 c3, space3 c c2 c3 = false).
  { intros c2 c3. unfold space3. cbv zeta.
    destruct (Nat.eqb_spec (nat_of_ascii c) 225); [lia|].
    destruct (Nat.eqb_spec (nat_of_ascii c) 226); [lia|].
    destruct (Nat.eqb_spec (nat_of_ascii c) 227); [lia|].
    destruct (Nat.eqb_spec (nat_of_ascii c) 239); [lia|]. reflexivity. }
  unfold whiteSpaceLength. destruct s as [ | c2 [ | c3 s]]; rewrite ?H2, ?H3;
    destruct (space1 c); reflexivity.
Qed.

(** On a string that starts with an ASCII character the replacement goes
    byte by byte. *)
Lemma replaceFrom_ascii (inRun : bool) (c : ascii) (s : string) :
  (nat_of_ascii c <? 128)%nat = true ->
  replaceFrom 0 inRun (String c s) =
  if space1 c
  then if inRun then replaceFrom 0 true s else String "_" (replaceFrom 0 true s)
  else String c (replaceFrom 0 false s).
Proof.
  intros Hc. cbn [replaceFrom]. rewrite (whiteSpaceLength_ascii c s Hc).
  destruct (space1 c); reflexivity.
Qed.

Lemma replaceFrom_isAscii (inRun : bool) (s : string) :
  isAscii s = true -> isAscii (replaceFrom 0 inRun s) = true.
Proof.
  revert inRun. induction s as [ | c s IH]; intros inRun Hs; [reflexivity|].
  cbn [isAscii] in Hs. apply andb_true_iff in Hs. destruct Hs as [Hc Hs].
  rewrite (replaceFrom_ascii inRun c s Hc).
  destruct (space1 c); [destruct inRun|]; cbn [isAscii]; rewrite ?Hc, IH by exact Hs;
    reflexivity.
Qed.

Lemma replaceFrom_lowerAscii (inRun : bool) (s : string) :
  isAscii s = true ->
  replaceFrom 0 inRun (lowerAscii s) = lowerAscii (replaceFrom 0 inRun s).
Proof.
  revert inRun. induction s as [ | c s IH]; intros inRun Hs; [reflexivity|].
  cbn [isAscii] in Hs. apply andb_true_iff in Hs. destruct Hs as [Hc Hs].
  cbn [lowerAscii].
  rewrite (replaceFrom_ascii inRun c s Hc).
  rewrite (replaceFrom_ascii inRun (lowerChar c) (lowerAscii s))
    by (rewrite lowerChar_ascii; exact Hc).
  rewrite space1_lowerChar.
  destruct (space1 c); [destruct inRun|]; cbn [lowerAscii]; rewrite IH by exact Hs;
    reflexivity.
Qed.

(** No white space character has the byte of the underscore in it. *)
Lemma space2_underscore (c1 : ascii) : space2 c1 "_" = false.
Proof. unfold space2. rewrite andb_false_r. reflexivity. Qed.

Lemma space3_underscore (c1 c2 : ascii) : space3 c1 c2 "_" = false.
Proof.
  unfold space3. cbv zeta. change (nat_of_ascii "_") with 95%nat.
  cbn [Nat.eqb Nat.leb]. rewrite !andb_false_r. reflexivity.
Qed.

Lemma space3_underscore_mid (c1 c3 : ascii) : space3 c1 "_" c3 = false.
Proof.
  unfold space3. cbv zeta. change (nat_of_ascii "_") with 95%nat.
  cbn [Nat.eqb]. rewrite !andb_false_r. reflexivity.
Qed.

(** A byte that starts no white space starts none in the result. *)
Lemma kept_head (c : ascii) (s : string) :
  whiteSpaceLength (String c s) = 0%nat ->
  whiteSpaceLength (String c (replaceFrom 0 false s)) = 0%nat.
Proof.
  intros H. destruct s as [ | c2 s]; [exact H|].
  cbn [replaceFrom].
  destruct (whiteSpaceLength (String c2 s)) as [ | k] eqn:E2.
  - destruct s as [ | c3 s]; [exact H|].
    cbn [replaceFrom].
    destruct (whiteSpaceLength (String c3 s)) as [ | k3]; [exact H|].
    cbn [whiteSpaceLength] in *.
    destruct (space1 c); [discriminate H|]. destruct (space2 c c2); [discriminate H|].
    rewrite space3_underscore. reflexivity.
  - assert (H1 : space1 c = false /\ True).
    { cbn [whiteSpaceLength] in H. destruct s; destruct (space1 c); try discriminate H; auto. }
    destruct H1 as [H1 _].
    cbn [whiteSpaceLength].
    destruct (replaceFrom k true s); rewrite H1, space2_underscore, ?space3_underscore_mid;
      reflexivity.
Qed.

(** The replacement leaves no white space, whatever the bytes of the
    name. *)
Lemma replaceFrom_spaceFree (s : string) (skip : nat) (inRun : bool) :
  spaceFree (replaceFrom skip inRun s) = true.
Proof.
  revert skip inRun. induction s as [ | c s IH]; intros skip inRun; [reflexivity|].
  cbn [replaceFrom]. destruct skip as [ | k]; [|apply IH].
  destruct (whiteSpaceLength (String c s)) as [ | k] eqn:E.
  - cbn [spaceFree]. rewrite (kept_head c s E), IH. reflexivity.
  - destruct inRun; [apply IH|].
    cbn [spaceFree]. rewrite IH, whiteSpaceLength_ascii by reflexivity. reflexivity.
Qed.

(** It changes nothing in a name without white space. *)
Lemma replaceFrom_fixed (s : string) (inRun : bool) :
  spaceFree s = true -> replaceFrom 0 inRun s = s.
Proof.
  revert inRun. induction s as [ | c s IH]; intros inRun Hf; [reflexivity|].
  cbn [spaceFree] in Hf. apply andb_true_iff in Hf. destruct Hf as [Hw Hf].
  apply Nat.eqb_eq in Hw. cbn [replaceFrom]. rewrite Hw, IH by exact Hf. reflexivity.
Qed.

Lemma replaceSpaces_isAscii (s : string) :
  isAscii s = true -> isAscii (replaceSpaces s) = true.
Proof. apply replaceFrom_isAscii. Qed.

Lemma replaceSpaces_lowerAscii (s : string) :
  isAscii s = true -> replaceSpaces (lowerAscii s) = lowerAscii (replaceSpaces s).
Proof. apply replaceFrom_lowerAscii. Qed.

Lemma replaceSpaces_idem (s : string) :
  replaceSpaces (replaceSpaces s) = replaceSpaces s.
Proof. apply replaceFrom_fixed, replaceFrom_spaceFree. Qed.

End NormalisationFacts.

Lemma first_order_lowers_ascii : lowers_ascii FirstOrder.host.
Proof. intros s _. reflexivity. Qed.

(** X1.  On a host that lower-cases ASCII as the language prescribes, and
    for a name of ASCII characters, [getDistrictCoordinates] does not
    distinguish the name from its lower-case form, from its form with
    every run of white space replaced by one underscore, or from its
    normalised form: normalising twice is normalising once.  For every
    name, of ASCII characters or not, the replacement of white space
    leaves no white space of the class [\s] and changes nothing when
    done again. *)
Theorem district_lookup_normalised (h : Host) (s : string)
    (Hh : lowers_ascii h) (Hs : isAscii s = true) :
  getDistrictCoordinates h (toLowerCase h s) = getDistrictCoordinates h s /\
  getDistrictCoordinates h (replaceSpaces s) = getDistrictCoordinates h s /\
  getDistrictCoordinates h (replaceSpaces (toLowerCase h s)) = getDistrictCoordinates h s /\
  (forall name : string,
     spaceFree (replaceSpaces name) = true /\
     replaceSpaces (replaceSpaces name) = replaceSpaces name).
Proof.
  pose proof (replaceSpaces_isAscii s Hs) as Hr.
  assert (Hl : isAscii (lowerAscii s) = true) by (rewrite lowerAscii_ascii; exact Hs).
  pose proof (replaceSpaces_isAscii _ Hl) as Hn.
  assert (E0 : replaceSpaces (toLowerCase h s) = replaceSpaces (lowerAscii s))
    by (rewrite (Hh s Hs); reflexivity).
  assert (E1 : replaceSpaces (toLowerCase h (toLowerCase h s)) = replaceSpaces (lowerAscii s))
    by (rewrite (Hh s Hs), (Hh _ Hl), lowerAscii_idem; reflexivity).
  assert (E2 : replaceSpaces (toLowerCase h (replaceSpaces s)) = replaceSpaces (lowerAscii s)).
  { rewrite (Hh _ Hr), <- (replaceSpaces_lowerAscii s Hs). apply replaceSpaces_idem. }
  assert (E3 : replaceSpaces (toLowerCase h (replaceSpaces (toLowerCase h s))) =
               replaceSpaces (lowerAscii s)).
  { rewrite (Hh s Hs), (Hh _ Hn), <- (replaceSpaces_lowerAscii _ Hl), lowerAscii_idem.
    apply replaceSpaces_idem. }
  unfold getDistrictCoordinates. cbv zeta. rewrite E3, E2, E1, E0.
  repeat split; try reflexivity.
  - apply replaceFrom_spaceFree.
  - apply replaceSpaces_idem.
Qed.

Lemma district_lookup_normalised_witness :
  getDistrictCoordinates FirstOrder.host "EAST  Champaran" = Some (mkLatLng 26.6447 84.9259) /\
  getDistrictCoordinates FirstOrder.host (replaceSpaces "EAST  Champaran") =
    getDistrictCoordinates FirstOrder.host "EAST  Champaran" /\
  replaceSpaces ("East" ++ Sample.noBreakSpace ++ " Champaran") = "East_Champaran"%string /\
  spaceFree (replaceSpaces ("East" ++ Sample.noBreakSpace ++ " Champaran")) = true.
Proof.
  destruct (district_lookup_normalised FirstOrder.host "EAST  Champaran"
              first_order_lowers_ascii eq_refl) as (_ & E & _ & G).
  split; [reflexivity|]. split; [exact E|]. split; [reflexivity|]. apply G.
Defined.

(** The names of the specification: with any such host, [Patna] and
    [patna] find the same pair and [nowhere] finds nothing. *)
Lemma lookup_of_the_specification (h : Host) :
  lowers_ascii h ->
  getDistrictCoordinates h "Patna" = Some (mkLatLng 25.5941 85.1376) /\
  getDistrictCoordinates h "patna" = Some (mkLatLng 25.5941 85.1376) /\
  getDistrictCoordinates h "nowhere" = None.
Proof.
  intros Hh. unfold getDistrictCoordinates.
  rewrite (Hh "Patna"%string eq_refl), (Hh "patna"%string eq_refl),
    (Hh "nowhere"%string eq_refl).
  repeat split.
Qed.

Section TableFacts.

Lemma lookup_In (key : string) (table : list (string * LatLng)) (c : LatLng) :
  lookup key table = Some c -> In (key, c) table.
Proof.
  induction table as [ | [k v] rest IH]; cbn [lookup]; [discriminate|].
  destruct (String.eqb_spec k key) as [-> | _].
  - intros H. injection H as ->. left. reflexivity.
  - intros H. right. apply IH. exact H.
Qed.

(** The keys of the table are distinct: every entry is the one its key
    finds; and its coordinates are finite numbers other than zero. *)
Lemma districtCoordinates_entries :
  Forall (fun kv =>
            lookup (fst kv) districtCoordinates = Some (snd kv) /\
            truthyNum (lat (snd kv)) = true /\ truthyNum (lng (snd kv)) = true /\
            is_finite (lat (snd kv)) = true /\ is_finite (lng (snd kv)) = true)
         districtCoordinates.
Proof. repeat constructor. Qed.

End TableFacts.

Lemma getDistrictCoordinates_entry (h : Host) (s : string) (c : LatLng) :
  In (replaceSpaces (toLowerCase h s), c) districtCoordinates ->
  getDistrictCoordinates h s = Some c.
Proof.
  unfold getDistrictCoordinates. cbv zeta. intros Hin.
  pose proof districtCoordinates_entries as HT. rewrite Forall_forall in HT.
  destruct (HT _ Hin) as (Hl & _). cbn [fst snd] in Hl. rewrite Hl. reflexivity.
Qed.

Lemma includes_inherited (k : string) : includes inheritedKeys k = true <-> In k inheritedKeys.
Proof. apply includes_In. Qed.

Lemma getDistrictCoordinates_Some (h : Host) (s : string) (c : LatLng) :
  getDistrictCoordinates h s = Some c ->
  (In (replaceSpaces (toLowerCase h s), c) districtCoordinates /\
   truthyNum (lat c) = true /\ truthyNum (lng c) = true /\
   is_finite (lat c) = true /\ is_finite (lng c) = true) \/
  (In (replaceSpaces (toLowerCase h s)) inheritedKeys /\ c = mkLatLng nan nan).
Proof.
  unfold getDistrictCoordinates. cbv zeta. set (k := replaceSpaces (toLowerCase h s)).
  pose proof districtCoordinates_entries as HT. rewrite Forall_forall in HT.
  destruct (lookup k districtCoordinates) as [c' | ] eqn:El.
  - intros H. injection H as ->. left.
    apply lookup_In in El. destruct (HT _ El) as (_ & H). cbn [snd] in H. tauto.
  - destruct (includes inheritedKeys k) eqn:Ei; [|discriminate].
    intros H. injection H as <-. right. split; [|reflexivity].
    apply includes_inherited. exact Ei.
Qed.

Lemma getDistrictCoordinates_None (h : Host) (s : string) :
  getDistrictCoordinates h s = None <->
  ~ In (replaceSpaces (toLowerCase h s)) (map fst districtCoordinates) /\
  ~ In (replaceSpaces (toLowerCase h s)) inheritedKeys.
Proof.
  unfold getDistrictCoordinates. cbv zeta. set (k := replaceSpaces (toLowerCase h s)).
  pose proof districtCoordinates_entries as HT. rewrite Forall_forall in HT.
  rewrite <- includes_inherited.
  destruct (lookup k districtCoordinates) as [c' | ] eqn:El.
  - split; [discriminate|]. intros [H _]. exfalso. apply H.
    apply lookup_In in El. apply (in_map fst) in El. exact El.
  - assert (Hn : ~ In k (map fst districtCoordinates)).
    { intros Hin. apply in_map_iff in Hin. destruct Hin as ([k' c'] & E & Hin).
      cbn [fst] in E. subst k'. destruct (HT _ Hin) as (Hl & _). cbn [fst snd] in Hl.
      rewrite El in Hl. discriminate. }
    destruct (includes inheritedKeys k).
    + split; [discriminate|]. intros [_ H]. exfalso. apply H. reflexivity.
    + split; [|reflexivity]. intros _. split; [exact Hn | discriminate].
Qed.

(** X2.  Whatever the host makes of [toLowerCase], a name finds a
    district exactly when its normalised form is one of the 38 keys of
    the table: the keys are distinct, so every entry is found under its
    key, and the coordinates found are finite numbers other than zero.
    The only other results are the objects that the names [constructor]
    and [__proto__] inherit, which have no coordinates; any other name
    finds nothing. *)
Theorem district_lookup_entries (h : Host) (s : string) (c : LatLng) :
  let normalized := replaceSpaces (toLowerCase h s) in
  (In (normalized, c) districtCoordinates -> getDistrictCoordinates h s = Some c) /\
  (getDistrictCoordinates h s = Some c ->
     (In (normalized, c) districtCoordinates /\
      truthyNum (lat c) = true /\ truthyNum (lng c) = true /\
      is_finite (lat c) = true /\ is_finite (lng c) = true) \/
     ((normalized = "constructor"%string \/ normalized = "__proto__"%string) /\
      c = mkLatLng nan nan)) /\
  (getDistrictCoordinates h s = None <->
     ~ In normalized (map fst districtCoordinates) /\
     normalized <> "constructor"%string /\ normalized <> "__proto__"%string) /\
  List.length districtCoordinates = 38%nat /\
  NoDup (map fst districtCoordinates) /\
  ~ In "constructor"%string (map fst districtCoordinates) /\
  ~ In "__proto__"%string (map fst districtCoordinates).
Proof.
  cbv zeta. split; [|split; [|split; [|split; [reflexivity|split; [|split]]]]].
  - apply getDistrictCoordinates_entry.
  - intros H. apply getDistrictCoordinates_Some in H.
    destruct H as [H | [Hk Hc]]; [left; exact H | right].
    split; [|exact Hc]. cbn [inheritedKeys In] in Hk.
    destruct Hk as [<- | [<- | []]]; auto.
  - rewrite getDistrictCoordinates_None. cbn [inheritedKeys In].
    split; intros [H1 H2]; (split; [exact H1|]).
    + split; intros E; apply H2; auto.
    + intros [E | [E | []]]; destruct H2 as [Hc Hp]; [apply Hc | apply Hp]; symmetry; exact E.
  - repeat (constructor; [cbn [In]; intuition discriminate|]). constructor.
  - cbn [map fst districtCoordinates In]. intuition discriminate.
  - cbn [map fst districtCoordinates In]. intuition discriminate.
Qed.

(* ================================================================= *)
(** ** The results of [findMatches] *)

Section ResultFacts.

Variable h : Host.

Lemma filter_incl_map {A} (f : A -> bool) (l : list A) : incl (filter f l) l.
Proof. intros x Hx. apply filter_In in Hx. tauto. Qed.

Lemma NoDup_map_filter {A B} (g : A -> B) (f : A -> bool) (l : list A) :
  NoDup (map g l) -> NoDup (map g (filter f l)).
Proof.
  induction l as [ | x l IH]; cbn [map filter]; [auto|].
  intros H. inversion H as [ | ? ? Hx Hl]; subst.
  destruct (f x); [|auto]. cbn [map]. constructor; [|auto].
  intros Hin. apply Hx. apply in_map_iff in Hin. destruct Hin as (y & E & Hy).
  apply in_map_iff. exists y. split; [exact E|]. apply filter_In in Hy. tauto.
Qed.

Lemma findMatches_teachers (S : TeacherWithUser) (cs : list TeacherWithUser) :
  Permutation (map teacher (findMatches h S cs)) (filter (emits h S) cs).
Proof.
  unfold findMatches. rewrite <- collectMatches_teachers.
  apply Permutation_map, sort_perm.
Qed.

Lemma collectMatches_perm (S : TeacherWithUser) (cs cs' : list TeacherWithUser) :
  Permutation cs cs' -> Permutation (collectMatches h S cs) (collectMatches h S cs').
Proof.
  induction 1 as [ | x l l' _ IH | x y l | l l' l'' _ IH1 _ IH2].
  - reflexivity.
  - rewrite (collectMatches_cons h S x l), (collectMatches_cons h S x l').
    apply Permutation_app_head. exact IH.
  - rewrite (collectMatches_cons h S y (x :: l)), (collectMatches_cons h S x l).
    rewrite (collectMatches_cons h S x (y :: l)), (collectMatches_cons h S y l).
    rewrite !app_assoc. apply Permutation_app_tail, Permutation_app_comm.
  - etransitivity; eassumption.
Qed.

End ResultFacts.

(** X3.  Every result of [findMatches] has a candidate of the subject's
    grade level, and every nearby result has a distance below the
    subject's own distance to home and at most the subject's
    [maxDistance]. *)
Theorem results_share_grade_and_range (h : Host) (S : TeacherWithUser)
    (cs : list TeacherWithUser) :
  Forall (fun r =>
            gradeLevel (teacher r) = gradeLevel S /\
            (matchType r = nearby ->
               (distance r <? calculateDistanceToHome h S) = true /\
               (distance r <=? maxDistance S) = true))
         (findMatches h S cs).
Proof.
  apply Forall_forall. intros r Hr.
  apply findMatches_In, collectMatches_In in Hr. destruct Hr as (t & _ & Hr).
  apply collectMatches_one in Hr.
  destruct Hr as (_ & _ & [[HP ->] | [_ (nm & Hnm & ->)]]); cbn [teacher matchType distance].
  - apply checkPerfectMatch_spec in HP. split; [symmetry; tauto | discriminate].
  - apply checkNearbyMatch_spec in Hnm. destruct Hnm as (Hg & Hlt & Hle & ->).
    cbn [nearbyDistance]. auto.
Qed.

(** X4.  [findMatches] returns one result for each candidate of the list
    that matches and none for the others: the candidates of the results
    are, up to order, the matching entries of the list; there are at most
    as many results as candidates; and candidates with distinct ids give
    results with distinct ids. *)
Theorem one_result_per_candidate (h : Host) (S : TeacherWithUser)
    (cs : list TeacherWithUser) :
  Permutation (map teacher (findMatches h S cs)) (filter (emits h S) cs) /\
  incl (map teacher (findMatches h S cs)) cs /\
  (List.length (findMatches h S cs) <= List.length cs)%nat /\
  (NoDup (map id cs) ->
   NoDup (map (fun r => id (teacher r)) (findMatches h S cs))).
Proof.
  pose proof (findMatches_teachers h S cs) as HP.
  split; [exact HP|]. split; [|split].
  - intros t Ht. eapply Permutation_in in Ht; [|exact HP]. apply filter_In in Ht. tauto.
  - rewrite <- (length_map teacher), (Permutation_length HP). apply filter_length_le.
  - intros Hn. rewrite <- (map_map teacher id).
    eapply Permutation_NoDup; [symmetry; apply Permutation_map; exact HP|].
    apply NoDup_map_filter. exact Hn.
Qed.

(** X5.  The results for a list of candidates in two parts are, up to
    order, the results for the parts; and the results for a rearranged
    list are a rearrangement of the results. *)
Theorem findMatches_candidates_compose (h : Host) (S : TeacherWithUser)
    (cs1 cs2 : list TeacherWithUser) :
  Permutation (findMatches h S (cs1 ++ cs2)) (findMatches h S cs1 ++ findMatches h S cs2) /\
  (forall cs', Permutation cs1 cs' ->
     Permutation (findMatches h S cs1) (findMatches h S cs')).
Proof.
  unfold findMatches. split.
  - rewrite !sort_perm, collectMatches_app. reflexivity.
  - intros cs' Hp. rewrite !sort_perm. apply collectMatches_perm. exact Hp.
Qed.

Lemma sort_app_filter (r : MatchResult) (l1 l2 : list MatchResult) :
  Forall numeric l1 -> Forall numeric l2 ->
  filter (sameKey r) (sort comparefn (l1 ++ l2)) =
  filter (sameKey r) (sort comparefn l1 ++ sort comparefn l2).
Proof.
  intros H1 H2. rewrite sort_stable by (apply Forall_app; auto).
  rewrite !filter_app, !sort_stable by assumption. reflexivity.
Qed.

(** X6.  When the distance of every perfect match that is returned is a
    number, the results for a list of candidates in two parts are the
    sorted results of the parts, sorted together by the comparator of
    [findMatches]. *)
Theorem findMatches_in_batches (h : Host) (S : TeacherWithUser)
    (cs1 cs2 : list TeacherWithUser)
    (Hnum : forall r, In r (findMatches h S (cs1 ++ cs2)) -> matchType r = perfect ->
              is_nan (distance r) = false) :
  findMatches h S (cs1 ++ cs2) =
  sort comparefn (findMatches h S cs1 ++ findMatches h S cs2).
Proof.
  pose proof (results_numeric h S (cs1 ++ cs2) Hnum) as N.
  rewrite collectMatches_app in N. apply Forall_app in N. destruct N as [N1 N2].
  assert (S1 : Forall numeric (findMatches h S cs1)).
  { unfold findMatches. eapply Permutation_Forall; [symmetry; apply sort_perm | exact N1]. }
  assert (S2 : Forall numeric (findMatches h S cs2)).
  { unfold findMatches. eapply Permutation_Forall; [symmetry; apply sort_perm | exact N2]. }
  apply sort_unique.
  - apply Forall_app; auto.
  - unfold findMatches. rewrite !sort_perm, collectMatches_app. reflexivity.
  - unfold findMatches. apply sort_sorted. rewrite collectMatches_app. apply Forall_app; auto.
  - intros r. unfold findMatches. rewrite collectMatches_app. apply sort_app_filter; assumption.
Qed.

Lemma findMatches_in_batches_witness :
  findMatches FirstOrder.host Sample.subject ([Sample.subject; Sample.neighbour] ++ [Sample.inactive; Sample.partner]) =
  sort comparefn (findMatches FirstOrder.host Sample.subject [Sample.subject; Sample.neighbour] ++
                  findMatches FirstOrder.host Sample.subject [Sample.inactive; Sample.partner]).
Proof.
  apply (findMatches_in_batches FirstOrder.host Sample.subject).
  intros r Hr _. vm_compute in Hr.
  repeat (destruct Hr as [<- | Hr]; [reflexivity|]). destruct Hr.
Defined.

Section FilterFacts.

Lemma filter_perm {A} (p : A -> bool) (l l' : list A) :
  Permutation l l' -> Permutation (filter p l) (filter p l').
Proof.
  induction 1 as [ | x l l' _ IH | x y l | l l' l'' _ IH1 _ IH2]; cbn [filter].
  - reflexivity.
  - destruct (p x); [constructor|]; exact IH.
  - destruct (p x), (p y); try reflexivity. apply perm_swap.
  - etransitivity; eassumption.
Qed.

Lemma filter_sorted {A} (R : A -> A -> Prop) (p : A -> bool) (l : list A) :
  StronglySorted R l -> StronglySorted R (filter p l).
Proof.
  induction 1 as [ | x l _ IH Hx]; cbn [filter]; [constructor|].
  destruct (p x); [|exact IH]. constructor; [exact IH|].
  rewrite Forall_forall in *. intros y Hy. apply filter_In in Hy. apply Hx. tauto.
Qed.

Lemma filter_comm {A} (p q : A -> bool) (l : list A) :
  filter p (filter q l) = filter q (filter p l).
Proof.
  induction l as [ | x l IH]; cbn [filter]; [reflexivity|].
  destruct (p x) eqn:Ep, (q x) eqn:Eq; cbn [filter]; rewrite ?Ep, ?Eq, IH; reflexivity.
Qed.

Lemma filter_numeric (p : MatchResult -> bool) (l : list MatchResult) :
  Forall numeric l -> Forall numeric (filter p l).
Proof.
  intros H. apply Forall_forall. intros r Hr. apply filter_In in Hr.
  rewrite Forall_forall in H. apply H. tauto.
Qed.

(** Sorting commutes with dropping results. *)
Lemma sort_filter (p : MatchResult -> bool) (l : list MatchResult) :
  Forall numeric l ->
  sort comparefn (filter p l) = filter p (sort comparefn l).
Proof.
  intros Hn. symmetry. apply sort_unique.
  - apply filter_numeric. exact Hn.
  - apply filter_perm, sort_perm.
  - apply filter_sorted, sort_sorted. exact Hn.
  - intros r. rewrite filter_comm, sort_stable by exact Hn. apply filter_comm.
Qed.

Lemma collectMatches_teacher (h : Host) (S t : TeacherWithUser) (r : MatchResult) :
  In r (collectMatches h S [t]) -> teacher r = t.
Proof.
  intros H. apply collectMatches_one in H.
  destruct H as (_ & _ & [[_ ->] | [_ (nm & _ & ->)]]); reflexivity.
Qed.

Lemma collectMatches_filter (h : Host) (S : TeacherWithUser) (q : TeacherWithUser -> bool)
    (cs : list TeacherWithUser) :
  collectMatches h S (filter q cs) = filter (fun r => q (teacher r)) (collectMatches h S cs).
Proof.
  induction cs as [ | c cs IH]; [reflexivity|].
  rewrite (collectMatches_cons h S c cs), filter_app, <- IH. cbn [filter].
  assert (Hc : forall r, In r (collectMatches h S [c]) -> q (teacher r) = q c).
  { intros r Hr. rewrite (collectMatches_teacher h S c r Hr). reflexivity. }
  destruct (q c) eqn:Eq.
  - rewrite (collectMatches_cons h S c (filter q cs)). f_equal.
    symmetry. apply forallb_filter_id. apply forallb_forall. exact Hc.
  - replace (filter (fun r => q (teacher r)) (collectMatches h S [c])) with (@nil MatchResult);
      [reflexivity|].
    symmetry. destruct (filter (fun r => q (teacher r)) (collectMatches h S [c])) as [ | r l] eqn:E;
      [reflexivity|].
    assert (Hin : In r (filter (fun r => q (teacher r)) (collectMatches h S [c])))
      by (rewrite E; left; reflexivity).
    apply filter_In in Hin. destruct Hin as [Hin Hq]. rewrite (Hc r Hin) in Hq. discriminate.
Qed.

End FilterFacts.

(** X7.  When the distance of every perfect match that is returned is a
    number, removing candidates from the list removes their results and
    nothing else: the remaining results are the same and in the same
    order. *)
Theorem findMatches_restrict (h : Host) (S : TeacherWithUser)
    (cs : list TeacherWithUser) (q : TeacherWithUser -> bool)
    (Hnum : forall r, In r (findMatches h S cs) -> matchType r = perfect ->
              is_nan (distance r) = false) :
  findMatches h S (filter q cs) =
  filter (fun r => q (teacher r)) (findMatches h S cs).
Proof.
  unfold findMatches. rewrite collectMatches_filter. apply sort_filter.
  apply results_numeric. exact Hnum.
Qed.

Lemma findMatches_restrict_witness :
  findMatches FirstOrder.host Sample.subject
    (filter (fun t => negb (id t =? 3)%Z) Sample.roster) =
  filter (fun r => negb (id (teacher r) =? 3)%Z)
    (findMatches FirstOrder.host Sample.subject Sample.roster).
Proof.
  apply (findMatches_restrict FirstOrder.host Sample.subject Sample.roster
           (fun t => negb (id t =? 3)%Z)).
  intros r Hr _. vm_compute in Hr.
  repeat (destruct Hr as [<- | Hr]; [reflexivity|]). destruct Hr.
Defined.

Lemma first_order_sin_odd : sin_odd FirstOrder.host.
Proof. intros x. reflexivity. Qed.

Section MutualFacts.

Variable h : Host.
Hypothesis Hodd : sin_odd h.

Lemma calculateDistance_symmetric (t1 t2 : TeacherWithUser) :
  calculateDistance h t1 t2 = calculateDistance h t2 t1.
Proof.
  unfold calculateDistance.
  destruct (truthy (currentLatitude t1)) as [la1 | ];
  destruct (truthy (currentLongitude t1)) as [lo1 | ];
  destruct (truthy (currentLatitude t2)) as [la2 | ];
  destruct (truthy (currentLongitude t2)) as [lo2 | ];
  try (apply haversine_symmetric; exact Hodd);
  destruct (getDistrictCoordinates h (currentDistrict t1)) as [c1 | ];
  destruct (getDistrictCoordinates h (currentDistrict t2)) as [c2 | ];
  try reflexivity; apply haversine_symmetric; exact Hodd.
Qed.

Lemma checkPerfectMatch_symmetric (t1 t2 : TeacherWithUser) :
  checkPerfectMatch t1 t2 = checkPerfectMatch t2 t1.
Proof.
  unfold checkPerfectMatch. cbv zeta. rewrite (String.eqb_sym (gradeLevel t1)).
  destruct (includes _ _), (includes _ _); reflexivity.
Qed.

Lemma perfect_result_In (S C : TeacherWithUser) (cs : list TeacherWithUser) (d : float) :
  In C cs -> id C <> id S -> isActive C = true ->
  (In (mkMatch C perfect d 100) (findMatches h S cs) <->
   checkPerfectMatch S C = true /\ d = calculateDistance h S C).
Proof.
  intros HC Hid Ha. rewrite findMatches_In, collectMatches_In. split.
  - intros (t & _ & Hr). pose proof (collectMatches_teacher h S t _ Hr) as E.
    cbn [teacher] in E. subst t. apply collectMatches_one in Hr.
    destruct Hr as (_ & _ & [[HP E] | [_ (nm & _ & E)]]); [|discriminate E].
    injection E as ->. auto.
  - intros [HP ->]. exists C. split; [exact HC|]. apply collectMatches_one.
    split; [exact Hid|]. split; [exact Ha|]. left. auto.
Qed.

End MutualFacts.

(** X8.  For a host whose sine is odd, [calculateDistance] is
    symmetric, and perfect matches are mutual: between two active teachers
    of different ids, each in the other's list of candidates, the one is
    returned to the other as a perfect match of distance [d] exactly when
    the other is returned to the one as a perfect match of distance [d]. *)
Theorem perfect_matches_mutual (h : Host) (S C : TeacherWithUser)
    (cs cs' : list TeacherWithUser) (d : float)
    (Hodd : sin_odd h)
    (HC : In C cs) (HS : In S cs') (Hid : id C <> id S)
    (HaC : isActive C = true) (HaS : isActive S = true) :
  calculateDistance h S C = calculateDistance h C S /\
  (In (mkMatch C perfect d 100) (findMatches h S cs) <->
   In (mkMatch S perfect d 100) (findMatches h C cs')).
Proof.
  split; [apply calculateDistance_symmetric; exact Hodd|].
  rewrite (perfect_result_In h S C cs d HC Hid HaC).
  rewrite (perfect_result_In h C S cs' d HS (not_eq_sym Hid) HaS).
  rewrite (checkPerfectMatch_symmetric S C), (calculateDistance_symmetric h Hodd S C).
  reflexivity.
Qed.

Lemma perfect_matches_mutual_witness :
  In (mkMatch Sample.partner perfect
        (calculateDistance FirstOrder.host Sample.subject Sample.partner) 100)
     (findMatches FirstOrder.host Sample.subject Sample.roster) <->
  In (mkMatch Sample.subject perfect
        (calculateDistance FirstOrder.host Sample.subject Sample.partner) 100)
     (findMatches FirstOrder.host Sample.partner Sample.roster).
Proof.
  apply (perfect_matches_mutual FirstOrder.host Sample.subject Sample.partner
           Sample.roster Sample.roster).
  - exact first_order_sin_odd.
  - cbn. auto.
  - cbn. auto.
  - discriminate.
  - reflexivity.
  - reflexivity.
Defined.

(* ================================================================= *)
(** ** Maps in insertion order *)

Section MapFacts.

Context {V : Type}.

Lemma get_set_same (k : Z) (v : V) (m : JsMap.t V) :
  JsMap.get k (JsMap.set k v m) = Some v.
Proof.
  induction m as [ | [k' v'] m IH]; cbn [JsMap.set JsMap.get].
  - rewrite Z.eqb_refl. reflexivity.
  - destruct (Z.eqb_spec k' k) as [-> | Hn]; cbn [JsMap.get].
    + rewrite Z.eqb_refl. reflexivity.
    + destruct (Z.eqb_spec k' k); [contradiction | exact IH].
Qed.

Lemma get_set_other (k k' : Z) (v : V) (m : JsMap.t V) :
  k' <> k -> JsMap.get k' (JsMap.set k v m) = JsMap.get k' m.
Proof.
  intros Hn. induction m as [ | [k0 v0] m IH]; cbn [JsMap.set JsMap.get].
  - destruct (Z.eqb_spec k k'); [congruence | reflexivity].
  - destruct (Z.eqb_spec k0 k) as [-> | Hk]; cbn [JsMap.get].
    + destruct (Z.eqb_spec k k'); [congruence | reflexivity].
    + rewrite IH. reflexivity.
Qed.

Lemma get_In (k : Z) (v : V) (m : JsMap.t V) :
  JsMap.get k m = Some v -> In (k, v) m.
Proof.
  induction m as [ | [k' v'] m IH]; cbn [JsMap.get]; [discriminate|].
  destruct (Z.eqb_spec k' k) as [-> | _].
  - intros H. injection H as ->. left. reflexivity.
  - intros H. right. apply IH. exact H.
Qed.

Lemma get_None (k : Z) (m : JsMap.t V) :
  JsMap.get k m = None <-> ~ In k (JsMap.keys m).
Proof.
  induction m as [ | [k' v'] m IH]; cbn [JsMap.get JsMap.keys map fst In].
  - tauto.
  - destruct (Z.eqb_spec k' k) as [-> | Hn].
    + split; [discriminate | tauto].
    + unfold JsMap.keys in IH. rewrite IH. tauto.
Qed.

Lemma set_absent (k : Z) (v : V) (m : JsMap.t V) :
  JsMap.get k m = None -> JsMap.set k v m = m ++ [(k, v)].
Proof.
  induction m as [ | [k' v'] m IH]; cbn [JsMap.get JsMap.set app]; [reflexivity|].
  destruct (Z.eqb_spec k' k) as [-> | Hn]; [discriminate|].
  intros H. rewrite IH by exact H. reflexivity.
Qed.

Lemma set_keys_present (k : Z) (v v' : V) (m : JsMap.t V) :
  JsMap.get k m = Some v' -> JsMap.keys (JsMap.set k v m) = JsMap.keys m.
Proof.
  unfold JsMap.keys.
  induction m as [ | [k0 v0] m IH]; cbn [JsMap.get JsMap.set map fst]; [discriminate|].
  destruct (Z.eqb_spec k0 k) as [-> | Hn]; cbn [map fst]; [reflexivity|].
  intros H. rewrite IH by exact H. reflexivity.
Qed.

(** With distinct keys, [set] on a present key rewrites that entry and no
    other. *)
Lemma set_present (k : Z) (v : V) (m : JsMap.t V) :
  JsMap.set k v m =
  match JsMap.get k m with
  | Some _ => map (fun kv => if (fst kv =? k)%Z then (fst kv, v) else kv) m
  | None => m ++ [(k, v)]
  end \/ ~ NoDup (JsMap.keys m).
Proof.
  destruct (JsMap.get k m) as [v' | ] eqn:E; [|left; apply set_absent; exact E].
  unfold JsMap.keys.
  induction m as [ | [k0 v0] m IH]; cbn [JsMap.get JsMap.set map fst] in *; [discriminate|].
  destruct (Z.eqb_spec k0 k) as [-> | Hn].
  - destruct (in_dec Z.eq_dec k (map fst m)) as [Hin | Hnin].
    + right. intros H. inversion H; contradiction.
    + left. f_equal. symmetry. rewrite <- (map_id m) at 2. apply map_ext_in.
      intros [k1 v1] H1. cbn [fst]. destruct (Z.eqb_spec k1 k) as [-> | ]; [|reflexivity].
      exfalso. apply Hnin. apply (in_map fst) in H1. exact H1.
  - destruct (IH E) as [-> | Hd]; [left; reflexivity|].
    right. intros H. inversion H; contradiction.
Qed.

Lemma delete_absent (k : Z) (m : JsMap.t V) :
  JsMap.get k m = None -> JsMap.delete k m = m.
Proof.
  induction m as [ | [k' v'] m IH]; cbn [JsMap.get JsMap.delete]; [reflexivity|].
  destruct (Z.eqb_spec k' k); [discriminate|]. intros H. rewrite IH by exact H. reflexivity.
Qed.

Lemma delete_append (k : Z) (v : V) (m : JsMap.t V) :
  JsMap.get k m = None -> JsMap.delete k (m ++ [(k, v)]) = m.
Proof.
  induction m as [ | [k' v'] m IH]; cbn [JsMap.get JsMap.delete app].
  - rewrite Z.eqb_refl. reflexivity.
  - destruct (Z.eqb_spec k' k); [discriminate|]. intros H. rewrite IH by exact H. reflexivity.
Qed.

Lemma delete_filter (k : Z) (m : JsMap.t V) :
  NoDup (JsMap.keys m) ->
  JsMap.delete k m = filter (fun kv => negb (fst kv =? k)%Z) m.
Proof.
  unfold JsMap.keys.
  induction m as [ | [k' v'] m IH]; cbn [JsMap.delete filter map fst]; [reflexivity|].
  intros H. inversion H as [ | ? ? Hk Hm]; subst.
  destruct (Z.eqb_spec k' k) as [-> | Hn]; cbn [negb].
  - symmetry. apply forallb_filter_id. apply forallb_forall. intros [k1 v1] H1. cbn [fst].
    destruct (Z.eqb_spec k1 k) as [-> | ]; [|reflexivity].
    exfalso. apply Hk. apply (in_map fst) in H1. exact H1.
  - rewrite IH by exact Hm. reflexivity.
Qed.

End MapFacts.

(* ================================================================= *)
(** ** The identifiers of a [MemStorage] *)

Section KeyFacts.

Context {V : Type}.
Variable idOf : V -> Z.

Lemma sorted_NoDup (l : list Z) : StronglySorted Z.lt l -> NoDup l.
Proof.
  induction 1 as [ | x l _ IH Hx]; constructor; [|exact IH].
  intros Hin. rewrite Forall_forall in Hx. specialize (Hx x Hin). lia.
Qed.

Lemma wellKeyed_NoDup (c : Z) (m : JsMap.t V) : wellKeyed idOf c m -> NoDup (JsMap.keys m).
Proof. intros (_ & Hs & _). apply sorted_NoDup. exact Hs. Qed.

Lemma wellKeyed_get (c k : Z) (v : V) (m : JsMap.t V) :
  wellKeyed idOf c m -> JsMap.get k m = Some v -> idOf v = k /\ (1 <= k < c)%Z.
Proof.
  intros (_ & _ & Hf) Hg. apply get_In in Hg. rewrite Forall_forall in Hf.
  apply (Hf _ Hg).
Qed.

Lemma NoDup_get (k : Z) (v : V) (m : JsMap.t V) :
  NoDup (JsMap.keys m) -> In (k, v) m -> JsMap.get k m = Some v.
Proof.
  unfold JsMap.keys.
  induction m as [ | [k' v'] m IH]; cbn [JsMap.get map fst]; [intros _ []|].
  intros H Hin. inversion H as [ | ? ? Hk Hm]; subst.
  destruct Hin as [E | Hin].
  - injection E as -> ->. rewrite Z.eqb_refl. reflexivity.
  - destruct (Z.eqb_spec k' k) as [-> | _]; [|apply IH; assumption].
    exfalso. apply Hk. apply (in_map fst) in Hin. exact Hin.
Qed.

Lemma wellKeyed_In (c : Z) (m : JsMap.t V) (v : V) :
  wellKeyed idOf c m -> In v (JsMap.values m) -> JsMap.get (idOf v) m = Some v.
Proof.
  intros Hw Hin. unfold JsMap.values in Hin. apply in_map_iff in Hin.
  destruct Hin as ([k v'] & E & Hin). cbn [snd] in E. subst v'.
  pose proof Hw as (_ & _ & Hf). rewrite Forall_forall in Hf.
  destruct (Hf _ Hin) as [Hid _]. cbn [fst snd] in Hid. rewrite Hid.
  apply NoDup_get; [eapply wellKeyed_NoDup; exact Hw | exact Hin].
Qed.

Lemma wellKeyed_fresh (c : Z) (m : JsMap.t V) :
  wellKeyed idOf c m -> JsMap.get c m = None.
Proof.
  intros (_ & _ & Hf). apply get_None. intros Hin. unfold JsMap.keys in Hin.
  apply in_map_iff in Hin. destruct Hin as (kv & E & Hin).
  rewrite Forall_forall in Hf. specialize (Hf _ Hin). lia.
Qed.

Lemma sorted_snoc (l : list Z) (c : Z) :
  StronglySorted Z.lt l -> Forall (fun k => (k < c)%Z) l -> StronglySorted Z.lt (l ++ [c]).
Proof.
  induction 1 as [ | x l Hs IH Hx]; intros Hc; cbn [app].
  - repeat constructor.
  - inversion Hc; subst. constructor; [apply IH; assumption|].
    apply Forall_app. split; [exact Hx | repeat constructor; assumption].
Qed.

Lemma increment_below (c : Z) : (c < 2 ^ 53)%Z -> increment c = (c + 1)%Z.
Proof. unfold increment. intros H. destruct (Z.ltb_spec c (2 ^ 53)); [reflexivity | lia]. Qed.

Lemma wellKeyed_create (c : Z) (v : V) (m : JsMap.t V) :
  wellKeyed idOf c m -> idOf v = c -> (c < 2 ^ 53)%Z ->
  wellKeyed idOf (increment c) (JsMap.set c v m) /\ JsMap.set c v m = m ++ [(c, v)].
Proof.
  intros Hw Hid Hc. pose proof (wellKeyed_fresh c m Hw) as Hfresh.
  rewrite set_absent by exact Hfresh. split; [|reflexivity].
  destruct Hw as (H1 & Hs & Hf). rewrite increment_below by exact Hc.
  split; [lia|]. split.
  - unfold JsMap.keys. rewrite map_app. cbn [map fst]. apply sorted_snoc; [exact Hs|].
    fold (JsMap.keys m). unfold JsMap.keys. rewrite Forall_map.
    eapply Forall_impl; [|exact Hf]. cbn beta. intros kv H. lia.
  - apply Forall_app. split.
    + eapply Forall_impl; [|exact Hf]. cbn beta. intros kv H. lia.
    + repeat constructor; cbn [fst snd]; lia.
Qed.

Lemma wellKeyed_replace (c k : Z) (v v' : V) (m : JsMap.t V) :
  wellKeyed idOf c m -> JsMap.get k m = Some v' -> idOf v = k ->
  wellKeyed idOf c (JsMap.set k v m) /\
  JsMap.set k v m = map (fun kv => if (fst kv =? k)%Z then (fst kv, v) else kv) m.
Proof.
  intros Hw Hg Hid.
  assert (Hset : JsMap.set k v m = map (fun kv => if (fst kv =? k)%Z then (fst kv, v) else kv) m).
  { destruct (set_present k v m) as [H | H].
    - rewrite Hg in H. exact H.
    - exfalso. apply H. eapply wellKeyed_NoDup. exact Hw. }
  split; [|exact Hset].
  destruct Hw as (H1 & Hs & Hf). split; [exact H1|]. split.
  - rewrite (set_keys_present k v v' m Hg). exact Hs.
  - rewrite Hset. rewrite Forall_map. eapply Forall_impl; [|exact Hf]. cbn beta.
    intros [k0 v0]. cbn [fst snd]. destruct (Z.eqb_spec k0 k) as [-> | ]; cbn [fst snd]; tauto.
Qed.

Lemma sorted_filter (f : Z * V -> bool) (m : JsMap.t V) :
  StronglySorted Z.lt (JsMap.keys m) -> StronglySorted Z.lt (JsMap.keys (filter f m)).
Proof.
  unfold JsMap.keys. induction m as [ | kv m IH]; cbn [filter map]; [auto|].
  intros H. inversion H as [ | ? ? Hs Hx]; subst.
  destruct (f kv); [|auto]. cbn [map]. constructor; [auto|].
  rewrite Forall_forall in *. intros k Hk. apply Hx.
  apply in_map_iff in Hk. destruct Hk as (kv' & E & Hk). apply filter_In in Hk.
  apply in_map_iff. exists kv'. tauto.
Qed.

Lemma wellKeyed_delete (c k : Z) (m : JsMap.t V) :
  wellKeyed idOf c m ->
  wellKeyed idOf c (JsMap.delete k m) /\
  JsMap.delete k m = filter (fun kv => negb (fst kv =? k)%Z) m.
Proof.
  intros Hw. pose proof (delete_filter k m (wellKeyed_NoDup c m Hw)) as Hd.
  split; [|exact Hd]. rewrite Hd. destruct Hw as (H1 & Hs & Hf).
  split; [exact H1|]. split; [apply sorted_filter; exact Hs|].
  apply Forall_forall. intros kv Hkv. apply filter_In in Hkv.
  rewrite Forall_forall in Hf. apply Hf. tauto.
Qed.

Lemma wellKeyed_counter (c c' : Z) (m : JsMap.t V) :
  wellKeyed idOf c m -> (c <= c')%Z -> wellKeyed idOf c' m.
Proof.
  intros (H1 & Hs & Hf) Hc. split; [lia|]. split; [exact Hs|].
  eapply Forall_impl; [|exact Hf]. cbn beta. intros kv H. lia.
Qed.

End KeyFacts.

Lemma applyUpdates_id (t : Teacher.t) (u : TeacherUpdates.t) (d : Date) :
  Teacher.id (applyUpdates t u d) = spread (Teacher.id t) (TeacherUpdates.id u).
Proof. reflexivity. Qed.

Lemma keepsId_update (key : Z) (updates : TeacherUpdates.t) (updatedAt : Date)
    (t : Teacher.t) :
  keepsId (callUpdateTeacher key updates updatedAt) = true -> Teacher.id t = key ->
  Teacher.id (applyUpdates t updates updatedAt) = key.
Proof.
  cbn [keepsId]. rewrite applyUpdates_id.
  destruct (TeacherUpdates.id updates); cbn [spread]; intros H E;
    [apply Z.eqb_eq in H; exact H | exact E].
Qed.

Lemma perform_wellFormed (rt : Runtime) (b : Z) (st : MemStorage) (c : Call) :
  wellFormed st -> countersBelow b st -> (b < 2 ^ 53)%Z -> keepsId c = true ->
  wellFormed (perform rt st c) /\ countersBelow (b + 1) (perform rt st c).
Proof.
  intros (Hu & Ht & Hr & Hm) (Bu & Bt & Br & Bm) Hb Hkeep.
  destruct c as [insertUser hashedPassword createdAt | insertTeacher createdAt updatedAt
              | key updates updatedAt | insertRequest createdAt updatedAt
              | key status updatedAt
              | teacher1Id teacher2Id matchType distance score createdAt | key];
    cbn [perform].
  - destruct (wellKeyed_create User.id (currentUserId st)
                (User.mk (currentUserId st) (InsertUser.email insertUser) hashedPassword createdAt)
                (users st) Hu eq_refl ltac:(lia)) as [Hw _].
    unfold createUser. cbv zeta. cbn [fst User.id].
    split; [split; [|split; [|split]]; assumption|].
    unfold countersBelow. cbn. rewrite increment_below by lia. lia.
  - unfold createTeacher. cbv zeta. cbn [fst Teacher.id].
    match goal with |- context [JsMap.set _ ?v _] => 
      destruct (wellKeyed_create Teacher.id (currentTeacherId st) v (teachers st) Ht eq_refl
                  ltac:(lia)) as [Hw _] end.
    split; [split; [|split; [|split]]; assumption|].
    unfold countersBelow. cbn. rewrite increment_below by lia. lia.
  - unfold updateTeacher.
    destruct (JsMap.get key (teachers st)) as [t | ] eqn:E; cbn [fst].
    + destruct (wellKeyed_get _ _ _ _ _ Ht E) as [Hid _].
      destruct (wellKeyed_replace Teacher.id (currentTeacherId st) key
                  (applyUpdates t updates updatedAt) t (teachers st) Ht E
                  (keepsId_update key updates updatedAt t Hkeep Hid)) as [Hw _].
      split; [split; [|split; [|split]]; assumption|].
      unfold countersBelow. cbn. lia.
    + split; [split; [|split; [|split]]; assumption | unfold countersBelow; lia].
  - unfold createTransferRequest. cbv zeta. cbn [fst TransferRequest.id].
    match goal with |- context [JsMap.set _ ?v _] => 
      destruct (wellKeyed_create TransferRequest.id (currentRequestId st) v
                  (transferRequests st) Hr eq_refl ltac:(lia)) as [Hw _] end.
    split; [split; [|split; [|split]]; assumption|].
    unfold countersBelow. cbn. rewrite increment_below by lia. lia.
  - unfold updateTransferRequestStatus.
    destruct (JsMap.get key (transferRequests st)) as [r | ] eqn:E; cbn [fst].
    + destruct (wellKeyed_get _ _ _ _ _ Hr E) as [Hid _].
      match goal with |- context [JsMap.set _ ?v _] => 
        destruct (wellKeyed_replace TransferRequest.id (currentRequestId st) key v r
                    (transferRequests st) Hr E Hid) as [Hw _] end.
      split; [split; [|split; [|split]]; assumption|].
      unfold countersBelow. cbn. lia.
    + split; [split; [|split; [|split]]; assumption | unfold countersBelow; lia].
  - unfold createMatch. cbv zeta. cbn [fst StoredMatch.id].
    match goal with |- context [JsMap.set _ ?v _] => 
      destruct (wellKeyed_create StoredMatch.id (currentMatchId st) v
                  (matches st) Hm eq_refl ltac:(lia)) as [Hw _] end.
    split; [split; [|split; [|split]]; assumption|].
    unfold countersBelow. cbn. rewrite increment_below by lia. lia.
  - unfold deleteMatch.
    destruct (wellKeyed_delete StoredMatch.id (currentMatchId st) key (matches st) Hm) as [Hw _].
    split; [split; [|split; [|split]]; assumption|].
    unfold countersBelow. cbn. lia.
Qed.

Lemma newMemStorage_wellFormed : wellFormed newMemStorage /\ countersBelow 1 newMemStorage.
Proof.
  split; [|unfold countersBelow; cbn; lia].
  split; [|split; [|split]]; (split; [cbn; lia | split; constructor]).
Qed.

Lemma fold_wellFormed (rt : Runtime) (calls : list Call) (b : Z) (st : MemStorage) :
  wellFormed st -> countersBelow b st -> (b + Z.of_nat (List.length calls) <= 2 ^ 53)%Z ->
  forallb keepsId calls = true ->
  wellFormed (fold_left (perform rt) calls st) /\
  countersBelow (b + Z.of_nat (List.length calls)) (fold_left (perform rt) calls st).
Proof.
  revert b st. induction calls as [ | c calls IH]; intros b st Hw Hb Hn Hk; cbn [fold_left].
  - cbn [List.length Z.of_nat]. rewrite Z.add_0_r. auto.
  - cbn [List.length] in *. rewrite Nat2Z.inj_succ in *.
    cbn [forallb] in Hk. apply andb_true_iff in Hk. destruct Hk as [Hc Hk].
    destruct (perform_wellFormed rt b st c Hw Hb ltac:(lia) Hc) as [Hw' Hb'].
    replace (b + Z.succ (Z.of_nat (List.length calls)))%Z
      with ((b + 1) + Z.of_nat (List.length calls))%Z by lia.
    apply IH; auto. lia.
Qed.

Lemma wellFormed_teacher_ids (st : MemStorage) :
  wellFormed st ->
  StronglySorted Z.lt (map Teacher.id (getAllTeachers st)) /\
  (forall t, In t (getAllTeachers st) -> getTeacherById st (Teacher.id t) = Some t).
Proof.
  intros (_ & Ht & _). split.
  - destruct Ht as (_ & Hs & Hf). unfold getAllTeachers, JsMap.values. rewrite map_map.
    unfold JsMap.keys in Hs.
    replace (map (fun x => Teacher.id (snd x)) (teachers st)) with (map fst (teachers st));
      [exact Hs|].
    apply map_ext_in. intros kv Hkv. rewrite Forall_forall in Hf.
    destruct (Hf _ Hkv) as [E _]. symmetry. exact E.
  - intros t Hin. unfold getTeacherById. eapply wellKeyed_In; eassumption.
Qed.

(** X9.  After any sequence of fewer than 2^53 calls on a new
    [MemStorage], none of them an [updateTeacher] whose updates carry an
    [id] other than its key, every map holds its records in the order of
    their ids, each under its own id and below the counter of the map; in
    particular [getAllTeachers] lists the teachers by ascending id and
    [getTeacherById] finds each of them under its id. *)
Theorem storage_identifiers (rt : Runtime) (calls : list Call)
    (Hcalls : (Z.of_nat (List.length calls) < 2 ^ 53)%Z)
    (Hids : forallb keepsId calls = true) :
  let st := after rt calls in
  wellFormed st /\
  StronglySorted Z.lt (map Teacher.id (getAllTeachers st)) /\
  (forall t, In t (getAllTeachers st) -> getTeacherById st (Teacher.id t) = Some t).
Proof.
  cbv zeta. unfold after.
  destruct newMemStorage_wellFormed as [Hw Hb].
  destruct (fold_wellFormed rt calls 1 newMemStorage Hw Hb ltac:(lia) Hids) as [Hw' _].
  split; [exact Hw'|]. apply wellFormed_teacher_ids. exact Hw'.
Qed.

Lemma storage_identifiers_witness :
  wellFormed (after Decimal.runtime (SampleStore.calls ++ [callUpdateTeacher 2 deactivation 7000%Z])) /\
  map Teacher.id
    (getAllTeachers
       (after Decimal.runtime (SampleStore.calls ++ [callUpdateTeacher 2 deactivation 7000%Z]))) =
  [1; 2; 3]%Z.
Proof.
  split; [|reflexivity].
  apply (storage_identifiers Decimal.runtime
           (SampleStore.calls ++ [callUpdateTeacher 2 deactivation 7000%Z]));
    reflexivity.
Defined.

(** An [updateTeacher] whose updates carry another [id] breaks it: the
    body [{ id: 99 }] for the second teacher leaves, under the key 2, a
    teacher whose id is 99, which [getTeacherById] does not find under
    99. *)
Lemma update_can_renumber :
  map Teacher.id (getAllTeachers SampleStore.renumbered) = [1; 99; 3]%Z /\
  JsMap.keys (teachers SampleStore.renumbered) = [1; 2; 3]%Z /\
  getTeacherById SampleStore.renumbered 99 = None /\
  option_map Teacher.id (getTeacherById SampleStore.renumbered 2) = Some 99%Z /\
  ~ wellFormed SampleStore.renumbered.
Proof.
  repeat split.
  intros (_ & (_ & _ & Hf) & _). rewrite Forall_forall in Hf.
  assert (H : exists kv, In kv (teachers SampleStore.renumbered) /\
                         fst kv = 2%Z /\ Teacher.id (snd kv) = 99%Z).
  { eexists. split; [right; left; reflexivity | split; reflexivity]. }
  destruct H as (kv & Hin & Hk & Hid). destruct (Hf kv Hin) as [E _]. lia.
Qed.

(* ================================================================= *)
(** ** The sample storage *)

Lemma sample_store_wellFormed : wellFormed SampleStore.store.
Proof.
  destruct newMemStorage_wellFormed as [Hw Hb].
  apply (fold_wellFormed Decimal.runtime SampleStore.calls 1 newMemStorage Hw Hb);
    [cbn; lia | reflexivity].
Qed.

Lemma sample_tied_wellFormed : wellFormed SampleStore.tied.
Proof.
  destruct newMemStorage_wellFormed as [Hw Hb].
  apply (fold_wellFormed Decimal.runtime SampleStore.tiedCalls 1 newMemStorage Hw Hb);
    [cbn; lia | reflexivity].
Qed.

Lemma sample_store_numeric (r : MatchResult) :
  In r (findMatches FirstOrder.host Sample.subject (getTeachersWithUsers SampleStore.store)) ->
  matchType r = perfect -> is_nan (distance r) = false.
Proof.
  intros Hr _. vm_compute in Hr.
  repeat (destruct Hr as [<- | Hr]; [reflexivity|]). destruct Hr.
Qed.

Lemma sample_tied_numeric (r : MatchResult) :
  In r (findMatches FirstOrder.host Sample.subject (getTeachersWithUsers SampleStore.tied)) ->
  matchType r = perfect -> is_nan (distance r) = false.
Proof.
  intros Hr _. vm_compute in Hr.
  repeat (destruct Hr as [<- | Hr]; [reflexivity|]). destruct Hr.
Qed.

Ltac evaluate_reply H :=
  cbv zeta in H;
  match type of H with
  | context [match ?r with json _ => _ | failure _ _ => _ end] =>
      let v := eval vm_compute in r in change r with v in H
  end;
  cbv iota beta in H.

(* ================================================================= *)
(** ** Users and teachers *)

Section StorageFacts.

Lemma find_snoc {A} (f : A -> bool) (l : list A) (x : A) :
  find f (l ++ [x]) =
  match find f l with
  | Some y => Some y
  | None => if f x then Some x else None
  end.
Proof.
  induction l as [ | y l IH]; cbn [app find]; [reflexivity|].
  destruct (f y); [reflexivity | exact IH].
Qed.

Lemma orNumber_truthy (x : option float) (d : float) :
  truthyNum d = true -> truthyNum (orNumber x d) = true.
Proof.
  intros Hd. unfold orNumber. destruct x as [v | ]; [|exact Hd].
  destruct (truthyNum v) eqn:E; [exact E | exact Hd].
Qed.

Lemma truthy_not_empty (x : option string) : truthy x <> Some ""%string.
Proof.
  unfold truthy. destruct x as [s | ]; [|discriminate].
  destruct (String.eqb_spec s ""); [discriminate|]. congruence.
Qed.

Lemma values_app {V} (m1 m2 : JsMap.t V) :
  JsMap.values (m1 ++ m2) = JsMap.values m1 ++ JsMap.values m2.
Proof. apply map_app. Qed.

End StorageFacts.

(** X10.  [createUser] stores the new user under the next id, which no
    user had; the other users are found as before; and [getUserByEmail]
    still answers with the first user of an email, so a second user with
    an email already stored is never found by it. *)
Theorem createUser_stores (st : MemStorage) (insertUser : InsertUser.t)
    (hashedPassword : string) (createdAt : Date)
    (Hwf : wellFormed st) (Hroom : (currentUserId st < 2 ^ 53)%Z) :
  let st' := fst (createUser st insertUser hashedPassword createdAt) in
  let created := snd (createUser st insertUser hashedPassword createdAt) in
  User.id created = currentUserId st /\
  getUserById st (User.id created) = None /\
  getUserById st' (User.id created) = Some created /\
  (forall k, k <> User.id created -> getUserById st' k = getUserById st k) /\
  (forall e, getUserByEmail st' e =
             match getUserByEmail st e with
             | Some u => Some u
             | None => if (InsertUser.email insertUser =? e)%string then Some created else None
             end) /\
  wellFormed st'.
Proof.
  cbv zeta. pose proof Hwf as (Hu & Ht & Hr & Hm).
  unfold createUser. cbv zeta. cbn [fst snd User.id].
  match goal with |- context [JsMap.set _ ?v _] => set (created := v) end.
  destruct (wellKeyed_create User.id (currentUserId st) created (users st) Hu eq_refl
              Hroom) as [Hw Hset].
  unfold getUserById, getUserByEmail. cbn [users].
  split; [reflexivity|]. split; [eapply wellKeyed_fresh; exact Hu|].
  split; [apply get_set_same|]. split; [intros k Hk; apply get_set_other; exact Hk|].
  split; [intros e; rewrite Hset, values_app;
          change (JsMap.values [(currentUserId st, created)]) with [created];
          rewrite find_snoc; reflexivity|].
  split; [|split; [|split]]; assumption.
Qed.

Lemma createUser_stores_witness :
  getUserByEmail
    (fst (createUser SampleStore.store (InsertUser.mk "asha@example.org" "other")
            "$2a$10$other" 1003%Z))
    "asha@example.org" =
  getUserByEmail SampleStore.store "asha@example.org".
Proof.
  pose proof (createUser_stores SampleStore.store (InsertUser.mk "asha@example.org" "other")
                "$2a$10$other" 1003%Z sample_store_wellFormed eq_refl) as H.
  cbv zeta in H. destruct H as (_ & _ & _ & _ & H & _). rewrite H. reflexivity.
Defined.

(** X11.  [createTeacher] stores the new teacher under the next id, which
    no teacher had, and after all other teachers; the others are found as
    before, [getTeacherByUserId] keeps answering with the first teacher of
    a user, and the stored [maxDistance] is a number other than zero (100
    when none is given). *)
Theorem createTeacher_stores (st : MemStorage) (insertTeacher : InsertTeacher.t)
    (createdAt updatedAt : Date)
    (Hwf : wellFormed st) (Hroom : (currentTeacherId st < 2 ^ 53)%Z) :
  let st' := fst (createTeacher st insertTeacher createdAt updatedAt) in
  let teacher := snd (createTeacher st insertTeacher createdAt updatedAt) in
  Teacher.id teacher = currentTeacherId st /\
  getTeacherById st (Teacher.id teacher) = None /\
  getTeacherById st' (Teacher.id teacher) = Some teacher /\
  (forall k, k <> Teacher.id teacher -> getTeacherById st' k = getTeacherById st k) /\
  getAllTeachers st' = getAllTeachers st ++ [teacher] /\
  (forall u, getTeacherByUserId st' u =
             match getTeacherByUserId st u with
             | Some t => Some t
             | None => if (InsertTeacher.userId insertTeacher =? u)%Z then Some teacher else None
             end) /\
  truthyNum (Teacher.maxDistance teacher) = true /\
  (InsertTeacher.maxDistance insertTeacher = None -> Teacher.maxDistance teacher = 100) /\
  (InsertTeacher.isActive insertTeacher <> Some false -> Teacher.isActive teacher = true) /\
  currentTeacherId st' = (currentTeacherId st + 1)%Z /\
  wellFormed st'.
Proof.
  cbv zeta. pose proof Hwf as (Hu & Ht & Hr & Hm).
  unfold createTeacher. cbv zeta. cbn [fst snd Teacher.id].
  match goal with |- context [JsMap.set _ ?v _] => set (teacher := v) end.
  destruct (wellKeyed_create Teacher.id (currentTeacherId st) teacher (teachers st) Ht eq_refl
              Hroom) as [Hw Hset].
  unfold getTeacherById, getAllTeachers, getTeacherByUserId. cbn [teachers currentTeacherId].
  split; [reflexivity|]. split; [eapply wellKeyed_fresh; exact Ht|].
  split; [apply get_set_same|]. split; [intros k Hk; apply get_set_other; exact Hk|].
  rewrite Hset, values_app. cbn [JsMap.values map snd].
  split; [reflexivity|]. split; [intros u; rewrite find_snoc; reflexivity|].
  split; [unfold teacher; cbn [Teacher.maxDistance]; apply orNumber_truthy; reflexivity|].
  split; [intros E; unfold teacher; cbn [Teacher.maxDistance]; rewrite E; reflexivity|].
  split.
  { unfold teacher. cbn [Teacher.isActive].
    destruct (InsertTeacher.isActive insertTeacher) as [[|]|]; cbn; congruence. }
  split; [apply increment_below; exact Hroom|].
  rewrite <- Hset. split; [|split; [|split]]; assumption.
Qed.

Lemma createTeacher_stores_witness :
  getAllTeachers
    (fst (createTeacher SampleStore.store
            (SampleStore.insertTeacher 4 "Deepa" "primary" "saran" "siwan" ["siwan"%string])
            5000%Z 5000%Z)) =
  getAllTeachers SampleStore.store ++
  [snd (createTeacher SampleStore.store
          (SampleStore.insertTeacher 4 "Deepa" "primary" "saran" "siwan" ["siwan"%string])
          5000%Z 5000%Z)].
Proof.
  apply (createTeacher_stores SampleStore.store
           (SampleStore.insertTeacher 4 "Deepa" "primary" "saran" "siwan" ["siwan"%string])
           5000%Z 5000%Z).
  - exact sample_store_wellFormed.
  - reflexivity.
Defined.

(** X12.  [updateTeacher] on an id that is not stored returns [undefined]
    and leaves the storage as it is.  On a stored id it puts under that
    key the stored teacher with the keys of the update spread over it and
    the new update date: the id, the user and the creation date stay
    unless the update carries them.  The keys of the map and their order
    stay, and no other teacher, user, request or match changes.  When the
    teacher keeps its id, the storage stays well formed and
    [getAllTeachers] lists the same ids. *)
Theorem updateTeacher_in_place (st : MemStorage) (id : Z) (updates : TeacherUpdates.t)
    (updatedAt : Date) (Hwf : wellFormed st) :
  let st' := fst (updateTeacher st id updates updatedAt) in
  match snd (updateTeacher st id updates updatedAt) with
  | None => getTeacherById st id = None /\ st' = st
  | Some updated =>
      (exists teacher, getTeacherById st id = Some teacher /\
         updated = applyUpdates teacher updates updatedAt /\
         Teacher.id updated = spread id (TeacherUpdates.id updates) /\
         Teacher.userId updated =
           spread (Teacher.userId teacher) (TeacherUpdates.userId updates) /\
         Teacher.createdAt updated =
           spread (Teacher.createdAt teacher) (TeacherUpdates.createdAt updates) /\
         Teacher.isActive updated =
           spread (Teacher.isActive teacher) (TeacherUpdates.isActive updates)) /\
      Teacher.updatedAt updated = updatedAt /\
      getTeacherById st' id = Some updated /\
      (forall k, k <> id -> getTeacherById st' k = getTeacherById st k) /\
      JsMap.keys (teachers st') = JsMap.keys (teachers st) /\
      users st' = users st /\ transferRequests st' = transferRequests st /\
      matches st' = matches st /\
      (Teacher.id updated = id ->
       wellFormed st' /\
       map Teacher.id (getAllTeachers st') = map Teacher.id (getAllTeachers st))
  end.
Proof.
  cbv zeta. pose proof Hwf as (Hu & Ht & Hr & Hm).
  unfold updateTeacher, getTeacherById.
  destruct (JsMap.get id (teachers st)) as [teacher | ] eqn:E; cbn [fst snd]; [|auto].
  destruct (wellKeyed_get _ _ _ _ _ Ht E) as [Hid _].
  cbn [teachers users transferRequests matches].
  split; [exists teacher; rewrite applyUpdates_id, Hid; repeat split; reflexivity|].
  split; [reflexivity|].
  split; [apply get_set_same|]. split; [intros k Hk; apply get_set_other; exact Hk|].
  split; [apply (set_keys_present id _ teacher); exact E|].
  repeat (split; [reflexivity|]).
  intros Hkeep.
  destruct (wellKeyed_replace Teacher.id (currentTeacherId st) id
              (applyUpdates teacher updates updatedAt) teacher (teachers st) Ht E Hkeep)
    as [Hw Hset].
  split; [split; [|split; [|split]]; assumption|].
  unfold getAllTeachers. cbn [teachers]. rewrite Hset. unfold JsMap.values.
  rewrite !map_map. apply map_ext_in. intros [k t] Hin. cbn [fst snd].
  destruct (Z.eqb_spec k id) as [-> | _]; [|reflexivity]. cbn [snd].
  rewrite Hkeep.
  destruct Ht as (_ & _ & Hf). rewrite Forall_forall in Hf.
  destruct (Hf _ Hin) as [Hk _]. symmetry. exact Hk.
Qed.

Lemma updateTeacher_in_place_witness :
  map Teacher.id (getAllTeachers (fst (updateTeacher SampleStore.store 2 deactivation 7000%Z))) =
  map Teacher.id (getAllTeachers SampleStore.store).
Proof.
  pose proof (updateTeacher_in_place SampleStore.store 2 deactivation 7000%Z
                sample_store_wellFormed) as H.
  cbv zeta in H.
  match type of H with
  | context [match ?r with Some _ => _ | None => _ end] =>
      let v := eval vm_compute in r in change r with v in H
  end.
  cbv iota beta in H. apply H. reflexivity.
Defined.

Section RosterFacts.

Variable h : Host.

Lemma getTeachersWithUsers_views (st : MemStorage) :
  getTeachersWithUsers st = map engineView (getAllTeachers st).
Proof.
  unfold getTeachersWithUsers, getTeachersAndUsers, getAllTeachers.
  rewrite map_map. reflexivity.
Qed.

Lemma collectMatches_inactive (S t : TeacherWithUser) :
  isActive t = false -> collectMatches h S [t] = [].
Proof. intros H. cbn [collectMatches]. rewrite H, orb_true_r. reflexivity. Qed.

Lemma filter_all {A} (p : A -> bool) (l : list A) :
  (forall x, In x l -> p x = true) -> filter p l = l.
Proof. intros H. apply forallb_filter_id, forallb_forall. exact H. Qed.

Lemma filter_none {A} (p : A -> bool) (l : list A) :
  (forall x, In x l -> p x = false) -> filter p l = [].
Proof.
  induction l as [ | x l IH]; intros H; cbn [filter]; [reflexivity|].
  rewrite (H x (or_introl eq_refl)). apply IH. intros y Hy. apply H. right. exact Hy.
Qed.

(** Replacing the candidates of one id by inactive ones drops their
    results and keeps the others. *)
Lemma collectMatches_deactivate (S : TeacherWithUser) (key : Z)
    (l l' : list TeacherWithUser) :
  Forall2 (fun x x' => (id x = key /\ isActive x' = false) \/ (id x <> key /\ x' = x)) l l' ->
  collectMatches h S l' =
  filter (fun r => negb (id (teacher r) =? key)%Z) (collectMatches h S l).
Proof.
  induction 1 as [ | x x' l l' Hx _ IH]; [reflexivity|].
  rewrite (collectMatches_cons h S x' l'), (collectMatches_cons h S x l), filter_app, <- IH.
  f_equal. destruct Hx as [[Hk Hi] | [Hk ->]].
  - rewrite collectMatches_inactive by exact Hi. symmetry. apply filter_none.
    intros r Hr. rewrite (collectMatches_teacher h S x r Hr), Hk, Z.eqb_refl. reflexivity.
  - symmetry. apply filter_all.
    intros r Hr. rewrite (collectMatches_teacher h S x r Hr).
    destruct (Z.eqb_spec (id x) key); [contradiction | reflexivity].
Qed.

End RosterFacts.

(** X13.  Deactivating a teacher with [updateTeacher] removes that
    teacher from the matches of every subject and changes nothing else in
    them: the other results are the same and in the same order (the
    distance of every perfect match that was returned being a number). *)
Theorem deactivation_removes_matches (h : Host) (st : MemStorage) (key : Z)
    (updatedAt : Date) (S : TeacherWithUser)
    (Hwf : wellFormed st)
    (Hnum : forall r, In r (findMatches h S (getTeachersWithUsers st)) ->
              matchType r = perfect -> is_nan (distance r) = false) :
  let st' := fst (updateTeacher st key deactivation updatedAt) in
  findMatches h S (getTeachersWithUsers st') =
  filter (fun r => negb (id (teacher r) =? key)%Z)
         (findMatches h S (getTeachersWithUsers st)).
Proof.
  cbv zeta. unfold findMatches.
  rewrite <- sort_filter by (apply results_numeric; exact Hnum).
  f_equal. apply collectMatches_deactivate.
  rewrite !getTeachersWithUsers_views. unfold getAllTeachers, JsMap.values.
  pose proof Hwf as (_ & Ht & _).
  unfold updateTeacher.
  destruct (JsMap.get key (teachers st)) as [t | ] eqn:E; cbn [fst teachers].
  - destruct (wellKeyed_get _ _ _ _ _ Ht E) as [Hid _].
    destruct (wellKeyed_replace Teacher.id (currentTeacherId st) key
                (applyUpdates t deactivation updatedAt) t (teachers st) Ht E Hid) as [_ ->].
    destruct Ht as (_ & _ & Hf). clear E.
    induction (teachers st) as [ | [k t0] m IH]; cbn [map]; [constructor|].
    apply Forall_cons_iff in Hf. destruct Hf as [Hk Hm]. cbn [fst snd] in Hk.
    constructor; [|apply IH; exact Hm].
    cbn [fst snd]. destruct Hk as [Hk _].
    destruct (Z.eqb_spec k key) as [-> | Hn]; cbn [snd].
    + left. split; [exact Hk | reflexivity].
    + right. split; [cbn [engineView id]; congruence | reflexivity].
  - assert (Hnone : ~ In key (JsMap.keys (teachers st))) by (apply get_None; exact E).
    destruct Ht as (_ & _ & Hf). clear E. unfold JsMap.keys in Hnone.
    induction (teachers st) as [ | [k t0] m IH]; cbn [map]; [constructor|].
    apply Forall_cons_iff in Hf. destruct Hf as [Hk Hm]. cbn [fst snd] in Hk.
    cbn [map fst In] in Hnone.
    constructor; [|apply IH; tauto].
    right. split; [cbn [snd engineView id]; lia | reflexivity].
Qed.

Lemma deactivation_removes_matches_witness :
  findMatches FirstOrder.host Sample.subject
    (getTeachersWithUsers (fst (updateTeacher SampleStore.store 2 deactivation 7000%Z))) =
  filter (fun r => negb (id (teacher r) =? 2)%Z)
    (findMatches FirstOrder.host Sample.subject (getTeachersWithUsers SampleStore.store)).
Proof.
  apply (deactivation_removes_matches FirstOrder.host SampleStore.store 2 7000%Z Sample.subject).
  - exact sample_store_wellFormed.
  - exact sample_store_numeric.
Defined.

(* ================================================================= *)
(** ** Transfer requests and stored matches *)

Section JoinFacts.

Lemma mapThrowing_Some {A B} (f : A -> option B) (l : list A) (ys : list B) :
  mapThrowing f l = Some ys -> Forall2 (fun x y => f x = Some y) l ys.
Proof.
  revert ys. induction l as [ | x l IH]; intros ys; cbn [mapThrowing].
  - intros H. injection H as <-. constructor.
  - destruct (f x) as [y | ] eqn:E; [|discriminate].
    destruct (mapThrowing f l) as [ys' | ]; [|discriminate].
    intros H. injection H as <-. constructor; [exact E | apply IH; reflexivity].
Qed.

Lemma mapThrowing_None {A B} (f : A -> option B) (l : list A) :
  mapThrowing f l = None -> exists x, In x l /\ f x = None.
Proof.
  induction l as [ | x l IH]; cbn [mapThrowing]; [discriminate|].
  destruct (f x) as [y | ] eqn:E.
  - destruct (mapThrowing f l) as [ys' | ]; [discriminate|].
    intros _. destruct (IH eq_refl) as (x' & Hin & Hx). exists x'. split; [right|]; assumption.
  - intros _. exists x. split; [left; reflexivity | exact E].
Qed.

Lemma mapThrowing_In_None {A B} (f : A -> option B) (l : list A) (x : A) :
  In x l -> f x = None -> mapThrowing f l = None.
Proof.
  intros Hin Hx. destruct (mapThrowing f l) as [ys | ] eqn:E; [|reflexivity].
  apply mapThrowing_Some in E. exfalso.
  induction E as [ | a b l ys Hab _ IH]; [destruct Hin|].
  destruct Hin as [-> | Hin]; [congruence | auto].
Qed.

Lemma joinRequest_Some (st : MemStorage) (r : TransferRequest.t)
    (j : TransferRequestWithTeachers) :
  joinRequest st r = Some j -> joined st r j.
Proof.
  unfold joinRequest, joined, getTeacherById, getUserById.
  destruct (JsMap.get (TransferRequest.fromTeacherId r) (teachers st)) as [ft | ]; [|discriminate].
  destruct (JsMap.get (TransferRequest.toTeacherId r) (teachers st)) as [tt | ]; [|discriminate].
  intros H. injection H as <-. cbn. repeat split; reflexivity.
Qed.

Lemma joinRequest_None (st : MemStorage) (r : TransferRequest.t) :
  joinRequest st r = None <->
  getTeacherById st (TransferRequest.fromTeacherId r) = None \/
  getTeacherById st (TransferRequest.toTeacherId r) = None.
Proof.
  unfold joinRequest, getTeacherById.
  destruct (JsMap.get (TransferRequest.fromTeacherId r) (teachers st)) as [ft | ];
  destruct (JsMap.get (TransferRequest.toTeacherId r) (teachers st)) as [tt | ];
    split; auto; try discriminate; intros [H | H]; discriminate.
Qed.

Lemma joined_requests (st : MemStorage) (rs : list TransferRequest.t)
    (js : list TransferRequestWithTeachers) :
  mapThrowing (joinRequest st) rs = Some js ->
  map request js = rs /\ Forall2 (joined st) rs js.
Proof.
  intros H. apply mapThrowing_Some in H.
  induction H as [ | r j rs js Hj _ [IH1 IH2]]; [split; [reflexivity | constructor]|].
  apply joinRequest_Some in Hj. split.
  - cbn [map]. destruct Hj as [-> _]. rewrite IH1. reflexivity.
  - constructor; assumption.
Qed.

End JoinFacts.

(** X14.  [getTransferRequestsForTeacher] and
    [getTransferRequestsByTeacher] return the requests received and sent
    by a teacher in the order of their creation, each with the two stored
    teachers and their users; they throw exactly when one of these
    requests names a teacher that is not stored. *)
Theorem transfer_request_listings (st : MemStorage) (teacherId : Z) :
  let received :=
    filter (fun r => (TransferRequest.toTeacherId r =? teacherId)%Z)
           (JsMap.values (transferRequests st)) in
  let sent :=
    filter (fun r => (TransferRequest.fromTeacherId r =? teacherId)%Z)
           (JsMap.values (transferRequests st)) in
  let dangling r :=
    getTeacherById st (TransferRequest.fromTeacherId r) = None \/
    getTeacherById st (TransferRequest.toTeacherId r) = None in
  match getTransferRequestsForTeacher st teacherId with
  | Some js => map request js = received /\ Forall2 (joined st) received js
  | None => exists r, In r received /\ dangling r
  end /\
  match getTransferRequestsByTeacher st teacherId with
  | Some js => map request js = sent /\ Forall2 (joined st) sent js
  | None => exists r, In r sent /\ dangling r
  end.
Proof.
  cbv zeta. unfold getTransferRequestsForTeacher, getTransferRequestsByTeacher. cbv zeta.
  split.
  - destruct (mapThrowing _ _) as [js | ] eqn:E.
    + apply joined_requests. exact E.
    + apply mapThrowing_None in E. destruct E as (r & Hin & Hr).
      exists r. split; [exact Hin | apply joinRequest_None; exact Hr].
  - destruct (mapThrowing _ _) as [js | ] eqn:E.
    + apply joined_requests. exact E.
    + apply mapThrowing_None in E. destruct E as (r & Hin & Hr).
      exists r. split; [exact Hin | apply joinRequest_None; exact Hr].
Qed.

Section DeleteFacts.

Context {V : Type}.

Lemma get_delete_other (k k' : Z) (m : JsMap.t V) :
  k' <> k -> JsMap.get k' (JsMap.delete k m) = JsMap.get k' m.
Proof.
  intros Hn. induction m as [ | [k0 v0] m IH]; cbn [JsMap.delete JsMap.get]; [reflexivity|].
  destruct (Z.eqb_spec k0 k) as [-> | Hk]; cbn [JsMap.get].
  - destruct (Z.eqb_spec k k'); [congruence | reflexivity].
  - rewrite IH. reflexivity.
Qed.

Lemma get_delete_same (k : Z) (m : JsMap.t V) :
  NoDup (JsMap.keys m) -> JsMap.get k (JsMap.delete k m) = None.
Proof.
  intros Hn. rewrite delete_filter by exact Hn. apply get_None.
  unfold JsMap.keys. intros Hin. apply in_map_iff in Hin. destruct Hin as (kv & E & Hin).
  apply filter_In in Hin. destruct Hin as [_ Hin]. rewrite E, Z.eqb_refl in Hin. discriminate.
Qed.

End DeleteFacts.

(** X15.  [updateTransferRequestStatus] on an id that is not stored
    returns [undefined] and leaves the storage as it is.  On a stored id
    it sets the status and the update date of that request and nothing
    else: sender, receiver, message and creation date stay, as do all
    other requests and their order. *)
Theorem updateTransferRequestStatus_in_place (st : MemStorage) (id : Z) (status : string)
    (updatedAt : Date) (Hwf : wellFormed st) :
  let st' := fst (updateTransferRequestStatus st id status updatedAt) in
  let unchanged (r : TransferRequest.t) :=
    (TransferRequest.id r, TransferRequest.fromTeacherId r, TransferRequest.toTeacherId r,
     TransferRequest.message r, TransferRequest.createdAt r) in
  match snd (updateTransferRequestStatus st id status updatedAt) with
  | None => getTransferRequestById st id = None /\ st' = st
  | Some updated =>
      (exists r, getTransferRequestById st id = Some r /\ unchanged updated = unchanged r) /\
      TransferRequest.id updated = id /\
      TransferRequest.status updated = status /\
      TransferRequest.updatedAt updated = updatedAt /\
      getTransferRequestById st' id = Some updated /\
      (forall k, k <> id -> getTransferRequestById st' k = getTransferRequestById st k) /\
      map unchanged (JsMap.values (transferRequests st')) =
        map unchanged (JsMap.values (transferRequests st)) /\
      users st' = users st /\ teachers st' = teachers st /\ matches st' = matches st /\
      wellFormed st'
  end.
Proof.
  cbv zeta. pose proof Hwf as (Hu & Ht & Hr & Hm).
  unfold updateTransferRequestStatus, getTransferRequestById.
  destruct (JsMap.get id (transferRequests st)) as [r | ] eqn:E; cbn [fst snd]; [|auto].
  destruct (wellKeyed_get _ _ _ _ _ Hr E) as [Hid _].
  match goal with |- context [JsMap.set _ ?v _] => set (updated := v) end.
  destruct (wellKeyed_replace TransferRequest.id (currentRequestId st) id updated r
              (transferRequests st) Hr E Hid) as [Hw Hset].
  cbn [teachers users transferRequests matches].
  split; [exists r; split; reflexivity|].
  split; [exact Hid|]. split; [reflexivity|]. split; [reflexivity|].
  split; [apply get_set_same|]. split; [intros k Hk; apply get_set_other; exact Hk|].
  split.
  { rewrite Hset. unfold JsMap.values. rewrite !map_map. apply map_ext_in.
    intros [k r0] Hin. cbn [fst snd].
    destruct (Z.eqb_spec k id) as [-> | _]; [|reflexivity]. cbn [snd].
    assert (r0 = r); [|subst r0; reflexivity].
    apply (NoDup_get id r0) in Hin; [congruence|].
    eapply wellKeyed_NoDup. exact Hr. }
  repeat (split; [reflexivity|]).
  split; [|split; [|split]]; assumption.
Qed.

Lemma updateTransferRequestStatus_in_place_witness :
  getTransferRequestById
    (fst (updateTransferRequestStatus SampleStore.store 1 "accepted" 6000%Z)) 1 =
  snd (updateTransferRequestStatus SampleStore.store 1 "accepted" 6000%Z).
Proof.
  pose proof (updateTransferRequestStatus_in_place SampleStore.store 1 "accepted" 6000%Z
                sample_store_wellFormed) as H.
  cbv zeta in H.
  match type of H with
  | context [match ?r with Some _ => _ | None => _ end] =>
      let v := eval vm_compute in r in change r with v in H
  end.
  cbv iota beta in H. destruct H as (_ & _ & _ & _ & H & _). rewrite H. reflexivity.
Defined.

Lemma memStorage_eta (st : MemStorage) :
  mkMemStorage (users st) (teachers st) (transferRequests st) (matches st)
    (currentUserId st) (currentTeacherId st) (currentRequestId st) (currentMatchId st) = st.
Proof. destruct st; reflexivity. Qed.

(** X16.  [createMatch] stores the new match under the next id, after
    all other matches, and deleting it again restores the map of matches.
    After [deleteMatch] no match is stored under the deleted id, the
    others are found as before, and deleting an id that is not stored
    changes nothing. *)
Theorem createMatch_deleteMatch (rt : Runtime) (st : MemStorage) (teacher1Id teacher2Id : Z)
    (matchType : string) (distance score : option float) (createdAt : Date)
    (Hwf : wellFormed st) (Hroom : (currentMatchId st < 2 ^ 53)%Z) :
  let created :=
    createMatch rt st teacher1Id teacher2Id matchType distance score createdAt in
  StoredMatch.id (snd created) = currentMatchId st /\
  JsMap.get (StoredMatch.id (snd created)) (matches (fst created)) = Some (snd created) /\
  JsMap.values (matches (fst created)) = JsMap.values (matches st) ++ [snd created] /\
  matches (deleteMatch (fst created) (StoredMatch.id (snd created))) = matches st /\
  (forall k, JsMap.get k (matches (deleteMatch st k)) = None) /\
  (forall k k', k' <> k ->
     JsMap.get k' (matches (deleteMatch st k)) = JsMap.get k' (matches st)) /\
  (forall k, JsMap.get k (matches st) = None -> deleteMatch st k = st) /\
  (forall k, wellFormed (deleteMatch st k)).
Proof.
  cbv zeta. pose proof Hwf as (Hu & Ht & Hr & Hm).
  unfold createMatch. cbv zeta. cbn [fst snd StoredMatch.id matches].
  match goal with |- context [JsMap.set _ ?v _] => set (m := v) end.
  destruct (wellKeyed_create StoredMatch.id (currentMatchId st) m (matches st) Hm eq_refl
              Hroom) as [Hw Hset].
  pose proof (wellKeyed_fresh _ _ _ Hm) as Hfresh.
  split; [reflexivity|]. split; [apply get_set_same|].
  split; [rewrite Hset, values_app; reflexivity|].
  split; [unfold deleteMatch; cbn [matches]; rewrite Hset; apply delete_append; exact Hfresh|].
  split; [intros k; unfold deleteMatch; cbn [matches]; apply get_delete_same;
          eapply wellKeyed_NoDup; exact Hm|].
  split; [intros k k' Hk; unfold deleteMatch; cbn [matches]; apply get_delete_other; exact Hk|].
  split; [intros k Hk; unfold deleteMatch; rewrite delete_absent by exact Hk;
          apply memStorage_eta|].
  intros k. unfold deleteMatch.
  destruct (wellKeyed_delete StoredMatch.id (currentMatchId st) k (matches st) Hm) as [Hd _].
  split; [|split; [|split]]; assumption.
Qed.

Lemma createMatch_deleteMatch_witness :
  matches
    (deleteMatch
       (fst (createMatch Decimal.runtime SampleStore.store 1 3 "nearby" (Some 62) (Some 94)
               4001%Z))
       (StoredMatch.id
          (snd (createMatch Decimal.runtime SampleStore.store 1 3 "nearby" (Some 62) (Some 94)
                  4001%Z)))) =
  matches SampleStore.store.
Proof.
  apply (createMatch_deleteMatch Decimal.runtime SampleStore.store 1 3 "nearby"
           (Some 62) (Some 94) 4001%Z).
  - exact sample_store_wellFormed.
  - reflexivity.
Defined.

Section MatchListingFacts.

Lemma joinMatch_Some (st : MemStorage) (m : StoredMatch.t) (j : MatchWithTeachers) :
  joinMatch st m = Some j ->
  storedMatch j = m /\
  getTeacherById st (StoredMatch.teacher1Id m) = Some (theTeacher (teacher1 j)) /\
  getTeacherById st (StoredMatch.teacher2Id m) = Some (theTeacher (teacher2 j)) /\
  user (teacher1 j) = getUserById st (Teacher.userId (theTeacher (teacher1 j))) /\
  user (teacher2 j) = getUserById st (Teacher.userId (theTeacher (teacher2 j))).
Proof.
  unfold joinMatch, getTeacherById, getUserById.
  destruct (JsMap.get (StoredMatch.teacher1Id m) (teachers st)) as [t1 | ]; [|discriminate].
  destruct (JsMap.get (StoredMatch.teacher2Id m) (teachers st)) as [t2 | ]; [|discriminate].
  intros H. injection H as <-. cbn. repeat split; reflexivity.
Qed.

Lemma joinMatch_None (st : MemStorage) (m : StoredMatch.t) :
  joinMatch st m = None <->
  getTeacherById st (StoredMatch.teacher1Id m) = None \/
  getTeacherById st (StoredMatch.teacher2Id m) = None.
Proof.
  unfold joinMatch, getTeacherById.
  destruct (JsMap.get (StoredMatch.teacher1Id m) (teachers st)) as [t1 | ];
  destruct (JsMap.get (StoredMatch.teacher2Id m) (teachers st)) as [t2 | ];
    split; auto; try discriminate; intros [H | H]; discriminate.
Qed.

End MatchListingFacts.

(** X17.  [getMatchesForTeacher] returns the stored matches that name
    the teacher on either side, in the order of their creation, each with
    the two stored teachers and their users; it throws exactly when one
    of these matches names a teacher that is not stored. *)
Theorem stored_match_listing (st : MemStorage) (teacherId : Z) :
  let selected :=
    filter (fun m => (StoredMatch.teacher1Id m =? teacherId)%Z ||
                     (StoredMatch.teacher2Id m =? teacherId)%Z)
           (JsMap.values (matches st)) in
  match getMatchesForTeacher st teacherId with
  | Some js =>
      map storedMatch js = selected /\
      Forall (fun j =>
                getTeacherById st (StoredMatch.teacher1Id (storedMatch j)) =
                  Some (theTeacher (teacher1 j)) /\
                getTeacherById st (StoredMatch.teacher2Id (storedMatch j)) =
                  Some (theTeacher (teacher2 j)) /\
                user (teacher1 j) = getUserById st (Teacher.userId (theTeacher (teacher1 j))) /\
                user (teacher2 j) = getUserById st (Teacher.userId (theTeacher (teacher2 j))))
             js
  | None =>
      exists m, In m selected /\
        (getTeacherById st (StoredMatch.teacher1Id m) = None \/
         getTeacherById st (StoredMatch.teacher2Id m) = None)
  end.
Proof.
  cbv zeta. unfold getMatchesForTeacher. cbv zeta.
  destruct (mapThrowing _ _) as [js | ] eqn:E.
  - apply mapThrowing_Some in E.
    induction E as [ | m j ms js Hj _ [IH1 IH2]]; [split; [reflexivity | constructor]|].
    apply joinMatch_Some in Hj. destruct Hj as (Hm & H). split.
    + cbn [map]. rewrite Hm, IH1. reflexivity.
    + constructor; [rewrite Hm; exact H | exact IH2].
  - apply mapThrowing_None in E. destruct E as (m & Hin & Hm).
    exists m. split; [exact Hin | apply joinMatch_None; exact Hm].
Qed.

(* ================================================================= *)
(** ** The routes *)

Section RouteFacts.

Lemma find_none_userId (l : list Teacher.t) (u : Z) :
  find (fun t => (Teacher.userId t =? u)%Z) l = None -> ~ In u (map Teacher.userId l).
Proof.
  intros H Hin. apply in_map_iff in Hin. destruct Hin as (t & E & Hin).
  apply (find_none _ _ H) in Hin. cbn beta in Hin. rewrite E, Z.eqb_refl in Hin. discriminate.
Qed.

Lemma NoDup_snoc {A} (l : list A) (x : A) : NoDup l -> ~ In x l -> NoDup (l ++ [x]).
Proof.
  intros Hl Hx. apply NoDup_app; [exact Hl | repeat constructor; intros [] | ].
  intros y Hy [<- | []]. contradiction.
Qed.

Lemma createTeacher_appends (st : MemStorage) (insertTeacher : InsertTeacher.t)
    (createdAt updatedAt : Date) :
  wellFormed st -> (currentTeacherId st < 2 ^ 53)%Z ->
  let st' := fst (createTeacher st insertTeacher createdAt updatedAt) in
  let teacher := snd (createTeacher st insertTeacher createdAt updatedAt) in
  getAllTeachers st' = getAllTeachers st ++ [teacher] /\
  Teacher.userId teacher = InsertTeacher.userId insertTeacher /\
  wellFormed st'.
Proof.
  intros Hwf Hroom. cbv zeta. pose proof Hwf as (Hu & Ht & Hr & Hm).
  unfold createTeacher. cbv zeta. cbn [fst snd Teacher.id].
  match goal with |- context [JsMap.set _ ?v _] => set (teacher := v) end.
  destruct (wellKeyed_create Teacher.id (currentTeacherId st) teacher (teachers st) Ht eq_refl
              Hroom) as [Hw Hset].
  unfold getAllTeachers. cbn [teachers].
  split; [rewrite Hset, values_app; reflexivity|]. split; [reflexivity|].
  split; [|split; [|split]]; assumption.
Qed.

Lemma filterThrowing_Some {A} (f : A -> option bool) (l l' : list A) :
  filterThrowing f l = Some l' ->
  l' = filter (fun x => match f x with Some b => b | None => false end) l /\
  Forall (fun x => f x <> None) l.
Proof.
  revert l'. induction l as [ | x l IH]; intros l'; cbn [filterThrowing filter].
  - intros H. injection H as <-. split; [reflexivity | constructor].
  - destruct (f x) as [b | ] eqn:E; [|discriminate].
    destruct (filterThrowing f l) as [kept | ]; [|discriminate].
    intros H. injection H as <-. destruct (IH kept eq_refl) as [-> HF].
    split; [destruct b; reflexivity|]. constructor; [congruence | exact HF].
Qed.

Lemma filterThrowing_None {A} (f : A -> option bool) (l : list A) :
  filterThrowing f l = None -> exists x, In x l /\ f x = None.
Proof.
  induction l as [ | x l IH]; cbn [filterThrowing]; [discriminate|].
  destruct (f x) as [b | ] eqn:E.
  - destruct (filterThrowing f l) as [kept | ]; [discriminate|].
    intros _. destruct (IH eq_refl) as (x' & Hin & Hx). exists x'. split; [right|]; assumption.
  - intros _. exists x. split; [left; reflexivity | exact E].
Qed.

Lemma filter_filter {A} (p q : A -> bool) (l : list A) :
  filter q (filter p l) = filter (fun x => p x && q x) l.
Proof.
  induction l as [ | x l IH]; cbn [filter]; [reflexivity|].
  destruct (p x); cbn [filter andb]; [destruct (q x)|]; rewrite IH; reflexivity.
Qed.

Lemma filter_true {A} (l : list A) : filter (fun _ => true) l = l.
Proof. induction l as [ | x l IH]; cbn [filter]; [|rewrite IH]; reflexivity. Qed.

End RouteFacts.

(** X18.  [POST /api/teachers] creates a profile only for a user that has
    none: a success appends the profile of the caller, which
    [GET /api/teachers/me] then returns, and keeps the property that no
    two profiles belong to one user; a failure has status 400 and leaves
    the storage as it is. *)
Theorem postTeacher_one_profile (h : Host) (rt : Runtime) (st : MemStorage) (userId : Z)
    (body : option TeacherData.t) (createdAt updatedAt : Date)
    (Hwf : wellFormed st) (Hroom : (currentTeacherId st < 2 ^ 53)%Z) :
  let st' := fst (postTeacher h rt st userId body createdAt updatedAt) in
  match snd (postTeacher h rt st userId body createdAt updatedAt) with
  | json teacher =>
      getTeacherByUserId st userId = None /\
      Teacher.userId teacher = userId /\
      getAllTeachers st' = getAllTeachers st ++ [teacher] /\
      getTeacherMe st' userId = json teacher /\
      (oneProfilePerUser st -> oneProfilePerUser st') /\
      wellFormed st'
  | failure status message =>
      st' = st /\ status = 400%Z /\
      (getTeacherByUserId st userId <> None -> body <> None ->
       message = "Teacher profile already exists"%string)
  end.
Proof.
  cbv zeta. unfold postTeacher.
  destruct body as [teacherData | ]; cbn [fst snd]; [|split; [reflexivity | split; [reflexivity | congruence]]].
  destruct (getTeacherByUserId st userId) as [existing | ] eqn:Ex; cbn [fst snd];
    [split; [reflexivity | split; [reflexivity | reflexivity]]|].
  destruct (addCoordinates h rt _ _ (TeacherData.currentDistrict teacherData)) as [[cla clo] | ];
    cbn [fst snd]; [|split; [reflexivity | split; [reflexivity | congruence]]].
  destruct (addCoordinates h rt _ _ (TeacherData.homeDistrict teacherData)) as [[hla hlo] | ];
    cbn [fst snd]; [|split; [reflexivity | split; [reflexivity | congruence]]].
  match goal with |- context [createTeacher st ?v _ _] => set (it := v) end.
  destruct (createTeacher_appends st it createdAt updatedAt Hwf Hroom) as (Happ & Huid & Hwf').
  destruct (createTeacher st it createdAt updatedAt) as [st' teacher] eqn:Ec.
  cbn [fst snd] in *.
  split; [reflexivity|]. split; [exact Huid|]. split; [exact Happ|].
  assert (Hnone : ~ In userId (map Teacher.userId (getAllTeachers st)))
    by (apply find_none_userId; exact Ex).
  split.
  { unfold getTeacherMe, getTeacherByUserId. fold (getAllTeachers st'). rewrite Happ, find_snoc.
    fold (getAllTeachers st) in Ex. unfold getTeacherByUserId in Ex. fold (getAllTeachers st) in Ex.
    rewrite Ex, Huid. cbn [it InsertTeacher.userId]. rewrite Z.eqb_refl. reflexivity. }
  split; [|exact Hwf'].
  unfold oneProfilePerUser. rewrite Happ, map_app. cbn [map]. intros Hn.
  apply NoDup_snoc; [exact Hn|]. rewrite Huid. exact Hnone.
Qed.

Lemma postTeacher_one_profile_witness :
  getTeacherMe
    (fst (postTeacher FirstOrder.host Decimal.runtime SampleStore.store 4 (Some SampleStore.teacherData)
            5000%Z 5000%Z)) 4 =
  snd (postTeacher FirstOrder.host Decimal.runtime SampleStore.store 4 (Some SampleStore.teacherData)
         5000%Z 5000%Z).
Proof.
  pose proof (postTeacher_one_profile FirstOrder.host Decimal.runtime SampleStore.store 4
                (Some SampleStore.teacherData) 5000%Z 5000%Z
                sample_store_wellFormed eq_refl) as H.
  evaluate_reply H. destruct H as (_ & _ & _ & H & _). rewrite H. reflexivity.
Defined.

Section CoordinateFacts.

Variable h : Host.
Variable rt : Runtime.

Lemma addCoordinates_given (la lo : option string) (district : string) (a b : string) :
  truthy la = Some a -> truthy lo = Some b ->
  addCoordinates h rt la lo district = Some (la, lo).
Proof. unfold addCoordinates. intros -> ->. reflexivity. Qed.

Lemma addCoordinates_table (la lo : option string) (district : string) (c : LatLng) :
  (truthy la = None \/ truthy lo = None) ->
  In (replaceSpaces (toLowerCase h district), c) districtCoordinates ->
  addCoordinates h rt la lo district =
  Some (Some (Number_toString rt (lat c)), Some (Number_toString rt (lng c))).
Proof.
  intros Hmissing Hin. unfold addCoordinates.
  pose proof districtCoordinates_entries as HT. rewrite Forall_forall in HT.
  destruct (HT _ Hin) as (Hl & _ & _ & Hf & _). cbn [fst snd] in Hl, Hf.
  assert (Hg : getDistrictCoordinates h district = Some c).
  { unfold getDistrictCoordinates. cbv zeta. rewrite Hl. reflexivity. }
  rewrite Hg.
  assert (Hn : is_nan (lat c) = false).
  { unfold is_finite in Hf. apply negb_true_iff, orb_false_iff in Hf. tauto. }
  rewrite Hn.
  destruct Hmissing as [-> | H]; [reflexivity|].
  rewrite H. destruct (truthy la); reflexivity.
Qed.

Lemma addCoordinates_unknown (la lo : option string) (district : string) :
  getDistrictCoordinates h district = None ->
  addCoordinates h rt la lo district = Some (la, lo).
Proof.
  intros H. unfold addCoordinates. rewrite H.
  destruct (truthy la), (truthy lo); reflexivity.
Qed.

End CoordinateFacts.

(** X19.  When a current coordinate is missing from the body and the
    current district is in the table, the profile that
    [POST /api/teachers] creates has the printed coordinates of the
    district as its current coordinates, and no school or preferred
    location coordinates.  With such a body the route fails only for a
    caller that has a profile already, or for a home district whose name
    reads an inherited property of the table. *)
Theorem postTeacher_adds_coordinates (h : Host) (rt : Runtime) (st : MemStorage) (userId : Z)
    (teacherData : TeacherData.t) (createdAt updatedAt : Date) (c : LatLng)
    (Hmissing : truthy (TeacherData.currentLatitude teacherData) = None \/
                truthy (TeacherData.currentLongitude teacherData) = None)
    (Hdistrict : In (replaceSpaces (toLowerCase h (TeacherData.currentDistrict teacherData)), c)
                    districtCoordinates) :
  match snd (postTeacher h rt st userId (Some teacherData) createdAt updatedAt) with
  | json teacher =>
      Teacher.currentLatitude teacher = truthy (Some (Number_toString rt (lat c))) /\
      Teacher.currentLongitude teacher = truthy (Some (Number_toString rt (lng c))) /\
      Teacher.currentSchoolLatitude teacher = None /\
      Teacher.currentSchoolLongitude teacher = None /\
      Teacher.preferredLocationLatitude teacher = None /\
      Teacher.preferredLocationLongitude teacher = None
  | failure status message =>
      status = 400%Z /\
      (getTeacherByUserId st userId <> None \/
       exists k, In k inheritedKeys /\
         replaceSpaces (toLowerCase h (TeacherData.homeDistrict teacherData)) = k)
  end.
Proof.
  unfold postTeacher.
  destruct (getTeacherByUserId st userId) as [existing | ]; cbn [snd];
    [split; [reflexivity | left; discriminate]|].
  rewrite (addCoordinates_table h rt _ _ _ c Hmissing Hdistrict).
  destruct (addCoordinates h rt _ _ (TeacherData.homeDistrict teacherData)) as [[hla hlo] | ] eqn:Eh;
    cbn [snd].
  - unfold createTeacher. cbv zeta. cbn. repeat split; reflexivity.
  - split; [reflexivity|]. right.
    unfold addCoordinates in Eh.
    destruct (truthy (TeacherData.homeLatitude teacherData)),
             (truthy (TeacherData.homeLongitude teacherData)); try discriminate Eh;
    destruct (getDistrictCoordinates h (TeacherData.homeDistrict teacherData)) as [hc | ] eqn:Eg;
      try discriminate Eh;
      destruct (is_nan (lat hc)) eqn:En; try discriminate Eh;
      (destruct (getDistrictCoordinates_Some h (TeacherData.homeDistrict teacherData) hc Eg)
         as [(_ & _ & _ & Hf & _) | [Hk _]];
       [unfold is_finite in Hf; apply negb_true_iff, orb_false_iff in Hf; destruct Hf; congruence
       | eexists; split; [exact Hk | reflexivity]]).
Qed.

Lemma postTeacher_adds_coordinates_witness :
  match snd (postTeacher FirstOrder.host Decimal.runtime SampleStore.store 4 (Some SampleStore.teacherData)
               5000%Z 5000%Z) with
  | json teacher =>
      Teacher.currentLatitude teacher =
        Some "25.594100000000000960653778747655451297760009765625"%string
  | failure _ _ => False
  end.
Proof.
  pose proof (postTeacher_adds_coordinates FirstOrder.host Decimal.runtime SampleStore.store 4
                SampleStore.teacherData 5000%Z 5000%Z (mkLatLng 25.5941 85.1376)
                (or_introl eq_refl) (or_introl eq_refl)) as H.
  evaluate_reply H. destruct H as [H _]. vm_compute. vm_compute in H. exact H.
Defined.

(** X20.  [GET /api/matches] answers with the results of [findMatches]
    that satisfy the three conditions of the query, in the order of
    [findMatches].  It answers 404 when the caller has no profile, and 500
    exactly when a subject is asked for and a result that passes the
    other two filters has a profile without [subject]. *)
Theorem getMatches_filters (h : Host) (rt : Runtime)
    (subjectOf : TeacherWithUser -> option string)
    (st : MemStorage) (userId : Z) (query : MatchesQuery.t) :
  match getMatches h rt subjectOf st userId query with
  | json l =>
      exists caller current allTeachers,
        currentTeacherWithUser st userId = Some (caller, current, allTeachers) /\
        l = filter (wanted h rt subjectOf query) (findMatches h current allTeachers) /\
        forall s m,
          truthy (MatchesQuery.subject query) = Some s -> s <> "all"%string ->
          In m (findMatches h current allTeachers) ->
          wanted h rt subjectOf (MatchesQuery.mk (MatchesQuery.matchType query)
                                 (MatchesQuery.maxDistance query) None) m = true ->
          subjectOf (teacher m) <> None
  | failure status message =>
      (status = 404%Z /\ currentTeacherWithUser st userId = None) \/
      (status = 500%Z /\
       exists caller current allTeachers s m,
         currentTeacherWithUser st userId = Some (caller, current, allTeachers) /\
         truthy (MatchesQuery.subject query) = Some s /\ s <> "all"%string /\
         In m (findMatches h current allTeachers) /\
         wanted h rt subjectOf (MatchesQuery.mk (MatchesQuery.matchType query)
                                (MatchesQuery.maxDistance query) None) m = true /\
         subjectOf (teacher m) = None)
  end.
Proof.
  unfold getMatches.
  destruct (currentTeacherWithUser st userId) as [[[caller current] allTeachers] | ];
    [|left; split; reflexivity].
  cbv zeta. set (ms := findMatches h current allTeachers).
  assert (H12 : filterByMaxDistance rt (MatchesQuery.maxDistance query)
                  (filterByMatchType (MatchesQuery.matchType query) ms) =
                filter (wanted h rt subjectOf (MatchesQuery.mk (MatchesQuery.matchType query)
                                (MatchesQuery.maxDistance query) None)) ms).
  { unfold filterByMaxDistance, filterByMatchType, wanted. cbn [MatchesQuery.matchType
      MatchesQuery.maxDistance MatchesQuery.subject truthy].
    destruct (truthy (MatchesQuery.matchType query)) as [t | ];
    destruct (truthy (MatchesQuery.maxDistance query)) as [d | ]; cbv zeta.
    - destruct (String.eqb_spec t "all") as [-> | Hn]; cbn [orb].
      + apply filter_ext. intros m. rewrite andb_true_r. reflexivity.
      + rewrite filter_filter. apply filter_ext. intros m. rewrite andb_true_r. reflexivity.
    - destruct (String.eqb_spec t "all") as [-> | Hn]; cbn [orb].
      + symmetry. apply filter_true.
      + apply filter_ext. intros m. rewrite !andb_true_r. reflexivity.
    - apply filter_ext. intros m. rewrite andb_true_r. reflexivity.
    - symmetry. apply filter_true. }
  rewrite H12. unfold filterBySubject.
  destruct (truthy (MatchesQuery.subject query)) as [s | ] eqn:Es.
  - destruct (String.eqb_spec s "all") as [-> | Hn].
    + exists caller, current, allTeachers. split; [reflexivity|]. split.
      * apply filter_ext. intros m. unfold wanted. cbn [MatchesQuery.matchType
          MatchesQuery.maxDistance MatchesQuery.subject truthy]. rewrite Es. cbn [String.eqb orb].
        reflexivity.
      * intros s' m Hs' Hall. injection Hs' as <-. contradiction.
    + destruct (filterThrowing _ _) as [l | ] eqn:Ef.
      * apply filterThrowing_Some in Ef. destruct Ef as [-> Hall].
        exists caller, current, allTeachers. split; [reflexivity|]. split.
        -- rewrite filter_filter. apply filter_ext. intros m. unfold wanted.
           cbn [MatchesQuery.matchType MatchesQuery.maxDistance MatchesQuery.subject truthy].
           rewrite Es. destruct (String.eqb_spec s "all"); [contradiction|]. cbn [orb].
           rewrite andb_true_r. destruct (subjectOf (teacher m)); reflexivity.
        -- intros s' m _ _ Hin Hw Hnone. rewrite Forall_forall in Hall.
           apply (Hall m); [apply filter_In; split; assumption|].
           rewrite Hnone. reflexivity.
      * apply filterThrowing_None in Ef. destruct Ef as (m & Hin & Hm).
        apply filter_In in Hin. destruct Hin as [Hin Hw].
        right. split; [reflexivity|].
        exists caller, current, allTeachers, s, m. repeat split; auto.
        destruct (subjectOf (teacher m)); [discriminate | reflexivity].
  - exists caller, current, allTeachers. split; [reflexivity|]. split.
    + apply filter_ext. intros m. unfold wanted. cbn [MatchesQuery.matchType
        MatchesQuery.maxDistance MatchesQuery.subject truthy]. rewrite Es. reflexivity.
    + intros s' m Hs'. discriminate Hs'.
Qed.

Section DashboardFacts.

Lemma filter_length_split {A} (p : A -> bool) (l : list A) :
  List.length l = (List.length (filter p l) + List.length (filter (fun x => negb (p x)) l))%nat.
Proof.
  induction l as [ | x l IH]; cbn [filter List.length]; [reflexivity|].
  destruct (p x); cbn [negb List.length]; lia.
Qed.

Lemma currentTeacherWithUser_Some (st : MemStorage) (userId : Z) (caller : Teacher.t)
    (current : TeacherWithUser) (allTeachers : list TeacherWithUser) :
  currentTeacherWithUser st userId = Some (caller, current, allTeachers) ->
  getTeacherByUserId st userId = Some caller /\ allTeachers = getTeachersWithUsers st /\
  In current allTeachers /\ id current = Teacher.id caller.
Proof.
  unfold currentTeacherWithUser.
  destruct (getTeacherByUserId st userId) as [t | ]; [|discriminate]. cbv zeta.
  destruct (find _ _) as [c | ] eqn:E; [|discriminate].
  intros H. injection H as -> -> <-. apply find_some in E. destruct E as [Hin Hid].
  apply Z.eqb_eq in Hid. auto.
Qed.

Lemma currentTeacherWithUser_found (st : MemStorage) (userId : Z) (caller : Teacher.t) :
  getTeacherByUserId st userId = Some caller ->
  exists current,
    currentTeacherWithUser st userId = Some (caller, current, getTeachersWithUsers st).
Proof.
  intros H. unfold currentTeacherWithUser. rewrite H. cbv zeta.
  destruct (find _ _) as [c | ] eqn:E; [exists c; reflexivity|]. exfalso.
  unfold getTeacherByUserId in H. apply find_some in H. destruct H as [Hin _].
  assert (Hv : In (engineView caller) (getTeachersWithUsers st)).
  { rewrite getTeachersWithUsers_views. apply in_map. exact Hin. }
  apply (find_none _ _ E) in Hv. cbn [engineView id] in Hv. rewrite Z.eqb_refl in Hv.
  discriminate.
Qed.

Lemma matchTypeString_perfect (t : MatchType) :
  (matchTypeString t =? "perfect")%string = isPerfect t.
Proof. destruct t; reflexivity. Qed.

Lemma matchTypeString_nearby (t : MatchType) :
  (matchTypeString t =? "nearby")%string = negb (isPerfect t).
Proof. destruct t; reflexivity. Qed.

End DashboardFacts.

(** X21.  The counts of [GET /api/dashboard/stats] agree with each other
    and with the lists of the other routes: the total is the sum of the
    perfect and the nearby matches, and these three are the lengths of
    what [GET /api/matches] lists without filter and for each match type;
    the received and sent counts are the lengths of the two request
    lists, and the pending requests are among the received ones. *)
Theorem dashboard_counts (h : Host) (rt : Runtime)
    (subjectOf : TeacherWithUser -> option string) (st : MemStorage) (userId : Z) :
  let listed q := getMatches h rt subjectOf st userId (MatchesQuery.mk q None None) in
  match getDashboardStats h st userId with
  | json stats =>
      totalMatches stats = (perfectMatches stats + nearbyTeachers stats)%nat /\
      (pendingRequests stats <= receivedRequests stats)%nat /\
      (exists l, listed None = json l /\ List.length l = totalMatches stats) /\
      (exists l, listed (Some "perfect"%string) = json l /\
                 List.length l = perfectMatches stats) /\
      (exists l, listed (Some "nearby"%string) = json l /\
                 List.length l = nearbyTeachers stats) /\
      (exists l, getReceivedRequests st userId = json l /\
                 List.length l = receivedRequests stats) /\
      (exists l, getSentRequests st userId = json l /\
                 List.length l = sentRequests stats)
  | failure status message =>
      (status = 404%Z /\ listed None = failure 404 "Teacher profile not found") \/
      (status = 500%Z /\
       (getReceivedRequests st userId = failure 500 "Server error" \/
        getSentRequests st userId = failure 500 "Server error"))
  end.
Proof.
  cbv zeta. unfold getDashboardStats, getMatches.
  destruct (currentTeacherWithUser st userId) as [[[caller current] allTeachers] | ] eqn:Ec;
    [|left; split; reflexivity].
  apply currentTeacherWithUser_Some in Ec. destruct Ec as (Ht & _ & _ & _).
  cbv zeta. unfold getReceivedRequests, getSentRequests. rewrite Ht.
  destruct (getTransferRequestsForTeacher st (Teacher.id caller)) as [received | ];
    [|right; split; [reflexivity | left; reflexivity]].
  destruct (getTransferRequestsByTeacher st (Teacher.id caller)) as [sent | ];
    [|right; split; [reflexivity | right; reflexivity]].
  cbn [totalMatches perfectMatches nearbyTeachers pendingRequests receivedRequests sentRequests].
  split; [apply filter_length_split|]. split; [apply filter_length_le|].
  unfold filterByMatchType, filterByMaxDistance, filterBySubject.
  cbn [MatchesQuery.matchType MatchesQuery.maxDistance MatchesQuery.subject truthy
       String.eqb Ascii.eqb Bool.eqb].
  split; [eexists; split; reflexivity|].
  split; [eexists; split; [reflexivity|]; f_equal; apply filter_ext; intros m;
          apply matchTypeString_perfect|].
  split; [eexists; split; [reflexivity|]; f_equal; apply filter_ext; intros m;
          apply matchTypeString_nearby|].
  split; eexists; split; reflexivity.
Qed.

Section OrderFacts.

Lemma sorted_map {A} (f : A -> Z) (l : list A) :
  StronglySorted Z.lt (map f l) -> StronglySorted (fun a b => (f a < f b)%Z) l.
Proof.
  induction l as [ | x l IH]; cbn [map]; intros H; [constructor|].
  inversion H as [ | ? ? Hs Hx]; subst. constructor; [apply IH; exact Hs|].
  rewrite Forall_map in Hx. exact Hx.
Qed.

Lemma sorted_filter_Z {A} (f : A -> Z) (p : A -> bool) (l : list A) :
  StronglySorted Z.lt (map f l) -> StronglySorted Z.lt (map f (filter p l)).
Proof.
  induction l as [ | x l IH]; cbn [map filter]; intros H; [constructor|].
  inversion H as [ | ? ? Hs Hx]; subst.
  destruct (p x); [|apply IH; exact Hs]. cbn [map]. constructor; [apply IH; exact Hs|].
  rewrite Forall_forall in *. intros k Hk. apply Hx.
  apply in_map_iff in Hk. destruct Hk as (y & E & Hy). apply filter_In in Hy.
  apply in_map_iff. exists y. tauto.
Qed.

Lemma roster_sorted (st : MemStorage) :
  wellFormed st -> StronglySorted Z.lt (map id (getTeachersWithUsers st)).
Proof.
  intros Hwf. rewrite getTeachersWithUsers_views, map_map.
  apply wellFormed_teacher_ids in Hwf. destruct Hwf as [Hs _]. exact Hs.
Qed.

End OrderFacts.

(** X22.  Over the roster of a storage, results of equal classification
    and equal distance are returned in the order of registration: by
    ascending teacher id (the distance of every perfect match that is
    returned being a number). *)
Theorem ties_in_registration_order (h : Host) (st : MemStorage) (S : TeacherWithUser)
    (r : MatchResult)
    (Hwf : wellFormed st)
    (Hnum : forall m, In m (findMatches h S (getTeachersWithUsers st)) ->
              matchType m = perfect -> is_nan (distance m) = false) :
  StronglySorted (fun a b => (id (teacher a) < id (teacher b))%Z)
    (filter (sameKey r) (findMatches h S (getTeachersWithUsers st))).
Proof.
  unfold findMatches. rewrite sort_stable by (apply results_numeric; exact Hnum).
  apply filter_sorted. apply (sorted_map (fun m => id (teacher m))).
  rewrite <- (map_map teacher id), collectMatches_teachers.
  apply sorted_filter_Z, roster_sorted. exact Hwf.
Qed.

(** In the storage with a fourth teacher the second and the fourth are
    perfect matches of the first at the same distance. *)
Lemma ties_in_registration_order_witness :
  map (fun m => id (teacher m))
    (filter (sameKey (mkMatch Sample.partner perfect
                        (calculateDistance FirstOrder.host Sample.subject Sample.partner) 100))
       (findMatches FirstOrder.host Sample.subject (getTeachersWithUsers SampleStore.tied))) =
    [2; 4]%Z /\
  StronglySorted (fun a b => (id (teacher a) < id (teacher b))%Z)
    (filter (sameKey (mkMatch Sample.partner perfect
                        (calculateDistance FirstOrder.host Sample.subject Sample.partner) 100))
       (findMatches FirstOrder.host Sample.subject (getTeachersWithUsers SampleStore.tied))).
Proof.
  split; [vm_compute; reflexivity|].
  apply (ties_in_registration_order FirstOrder.host SampleStore.tied Sample.subject).
  - exact sample_tied_wellFormed.
  - exact sample_tied_numeric.
Defined.

Section RequestFacts.

Lemma existsb_joined (st : MemStorage) (p : TransferRequest.t -> bool)
    (rs : list TransferRequest.t) (js : list TransferRequestWithTeachers) :
  mapThrowing (joinRequest st) rs = Some js ->
  existsb (fun j => p (request j)) js = existsb p rs.
Proof.
  intros H. apply joined_requests in H. destruct H as [<- _].
  induction js as [ | j js IH]; cbn [map existsb]; [reflexivity|]. rewrite IH. reflexivity.
Qed.

Lemma pendingPairs_In (st : MemStorage) (a b : Z) :
  In (a, b) (pendingPairs st) <->
  exists r, In r (JsMap.values (transferRequests st)) /\
            TransferRequest.fromTeacherId r = a /\ TransferRequest.toTeacherId r = b /\
            TransferRequest.status r = "pending"%string.
Proof.
  unfold pendingPairs. rewrite in_map_iff. split.
  - intros (r & E & Hin). apply filter_In in Hin. destruct Hin as [Hin Hp].
    apply String.eqb_eq in Hp. injection E as <- <-. exists r. auto.
  - intros (r & Hin & <- & <- & Hp). exists r. split; [reflexivity|].
    apply filter_In. split; [exact Hin | apply String.eqb_eq; exact Hp].
Qed.

Lemma createTransferRequest_appends (st : MemStorage) (insertRequest : InsertTransferRequest.t)
    (createdAt updatedAt : Date) :
  wellFormed st -> (currentRequestId st < 2 ^ 53)%Z ->
  let st' := fst (createTransferRequest st insertRequest createdAt updatedAt) in
  let created := snd (createTransferRequest st insertRequest createdAt updatedAt) in
  JsMap.values (transferRequests st') = JsMap.values (transferRequests st) ++ [created] /\
  teachers st' = teachers st /\ users st' = users st /\
  wellFormed st'.
Proof.
  intros Hwf Hroom. cbv zeta. pose proof Hwf as (Hu & Ht & Hr & Hm).
  unfold createTransferRequest. cbv zeta. cbn [fst snd TransferRequest.id].
  match goal with |- context [JsMap.set _ ?v _] => set (created := v) end.
  destruct (wellKeyed_create TransferRequest.id (currentRequestId st) created
              (transferRequests st) Hr eq_refl Hroom) as [Hw Hset].
  cbn [transferRequests teachers users].
  split; [rewrite Hset, values_app; reflexivity|]. split; [reflexivity|]. split; [reflexivity|].
  split; [|split; [|split]]; assumption.
Qed.

Lemma filter_map_snd {V} (p : V -> bool) (m : JsMap.t V) :
  filter p (JsMap.values m) = map snd (filter (fun kv => p (snd kv)) m).
Proof.
  unfold JsMap.values. induction m as [ | kv m IH]; cbn [map filter]; [reflexivity|].
  destruct (p (snd kv)); cbn [map]; rewrite IH; reflexivity.
Qed.

(** Replacing the record under [key] by one that is not pending leaves
    the other pending records. *)
Lemma pending_after_replace (key : Z) (u : TransferRequest.t) (m : JsMap.t TransferRequest.t) :
  (TransferRequest.status u =? "pending")%string = false ->
  filter (fun r => (TransferRequest.status r =? "pending")%string)
         (JsMap.values (map (fun kv => if (fst kv =? key)%Z then (fst kv, u) else kv) m)) =
  map snd (filter (fun kv => negb (fst kv =? key)%Z)
             (filter (fun kv => (TransferRequest.status (snd kv) =? "pending")%string) m)).
Proof.
  intros Hu. unfold JsMap.values.
  induction m as [ | [k r] m IH]; cbn [map filter fst snd]; [reflexivity|].
  destruct (Z.eqb_spec k key) as [-> | Hk]; cbn [snd].
  - rewrite Hu, IH. destruct (TransferRequest.status r =? "pending")%string; [|reflexivity].
    cbn [filter fst]. rewrite Z.eqb_refl. reflexivity.
  - rewrite IH. destruct (TransferRequest.status r =? "pending")%string; [|reflexivity].
    cbn [filter fst]. destruct (Z.eqb_spec k key); [contradiction|]. reflexivity.
Qed.

End RequestFacts.

(** X23.  [POST /api/transfer-requests] accepts a request exactly when
    the caller has a profile, the body parses, the caller's earlier
    requests can be listed, and no pending request of the caller to the
    same receiver is stored; the receiver need be no stored teacher.  The
    request created has the caller as its sender, whatever the body names,
    and no two pending requests with the same sender and receiver
    arise. *)
Theorem postTransferRequest_accepts (st : MemStorage) (userId : Z)
    (body : option InsertTransferRequest.t) (createdAt updatedAt : Date)
    (Hwf : wellFormed st) (Hroom : (currentRequestId st < 2 ^ 53)%Z) :
  let st' := fst (postTransferRequest st userId body createdAt updatedAt) in
  let reply := snd (postTransferRequest st userId body createdAt updatedAt) in
  ((exists created, reply = json created) <->
   (exists caller requestData existing,
      getTeacherByUserId st userId = Some caller /\ body = Some requestData /\
      getTransferRequestsByTeacher st (Teacher.id caller) = Some existing /\
      ~ In (Teacher.id caller, InsertTransferRequest.toTeacherId requestData)
           (pendingPairs st))) /\
  match reply with
  | json created =>
      (exists caller, getTeacherByUserId st userId = Some caller /\
                      TransferRequest.fromTeacherId created = Teacher.id caller) /\
      (exists requestData, body = Some requestData /\
         TransferRequest.toTeacherId created = InsertTransferRequest.toTeacherId requestData /\
         TransferRequest.status created =
           orString (InsertTransferRequest.status requestData) "pending") /\
      JsMap.values (transferRequests st') = JsMap.values (transferRequests st) ++ [created] /\
      (NoDup (pendingPairs st) -> NoDup (pendingPairs st')) /\
      wellFormed st'
  | failure status message => st' = st /\ (status = 404%Z \/ status = 400%Z)
  end.
Proof.
  cbv zeta. unfold postTransferRequest.
  destruct (getTeacherByUserId st userId) as [caller | ] eqn:Ec; cbn [fst snd].
  2:{ split; [|auto]. split; [intros (c & H); discriminate|].
      intros (c & d & e & H & _); discriminate. }
  destruct body as [requestData | ]; cbn [fst snd].
  2:{ split; [|auto]. split; [intros (c & H); discriminate|].
      intros (c & d & e & _ & H & _); discriminate. }
  destruct (getTransferRequestsByTeacher st (Teacher.id caller)) as [existing | ] eqn:Ee;
    cbn [fst snd].
  2:{ split; [|auto]. split; [intros (c & H); discriminate|].
      intros (c & d & e & H1 & _ & H3 & _). injection H1 as <-. congruence. }
  assert (Hdup :
    existsb (fun r =>
       (TransferRequest.toTeacherId (request r) =?
        InsertTransferRequest.toTeacherId requestData)%Z &&
       (TransferRequest.status (request r) =? "pending")%string) existing = true <->
    In (Teacher.id caller, InsertTransferRequest.toTeacherId requestData) (pendingPairs st)).
  { unfold getTransferRequestsByTeacher in Ee. cbv zeta in Ee.
    rewrite (existsb_joined st
               (fun r => (TransferRequest.toTeacherId r =?
                          InsertTransferRequest.toTeacherId requestData)%Z &&
                         (TransferRequest.status r =? "pending")%string) _ _ Ee).
    rewrite existsb_exists, pendingPairs_In. split.
    - intros (r & Hin & Hp). apply filter_In in Hin. destruct Hin as [Hin Hf].
      apply andb_true_iff in Hp. destruct Hp as [Ht Hs].
      apply Z.eqb_eq in Hf, Ht. apply String.eqb_eq in Hs. exists r. auto.
    - intros (r & Hin & Hf & Ht & Hs). exists r. split.
      + apply filter_In. split; [exact Hin | apply Z.eqb_eq; exact Hf].
      + rewrite Ht, Hs, Z.eqb_refl. reflexivity. }
  destruct (existsb _ existing) eqn:Ex; cbn [fst snd].
  { split; [|auto]. split; [intros (c & H); discriminate|].
    intros (c & d & e & H1 & H2 & _ & H4). injection H1 as <-. injection H2 as <-.
    exfalso. apply H4, Hdup. reflexivity. }
  assert (Hnew : ~ In (Teacher.id caller, InsertTransferRequest.toTeacherId requestData)
                      (pendingPairs st)).
  { intros H. apply Hdup in H. discriminate. }
  match goal with |- context [createTransferRequest st ?v _ _] => set (ir := v) end.
  destruct (createTransferRequest_appends st ir createdAt updatedAt Hwf Hroom)
    as (Happ & _ & _ & Hwf').
  assert (Hfields :
    TransferRequest.fromTeacherId (snd (createTransferRequest st ir createdAt updatedAt)) =
      Teacher.id caller /\
    TransferRequest.toTeacherId (snd (createTransferRequest st ir createdAt updatedAt)) =
      InsertTransferRequest.toTeacherId requestData /\
    TransferRequest.status (snd (createTransferRequest st ir createdAt updatedAt)) =
      orString (InsertTransferRequest.status requestData) "pending")
    by (repeat split; reflexivity).
  destruct (createTransferRequest st ir createdAt updatedAt) as [st' created].
  cbn [fst snd] in *. destruct Hfields as (Hf & Ht & Hs).
  split.
  { split; [intros _; exists caller, requestData, existing; auto|].
    intros _. exists created. reflexivity. }
  split; [exists caller; auto|]. split; [exists requestData; auto|].
  split; [exact Happ|]. split; [|exact Hwf'].
  intros Hn. unfold pendingPairs. rewrite Happ, filter_app, map_app.
  cbn [filter]. destruct (TransferRequest.status created =? "pending")%string;
    cbn [map]; [|rewrite app_nil_r; exact Hn].
  apply NoDup_snoc; [exact Hn|]. rewrite Hf, Ht. exact Hnew.
Qed.

Lemma postTransferRequest_accepts_witness :
  exists created,
    snd (postTransferRequest SampleStore.store 2
           (Some (InsertTransferRequest.mk 0 3 None None)) 3002%Z 3002%Z) = json created.
Proof.
  apply (proj1 (postTransferRequest_accepts SampleStore.store 2
                  (Some (InsertTransferRequest.mk 0 3 None None)) 3002%Z 3002%Z
                  sample_store_wellFormed eq_refl)).
  eexists. eexists. eexists. split; [vm_compute; reflexivity|]. split; [reflexivity|].
  split; [vm_compute; reflexivity|].
  vm_compute. intros [H | [H | []]]; discriminate H.
Defined.

(** X24.  Once a request of a teacher to an id that is no stored teacher
    is stored, every further [POST /api/transfer-requests] of that teacher
    fails with 400, and the list of sent requests and the dashboard fail
    with 500. *)
Theorem dangling_request_blocks_sender (h : Host) (st : MemStorage) (userId : Z)
    (caller : Teacher.t) (r : TransferRequest.t)
    (Hcaller : getTeacherByUserId st userId = Some caller)
    (Hin : In r (JsMap.values (transferRequests st)))
    (Hfrom : TransferRequest.fromTeacherId r = Teacher.id caller)
    (Hdangling : getTeacherById st (TransferRequest.toTeacherId r) = None) :
  (forall body createdAt updatedAt,
     postTransferRequest st userId body createdAt updatedAt =
     (st, failure 400 "Invalid request data")) /\
  getSentRequests st userId = failure 500 "Server error" /\
  getDashboardStats h st userId = failure 500 "Server error".
Proof.
  assert (Hsent : getTransferRequestsByTeacher st (Teacher.id caller) = None).
  { unfold getTransferRequestsByTeacher. cbv zeta.
    apply (mapThrowing_In_None _ _ r).
    - apply filter_In. split; [exact Hin | apply Z.eqb_eq; exact Hfrom].
    - apply joinRequest_None. right. exact Hdangling. }
  split; [|split].
  - intros body createdAt updatedAt. unfold postTransferRequest. rewrite Hcaller.
    destruct body; [rewrite Hsent|]; reflexivity.
  - unfold getSentRequests. rewrite Hcaller, Hsent. reflexivity.
  - unfold getDashboardStats.
    destruct (currentTeacherWithUser_found st userId caller Hcaller) as (current & ->).
    cbv zeta. rewrite Hsent.
    destruct (getTransferRequestsForTeacher st (Teacher.id caller)); reflexivity.
Qed.

Lemma dangling_request_blocks_sender_witness :
  getSentRequests SampleStore.dangling 1 = failure 500 "Server error".
Proof.
  eapply (dangling_request_blocks_sender FirstOrder.host SampleStore.dangling 1).
  - vm_compute. reflexivity.
  - vm_compute. right. right. left. reflexivity.
  - reflexivity.
  - reflexivity.
Defined.

(** X25.  [PUT /api/transfer-requests/:id/status] changes a request only
    when the status is [accepted] or [rejected], the request exists and
    the caller is its receiver; it then sets the status of that request
    and changes no other; otherwise it answers 400, 404 or 403 and leaves
    the storage as it is.  It never makes two pending requests with the
    same sender and receiver arise. *)
Theorem putRequestStatus_authorized (rt : Runtime) (st : MemStorage) (userId : Z)
    (id : string) (status : option string) (updatedAt : Date)
    (Hwf : wellFormed st) :
  let st' := fst (putRequestStatus rt st userId id status updatedAt) in
  match snd (putRequestStatus rt st userId id status updatedAt) with
  | json updated =>
      exists key r caller newStatus u,
        status = Some newStatus /\
        (newStatus = "accepted"%string \/ newStatus = "rejected"%string) /\
        integerOf (parseInt rt id) = Some key /\
        getTransferRequestById st key = Some r /\
        getTeacherByUserId st userId = Some caller /\
        TransferRequest.toTeacherId r = Teacher.id caller /\
        updated = Some u /\
        getTransferRequestById st' key = Some u /\
        TransferRequest.status u = newStatus /\
        TransferRequest.fromTeacherId u = TransferRequest.fromTeacherId r /\
        TransferRequest.toTeacherId u = TransferRequest.toTeacherId r /\
        (forall k, k <> key -> getTransferRequestById st' k = getTransferRequestById st k) /\
        (NoDup (pendingPairs st) -> NoDup (pendingPairs st')) /\
        wellFormed st'
  | failure code message =>
      st' = st /\ (code = 400%Z \/ code = 404%Z \/ code = 403%Z)
  end.
Proof.
  cbv zeta. unfold putRequestStatus.
  destruct status as [newStatus | ]; cbn [fst snd]; [|auto].
  destruct (includes ["accepted"%string; "rejected"%string] newStatus) eqn:Ei;
    cbn [negb fst snd]; [|auto].
  destruct (integerOf (parseInt rt id)) as [key | ] eqn:Ek; cbn [fst snd]; [|auto].
  destruct (getTransferRequestById st key) as [r | ] eqn:Er; cbn [fst snd]; [|auto].
  destruct (getTeacherByUserId st userId) as [caller | ] eqn:Ec; cbn [fst snd]; [|auto 6].
  destruct (Z.eqb_spec (TransferRequest.toTeacherId r) (Teacher.id caller)) as [Hto | Hto];
    cbn [negb fst snd]; [|auto 6].
  pose proof Hwf as (Hu & Ht & Hr & Hm).
  unfold updateTransferRequestStatus. unfold getTransferRequestById in Er. rewrite Er.
  cbn [fst snd].
  match goal with |- context [JsMap.set _ ?v _] => set (u := v) end.
  destruct (wellKeyed_get _ _ _ _ _ Hr Er) as [Hid _].
  destruct (wellKeyed_replace TransferRequest.id (currentRequestId st) key u r
              (transferRequests st) Hr Er Hid) as [Hw Hset].
  exists key, r, caller, newStatus, u.
  assert (Hns : newStatus = "accepted"%string \/ newStatus = "rejected"%string).
  { apply includes_In in Ei. cbn [In] in Ei. destruct Ei as [<- | [<- | []]]; auto. }
  unfold getTransferRequestById. cbn [transferRequests].
  repeat (split; [first [reflexivity | assumption]|]).
  split; [apply get_set_same|]. 
  repeat (split; [reflexivity|]).
  split; [intros k Hk; apply get_set_other; exact Hk|].
  split; [|split; [|split; [|split]]; assumption].
  intros Hn. unfold pendingPairs in *. cbn [transferRequests]. rewrite Hset.
  rewrite (filter_map_snd _ (transferRequests st)) in Hn.
  rewrite (pending_after_replace key u (transferRequests st)).
  - rewrite map_map in *. apply NoDup_map_filter. exact Hn.
  - unfold u. cbn [TransferRequest.status]. destruct Hns as [-> | ->]; reflexivity.
Qed.

Lemma putRequestStatus_authorized_witness :
  wellFormed
    (fst (putRequestStatus Decimal.runtime SampleStore.store 2 "1" (Some "accepted"%string)
            6000%Z)).
Proof.
  pose proof (putRequestStatus_authorized Decimal.runtime SampleStore.store 2 "1"
                (Some "accepted"%string) 6000%Z sample_store_wellFormed) as H.
  evaluate_reply H.
  destruct H as (key & r & caller & newStatus & u & H). apply H.
Defined.

(* ================================================================= *)
(** ** Scores of the results *)

(** X26.  With an [atan2] that is non-negative on a non-negative first
    argument, the score of every result of [findMatches] is a whole
    number from 0 to 100. *)
Theorem scores_whole_numbers (h : Host) (S : TeacherWithUser)
    (cs : list TeacherWithUser) (Hh : atan2_nonneg h) :
  Forall (fun r => exists n : Z, (0 <= n <= 100)%Z /\ score r = ofZ n)
         (findMatches h S cs).
Proof.
  apply Forall_forall. intros r Hr.
  destruct (result_score h Hh S cs r Hr) as [[_ Sr] | (_ & Nr & Pr & Sr)]; rewrite Sr.
  - exists 100%Z. split; [lia | reflexivity].
  - destruct (score_value (distance r) Nr Pr) as [Hk E]. cbv zeta in Hk, E.
    eexists. split; [|exact E]. lia.
Qed.

Lemma scores_whole_numbers_witness :
  Forall (fun r => exists n : Z, (0 <= n <= 100)%Z /\ score r = ofZ n)
         (findMatches FirstOrder.host Sample.subject Sample.roster).
Proof.
  apply (scores_whole_numbers FirstOrder.host Sample.subject Sample.roster).
  exact first_order_atan2_nonneg.
Defined.

(** X27.  With such an [atan2], of two nearby results of [findMatches]
    the one that is no farther scores no lower. *)
Theorem closer_scores_no_lower (h : Host) (S : TeacherWithUser)
    (cs : list TeacherWithUser) (r1 r2 : MatchResult)
    (Hh : atan2_nonneg h)
    (H1 : In r1 (findMatches h S cs)) (H2 : In r2 (findMatches h S cs))
    (T1 : matchType r1 = nearby) (T2 : matchType r2 = nearby)
    (Hle : (distance r1 <=? distance r2) = true) :
  (score r2 <=? score r1) = true.
Proof.
  destruct (result_score h Hh S cs r1 H1) as [[T _] | (_ & N1 & P1 & S1)]; [congruence|].
  destruct (result_score h Hh S cs r2 H2) as [[T _] | (_ & N2 & P2 & S2)]; [congruence|].
  rewrite S1, S2. apply score_antitone; assumption.
Qed.

Lemma closer_scores_no_lower_witness :
  (score SampleScores.farther <=? score SampleScores.nearer) = true.
Proof.
  apply (closer_scores_no_lower FirstOrder.host Sample.subject SampleScores.roster
           SampleScores.nearer SampleScores.farther first_order_atan2_nonneg).
  - vm_compute. right. left. reflexivity.
  - vm_compute. right. right. left. reflexivity.
  - reflexivity.
  - reflexivity.
  - vm_compute. reflexivity.
Defined.

(** X28.  With such an [atan2], and when the distance of every perfect
    match that is returned is a number, [findMatches] returns its results
    best score first: no result is followed by one with a higher score. *)
Theorem findMatches_best_first (h : Host) (S : TeacherWithUser)
    (cs : list TeacherWithUser) (Hh : atan2_nonneg h)
    (Hnum : forall r, In r (findMatches h S cs) -> matchType r = perfect ->
              is_nan (distance r) = false) :
  StronglySorted (fun a b => (score b <=? score a) = true) (findMatches h S cs).
Proof.
  pose proof (results_numeric h S cs Hnum) as Hn.
  apply StronglySorted_weaken with (R := ordered).
  - intros a b Ha Hb. apply (ordered_scores h Hh S cs); assumption.
  - unfold findMatches. apply sorted_ordered; [|apply sort_sorted; exact Hn].
    eapply Permutation_Forall; [symmetry; apply sort_perm | exact Hn].
Qed.

Lemma findMatches_best_first_witness :
  map score SampleOrder.results = [100; 100; 100; 96; 96; 94] /\
  StronglySorted (fun a b => (score b <=? score a) = true) SampleOrder.results.
Proof.
  split; [vm_compute; reflexivity|].
  apply (findMatches_best_first FirstOrder.host SampleOrder.subject SampleOrder.roster
           first_order_atan2_nonneg).
  intros r Hr _. vm_compute in Hr.
  repeat (destruct Hr as [<- | Hr]; [reflexivity|]). destruct Hr.
Defined.

(** X29.  With such an [atan2], every full ten kilometres cost a nearby
    match one point and nothing else does: for every whole [j] from 0 to
    100 the score is at most [100 - j] exactly when the distance is at
    least [10 * j] km, so the score is [100 - j] exactly from [10 * j] km
    up to, and not including, [10 * (j + 1)] km, and 0 from 1000 km on. *)
Theorem ten_kilometres_one_point (h : Host) (S : TeacherWithUser)
    (cs : list TeacherWithUser) (r : MatchResult) (j : Z)
    (Hh : atan2_nonneg h) (Hj : (0 <= j <= 100)%Z)
    (Hr : In r (findMatches h S cs)) (Tr : matchType r = nearby) :
  (score r <=? ofZ (100 - j)) = (ofZ (10 * j) <=? distance r) /\
  ((j < 100)%Z ->
   (score r = ofZ (100 - j) <->
    (ofZ (10 * j) <=? distance r) = true /\
    (ofZ (10 * (j + 1)) <=? distance r) = false)).
Proof.
  destruct (result_score h Hh S cs r Hr) as [[T _] | (_ & Nr & Pr & Sr)]; [congruence|].
  destruct (score_value (distance r) Nr Pr) as [Hk E]. cbv zeta in Hk, E.
  rewrite Sr, E. clear Sr E.
  assert (Hp : (0 < 2 ^ 1074)%Z) by (apply pow2_pos; easy).
  assert (Hle : forall i, (0 <= i <= 100)%Z ->
            (ofZ (Z.max 0 (100 - Rk (distance r / 10) / 2 ^ 1074)) <=? ofZ (100 - i)) =
            (ofZ (10 * i) <=? distance r)).
  { intros i Hi. rewrite (tens_of_quotient i (distance r) Hi Nr Pr).
    set (k := (Rk (distance r / 10) / 2 ^ 1074)%Z) in *. clearbody k.
    destruct (ofZ_exact (100 - i) ltac:(lia)) as (HnJ & HrJ & _).
    destruct (ofZ_exact (Z.max 0 (100 - k)) ltac:(lia)) as (HnK & HrK & _).
    rewrite leb_Rk, HrJ, HrK by assumption.
    apply Bool.eq_iff_eq_true. rewrite !Z.leb_le. split; intros H.
    - apply Z.mul_le_mono_pos_r in H; [lia | exact Hp].
    - apply Z.mul_le_mono_nonneg_r; [apply Z.lt_le_incl; exact Hp | lia]. }
  split; [apply Hle; exact Hj|].
  intros Hlt.
  rewrite <- (Hle j Hj), <- (Hle (j + 1)%Z ltac:(lia)).
  set (k := (Rk (distance r / 10) / 2 ^ 1074)%Z) in *. clearbody k. clear Hle.
  destruct (ofZ_exact (100 - j) ltac:(lia)) as (HnJ & HrJ & _).
  destruct (ofZ_exact (100 - (j + 1)) ltac:(lia)) as (HnJ1 & HrJ1 & _).
  destruct (ofZ_exact (Z.max 0 (100 - k)) ltac:(lia)) as (HnK & HrK & _).
  rewrite !leb_Rk, HrJ, HrJ1, HrK by assumption.
  rewrite Z.leb_le, Z.leb_gt. split.
  - intros Heq. rewrite Heq, HrJ in HrK.
    apply Z.mul_cancel_r in HrK; [|apply Z.pow_nonzero; easy].
    rewrite <- HrK. split; [apply Z.le_refl|].
    apply Z.mul_lt_mono_pos_r; [exact Hp | lia].
  - intros [H1 H2].
    apply Z.mul_le_mono_pos_r in H1; [|exact Hp].
    apply Z.mul_lt_mono_pos_r in H2; [|exact Hp].
    f_equal. lia.
Qed.

Lemma ten_kilometres_one_point_witness :
  (score SampleScores.farther <=? ofZ (100 - 6)) =
  (ofZ (10 * 6) <=? distance SampleScores.farther) /\
  ((6 < 100)%Z ->
   (score SampleScores.farther = ofZ (100 - 6) <->
    (ofZ (10 * 6) <=? distance SampleScores.farther) = true /\
    (ofZ (10 * (6 + 1)) <=? distance SampleScores.farther) = false)).
Proof.
  apply (ten_kilometres_one_point FirstOrder.host Sample.subject SampleScores.roster
           SampleScores.farther 6 first_order_atan2_nonneg).
  - lia.
  - vm_compute. right. right. left. reflexivity.
  - reflexivity.
Defined.

Section ReachFacts.

Variable h : Host.

(** A nearby match lies within the subject's maximum distance. *)
Lemma nearby_within_reach (S : TeacherWithUser) (cs : list TeacherWithUser) (r : MatchResult) :
  In r (findMatches h S cs) -> matchType r = nearby ->
  (distance r <=? maxDistance S) = true.
Proof.
  intros Hr Tr. apply findMatches_In, collectMatches_In in Hr. destruct Hr as (t & _ & Hr).
  apply collectMatches_one in Hr.
  destruct Hr as (_ & _ & [[_ ->] | [_ (nm & Hnm & ->)]]); [discriminate Tr|].
  apply checkNearbyMatch_spec in Hnm. destruct Hnm as (_ & _ & Hle & ->). exact Hle.
Qed.

Lemma leb_true_numeric (x y : float) :
  (x <=? y) = true -> is_nan x = false /\ is_nan y = false.
Proof.
  intros H. split.
  - destruct (is_nan x) eqn:E; [rewrite leb_nan_l in H by exact E; discriminate | reflexivity].
  - destruct (is_nan y) eqn:E; [rewrite leb_nan_r in H by exact E; discriminate | reflexivity].
Qed.

End ReachFacts.

(** X30.  With such an [atan2], a subject whose maximum distance is at
    most [10 * j] km, for a whole [j] from 0 to 100, gets no nearby match
    with a score below [100 - j]: with a maximum distance of 100 km every
    nearby match scores at least 90. *)
Theorem nearby_scores_within_reach (h : Host) (S : TeacherWithUser)
    (cs : list TeacherWithUser) (r : MatchResult) (j : Z)
    (Hh : atan2_nonneg h) (Hj : (0 <= j <= 100)%Z)
    (Hr : In r (findMatches h S cs)) (Tr : matchType r = nearby)
    (Hmax : (maxDistance S <=? ofZ (10 * j)) = true) :
  (ofZ (100 - j) <=? score r) = true.
Proof.
  pose proof (nearby_within_reach h S cs r Hr Tr) as Hreach.
  destruct (result_score h Hh S cs r Hr) as [[T _] | (_ & Nr & Pr & Sr)]; [congruence|].
  destruct (score_value (distance r) Nr Pr) as [Hk E]. cbv zeta in Hk, E.
  rewrite Sr, E. clear Sr E.
  destruct (leb_true_numeric _ _ Hmax) as [Nm N10].
  rewrite leb_Rk in Hreach, Hmax by assumption. apply Z.leb_le in Hreach, Hmax.
  pose proof (Z.le_trans _ _ _ Hreach Hmax) as Hle.
  pose proof (div_ten_mono _ _ (proper_of_float _ Nr Pr) (proper_ofZ (10 * j) ltac:(lia)) Hle)
    as Hq.
  rewrite (div_ten_exact j Hj) in Hq.
  assert (Hkj : (Rk (distance r / 10) / 2 ^ 1074 <= j)%Z).
  { rewrite <- (Z.div_mul j (2 ^ 1074)) by (apply Z.pow_nonzero; easy).
    apply Z.div_le_mono; [apply pow2_pos; easy | exact Hq]. }
  set (k := (Rk (distance r / 10) / 2 ^ 1074)%Z) in *. clearbody k. clear Hq Hle Hreach Hmax.
  destruct (ofZ_exact (100 - j) ltac:(lia)) as (HnJ & HrJ & _).
  destruct (ofZ_exact (Z.max 0 (100 - k)) ltac:(lia)) as (HnK & HrK & _).
  rewrite leb_Rk, HrJ, HrK by assumption. apply Z.leb_le.
  apply Z.mul_le_mono_nonneg_r; [apply Z.pow_nonneg; easy | lia].
Qed.

Lemma nearby_scores_within_reach_witness :
  (ofZ (100 - 10) <=? score SampleScores.farther) = true.
Proof.
  apply (nearby_scores_within_reach FirstOrder.host Sample.subject SampleScores.roster
           SampleScores.farther 10 first_order_atan2_nonneg).
  - lia.
  - vm_compute. right. right. left. reflexivity.
  - reflexivity.
  - reflexivity.
Defined.
